(** * ETL pipeline: a shallow embedding of the production orchestrator

    The development follows the Python sources under [backend/etl]:
    - [error_handler.py]      : [RetryHandler], [DeadLetterQueue],
                                [DataQualityValidator]
    - [schema_evolution.py]   : [SchemaRegistry], [SchemaDetector],
                                [DatabaseMigrator], [SchemaEvolutionManager]
    - [transform.py], [load.py], [extractor.py], [monitoring.py]
    - [production_pipeline.py]: [ProductionETLPipeline]

    Python code that raises is embedded in a state-and-exception monad over
    an explicit world; dictionaries are [gmap]s, DataFrame objects live in a
    heap of frames addressed by location, so that in-place updates and
    copies are told apart.  Calls into pandas, the operating system, the
    database and the clock are fields of two records: [Lib] (pure library
    functions) and [Env] (effectful ones, over an opaque external state). *)

From stdpp Require Import gmap strings list fin_maps pretty.
From Stdlib Require Import QArith Ascii.

#[local] Open Scope string_scope.
#[local] Open Scope list_scope.
#[local] Open Scope Z_scope.

(* ================================================================== *)
(** * Part I: the model                                                 *)
(* ================================================================== *)

(** ** Python exceptions and the state-and-exception monad *)

Module Py.

(** An exception object: [type(e).__name__] and [str(e)]. *)
Record exn := Exn { exn_type : string; exn_msg : string }.

#[global] Instance exn_eq_dec : EqDecision exn.
Proof. solve_decision. Defined.

(** The outcome of a call: it returns a value or raises. *)
Inductive res (A : Type) : Type :=
| Ok (a : A)
| Raise (e : exn).
Arguments Ok {A} a.
Arguments Raise {A} e.

Definition is_ok {A} (r : res A) : bool :=
  match r with Ok _ => true | Raise _ => false end.

(** A computation over a world [W]. *)
Definition M (W A : Type) : Type := W -> res A * W.

Section Monad.
Context {W : Type}.

Definition ret {A} (a : A) : M W A := fun w => (Ok a, w).

Definition raise {A} (e : exn) : M W A := fun w => (Raise e, w).

Definition bind {A B} (m : M W A) (f : A -> M W B) : M W B :=
  fun w =>
    match m w with
    | (Ok a, w') => f a w'
    | (Raise e, w') => (Raise e, w')
    end.

(** [try: m except Exception as e: h e] *)
Definition try_except {A} (m : M W A) (h : exn -> M W A) : M W A :=
  fun w =>
    match m w with
    | (Ok a, w') => (Ok a, w')
    | (Raise e, w') => h e w'
    end.

Definition get : M W W := fun w => (Ok w, w).

Definition gets {A} (f : W -> A) : M W A := fun w => (Ok (f w), w).

Definition modify (f : W -> W) : M W unit := fun w => (Ok tt, f w).

(** Runs a computation over a component [S] of the world. *)
Definition zoom {S A} (rd : W -> S) (wr : S -> W -> W) (m : M S A) : M W A :=
  fun w => let '(r, s) := m (rd w) in (r, wr s w).

(** A call that returns a pair (result, external state). *)
Definition of_res {A} (r : res A) : M W A := fun w => (r, w).
End Monad.

Module Notations.
Notation "'let*' x ':=' m 'in' k" := (bind m (fun x => k))
  (at level 10, x name, m at level 100, k at level 200, only parsing).
Notation "'let*' ' p ':=' m 'in' k" :=
  (bind m (fun x => match x with p => k end))
  (at level 10, p pattern, m at level 100, k at level 200, only parsing).
Notation "'do*' m 'in' k" := (bind m (fun _ => k))
  (at level 10, m at level 100, k at level 200, only parsing).
End Notations.

End Py.

Import Py Py.Notations.

(** ** Cells, columns and DataFrames *)

Module Frame.

(** A value in a DataFrame cell.  [CNull] stands for NaN, None and NaT
    (what [isnull] reports); finite floats are kept as rationals. *)
Inductive cell :=
| CInt (z : Z)
| CFloat (q : Q)
| CStr (s : string)
| CBool (b : bool)
| CDate (day : Z)
| CNull.

Definition is_null (c : cell) : bool :=
  match c with CNull => true | _ => false end.

(** Python's [==] on scalar keys, as a [dict] lookup sees it:
    [1 == True == 1.0] and [0 == False == 0.0]. *)
Definition num_of (c : cell) : option Q :=
  match c with
  | CInt z => Some (inject_Z z)
  | CFloat q => Some q
  | CBool b => Some (if b then 1%Q else 0%Q)
  | _ => None
  end.

Definition py_eq (a b : cell) : bool :=
  match num_of a, num_of b with
  | Some x, Some y => Qeq_bool x y
  | _, _ =>
      match a, b with
      | CStr s, CStr t => String.eqb s t
      | CDate d, CDate e => Z.eqb d e
      | _, _ => false
      end
  end.

(** A [dict] literal is its list of items; a later item with an equal key
    overwrites an earlier one, so a lookup finds the last match. *)
Fixpoint dict_get (d : list (cell * cell)) (k : cell) : option cell :=
  match d with
  | [] => None
  | (k', v) :: d' =>
      match dict_get d' k with
      | Some v' => Some v'
      | None => if py_eq k' k then Some v else None
      end
  end.

(** [Series.map(d)]: a value that is no key of [d] becomes NaN. *)
Definition map_dict (d : list (cell * cell)) (c : cell) : cell :=
  default CNull (dict_get d c).

(** [Series.fillna(v)] *)
Definition fillna (v : cell) (c : cell) : cell :=
  if is_null c then v else c.

(** A column: its pandas dtype (as [str(dtype)]) and its values. *)
Record column := Column { dtype : string; cells : list cell }.

(** A DataFrame: the length of its index and its labelled columns in
    order.  [pd.read_csv] and [pd.read_json] give unique labels. *)
Record frame := MkFrame { nrows : nat; columns : list (string * column) }.

Definition labels (df : frame) : list string := (columns df).*1.

(** [name in df.columns] *)
Definition has_column (df : frame) (name : string) : bool :=
  bool_decide (name ∈ labels df).

Fixpoint lookup_col (cs : list (string * column)) (name : string) : option column :=
  match cs with
  | [] => None
  | (n, c) :: cs' => if decide (n = name) then Some c else lookup_col cs' name
  end.

(** [df[name]] *)
Definition getitem (df : frame) (name : string) : option column :=
  lookup_col (columns df) name.

Fixpoint assign_col (cs : list (string * column)) (name : string) (c : column)
  : list (string * column) :=
  match cs with
  | [] => [(name, c)]
  | (n, c') :: cs' =>
      if decide (n = name) then (n, c) :: cs' else (n, c') :: assign_col cs' name c
  end.

(** [df[name] = c]: an existing column is replaced where it stands, a new
    one is appended. *)
Definition setitem (df : frame) (name : string) (c : column) : frame :=
  MkFrame (nrows df) (assign_col (columns df) name c).

(** [df.rename(columns={old: new})] *)
Definition rename (df : frame) (old new : string) : frame :=
  MkFrame (nrows df)
    (map (fun '(n, c) => (if decide (n = old) then new else n, c)) (columns df)).

(** A scalar broadcast over the index: [df[name] = v]. *)
Definition broadcast (dt : string) (df : frame) (v : cell) : column :=
  Column dt (replicate (nrows df) v).

(** [range(1, len(df) + 1)] as a column. *)
Definition surrogate_keys (df : frame) : column :=
  Column "int64" (map (fun i => CInt (Z.of_nat i)) (seq 1 (nrows df))).

(** The heap of DataFrame objects; a location is an index.  Python holds
    no reference to an object that does not exist: the locations of a run
    are those [alloc] handed out.  Any other location reads as an empty
    frame, and an update of it changes nothing. *)
Abbreviation loc := nat (only parsing).
Abbreviation heap := (list frame) (only parsing).

Definition empty_frame : frame := MkFrame 0 [].

Definition read (h : heap) (r : loc) : frame := default empty_frame (h !! r).

Definition deref (r : loc) : M heap frame := gets (fun h => read h r).

Definition alloc (df : frame) : M heap loc :=
  fun h => (Ok (length h), h ++ [df]).

(** In-place update of the object at [r]. *)
Definition update (r : loc) (f : frame -> frame) : M heap unit :=
  modify (fun h => <[r := f (read h r)]> h).

End Frame.

Import Frame.

(** ** Pure library functions

    What pandas and the Python standard library compute, taken as given.
    A pandas call is typed [res] where it can raise. *)

Record Lib := {
(* pandas, on a column *)
to_numeric_coerce : column -> res column;   (* pd.to_numeric(s, errors='coerce') *)
astype_int : column -> res column;          (* s.astype(int) *)
astype_str : column -> res column;          (* s.astype(str) *)
to_datetime_coerce : column -> res column;  (* pd.to_datetime(s, errors='coerce') *)
dt_strftime : string -> column -> res column; (* s.dt.strftime(fmt) *)
dt_date : column -> res column;             (* s.dt.date *)
infer_dtype : list cell -> string;          (* dtype of a Series of these values *)
nunique : column -> res Z;                  (* int(s.nunique()) *)
str_len_max : column -> res Z;              (* int(s.astype(str).str.len().max()) *)
col_min_int : column -> res Z;              (* int(s.min()) *)
col_max_int : column -> res Z;
col_min_float : column -> res Q;            (* float(s.min()) *)
col_max_float : column -> res Q;
(* the statistics of validate_data_quality on a non-empty frame: its
   warnings, or the exception one of the pandas calls raised *)
quality_stats : frame -> res (list string);
(* Python standard library *)
isoformat : Z -> string;                    (* datetime.isoformat() *)
strftime : string -> Z -> string;           (* datetime.strftime(fmt) *)
date_of : Z -> Z;                           (* datetime.date() *)
repr_list : list string -> string;          (* repr of a list of str *)
format_fixed : nat -> Q -> string;          (* format(x, '.<n>f') *)
path_name : string -> string;               (* Path(p).name *)
path_suffix : string -> string;             (* Path(p).suffix *)
path_str : string -> string;                (* str(Path(p)) *)
py_int : string -> option Z;                (* int(s); None where it raises *)
repr_str : string -> string;                (* repr(s) *)
}.

(** ** transform.py *)

Module Transform.
Section WithLib.
Context (lib : Lib).

Definition required_columns : list string :=
  ["user_id"; "age"; "sign_up_date"; "is_active"].

(** The literal passed to [df['is_active'].map]. *)
Definition is_active_tokens : list (cell * cell) :=
  [ (CInt 1, CBool true); (CInt 0, CBool false);
    (CStr "1", CBool true); (CStr "0", CBool false);
    (CBool true, CBool true); (CBool false, CBool false);
    (CStr "true", CBool true); (CStr "false", CBool false) ].

Definition map_col (f : cell -> cell) (c : column) : column :=
  let vs := map f (cells c) in Column (infer_dtype lib vs) vs.

Definition key_error (name : string) : exn := Exn "KeyError" name.

(** [df[name] = f(df[name])] on the object at [r]. *)
Definition assign_with (r : loc) (name : string) (f : column -> res column)
  : M heap unit :=
  let* df := deref r in
  match getitem df name with
  | None => raise (key_error name)
  | Some c =>
      match f c with
      | Ok c' => update r (fun df => setitem df name c')
      | Raise e => raise e
      end
  end.

(** [df[names]]: a new frame with these columns, in this order. *)
Fixpoint select_cols (df : frame) (names : list string)
  : res (list (string * column)) :=
  match names with
  | [] => Ok []
  | n :: ns =>
      match getitem df n with
      | None => Raise (key_error n)
      | Some c =>
          match select_cols df ns with
          | Ok cs => Ok ((n, c) :: cs)
          | Raise e => Raise e
          end
      end
  end.

Definition when (b : bool) (m : M heap unit) : M heap unit :=
  if b then m else ret tt.

(** The conversions of [transform], column by column, on the object
    [df]; [cur] is the frame as it stands before them. *)
Definition convert_columns (df : loc) (cur : frame) : M heap unit :=
  do* when (has_column cur "age")
        (do* assign_with df "age" (to_numeric_coerce lib) in
         assign_with df "age"
           (fun c => astype_int lib (Column (dtype c) (map (fillna (CInt 0)) (cells c))))) in
  do* when (has_column cur "is_active")
        (do* assign_with df "is_active"
               (fun c => Ok (map_col (map_dict is_active_tokens) c)) in
         assign_with df "is_active"
           (fun c => Ok (map_col (fillna (CBool false)) c))) in
  do* when (has_column cur "sign_up_date")
        (do* assign_with df "sign_up_date" (to_datetime_coerce lib) in
         assign_with df "sign_up_date" (dt_strftime lib "%Y-%m-%d")) in
  when (has_column cur "user_id")
    (assign_with df "user_id" (astype_str lib)).

(** [ready_df = df[required_columns]] *)
Definition select_required (df : loc) : M heap loc :=
  let* final := deref df in
  match select_cols final required_columns with
  | Ok cs => alloc (MkFrame (nrows final) cs)
  | Raise e => raise e
  end.

Definition transform (dataFrame : loc) : M heap loc :=
(* df = dataFrame.copy() *)
let* src := deref dataFrame in
let* df0 := alloc src in
(* signup_date -> sign_up_date; rename returns a new object *)
let* copy := deref df0 in
let* df :=
  (if has_column copy "signup_date" && negb (has_column copy "sign_up_date")
   then alloc (rename copy "signup_date" "sign_up_date")
   else ret df0) in
let* cur := deref df in
let missing_cols := filter (fun col => ¬ has_column cur col) required_columns in
if negb (bool_decide (missing_cols = [])) then
  raise (Exn "ValueError"
           ("Missing required columns: " +:+ repr_list lib missing_cols))
else
  do* convert_columns df cur in
  select_required df.
End WithLib.
End Transform.

(** ** schema_evolution.py: registry and detector *)

Module Schema.

(** The description of one column.  The registry's initial schema and the
    detector fill different keys, so every key is optional, as
    [dict.get] sees it. *)
Record col_info := ColInfo {
  ci_type : option string;
  ci_required : option bool;
  ci_null_count : option Z;
  ci_unique_count : option Z;
  ci_max_length : option Z;
  ci_min_value : option cell;
  ci_max_value : option cell;
}.

(** What [detect_schema_from_dataframe] returns, and what
    [add_schema_version] receives as [new_schema]. *)
Record schema := MkSchema {
  s_columns : option (gmap string col_info);
  s_table_name : option string;
  s_primary_key : option string;
  s_row_count : option Z;
  s_detected_at : option string;
}.

(** One entry of [schemas["schemas"]]:
    [{"version", "created_at", "description", **new_schema}]. *)
Record schema_entry := Entry {
  se_version : Z;
  se_created_at : string;
  se_description : string;
  se_schema : schema;
}.

Record evolution_record := Evolution {
  from_version : Z;
  to_version : Z;
  ev_timestamp : string;
  ev_description : string;
}.

(** [SchemaRegistry.schemas] *)
Record registry := Registry {
  current_version : Z;
  schemas : gmap string schema_entry;
  evolution_history : list evolution_record;
}.

Definition plain_column (ty : string) : col_info :=
  ColInfo (Some ty) (Some true) None None None None None.

(** The default registry of [_load_registry]; [created_at] is the time of
    loading. *)
Definition default_columns : gmap string col_info :=
  <["user_id" := ColInfo (Some "string") (Some true) None None (Some 50) None None]>
  (<["age" := ColInfo (Some "integer") (Some true) None None None
                (Some (CInt 0)) (Some (CInt 150))]>
  (<["sign_up_date" := plain_column "date"]>
  (<["is_active" := plain_column "boolean"]> ∅))).

Definition default_registry (created_at : string) : registry :=
  Registry 1
    {[ "1" := Entry 1 created_at "Initial schema"
                (MkSchema (Some default_columns) (Some "users") (Some "user_id")
                   None None) ]}
    [].

(** [get_current_schema]: [schemas.get(str(current_version), {})] *)
Definition get_current_schema (reg : registry) : option schema_entry :=
  schemas reg !! pretty (current_version reg).

(** [current_schema.get("columns", {})] *)
Definition current_columns (reg : registry) : gmap string col_info :=
  match get_current_schema reg with
  | Some e => default ∅ (s_columns (se_schema e))
  | None => ∅
  end.

(** [add_schema_version]; the two readings of the clock are arguments.
    Saving the registry file is done by the caller. *)
Definition add_schema_version (created_at timestamp : string)
    (new_schema : schema) (description : string) (reg : registry)
  : Z * registry :=
  let new_version := current_version reg + 1 in
  let new_schema_entry := Entry new_version created_at description new_schema in
  (new_version,
   Registry new_version
     (<[pretty new_version := new_schema_entry]> (schemas reg))
     (evolution_history reg ++
        [Evolution (new_version - 1) new_version timestamp description])).

(** *** SchemaDetector *)

Definition type_mapping (dt : string) : string :=
  if decide (dt = "int64") then "integer"
  else if decide (dt = "float64") then "float"
  else if decide (dt = "object") then "string"
  else if decide (dt = "bool") then "boolean"
  else if decide (dt = "datetime64[ns]") then "datetime"
  else "string".

Section WithLib.
Context (lib : Lib).

Definition lift2 {A B C} (f : A -> B -> C) (x : res A) (y : res B) : res C :=
  match x, y with
  | Ok a, Ok b => Ok (f a b)
  | Raise e, _ => Raise e
  | _, Raise e => Raise e
  end.

(** The body of the loop of [detect_schema_from_dataframe]. *)
Definition detect_column (c : column) : res col_info :=
  let ty := type_mapping (dtype c) in
  let required := negb (existsb is_null (cells c)) in
  let null_count := Z.of_nat (length (filter (fun v => is_null v) (cells c))) in
  let empty := bool_decide (cells c = []) in
  match nunique lib c with
  | Raise e => Raise e
  | Ok unique_count =>
      let base := ColInfo (Some ty) (Some required) (Some null_count)
                    (Some unique_count) in
      if decide (ty = "string") then
        match (if empty then Ok 0 else str_len_max lib c) with
        | Ok n => Ok (base (Some n) None None)
        | Raise e => Raise e
        end
      else if decide (ty = "integer") then
        lift2 (fun lo hi => base None (Some (CInt lo)) (Some (CInt hi)))
          (if empty then Ok 0 else col_min_int lib c)
          (if empty then Ok 0 else col_max_int lib c)
      else if decide (ty = "float") then
        lift2 (fun lo hi => base None (Some (CFloat lo)) (Some (CFloat hi)))
          (if empty then Ok 0%Q else col_min_float lib c)
          (if empty then Ok 0%Q else col_max_float lib c)
      else Ok (base None None None)
  end.

Fixpoint detect_columns (cs : list (string * column))
  : res (gmap string col_info) :=
  match cs with
  | [] => Ok ∅
  | (name, c) :: cs' =>
      match detect_column c with
      | Raise e => Raise e
      | Ok info =>
          match detect_columns cs' with
          | Raise e => Raise e
          | Ok m => Ok (<[name := info]> m)
          end
      end
  end.

Definition detect_schema_from_dataframe (detected_at : string) (df : frame)
  : res schema :=
  match detect_columns (columns df) with
  | Raise e => Raise e
  | Ok cols =>
      Ok (MkSchema (Some cols) (Some "users") None
            (Some (Z.of_nat (nrows df))) (Some detected_at))
  end.
End WithLib.

(** *** compare_with_current_schema *)

Record schema_change := Change {
  c_type : string;
  c_column : string;
  c_details : option col_info;
}.

Record compat_issue := Issue {
  i_type : string;
  i_column : string;
  i_severity : string;
(* current_type and detected_type, for a type mismatch *)
i_types : option (option string * option string);
}.

Record comparison := Comparison {
  schema_changes : list schema_change;
  compatibility_issues : list compat_issue;
  is_compatible : bool;
  requires_migration : bool;
}.

Definition col_type (m : gmap string col_info) (col : string) : option string :=
  m !! col ≫= ci_type.

(** The three loops.  Python iterates over sets in an unspecified order;
    [elements] fixes one. *)
Definition added_changes (current detected : gmap string col_info)
  : list schema_change :=
  map (fun col => Change "column_added" col (detected !! col))
    (elements (dom detected ∖ dom current)).

Definition is_required (current : gmap string col_info) (col : string) : bool :=
  default false (current !! col ≫= ci_required).

Definition missing_issues (current detected : gmap string col_info)
  : list compat_issue :=
  map (fun col => Issue "required_column_missing" col "high" None)
    (filter (fun col => is_required current col)
       (elements (dom current ∖ dom detected))).

Definition removed_changes (current detected : gmap string col_info)
  : list schema_change :=
  map (fun col => Change "column_removed" col None)
    (filter (fun col => ¬ is_required current col)
       (elements (dom current ∖ dom detected))).

Definition mismatch_issues (current detected : gmap string col_info)
  : list compat_issue :=
  map (fun col => Issue "type_mismatch" col "medium"
                    (Some (col_type current col, col_type detected col)))
    (filter (fun col => col_type current col ≠ col_type detected col)
       (elements (dom current ∩ dom detected))).

Definition compare_with_current_schema (detected_schema : schema) (reg : registry)
  : comparison :=
  let current := current_columns reg in
  let detected := default ∅ (s_columns detected_schema) in
  let changes := added_changes current detected ++ removed_changes current detected in
  let issues := missing_issues current detected ++ mismatch_issues current detected in
  Comparison changes issues
    (bool_decide (length issues = 0%nat))
    (bool_decide (0 < length changes)%nat || bool_decide (0 < length issues)%nat).

(** *** The registries a pipeline can hold

    A registry starts as the default one and changes only through
    [add_schema_version]; the registry file is written by [_save_registry]
    from such a registry. *)
Inductive reachable : registry -> Prop :=
| reach_default created_at : reachable (default_registry created_at)
| reach_add reg created_at timestamp new_schema description :
    reachable reg ->
    reachable (add_schema_version created_at timestamp new_schema description reg).2.

(** The stored versions are exactly [1 .. current_version]. *)
Definition versions_dense (reg : registry) : Prop :=
  1 <= current_version reg
  /\ forall k, is_Some (schemas reg !! k) <->
               exists v, 1 <= v <= current_version reg /\ k = pretty v.

End Schema.

(** ** The world of a pipeline object *)

Module World.
Import Schema.

(** [PipelineMetrics] of monitoring.py.  Times are microseconds since the
    epoch; [execution_time_seconds] is their difference in seconds. *)
Record PipelineMetrics := Metrics {
  pipeline_id : string;
  start_time : Z;
  end_time : option Z;
  status : string;
  stage : string;
  m_file_path : string;
  rows_processed : Z;
  error_message : string;
  execution_time_seconds : Q;
  data_quality_score : Q;
  memory_usage_mb : Q;
}.

(** What the run does to the outside, in order.  [Called f] marks the
    entry into the function [f] and has no counterpart in the source; the
    other events are the source's own effects. *)
Inductive event :=
| Called (f : string)
| Slept (wait : Q)                    (* time.sleep(wait) *)
| Sql (stmt : string)                 (* conn.execute(text(stmt)) *)
| Copied (src dst : string)           (* shutil.copy2 went through *)
| Moved (src dst : string)            (* shutil.move went through *)
| Wrote (path : string)               (* open(path, 'w') and json.dump went through *)
| Alerted (alert_type message : string).

#[global] Instance Q_eq_dec : EqDecision Q.
Proof. solve_decision. Defined.

#[global] Instance event_eq_dec : EqDecision event.
Proof. solve_decision. Defined.

(** The state of a [ProductionETLPipeline] object and of what it owns,
    with the external state [E] the environment evolves. *)
Record world (E : Type) := MkWorld {
  ext : E;
  fs : gset string;                               (* the paths that exist *)
  frames : heap;                                  (* DataFrame objects *)
  current_metrics : gmap string PipelineMetrics;  (* MetricsCollector *)
  reg : registry;                                 (* SchemaRegistry.schemas *)
  consecutive_failures : Z;                       (* AlertingSystem *)
  trace : list event;
}.
Arguments MkWorld {E}.
Arguments ext {E}.
Arguments fs {E}.
Arguments frames {E}.
Arguments current_metrics {E}.
Arguments reg {E}.
Arguments consecutive_failures {E}.
Arguments trace {E}.

Section Setters.
Context {E : Type}.
Implicit Type w : world E.

Definition set_ext (x : E) w :=
  MkWorld x (fs w) (frames w) (current_metrics w) (reg w)
    (consecutive_failures w) (trace w).
Definition set_fs (x : gset string) w :=
  MkWorld (ext w) x (frames w) (current_metrics w) (reg w)
    (consecutive_failures w) (trace w).
Definition set_frames (x : heap) w :=
  MkWorld (ext w) (fs w) x (current_metrics w) (reg w)
    (consecutive_failures w) (trace w).
Definition set_current_metrics (x : gmap string PipelineMetrics) w :=
  MkWorld (ext w) (fs w) (frames w) x (reg w)
    (consecutive_failures w) (trace w).
Definition set_reg (x : registry) w :=
  MkWorld (ext w) (fs w) (frames w) (current_metrics w) x
    (consecutive_failures w) (trace w).
Definition set_consecutive_failures (x : Z) w :=
  MkWorld (ext w) (fs w) (frames w) (current_metrics w) (reg w) x (trace w).
Definition set_trace (x : list event) w :=
  MkWorld (ext w) (fs w) (frames w) (current_metrics w) (reg w)
    (consecutive_failures w) x.

(** Appends an event to the trace. *)
Definition emit (ev : event) : M (world E) unit :=
  modify (fun w => set_trace (trace w ++ [ev]) w).

(** The world after [time.sleep(q)]. *)
Definition slept (q : Q) w : world E := set_trace (trace w ++ [Slept q]) w.

(** A call into the environment that cannot raise. *)
Definition ask {A} (f : E -> A * E) : M (world E) A :=
  fun w => let '(a, x) := f (ext w) in (Ok a, set_ext x w).

(** A call into the environment that returns or raises. *)
Definition call {A} (f : E -> res A * E) : M (world E) A :=
  fun w => let '(r, x) := f (ext w) in (r, set_ext x w).

(** A call into the environment that returns nothing or raises. *)
Definition perform (f : E -> option exn * E) : M (world E) unit :=
  fun w => let '(o, x) := f (ext w) in
           (match o with None => Ok tt | Some e => Raise e end, set_ext x w).

(** Computations on the heap of frames, run in the world. *)
Definition on_frames {A} (m : M heap A) : M (world E) A :=
  zoom frames set_frames m.

Definition create_path (p : string) : M (world E) unit :=
  modify (fun w => set_fs ({[p]} ∪ fs w) w).

Definition remove_path (p : string) : M (world E) unit :=
  modify (fun w => set_fs (fs w ∖ {[p]}) w).
End Setters.

(** [validate_file]'s result. *)
Record validation := Validation {
  is_valid : bool;
  v_issues : list string;
  v_warnings : list string;
  v_file_info : list (string * cell);
}.

(** The effectful environment: clock, identifiers, files, database. *)
Record Env (E : Type) := {
  clock : E -> Z * E;                          (* datetime.now(), time.time() *)
  uuid_hex8 : E -> string * E;                 (* uuid.uuid4().hex[:8] *)
  pd_read : string -> E -> res frame * E;      (* pd.read_csv / pd.read_json *)
(* validate_file once the file is known to exist: size and CSV checks *)
inspect_file : string -> E -> res validation * E;
(* run_health_checks()['overall_status'] == 'healthy' *)
healthy : E -> bool * E;
os_copy : string -> string -> E -> option exn * E;   (* shutil.copy2 *)
os_move : string -> string -> E -> option exn * E;   (* shutil.move *)
os_stat_size : string -> E -> res Z * E;             (* Path.stat().st_size *)
os_write : string -> E -> option exn * E;            (* open(p,'w'); json.dump *)
(* the OSError of os.stat(p) that Path(p).exists() lets through: any
   failure but "no such file" (a name too long, a directory that may not
   be searched); os.stat changes nothing *)
stat_error : string -> E -> option exn;
missing_env_vars : E -> list string * E;             (* get_db_config *)
db_port : E -> string * E;                           (* os.getenv('DB_PORT') *)
pg_probe : E -> option exn * E;       (* create_engine; connect; SELECT 1 *)
db_open : E -> option exn * E;        (* engine.connect() *)
db_execute : string -> E -> option exn * E;  (* conn.execute(text(sql)) *)
db_commit : E -> option exn * E;
to_sql : frame -> E -> option exn * E;       (* dataframe.to_sql(..., 'append') *)
}.
Arguments clock {E}.
Arguments uuid_hex8 {E}.
Arguments pd_read {E}.
Arguments inspect_file {E}.
Arguments healthy {E}.
Arguments os_copy {E}.
Arguments os_move {E}.
Arguments os_stat_size {E}.
Arguments os_write {E}.
Arguments stat_error {E}.
Arguments missing_env_vars {E}.
Arguments db_port {E}.
Arguments pg_probe {E}.
Arguments db_open {E}.
Arguments db_execute {E}.
Arguments db_commit {E}.
Arguments to_sql {E}.

(** [Path(p).exists()]: [True] for a path that exists, [False] for one
    that does not, and the [OSError] of [os.stat] when it fails for
    another reason. *)
Definition exists_path {E} (env : Env E) (p : string) : M (world E) bool :=
  fun w =>
    match stat_error env p (ext w) with
    | Some e => (Raise e, w)
    | None => (Ok (bool_decide (p ∈ fs w)), w)
    end.

(** [time.sleep(secs)] on a float.  The seconds are converted to
    nanoseconds first, which must fit a signed 64-bit integer; a negative
    length is refused after that.  The conversion is taken exactly. *)
Definition sleep_error (secs : Q) : option exn :=
  let ns := (secs * inject_Z 1000000000)%Q in
  if Qlt_le_dec ns (inject_Z (- 2 ^ 63)) then
    Some (Exn "OverflowError" "timestamp too large to convert to C _PyTime_t")
  else if Qlt_le_dec (inject_Z (2 ^ 63 - 1)) ns then
    Some (Exn "OverflowError" "timestamp too large to convert to C _PyTime_t")
  else if Qlt_le_dec secs 0 then
    Some (Exn "ValueError" "sleep length must be non-negative")
  else None.

Definition time_sleep {E} (secs : Q) : M (world E) unit :=
  match sleep_error secs with
  | Some e => raise e
  | None => modify (slept secs)
  end.

End World.

Import World.

(** ** error_handler.py: RetryHandler *)

Module Retry.

Record RetryHandler := Handler { max_retries : Z; retry_delay : Q }.

(** [self.retry_delay * (2 ** attempt)].  Python multiplies a float by an
    int; the product is taken exactly here, which is what the float
    product is as long as it neither overflows nor underflows. *)
Definition wait_time (h : RetryHandler) (attempt : nat) : Q :=
  (retry_delay h * inject_Z (2 ^ Z.of_nat attempt))%Q.

(** The same product as Python computes it: the int [2 ** attempt] is
    converted to a float first, and from [2 ** 1024] on that conversion
    raises. *)
Definition backoff (h : RetryHandler) (attempt : nat) : res Q :=
  if decide (1024 <= attempt)%nat then
    Raise (Exn "OverflowError" "int too large to convert to float")
  else Ok (wait_time h attempt).

(** What the two lines after a failed attempt raise, if anything: the
    product or [time.sleep]. *)
Definition wait_error (h : RetryHandler) (attempt : nat) : option exn :=
  match backoff h attempt with
  | Raise e => Some e
  | Ok wait => sleep_error wait
  end.

Section WithWorld.
Context {E A : Type}.

(** The loop [for attempt in range(n)], from [attempt] on, with
    [todo] iterations left.  When the range is exhausted the function
    falls off its end and returns [None].  An exception of the handler
    itself (the product, the sleep) leaves the loop. *)
Fixpoint retry_loop (h : RetryHandler) (func : M (world E) A)
    (todo : nat) (attempt : nat) : M (world E) (option A) :=
  match todo with
  | O => ret None
  | S todo' =>
      try_except
        (let* result := func in ret (Some result))
        (fun e =>
           if decide (Z.of_nat attempt = max_retries h) then raise e
           else
             let* wait := of_res (backoff h attempt) in
             do* time_sleep wait in
             retry_loop h func todo' (S attempt))
  end.

(** [retry_with_backoff(func, *args)]: [func] is the call with its
    arguments applied. *)
Definition retry_with_backoff (h : RetryHandler) (func : M (world E) A)
  : M (world E) (option A) :=
  retry_loop h func (Z.to_nat (max_retries h + 1)) 0.
End WithWorld.

(** [RetryHandler(max_retries=3, retry_delay=1.0)] of the pipeline. *)
Definition production_handler : RetryHandler := Handler 3 1%Q.

(** [RetryHandler(max_retries=2)] of the module's own demonstration:
    three attempts; [retry_delay] defaults to 1.0. *)
Definition retry_handler : RetryHandler := Handler 2 1%Q.

End Retry.

(** ** error_handler.py: DeadLetterQueue and DataQualityValidator *)

Module ErrorHandler.
Section WithEnv.
Context {E : Type} (lib : Lib) (env : Env E).

Definition deadletter_path : string := "data/deadletter".
Definition processed_path : string := "data/processed".

Definition join (dir name : string) : string := dir +:+ "/" +:+ name.

Record error_info := ErrorInfo {
  ei_stage : string;
  ei_error : string;
  ei_error_type : string;
  ei_pipeline_id : string;
}.

Record processing_info := ProcessingInfo {
  pi_rows_processed : Z;
  pi_execution_time : Q;
}.

(** [quarantine_file]: the path of the copy, or [""]. *)
Definition quarantine_file (file_path : string) (info : error_info)
  : M (world E) string :=
  do* emit (Called "quarantine_file") in
  let* present := exists_path env file_path in
  if negb present then ret ""
  else
    let* now := ask (clock env) in
    let timestamp := strftime lib "%Y%m%d_%H%M%S" now in
    let quarantine_filename := timestamp +:+ "_" +:+ path_name lib file_path in
    let quarantine_path := join deadletter_path quarantine_filename in
    try_except
      (do* perform (os_copy env file_path quarantine_path) in
       do* create_path quarantine_path in
       do* emit (Copied file_path quarantine_path) in
       let* quarantined_at := ask (clock env) in
       let* file_size := call (os_stat_size env file_path) in
       let metadata_path := quarantine_path +:+ ".error" in
       do* perform (os_write env metadata_path) in
       do* create_path metadata_path in
       do* emit (Wrote metadata_path) in
       ret quarantine_path)
      (fun _ => ret "").

(** [archive_successful_file]: the path of the moved file, or [""]. *)
Definition archive_successful_file (file_path : string) (info : processing_info)
  : M (world E) string :=
  do* emit (Called "archive_successful_file") in
  let* present := exists_path env file_path in
  if negb present then ret ""
  else
    let* now := ask (clock env) in
    let timestamp := strftime lib "%Y%m%d_%H%M%S" now in
    let archive_filename := timestamp +:+ "_" +:+ path_name lib file_path in
    let archive_path := join processed_path archive_filename in
    try_except
      (do* perform (os_move env file_path archive_path) in
       do* remove_path file_path in
       do* create_path archive_path in
       do* emit (Moved file_path archive_path) in
       let* processed_at := ask (clock env) in
       let metadata_path := archive_path +:+ ".processed" in
       do* perform (os_write env metadata_path) in
       do* create_path metadata_path in
       do* emit (Wrote metadata_path) in
       ret archive_path)
      (fun _ => ret "").

(** [validate_file].  The checks that read the file (size, CSV header,
    row count) are the environment's [inspect_file]. *)
Definition validate_file (file_path : string) : M (world E) validation :=
  try_except
    (let* present := exists_path env file_path in
     if negb present then ret (Validation false ["File does not exist"] [] [])
     else call (inspect_file env file_path))
    (fun e => ret (Validation false ["Validation error: " +:+ exn_msg e] [] [])).

Record quality_report := QualityReport {
  total_rows : nat;
  q_issues : list string;
  q_warnings : list string;
}.

(** [validate_data_quality].  Its only blocking issues are an empty
    dataset and an exception raised by one of its own checks. *)
Definition validate_data_quality (df : frame) : quality_report :=
  if decide (nrows df = 0%nat) then QualityReport (nrows df) ["Empty dataset"] []
  else
    match quality_stats lib df with
    | Ok warnings => QualityReport (nrows df) [] warnings
    | Raise e =>
        QualityReport (nrows df) ["Quality validation error: " +:+ exn_msg e] []
    end.
End WithEnv.
End ErrorHandler.

(** ** monitoring.py: MetricsCollector and AlertingSystem *)

Module Monitoring.
Section WithEnv.
Context {E : Type} (lib : Lib) (env : Env E).

(** [_save_metrics]: appends to the metrics file of the day; every
    failure is logged and dropped. *)
Definition save_metrics (m : PipelineMetrics) : M (world E) unit :=
  let metrics_file :=
    "logs/metrics/pipeline_metrics_" +:+ strftime lib "%Y%m%d" (start_time m)
      +:+ ".json" in
  try_except
    (do* perform (os_write env metrics_file) in
     do* create_path metrics_file in
     emit (Wrote metrics_file))
    (fun _ => ret tt).

Definition start_pipeline_tracking (pid file_path : string)
  : M (world E) PipelineMetrics :=
  let* now := ask (clock env) in
  let metrics :=
    Metrics pid now None "running" "extract" file_path 0 "" 0%Q 100%Q 0%Q in
  do* modify (fun w => set_current_metrics (<[pid := metrics]> (current_metrics w)) w) in
  ret metrics.

Definition update_stage (pid stage : string) (rows : Z) : M (world E) unit :=
  modify (fun w =>
    match current_metrics w !! pid with
    | Some m =>
        let m' := Metrics (pipeline_id m) (start_time m) (end_time m) (status m)
                    stage (m_file_path m) rows (error_message m)
                    (execution_time_seconds m) (data_quality_score m)
                    (memory_usage_mb m) in
        set_current_metrics (<[pid := m']> (current_metrics w)) w
    | None => w
    end).

(** [finish_pipeline_tracking]: [None] when the id is not tracked. *)
Definition finish_pipeline_tracking (pid status error_message : string)
  : M (world E) (option PipelineMetrics) :=
  let* tracked := gets (fun w => current_metrics w !! pid) in
  match tracked with
  | None => ret None
  | Some m =>
      let* now := ask (clock env) in
      let m' := Metrics (pipeline_id m) (start_time m) (Some now) status
                  (stage m) (m_file_path m) (rows_processed m) error_message
                  ((now - start_time m) # 1000000) (data_quality_score m)
                  (memory_usage_mb m) in
      do* save_metrics m' in
      do* modify (fun w => set_current_metrics (delete pid (current_metrics w)) w) in
      ret (Some m')
  end.

Definition max_execution_time : Q := 300%Q.
Definition max_failed_runs : Z := 3.
Definition data_quality_threshold : Q := 80%Q.

(** [check_pipeline_health] *)
Definition check_pipeline_health (m : PipelineMetrics) : M (world E) (list string) :=
  let slow :=
    if Qlt_le_dec max_execution_time (execution_time_seconds m)
    then ["SLOW_EXECUTION: Pipeline took "
            +:+ format_fixed lib 2 (execution_time_seconds m)
            +:+ "s (threshold: 300s)"]
    else [] in
  let* failure :=
    (if decide (status m = "failed") then
       let* n := gets (fun w => consecutive_failures w + 1) in
       do* modify (set_consecutive_failures n) in
       ret (["PIPELINE_FAILURE: " +:+ error_message m]
            ++ (if decide (max_failed_runs <= n)
                then ["CRITICAL: " +:+ pretty n +:+ " consecutive failures"]
                else []))
     else
       do* modify (set_consecutive_failures 0) in ret []) in
  let quality :=
    if Qlt_le_dec (data_quality_score m) data_quality_threshold
    then ["DATA_QUALITY_ISSUE: Score "
            +:+ format_fixed lib 1 (data_quality_score m)
            +:+ "% (threshold: 80%)"]
    else [] in
  ret (slow ++ failure ++ quality).

(** [_write_alert_file]; every failure is logged and dropped. *)
Definition write_alert_file : M (world E) unit :=
  try_except
    (let* stamp := ask (clock env) in
     let* now := ask (clock env) in
     let alert_file :=
       "logs/alerts/alert_" +:+ strftime lib "%Y%m%d_%H%M%S" now +:+ ".json" in
     do* perform (os_write env alert_file) in
     do* create_path alert_file in
     emit (Wrote alert_file))
    (fun _ => ret tt).

(** [send_alert]: the alert is logged (the [Alerted] event) and written
    to a file; the e-mail branch only logs. *)
Definition send_alert (alert_type message : string)
    (pipeline_metrics : option PipelineMetrics) : M (world E) unit :=
  do* emit (Alerted alert_type message) in
  write_alert_file.
End WithEnv.
End Monitoring.

(** ** extractor.py and load.py *)

Module Store.
Section WithEnv.
Context {E : Type} (lib : Lib) (env : Env E).

(** [extract_data]: the new DataFrame object.  Each [except] clause of
    the source re-raises the exception it caught; the messages print the
    [Path] object, not the argument. *)
Definition extract_data (file_path : string) : M (world E) loc :=
  do* emit (Called "extract_data") in
  let file_type := path_suffix lib file_path in
  let* present := exists_path env file_path in
  if negb present then
    raise (Exn "FileNotFoundError" ("File not found: " +:+ path_str lib file_path))
  else if decide (file_type = ".csv") then
    let* df := call (pd_read env file_path) in on_frames (alloc df)
  else if decide (file_type = ".json") then
    let* df := call (pd_read env file_path) in on_frames (alloc df)
  else
    raise (Exn "ValueError" ("Unsupported file type: " +:+ file_type)).

(** [get_db_config()]: the port, the one value it converts. *)
Definition get_db_config : M (world E) Z :=
  let* missing_vars := ask (missing_env_vars env) in
  if negb (bool_decide (missing_vars = [])) then
    raise (Exn "ValueError"
             ("Missing required environment variables: "
                +:+ repr_list lib missing_vars))
  else
    let* port := ask (db_port env) in
    match py_int lib port with
    | None =>
        raise (Exn "ValueError"
                 ("invalid literal for int() with base 10: " +:+ repr_str lib port))
    | Some n => ret n
    end.

(** [connect_to_postgres()] with no [db_config]. *)
Definition connect_to_postgres : M (world E) unit :=
  do* emit (Called "connect_to_postgres") in
  let* db_config := get_db_config in
  try_except
    (perform (pg_probe env))
    (fun e =>
       raise (Exn "ConnectionError"
                ("Database connection failed: " +:+ exn_msg e))).

Definition create_users_table_sql : string :=
  "CREATE TABLE IF NOT EXISTS users (user_id VARCHAR(50) PRIMARY KEY, age INTEGER NOT NULL, sign_up_date DATE NOT NULL, is_active BOOLEAN NOT NULL, created_at TIMESTAMP DEFAULT CURRENT_TIMESTAMP, updated_at TIMESTAMP DEFAULT CURRENT_TIMESTAMP);".

(** One statement on an open connection. *)
Definition execute (stmt : string) : M (world E) unit :=
  do* emit (Sql stmt) in perform (db_execute env stmt).

(** [ensure_users_table_exists]: a failure is logged and re-raised. *)
Definition ensure_users_table_exists : M (world E) unit :=
  do* perform (db_open env) in
  do* execute create_users_table_sql in
  perform (db_commit env).

Record load_result := LoadResult {
  l_success : bool;
  rows_loaded : Z;
  l_message : string;
}.

(** [load_data(dataframe)] *)
Definition load_data (dataframe : loc) : M (world E) load_result :=
  do* emit (Called "load_data") in
  let* df := on_frames (deref dataframe) in
  let missing_cols :=
    filter (fun col => ¬ has_column df col) Transform.required_columns in
  if negb (bool_decide (missing_cols = [])) then
    raise (Exn "ValueError"
             ("DataFrame missing required columns: " +:+ repr_list lib missing_cols))
  else
    try_except
      (do* connect_to_postgres in
       do* ensure_users_table_exists in
       do* perform (to_sql env df) in
       let n := Z.of_nat (nrows df) in
       ret (LoadResult true n
              ("Successfully loaded " +:+ pretty n +:+ " rows")))
      (fun e => ret (LoadResult false 0 ("Load failed: " +:+ exn_msg e))).
End WithEnv.
End Store.

(** ** schema_evolution.py: DatabaseMigrator and SchemaEvolutionManager *)

Module Evolution.
Import Schema.
Section WithEnv.
Context {E : Type} (lib : Lib) (env : Env E).

Definition migration_history_table : string := "schema_migrations".

Definition create_migration_table_sql : string :=
  "CREATE TABLE IF NOT EXISTS schema_migrations (id SERIAL PRIMARY KEY, version INTEGER NOT NULL, description TEXT, applied_at TIMESTAMP DEFAULT CURRENT_TIMESTAMP, rollback_sql TEXT);".

(** [ensure_migration_table]: a failure is logged and re-raised. *)
Definition ensure_migration_table : M (world E) unit :=
  do* perform (db_open env) in
  do* Store.execute env create_migration_table_sql in
  perform (db_commit env).

(** [_map_type_to_sql] *)
Definition map_type_to_sql (col_type : string) (details : col_info) : string :=
  if decide (col_type = "string") then
    "VARCHAR(" +:+ pretty (default 255 (ci_max_length details)) +:+ ")"
  else if decide (col_type = "integer") then "INTEGER"
  else if decide (col_type = "float") then "FLOAT"
  else if decide (col_type = "boolean") then "BOOLEAN"
  else if decide (col_type = "date") then "DATE"
  else if decide (col_type = "datetime") then "TIMESTAMP"
  else "TEXT".

Definition join_with (sep : string) (l : list string) : string :=
  match l with
  | [] => ""
  | x :: xs => fold_left (fun acc s => acc +:+ sep +:+ s) xs x
  end.

(** The loop over the changes: the rollback statements collected so far
    are threaded through. *)
Fixpoint apply_changes (target_table : string) (changes : list schema_change)
    (rollback_sql : list string) : M (world E) (list string) :=
  match changes with
  | [] => ret rollback_sql
  | change :: rest =>
      if decide (c_type change = "column_added") then
        match c_details change with
        | None => raise (Exn "KeyError" "details")
        | Some col_details =>
            match ci_type col_details with
            | None => raise (Exn "KeyError" "type")
            | Some ty =>
                let sql_type := map_type_to_sql ty col_details in
                let nullable :=
                  if negb (default false (ci_required col_details))
                  then "NULL" else "NOT NULL" in
                let add_sql :=
                  "ALTER TABLE " +:+ target_table +:+ " ADD COLUMN "
                    +:+ c_column change +:+ " " +:+ sql_type +:+ " "
                    +:+ nullable +:+ ";" in
                let drop_sql :=
                  "ALTER TABLE " +:+ target_table +:+ " DROP COLUMN "
                    +:+ c_column change +:+ ";" in
                do* Store.execute env add_sql in
                apply_changes target_table rest (drop_sql :: rollback_sql)
            end
        end
      else
(* column_removed is skipped; any other type is ignored *)
apply_changes target_table rest rollback_sql
end.

(** [apply_schema_changes]: [True], [False], or the exception of
    [ensure_migration_table]. *)
Definition apply_schema_changes (changes : list schema_change)
    (target_table : string) : M (world E) bool :=
  do* emit (Called "apply_schema_changes") in
  if bool_decide (changes = []) then ret true
  else
    do* ensure_migration_table in
    try_except
      (do* perform (db_open env) in
       let* rollback_sql := apply_changes target_table changes [] in
       let* now := ask (clock env) in
       let migration_record :=
         "INSERT INTO " +:+ migration_history_table
           +:+ " (version, description, rollback_sql) VALUES ("
           +:+ strftime lib "%Y%m%d%H%M%S" now
           +:+ ", 'Auto-migration: " +:+ pretty (length changes)
           +:+ " changes', '" +:+ join_with "; " rollback_sql +:+ "');" in
       do* Store.execute env migration_record in
       do* perform (db_commit env) in
       ret true)
      (fun _ => ret false).

Record evolution_report := Report {
  schema_changed : bool;
  migration_applied : bool;
  r_compatibility_issues : list compat_issue;
  actions_taken : list string;
  r_error : option string;
}.

Definition add_action (a : string) (r : evolution_report) : evolution_report :=
  Report (schema_changed r) (migration_applied r) (r_compatibility_issues r)
    (actions_taken r ++ [a]) (r_error r).

Definition with_error (e : exn) (r : evolution_report) : evolution_report :=
  Report (schema_changed r) (migration_applied r) (r_compatibility_issues r)
    (actions_taken r) (Some (exn_msg e)).

(** The literal passed to [map] for a boolean column read as strings. *)
Definition bool_tokens : list (cell * cell) :=
  [ (CStr "true", CBool true); (CStr "false", CBool false);
    (CStr "1", CBool true); (CStr "0", CBool false) ].

Definition assign (df : loc) (column : string) (f : frame -> Frame.column)
  : M (world E) unit :=
  on_frames (update df (fun fr => setitem fr column (f fr))).

(** The body of the loop of [_handle_compatibility_issues], on the
    DataFrame object [df] itself. *)
Definition handle_issue (df : loc) (issue : compat_issue) : M (world E) unit :=
  let column := i_column issue in
  if decide (i_type issue = "required_column_missing") then
    if decide (column = "user_id") then assign df column surrogate_keys
    else if decide (column = "age") then
      assign df column (fun fr => broadcast "int64" fr (CInt 0))
    else if decide (column = "is_active") then
      assign df column (fun fr => broadcast "bool" fr (CBool true))
    else if decide (column = "sign_up_date") then
      let* now := ask (clock env) in
      assign df column (fun fr => broadcast "object" fr (CDate (date_of lib now)))
    else ret tt
  else if decide (i_type issue = "type_mismatch") then
    match i_types issue with
    | None => raise (Exn "KeyError" "current_type")
    | Some (current_type, detected_type) =>
        try_except
          (if decide (current_type = Some "integer" ∧ detected_type = Some "string")
           then
             on_frames (Transform.assign_with df column (fun c =>
               match to_numeric_coerce lib c with
               | Ok c' =>
                   astype_int lib
                     (Column (dtype c') (map (fillna (CInt 0)) (cells c')))
               | Raise e => Raise e
               end))
           else if decide (current_type = Some "boolean" ∧ detected_type = Some "string")
           then
             on_frames (Transform.assign_with df column (fun c =>
               Ok (Transform.map_col lib (map_dict bool_tokens) c)))
           else if decide (current_type = Some "date" ∧ detected_type = Some "string")
           then
             on_frames (Transform.assign_with df column (fun c =>
               match to_datetime_coerce lib c with
               | Ok c' => dt_date lib c'
               | Raise e => Raise e
               end))
           else ret tt)
          (fun _ => ret tt)
    end
  else ret tt.

Fixpoint handle_compatibility_issues (df : loc) (issues : list compat_issue)
  : M (world E) loc :=
  match issues with
  | [] => ret df
  | issue :: rest =>
      do* handle_issue df issue in handle_compatibility_issues df rest
  end.

(** [_save_registry]: a failure is logged and dropped. *)
Definition save_registry : M (world E) unit :=
  try_except
    (do* perform (os_write env "schemas/registry.json") in
     do* create_path "schemas/registry.json" in
     emit (Wrote "schemas/registry.json"))
    (fun _ => ret tt).

(** [SchemaRegistry.add_schema_version] on the registry of the world. *)
Definition registry_add_version (new_schema : schema) (description : string)
  : M (world E) Z :=
  let* created_at := ask (clock env) in
  let* timestamp := ask (clock env) in
  let* old := gets reg in
  let '(new_version, updated) :=
    add_schema_version (isoformat lib created_at) (isoformat lib timestamp)
      new_schema description old in
  do* modify (set_reg updated) in
  do* save_registry in
  ret new_version.

Definition initial_report : evolution_report := Report false false [] [] None.

(** "Handle compatibility issues" *)
Definition fix_compatibility (df : loc) (comparison : comparison)
    (report : evolution_report) : M (world E) (loc * evolution_report) :=
  if negb (is_compatible comparison) then
    let* df := handle_compatibility_issues df (compatibility_issues comparison) in
    ret (df, add_action "Applied compatibility fixes" report)
  else ret (df, report).

(** "Apply schema changes if we have a database engine" *)
Definition migrate (engine : option unit) (comparison : comparison)
    (report : evolution_report) : M (world E) evolution_report :=
  if bool_decide (is_Some engine)
     && negb (bool_decide (schema_changes comparison = []))
  then
    let* ok := apply_schema_changes (schema_changes comparison) "users" in
    if ok then
      ret (add_action "Applied database migration"
             (Report (schema_changed report) true (r_compatibility_issues report)
                (actions_taken report) (r_error report)))
    else ret report
  else ret report.

(** "Update schema registry" *)
Definition update_registry (detected_schema : schema) (comparison : comparison)
    (report : evolution_report) : M (world E) evolution_report :=
  if negb (bool_decide (schema_changes comparison = [])) then
    let description :=
      "Auto-evolution: " +:+ pretty (length (schema_changes comparison))
        +:+ " changes" in
    let* new_version := registry_add_version detected_schema description in
    ret (add_action ("Updated schema to version " +:+ pretty new_version) report)
  else ret report.

(** The branch [if comparison["requires_migration"]].  The source has one
    [try] around the whole body of [process_data_with_schema_evolution]
    and mutates the report as it goes; here each part that can raise
    carries the report as it stands at that point. *)
Definition reconcile (df : loc) (engine : option unit) (detected_schema : schema)
    (comparison : comparison) : M (world E) (loc * evolution_report) :=
  let report1 := Report true false (compatibility_issues comparison) [] None in
  try_except
    (let* '(df, report2) := fix_compatibility df comparison report1 in
     try_except
       (let* report3 := migrate engine comparison report2 in
        let* report4 := update_registry detected_schema comparison report3 in
        ret (df, report4))
       (fun e => ret (df, with_error e report2)))
    (fun e => ret (df, with_error e report1)).

(** [process_data_with_schema_evolution(df, engine)] *)
Definition process_data_with_schema_evolution (df : loc) (engine : option unit)
  : M (world E) (loc * evolution_report) :=
  do* emit (Called "process_data_with_schema_evolution") in
  try_except
    (let* fr := on_frames (deref df) in
     let* now := ask (clock env) in
     let* detected_schema :=
       of_res (detect_schema_from_dataframe lib (isoformat lib now) fr) in
     let* registry := gets reg in
     let comparison := compare_with_current_schema detected_schema registry in
     if requires_migration comparison
     then reconcile df engine detected_schema comparison
     else ret (df, initial_report))
    (fun e => ret (df, with_error e initial_report)).
End WithEnv.
End Evolution.

(** ** production_pipeline.py: ProductionETLPipeline *)

Module Pipeline.
Import Schema ErrorHandler Monitoring Store Evolution Retry.
Section WithEnv.
Context {E : Type} (lib : Lib) (env : Env E).

Record preflight := Preflight {
  passed : bool;
  p_issues : list string;
  p_warnings : list string;
  p_healthy : option bool;
  p_data_quality : option validation;
}.

(** [_run_preflight_checks] *)
Definition run_preflight_checks (file_path : string) : M (world E) preflight :=
  do* emit (Called "_run_preflight_checks") in
  try_except
    (let* ok := ask (healthy env) in
     let warnings1 := if ok then [] else ["System health issues detected"] in
     let* file_validation := validate_file env file_path in
     ret (Preflight
            (is_valid file_validation)
            (if is_valid file_validation then [] else v_issues file_validation)
            (warnings1 ++ v_warnings file_validation)
            (Some ok) (Some file_validation)))
    (fun e =>
       ret (Preflight false ["Pre-flight check error: " +:+ exn_msg e] []
              None None)).

(** [_extract_with_validation] *)
Definition extract_with_validation (file_path : string) : M (world E) loc :=
  let* raw_data := extract_data lib env file_path in
  do* emit (Called "validate_data_quality") in
  let* df := on_frames (deref raw_data) in
  let quality := validate_data_quality lib df in
  if negb (bool_decide (q_issues quality = [])) then
    raise (Exn "Exception"
             ("Data quality issues: " +:+ repr_list lib (q_issues quality)))
  else ret raw_data.

(** [_post_processing]: the archive path, or the error it caught. *)
Definition post_processing (file_path : string) (info : processing_info)
  : M (world E) (res string) :=
  try_except
    (let* archive_path := archive_successful_file lib env file_path info in
     ret (Ok archive_path))
    (fun e => ret (Raise e)).

Record success_result := Success {
  s_pipeline_id : string;
  s_file_processed : string;
  stages_completed : list string;
  rows_extracted : Z;
  rows_transformed : Z;
  s_rows_loaded : Z;
  s_execution_time : Q;
  schema_evolution : evolution_report;
  data_quality : option validation;
  alerts_triggered : nat;
  s_message : string;
}.

Record failure_result := Failure {
  f_pipeline_id : string;
  f_file_processed : string;
  failed_stage : string;
  error : string;
  error_type : string;
  f_execution_time : Q;
  quarantine_path : string;
  f_message : string;
}.

(** The dictionary [run_pipeline] returns; ['success'] tells the two. *)
Inductive run_result :=
| Succeeded (r : success_result)
| Failed (r : failure_result).

Definition success (r : run_result) : bool :=
  match r with Succeeded _ => true | Failed _ => false end.

(** [len(df)] *)
Definition len (r : loc) : M (world E) Z :=
  let* df := on_frames (deref r) in ret (Z.of_nat (nrows df)).

(** The first use of a value that [retry_with_backoff] may have
    returned as [None]: a [TypeError]. *)
Definition not_none {A} (what : string) (x : option A) : M (world E) A :=
  match x with
  | None => raise (Exn "TypeError" what)
  | Some a => ret a
  end.

Definition attribute_of_none (attr : string) : exn :=
  Exn "AttributeError" ("'NoneType' object has no attribute '" +:+ attr +:+ "'").

Fixpoint send_alerts (alerts : list string) (m : PipelineMetrics)
  : M (world E) unit :=
  match alerts with
  | [] => ret tt
  | alert :: rest =>
      do* send_alert lib env "PERFORMANCE_ALERT" alert (Some m) in
      send_alerts rest m
  end.

(** Stage 0 of the [try] block: pre-flight checks. *)
Definition stage_preflight (file_path : string) : M (world E) preflight :=
  let* preflight_result := run_preflight_checks file_path in
  if negb (passed preflight_result) then
    raise (Exn "Exception"
             ("Pre-flight checks failed: "
                +:+ repr_list lib (p_issues preflight_result)))
  else ret preflight_result.

(** Stage 1: extract with validation and retry. *)
Definition stage_extract (pid file_path : string) : M (world E) loc :=
  do* update_stage pid "extract" 0 in
  let* extracted :=
    retry_with_backoff production_handler (extract_with_validation file_path) in
  not_none "object of type 'NoneType' has no len()" extracted.

(** Stage 2: transform with schema evolution. *)
Definition stage_transform (pid : string) (skip_schema_evolution : bool)
    (raw_data : loc) : M (world E) (loc * evolution_report) :=
  let* n_raw := len raw_data in
  do* update_stage pid "transform" n_raw in
  let* engine :=
    (if negb skip_schema_evolution
     then let* e := connect_to_postgres lib env in ret (Some e)
     else ret None) in
  let* '(transformed_data, evolution_report) :=
    process_data_with_schema_evolution lib env raw_data engine in
  do* emit (Called "transform") in
  let* clean_data := on_frames (Transform.transform lib transformed_data) in
  ret (clean_data, evolution_report).

(** Stage 3: load, with retry. *)
Definition stage_load (pid : string) (clean_data : loc) : M (world E) load_result :=
  let* n_clean := len clean_data in
  do* update_stage pid "load" n_clean in
  let* loaded :=
    retry_with_backoff production_handler (load_data lib env clean_data) in
  not_none "'NoneType' object is not subscriptable" loaded.

(** Stage 4: post-processing, the end of the tracking, the alerts and the
    result of a successful run. *)
Definition stage_post_processing (pid file_path : string) (metrics : PipelineMetrics)
    (preflight_result : preflight) (raw_data clean_data : loc)
    (evolution_report : evolution_report) (load_result : load_result)
  : M (world E) run_result :=
  let* n_clean := len clean_data in
  let* now := ask (clock env) in
  let* post_result :=
    post_processing file_path
      (ProcessingInfo n_clean ((now - start_time metrics) # 1000000)) in
  let* final_metrics := finish_pipeline_tracking lib env pid "success" "" in
  match final_metrics with
  | None => raise (attribute_of_none "execution_time_seconds")
  | Some final =>
      let* alerts := check_pipeline_health lib final in
      do* send_alerts alerts final in
      let* n_raw := len raw_data in
      ret (Succeeded
             (Success pid (path_name lib file_path)
                ["extract"; "transform"; "load"; "post_processing"]
                n_raw n_clean (rows_loaded load_result)
                (execution_time_seconds final) evolution_report
                (p_data_quality preflight_result) (length alerts)
                ("Production pipeline completed successfully: " +:+ pid)))
  end.

(** The [try] block of [run_pipeline]. *)
Definition run_stages (pid file_path : string) (skip_schema_evolution : bool)
    (metrics : PipelineMetrics) : M (world E) run_result :=
  let* preflight_result := stage_preflight file_path in
  let* raw_data := stage_extract pid file_path in
  let* '(clean_data, evolution_report) :=
    stage_transform pid skip_schema_evolution raw_data in
  let* load_result := stage_load pid clean_data in
  stage_post_processing pid file_path metrics preflight_result raw_data clean_data
    evolution_report load_result.

(** The [except Exception as e] block of [run_pipeline]. *)
Definition handle_failure (pid file_path : string) (e : exn)
  : M (world E) run_result :=
  let* final_metrics :=
    finish_pipeline_tracking lib env pid "failed" (exn_msg e) in
  do* send_alert lib env "PIPELINE_FAILURE" (exn_msg e) final_metrics in
  match final_metrics with
  | None => raise (attribute_of_none "stage")
  | Some final =>
      let* quarantined :=
        quarantine_file lib env file_path
          (ErrorInfo (stage final) (exn_msg e) (exn_type e) pid) in
      ret (Failed
             (Failure pid (path_name lib file_path) (stage final) (exn_msg e)
                (exn_type e) (execution_time_seconds final) quarantined
                ("Production pipeline failed: " +:+ pid +:+ " - "
                   +:+ exn_msg e)))
  end.

(** [run_pipeline(file_path, pipeline_options)]; of the options only
    [skip_schema_evolution] is read.  [Raise] is an exception that
    leaves [run_pipeline]. *)
Definition run_pipeline (file_path : string) (skip_schema_evolution : bool)
  : M (world E) run_result :=
  let* hex := ask (uuid_hex8 env) in
  let* now := ask (clock env) in
  let pid := "pipeline_" +:+ hex +:+ "_" +:+ pretty (now / 1000000) in
  let* metrics := start_pipeline_tracking env pid file_path in
  try_except
    (run_stages pid file_path skip_schema_evolution metrics)
    (handle_failure pid file_path).
End WithEnv.
End Pipeline.

(** ** Concrete libraries and environments, to run the model *)

Module Scenario.
Import Schema ErrorHandler Monitoring Store Evolution Retry Pipeline.

(** A POSIX path cut at its slashes. *)
Fixpoint split_path (cur : string) (s : string) : list string :=
  match s with
  | EmptyString => [cur]
  | String c s' =>
      if Ascii.eqb c "/"%char then cur :: split_path "" s'
      else split_path (cur +:+ String c "") s'
  end.

(** The components [Path(p)] keeps: the empty ones and the dots go. *)
Definition path_parts (p : string) : list string :=
  filter (fun part => part <> "" /\ part <> ".") (split_path "" p).

(** The root of [Path(p)]: one slash, or two when [p] starts with exactly
    two. *)
Definition path_root (p : string) : string :=
  match p with
  | String "/"%char (String "/"%char (String "/"%char _)) => "/"
  | String "/"%char (String "/"%char _) => "//"
  | String "/"%char _ => "/"
  | _ => ""
  end.

Definition join_parts (parts : list string) : string :=
  match parts with
  | [] => ""
  | x :: xs => fold_left (fun acc s => acc +:+ "/" +:+ s) xs x
  end.

(** [str(Path(p))] *)
Definition posix_str (p : string) : string :=
  let s := path_root p +:+ join_parts (path_parts p) in
  if decide (s = "") then "." else s.

(** [Path(p).name]: the last component. *)
Definition posix_name (p : string) : string := List.last (path_parts p) "".

(** From the last dot of a string on. *)
Fixpoint suffix_from (cur : option string) (s : string) : string :=
  match s with
  | EmptyString => default "" cur
  | String c s' =>
      if Ascii.eqb c "."%char then suffix_from (Some ".") s'
      else suffix_from ((fun x => x +:+ String c "") <$> cur) s'
  end.

(** [Path(p).suffix]: from the last dot of the name on, unless that dot
    starts or ends the name. *)
Definition posix_suffix (p : string) : string :=
  match posix_name p with
  | EmptyString => ""
  | String _ rest =>
      let s := suffix_from None rest in
      if decide (s = ".") then "" else s
  end.

Definition quote (s : string) : string := "'" +:+ s +:+ "'".

(** [int(s)] on a string of ASCII digits. *)
Fixpoint digits_value (acc : Z) (s : string) : option Z :=
  match s with
  | EmptyString => Some acc
  | String c s' =>
      let n := Z.of_nat (nat_of_ascii c) in
      if (48 <=? n) && (n <=? 57) then digits_value (10 * acc + (n - 48)) s'
      else None
  end.

Definition decimal (s : string) : option Z :=
  match s with
  | EmptyString => None
  | _ => digits_value 0 s
  end.

(** A component of more than 255 characters: [os.stat] fails with
    ENAMETOOLONG. *)
Definition name_too_long (p : string) : bool :=
  existsb (fun part => (255 <? String.length part)%nat) (path_parts p).

Definition stat_failure (p : string) : option exn :=
  if name_too_long p then
    Some (Exn "OSError" ("[Errno 36] File name too long: " +:+ quote (posix_str p)))
  else None.

(** A library in which every pandas conversion leaves the column as it
    is, times print as numbers, and paths are POSIX paths. *)
Definition plain_lib : Lib := {|
  to_numeric_coerce := Ok;
  astype_int := Ok;
  astype_str := Ok;
  to_datetime_coerce := Ok;
  dt_strftime := fun _ => Ok;
  dt_date := Ok;
  infer_dtype := fun _ => "object";
  nunique := fun c => Ok (Z.of_nat (length (cells c)));
  str_len_max := fun _ => Ok 0;
  col_min_int := fun _ => Ok 0;
  col_max_int := fun _ => Ok 0;
  col_min_float := fun _ => Ok 0%Q;
  col_max_float := fun _ => Ok 0%Q;
  quality_stats := fun _ => Ok [];
  isoformat := fun t => pretty t;
  strftime := fun _ t => pretty t;
  date_of := fun t => t / 86400000000;
  repr_list := fun l => "[" +:+ join_with ", " (map quote l) +:+ "]";
  format_fixed := fun _ q => pretty (Qnum q) +:+ "/" +:+ pretty (Zpos (Qden q));
  path_name := posix_name;
  path_suffix := posix_suffix;
  path_str := posix_str;
  py_int := decimal;
  repr_str := quote;
|}.

(** The external state of a scripted environment: the clock, and how
    often the input was read. *)
Record tape := Tape { ticks : Z; reads : nat }.

(** What the outside answers. *)
Record script := Script {
  sc_read : nat -> res frame;            (* the n-th read of the input *)
  sc_validation : res validation;
  sc_healthy : bool;
  sc_copy : option exn;
  sc_move : option exn;
  sc_write : string -> option exn;
  sc_probe : option exn;
  sc_execute : string -> option exn;
  sc_to_sql : option exn;
}.

Definition scripted (s : script) : Env tape := {|
  clock := fun x => (ticks x, Tape (ticks x + 1000000) (reads x));
  uuid_hex8 := fun x => ("0a1b2c3d", x);
  pd_read := fun _ x => (sc_read s (reads x), Tape (ticks x) (S (reads x)));
  inspect_file := fun _ x => (sc_validation s, x);
  healthy := fun x => (sc_healthy s, x);
  os_copy := fun _ _ x => (sc_copy s, x);
  os_move := fun _ _ x => (sc_move s, x);
  os_stat_size := fun _ x => (Ok 64, x);
  os_write := fun p x => (sc_write s p, x);
  stat_error := fun p _ => stat_failure p;
  missing_env_vars := fun x => ([], x);
  db_port := fun x => ("5432", x);
  pg_probe := fun x => (sc_probe s, x);
  db_open := fun x => (None, x);
  db_execute := fun q x => (sc_execute s q, x);
  db_commit := fun x => (None, x);
  to_sql := fun _ x => (sc_to_sql s, x);
|}.

Definition text (vs : list string) : column := Column "object" (map CStr vs).
Definition ints (vs : list Z) : column := Column "int64" (map CInt vs).
Definition bools (vs : list bool) : column := Column "bool" (map CBool vs).

(** Two users, with the four columns of the initial schema. *)
Definition users : frame :=
  MkFrame 2
    [ ("user_id", text ["u1"; "u2"]);
      ("age", ints [31; 47]);
      ("sign_up_date", text ["2024-01-01"; "2024-01-02"]);
      ("is_active", bools [true; false]) ].

Definition clean_file : validation := Validation true [] [] [].

(** Everything outside works. *)
Definition all_well : script := {|
  sc_read := fun _ => Ok users;
  sc_validation := Ok clean_file;
  sc_healthy := true;
  sc_copy := None;
  sc_move := None;
  sc_write := fun _ => None;
  sc_probe := None;
  sc_execute := fun _ => None;
  sc_to_sql := None;
|}.

Definition input : string := "data/input/users.csv".

Fixpoint filled (n : nat) (c : ascii) : string :=
  match n with
  | O => ""
  | S n' => String c (filled n' c)
  end.

(** A file name of 304 characters, more than a file system takes. *)
Definition long_name : string := filled 300 "a" +:+ ".csv".

(** A fresh pipeline object, with the default registry, on a file system
    that holds [files]. *)
Definition fresh (files : list string) : world tape :=
  MkWorld (Tape 0 0) (list_to_set files) [] ∅ (default_registry "0") 0 [].

Definition run (s : script) (skip : bool) (w : world tape)
  : res run_result * world tape :=
  run_pipeline plain_lib (scripted s) input skip w.

(** The same users with a nickname, which the second one lacks. *)
Definition users_with_nickname : frame :=
  MkFrame 2 (columns users ++ [("nickname", Column "object" [CStr "al"; CNull])]).

(** The same users with an e-mail address each. *)
Definition users_with_email : frame :=
  MkFrame 2 (columns users ++ [("email", text ["u1@example.org"; "u2@example.org"])]).

Definition no_schema : schema := MkSchema None None None None None.

(** The schema the detector reads off a frame. *)
Definition detected (df : frame) : schema :=
  match detect_schema_from_dataframe plain_lib "0" df with
  | Ok s => s
  | Raise _ => no_schema
  end.

(** The registry after a run on [df] appended the schema detected there,
    as [process_data_with_schema_evolution] does for an added column. *)
Definition evolved_registry (df : frame) : registry :=
  (add_schema_version "1" "2" (detected df) "Auto-evolution: 1 changes"
     (default_registry "0")).2.

(** The store refuses the rows: a user id is already in the table. *)
Definition constraint_violation : script := {|
  sc_read := fun _ => Ok users;
  sc_validation := Ok clean_file;
  sc_healthy := true;
  sc_copy := None;
  sc_move := None;
  sc_write := fun _ => None;
  sc_probe := None;
  sc_execute := fun _ => None;
  sc_to_sql :=
    Some (Exn "IntegrityError" "duplicate key value violates unique constraint users_pkey");
|}.

(** A file with a header and no row. *)
Definition no_rows : frame :=
  MkFrame 0
    [ ("user_id", text []); ("age", ints []);
      ("sign_up_date", text []); ("is_active", bools []) ].

Definition empty_dataset : script := {|
  sc_read := fun _ => Ok no_rows;
  sc_validation := Ok clean_file;
  sc_healthy := true;
  sc_copy := None;
  sc_move := None;
  sc_write := fun _ => None;
  sc_probe := None;
  sc_execute := fun _ => None;
  sc_to_sql := None;
|}.

(** The empty dataset again, with a quarantine copy that fails. *)
Definition quarantine_fails (why : string) : script := {|
  sc_read := fun _ => Ok no_rows;
  sc_validation := Ok clean_file;
  sc_healthy := true;
  sc_copy := Some (Exn "OSError" why);
  sc_move := None;
  sc_write := fun _ => None;
  sc_probe := None;
  sc_execute := fun _ => None;
  sc_to_sql := None;
|}.

(** The data has a new column, and the store refuses every ALTER TABLE. *)
Definition ddl_fails : script := {|
  sc_read := fun _ => Ok users_with_email;
  sc_validation := Ok clean_file;
  sc_healthy := true;
  sc_copy := None;
  sc_move := None;
  sc_write := fun _ => None;
  sc_probe := None;
  sc_execute := fun q =>
    if String.prefix "ALTER TABLE" q
    then Some (Exn "ProgrammingError" "permission denied for table users")
    else None;
  sc_to_sql := None;
|}.

(** A pipeline object whose registry was evolved by a run on [df]. *)
Definition evolved (df : frame) (files : list string) : world tape :=
  MkWorld (Tape 0 0) (list_to_set files) [] ∅ (evolved_registry df) 0 [].

(** Two users whose age is not known. *)
Definition users_without_age : frame :=
  MkFrame 2
    [ ("user_id", text ["u1"; "u2"]);
      ("sign_up_date", text ["2024-01-01"; "2024-01-02"]);
      ("is_active", bools [true; false]) ].

(** A pipeline object with the default registry that holds one DataFrame. *)
Definition holding (df : frame) : world tape :=
  MkWorld (Tape 0 0) ∅ [df] ∅ (default_registry "0") 0 [].

(** An operation that fails at its first three calls and then returns 7,
    over a world whose external state counts the calls. *)
Definition flaky : M (world nat) Z :=
  fun w =>
    let w' := set_ext (S (ext w)) w in
    if decide (ext w < 3)%nat
    then (Raise (Exn "IOError" ("failure " +:+ pretty (S (ext w)))), w')
    else (Ok 7, w').

(** An operation that fails at every call, each time with a new error. *)
Definition hopeless : M (world nat) Z :=
  fun w =>
    (Raise (Exn "IOError" ("failure " +:+ pretty (S (ext w)))),
     set_ext (S (ext w)) w).

Definition idle : world nat :=
  MkWorld 0%nat ∅ [] ∅ (default_registry "0") 0 [].
End Scenario.

(** ** The vocabulary of the properties *)

Module Spec.

(** Every run of [m] relates the world it starts in to the one it ends in,
    whether it returns or raises. *)
Definition keeps {W A} (R : W -> W -> Prop) (m : M W A) : Prop :=
  forall w, R w (m w).2.

(** [m] never raises. *)
Definition returns {W A} (m : M W A) : Prop :=
  forall w, exists a w', m w = (Ok a, w').

(** What the in-place part of [transform] maintains: the size of the heap,
    the objects below [n], and the required columns and the number of rows
    of the object [df] it works on. *)
Definition working (n df : loc) (old : heap) (rows : nat) (h : heap) : Prop :=
  length h = S df
  /\ (forall r0, (r0 < n)%nat -> h !! r0 = old !! r0)
  /\ (forall col, col ∈ Transform.required_columns -> has_column (read h df) col)
  /\ nrows (read h df) = rows.

Definition stays_working (n df : loc) (old : heap) (rows : nat) (h h' : heap) : Prop :=
  working n df old rows h -> working n df old rows h'.

(** How often [f] was entered. *)
Definition calls (f : string) (tr : list event) : nat :=
  length (filter (fun ev => ev = Called f) tr).

(** The sleeps of a trace. *)
Definition sleeps (tr : list event) : list Q :=
  omap (fun ev => match ev with Slept q => Some q | _ => None end) tr.

(** The column [col] of the object [df], its number of rows and the size of
    the heap are the same. *)
Definition column_kept (df : loc) (col : string) (h h' : heap) : Prop :=
  length h' = length h
  /\ nrows (read h' df) = nrows (read h df)
  /\ getitem (read h' df) col = getitem (read h df) col.

(** The columns [_handle_compatibility_issues] has a default for. *)
Definition defaulted_columns : list string :=
  ["user_id"; "age"; "is_active"; "sign_up_date"].

(** A type mismatch comes with the two types, as [compare_with_current_schema]
    builds it. *)
Definition well_formed (issue : Schema.compat_issue) : Prop :=
  Schema.i_type issue = "type_mismatch" -> is_Some (Schema.i_types issue).

Section WorldRelations.
Context {E : Type}.

(** The trace grew, by events that all satisfy [P]. *)
Definition extends_trace (P : event -> Prop) (w w' : world E) : Prop :=
  exists tr, trace w' = trace w ++ tr /\ Forall P tr.

(** A relation between worlds that holds across any change of the external
    state and of the files, and across an allowed event. *)
Record stable (allowed : event -> Prop) (R : world E -> world E -> Prop) : Prop := {
  stable_refl : Reflexive R;
  stable_trans : Transitive R;
  stable_ext : forall w x, R w (set_ext x w);
  stable_fs : forall w x, R w (set_fs x w);
  stable_emit : forall w ev, allowed ev -> R w (set_trace (trace w ++ [ev]) w);
}.

(** A relation that holds across any change of the frames. *)
Definition frames_free (R : world E -> world E -> Prop) : Prop :=
  forall w x, R w (set_frames x w).

(** The frames are the same. *)
Definition same_frames (w w' : world E) : Prop := frames w' = frames w.

(** The events of the archive and of the quarantine. *)
Definition archives (ev : event) : Prop :=
  match ev with
  | Called f => f = "archive_successful_file"
  | Moved _ _ => True
  | _ => False
  end.

Definition quarantines (ev : event) : Prop :=
  match ev with
  | Called f => f = "quarantine_file"
  | Copied _ _ => True
  | _ => False
  end.

(** Every other event. *)
Definition benign (ev : event) : Prop := ~ archives ev /\ ~ quarantines ev.

(** The events that are not the entry into a function: sleeps, SQL
    statements, written files and alerts. *)
Definition effect (ev : event) : Prop :=
  match ev with
  | Slept _ | Sql _ | Wrote _ | Alerted _ _ => True
  | _ => False
  end.

(** The entry into a function. *)
Definition is_call (ev : event) : Prop :=
  match ev with Called _ => True | _ => False end.

(** The registry is the same. *)
Definition same_reg (w w' : world E) : Prop := reg w' = reg w.

(** [Path(path).exists()] answers, whatever the state of the outside. *)
Definition stat_answers (env : Env E) (path : string) : Prop :=
  forall x, stat_error env path x = None.

(** [e] is what [os.stat] raises on [path] in the state of the outside
    that [w] holds: the [OSError] that [Path(path).exists()] lets
    through. *)
Definition stat_raises (env : Env E) (path : string) (e : exn) (w : world E) : Prop :=
  stat_error env path (ext w) = Some e.

(** The run [pid] is tracked by the metrics collector, in one of the three
    stages it knows. *)
Definition tracked (pid : string) (w : world E) : Prop :=
  exists m, current_metrics w !! pid = Some m
            /\ stage m ∈ ["extract"; "transform"; "load"].

(** The run stays tracked, and the trace grows by events in [P]. *)
Definition progress (pid : string) (P : event -> Prop) (w w' : world E) : Prop :=
  (tracked pid w -> tracked pid w') /\ extends_trace P w w'.

Definition column_kept_in (df : loc) (col : string) (w w' : world E) : Prop :=
  column_kept df col (frames w) (frames w').

(** The documented default of a column, for a frame of [n] rows: the keys
    1 to [n], zero, true, and the date of a reading of the clock. *)
Definition documented_default (lib : Lib) (env : Env E) (col : string) (n : nat)
    (c : column) : Prop :=
  (col = "user_id" /\ c = Column "int64" (map (fun i => CInt (Z.of_nat i)) (seq 1 n)))
  \/ (col = "age" /\ c = Column "int64" (replicate n (CInt 0)))
  \/ (col = "is_active" /\ c = Column "bool" (replicate n (CBool true)))
  \/ (col = "sign_up_date"
      /\ exists x, c = Column "object" (replicate n (CDate (date_of lib (clock env x).1)))).

End WorldRelations.

End Spec.

(* ------------------------------------------------------------------ *)
(** ** More of the model: the conductor of pipeline.py, the batch runs,
       and more vocabulary                                              *)
(* ------------------------------------------------------------------ *)

(** ** More vocabulary *)

Module Terms.
Import Retry.

Section WithWorld.
Context {E A : Type}.

(** The calls of [func] that failed with the exceptions [errs], one after
    the other from the attempt [attempt] on, each followed by the sleep of
    the handler, which [time.sleep] accepted: from the world [w] they lead
    to the world [w']. *)
Fixpoint failures (h : RetryHandler) (func : M (world E) A) (errs : list exn)
    (attempt : nat) (w w' : world E) : Prop :=
  match errs with
  | [] => w' = w
  | e :: errs' =>
      exists w1, func w = (Raise e, w1)
                 /\ wait_error h attempt = None
                 /\ failures h func errs' (S attempt) (slept (wait_time h attempt) w1) w'
  end.
End WithWorld.
End Terms.

Module Terms2.
Section WorldRelations.
Context {E : Type}.

(** The metrics collector tracks the same runs, in the same state. *)
Definition same_metrics (w w' : world E) : Prop :=
  current_metrics w' = current_metrics w.

(** The counter of the alerting system is the same. *)
Definition same_failures (w w' : world E) : Prop :=
  consecutive_failures w' = consecutive_failures w.

(** A relation between worlds that holds across any change of the external
    state, of the DataFrame objects and of the registry, across the
    creation of a file, and across an allowed event.  (Unlike a [stable]
    relation it need not hold when a file is removed.) *)
Record gentle (allowed : event -> Prop) (R : world E -> world E -> Prop) : Prop := {
  gentle_refl : Reflexive R;
  gentle_trans : Transitive R;
  gentle_ext : forall w x, R w (set_ext x w);
  gentle_create : forall w p, R w (set_fs ({[p]} ∪ fs w) w);
  gentle_emit : forall w ev, allowed ev -> R w (set_trace (trace w ++ [ev]) w);
  gentle_frames : forall w x, R w (set_frames x w);
  gentle_reg : forall w x, R w (set_reg x w);
}.

(** Every file is still there. *)
Definition files_kept (w w' : world E) : Prop := fs w ⊆ fs w'.

(** Every file but [path] is still there. *)
Definition files_kept_but (path : string) (w w' : world E) : Prop :=
  fs w ∖ {[path]} ⊆ fs w'.

(** The run [pid] is tracked, in a stage before the load. *)
Definition early (pid : string) (w : world E) : Prop :=
  exists m, current_metrics w !! pid = Some m
            /\ stage m ∈ ["extract"; "transform"].

(** The metrics collector tracks the same runs in the same state, the
    run [pid] apart. *)
Definition same_metrics_but (pid : string) (w w' : world E) : Prop :=
  delete pid (current_metrics w') = delete pid (current_metrics w).

(** Any event but the entry into [load_data]. *)
Definition not_load (ev : event) : Prop := ev <> Called "load_data".

(** The run stays in a stage before the load, and the trace grows by
    events in [P]. *)
Definition before_load (pid : string) (P : event -> Prop) (w w' : world E) : Prop :=
  (early pid w -> early pid w') /\ Spec.extends_trace P w w'.
End WorldRelations.
End Terms2.

(** What a run leaves alone when all it does is talk to the database:
    its trace grows by the statements [stmts], and the files, the
    DataFrame objects, the registry, the metrics and the counter of
    failures are the same. *)
Module Statements.
Import Schema.
Section WithWorld.
Context {E : Type}.

Definition database_only (stmts : list string) (w w' : world E) : Prop :=
  trace w' = trace w ++ map Sql stmts
  /\ fs w' = fs w /\ frames w' = frames w /\ reg w' = reg w
  /\ current_metrics w' = current_metrics w
  /\ consecutive_failures w' = consecutive_failures w.
End WithWorld.

(** The statements of the [try] block of [apply_schema_changes]: an
    [ADD COLUMN] for an added column of [changes], or the record of the
    migration. *)
Definition migration_statement (table : string) (changes : list schema_change)
    (s : string) : Prop :=
  (exists c rest,
     c ∈ changes /\ c_type c = "column_added"
     /\ s = "ALTER TABLE " +:+ table +:+ " ADD COLUMN " +:+ c_column c +:+ " " +:+ rest)
  \/ (exists rest,
        s = "INSERT INTO schema_migrations (version, description, rollback_sql) VALUES ("
              +:+ rest).
End Statements.

Module Counting.

(** How many elements of a list satisfy [p]. *)
Definition count {A} (p : A -> bool) (l : list A) : Z :=
  Z.of_nat (length (filter (fun r => p r = true) l)).

(** The first character of a string. *)
Definition first_char (s : string) : option ascii :=
  match s with
  | String c _ => Some c
  | EmptyString => None
  end.
End Counting.

(** The stages of [run_pipeline] before the post-processing, as one
    computation: what they hand to the last stage. *)
Module Stages.
Import Schema ErrorHandler Monitoring Store Evolution Retry Pipeline.
Section WithEnv.
Context {E : Type} (lib : Lib) (env : Env E).

Record handed := Handed {
  h_preflight : preflight;
  h_raw_data : loc;
  h_clean_data : loc;
  h_evolution_report : evolution_report;
  h_load_result : load_result;
}.

Definition first_stages (pid file_path : string) (skip_schema_evolution : bool)
  : M (world E) handed :=
  let* preflight_result := stage_preflight lib env file_path in
  let* raw_data := stage_extract lib env pid file_path in
  let* '(clean_data, evolution_report) :=
    stage_transform lib env pid skip_schema_evolution raw_data in
  let* load_result := stage_load lib env pid clean_data in
  ret (Handed preflight_result raw_data clean_data evolution_report load_result).
End WithEnv.
End Stages.

(** More situations. *)
Module Cases.
Import Scenario.

(** The environment [env] with another value of DB_PORT. *)
Definition with_port (port : string) (env : Env tape) : Env tape := {|
  clock := clock env;
  uuid_hex8 := uuid_hex8 env;
  pd_read := pd_read env;
  inspect_file := inspect_file env;
  healthy := healthy env;
  os_copy := os_copy env;
  os_move := os_move env;
  os_stat_size := os_stat_size env;
  os_write := os_write env;
  stat_error := stat_error env;
  missing_env_vars := missing_env_vars env;
  db_port := fun x => (port, x);
  pg_probe := pg_probe env;
  db_open := db_open env;
  db_execute := db_execute env;
  db_commit := db_commit env;
  to_sql := to_sql env;
|}.

(** The database cannot be reached. *)
Definition database_down : script := {|
  sc_read := fun _ => Ok users;
  sc_validation := Ok clean_file;
  sc_healthy := true;
  sc_copy := None;
  sc_move := None;
  sc_write := fun _ => None;
  sc_probe := Some (Exn "OperationalError" "connection refused");
  sc_execute := fun _ => None;
  sc_to_sql := None;
|}.
End Cases.

(** ** pipeline.py: the conductor *)

(** A local variable of a function body, beside the world. *)
Module Local.
Section WithLocal.
Context {W L : Type}.

(** A computation of the world, run where the local variable lives. *)
Definition lift {A} (m : M W A) : M (W * L) A :=
  fun s => let '(r, w) := m s.1 in (r, (w, s.2)).

Definition get_local : M (W * L) L := gets snd.

Definition set_local (f : L -> L) : M (W * L) unit :=
  modify (fun s => (s.1, f s.2)).

(** The body [m] with its local variable initialised to [init]. *)
Definition with_local {A} (init : L) (m : M (W * L) A) : M W A :=
  fun w => let '(r, s) := m (w, init) in (r, s.1).
End WithLocal.
End Local.

Module Conductor.
Import Local Store Pipeline.
Section WithEnv.
Context {E : Type} (lib : Lib) (env : Env E).

(** [get_current_stage] *)
Definition get_current_stage (stages_completed : list string) : string :=
  match length stages_completed with
  | 0%nat => "extract"
  | 1%nat => "transform"
  | 2%nat => "load"
  | _ => "unknown"
  end.

Record etl_success := EtlSuccess {
  e_stages_completed : list string;
  e_file_processed : string;
  e_rows_extracted : Z;
  e_rows_transformed : Z;
  e_rows_loaded : Z;
  e_execution_time : string;
  e_message : string;
}.

Record etl_failure := EtlFailure {
  ef_stages_completed : list string;
  ef_failed_stage : string;
  ef_file_processed : string;
  ef_error : string;
  ef_execution_time : string;
  ef_message : string;
}.

(** The dictionary [run_etl_pipeline] returns; ['success'] tells the two. *)
Inductive etl_result :=
| EtlSucceeded (r : etl_success)
| EtlFailed (r : etl_failure).

Definition succeeded (r : etl_result) : bool :=
  match r with EtlSucceeded _ => true | EtlFailed _ => false end.

(** [stages_completed.append(stage)] *)
Definition completed (stage : string) : M (world E * list string) unit :=
  set_local (fun stages_completed => stages_completed ++ [stage]).

(** [run_etl_pipeline(file_path)]; the local variable is
    [stages_completed].  The printing and the logging are left out. *)
Definition run_etl_pipeline (file_path : string) : M (world E) etl_result :=
  let* pipeline_start := ask (clock env) in
  let file_name := path_name lib file_path in
  with_local []
    (try_except
       (let* raw_data := lift (extract_data lib env file_path) in
        do* completed "extract" in
        do* lift (emit (Called "transform")) in
        let* clean_data := lift (on_frames (Transform.transform lib raw_data)) in
        do* completed "transform" in
        let* load_result := lift (load_data lib env clean_data) in
        do* completed "load" in
        let* now := lift (ask (clock env)) in
        let pipeline_time := (now - pipeline_start) # 1000000 in
        let* stages_completed := get_local in
        let* n_raw := lift (len raw_data) in
        let* n_clean := lift (len clean_data) in
        ret (EtlSucceeded
               (EtlSuccess stages_completed file_name n_raw n_clean
                  (Store.rows_loaded load_result)
                  (format_fixed lib 2 pipeline_time +:+ " seconds")
                  ("ETL pipeline completed successfully for " +:+ file_name))))
       (fun e =>
          let* now := lift (ask (clock env)) in
          let pipeline_time := (now - pipeline_start) # 1000000 in
          let* stages_completed := get_local in
          let failed_stage := get_current_stage stages_completed in
          ret (EtlFailed
                 (EtlFailure stages_completed failed_stage file_name (exn_msg e)
                    (format_fixed lib 2 pipeline_time +:+ " seconds")
                    ("Pipeline failed at " +:+ failed_stage +:+ " stage: "
                       +:+ exn_msg e))))).

(** What [run_batch_pipeline] returns: the short dictionary when no file
    matches, the summary otherwise. *)
Record etl_batch_summary := EtlSummary {
  eb_success : bool;
  eb_total_files : nat;
  eb_successful_files : Z;
  eb_failed_files : Z;
  eb_files_processed : list etl_result;
  eb_message : string;
}.

Inductive etl_batch_result :=
| EtlNoFiles (message : string)
| EtlBatch (summary : etl_batch_summary).

(** The loop over the files, with its three accumulators. *)
Fixpoint etl_batch_loop (files : list string) (results : list etl_result)
    (successful_files failed_files : Z)
  : M (world E) (list etl_result * Z * Z) :=
  match files with
  | [] => ret (results, successful_files, failed_files)
  | file_path :: rest =>
      let* result := run_etl_pipeline file_path in
      let results := results ++ [result] in
      if succeeded result
      then etl_batch_loop rest results (successful_files + 1) failed_files
      else etl_batch_loop rest results successful_files (failed_files + 1)
  end.

(** [run_batch_pipeline(input_directory, file_pattern)]; [glob] is
    [list(Path(input_directory).glob(file_pattern))] on the files that
    exist, in the state of the outside: the paths found, or the exception
    of [glob] (a [ValueError] for an empty pattern, a [NotImplementedError]
    for an absolute one).  The call stands outside any [try]. *)
Definition run_batch_pipeline
    (glob : string -> string -> gset string -> E -> res (list string))
    (input_directory file_pattern : string) : M (world E) etl_batch_result :=
  let* found := gets (fun w => glob input_directory file_pattern (fs w) (ext w)) in
  let* files := of_res found in
  if bool_decide (files = []) then
    ret (EtlNoFiles ("No files found matching " +:+ file_pattern +:+ " in "
                    +:+ input_directory))
  else
    let* '(results, successful_files, failed_files) := etl_batch_loop files [] 0 0 in
    ret (EtlBatch
           (EtlSummary (bool_decide (failed_files = 0)) (length files)
              successful_files failed_files results
              ("Batch processing completed: " +:+ pretty successful_files +:+ "/"
                 +:+ pretty (length files) +:+ " files successful"))).
End WithEnv.
End Conductor.

(** ** production_pipeline.py: run_batch_pipeline *)

Module ProductionBatch.
Import Monitoring Pipeline.
Section WithEnv.
Context {E : Type} (lib : Lib) (env : Env E).

Record batch_summary := Summary {
  b_success : bool;
  total_files : nat;
  successful_files : Z;
  failed_files : Z;
  success_rate : Q;
  total_rows_processed : Z;
  detailed_results : list run_result;
  b_message : string;
}.

Inductive batch_result :=
| NoFiles (message : string)
| Batch (summary : batch_summary).

(** [result.get('rows_loaded', 0)] *)
Definition rows_loaded_of (r : run_result) : Z :=
  match r with
  | Succeeded s => s_rows_loaded s
  | Failed _ => 0
  end.

(** The loop over the files, with its four accumulators;
    [run_pipeline(str(file_path))] has no options. *)
Fixpoint batch_loop (files : list string) (batch_results : list run_result)
    (successful_files failed_files total_rows_processed : Z)
  : M (world E) (list run_result * Z * Z * Z) :=
  match files with
  | [] => ret (batch_results, successful_files, failed_files, total_rows_processed)
  | file_path :: rest =>
      let* result := run_pipeline lib env file_path false in
      let batch_results := batch_results ++ [result] in
      if success result
      then batch_loop rest batch_results (successful_files + 1) failed_files
             (total_rows_processed + rows_loaded_of result)
      else batch_loop rest batch_results successful_files (failed_files + 1)
             total_rows_processed
  end.

(** [run_batch_pipeline(input_directory, file_pattern)];
    [batch_alerts_enabled] is [self.config.get('batch_alerts_enabled')],
    and [glob] is [list(Path(input_directory).glob(file_pattern))], which
    returns the paths found or raises; the call stands outside any
    [try]. *)
Definition run_batch_pipeline
    (glob : string -> string -> gset string -> E -> res (list string))
    (batch_alerts_enabled : bool) (input_directory file_pattern : string)
  : M (world E) batch_result :=
  let* found := gets (fun w => glob input_directory file_pattern (fs w) (ext w)) in
  let* files := of_res found in
  if bool_decide (files = []) then
    ret (NoFiles ("No files found matching " +:+ file_pattern +:+ " in "
                    +:+ input_directory))
  else
    let* '(batch_results, successful_files, failed_files, total_rows_processed) :=
      batch_loop files [] 0 0 0 in
    let batch_result :=
      Summary (bool_decide (failed_files = 0)) (length files)
        successful_files failed_files
        (inject_Z successful_files / inject_Z (Z.of_nat (length files)) * 100)%Q
        total_rows_processed batch_results
        ("Batch processing completed: " +:+ pretty successful_files +:+ "/"
           +:+ pretty (length files) +:+ " files successful") in
    do* (if batch_alerts_enabled && bool_decide (0 < failed_files)
         then send_alert lib env "BATCH_COMPLETION"
                ("Batch pipeline completed: " +:+ pretty successful_files +:+ "/"
                   +:+ pretty (length files) +:+ " successful") None
         else ret tt) in
    ret (Batch batch_result).
End WithEnv.
End ProductionBatch.

Module BatchTerms.
Import Pipeline ProductionBatch.

(** The rows loaded by the successful runs among [results]. *)
Definition rows_of (results : list run_result) : Z :=
  foldr Z.add 0 (map rows_loaded_of (filter (fun r => success r = true) results)).
End BatchTerms.

(* ================================================================== *)
(** * Part II: properties                                               *)
(* ================================================================== *)

(** ** RetryHandler *)

Module RetryFacts.
Import Retry.
Section WithWorld.
Context {E A : Type}.
Implicit Types (h : RetryHandler) (func : M (world E) A) (w : world E).

Lemma retry_loop_returns h func todo attempt w a w' :
  func w = (Ok a, w') ->
  retry_loop h func (S todo) attempt w = (Ok (Some a), w').
Proof.
  intros Hf. cbn [retry_loop]. unfold try_except, bind, ret.
  now rewrite Hf.
Qed.

Lemma retry_loop_gives_up h func todo attempt w e w' :
  func w = (Raise e, w') ->
  Z.of_nat attempt = max_retries h ->
  retry_loop h func (S todo) attempt w = (Raise e, w').
Proof.
  intros Hf Hlast. cbn [retry_loop]. unfold try_except, bind.
  rewrite Hf. destruct (decide _); [reflexivity | contradiction].
Qed.

Lemma wait_error_None h attempt :
  wait_error h attempt = None ->
  backoff h attempt = Ok (wait_time h attempt)
  /\ sleep_error (wait_time h attempt) = None.
Proof.
  unfold wait_error, backoff. destruct (decide _); [discriminate | auto].
Qed.

Lemma retry_loop_retries h func todo attempt w e w' :
  func w = (Raise e, w') ->
  Z.of_nat attempt <> max_retries h ->
  wait_error h attempt = None ->
  retry_loop h func (S todo) attempt w =
  retry_loop h func todo (S attempt) (slept (wait_time h attempt) w').
Proof.
  intros Hf Hmore Hwait. apply wait_error_None in Hwait as [Hb Hs].
  cbn [retry_loop]. unfold try_except at 1, bind at 1.
  rewrite Hf. destruct (decide _); [contradiction|].
  unfold bind at 1, of_res. rewrite Hb.
  unfold bind at 1, time_sleep. rewrite Hs. reflexivity.
Qed.

(** When the product or the sleep raises, that exception leaves the loop,
    in the world the failed call left. *)
Lemma retry_loop_wait_fails h func todo attempt w e w' e' :
  func w = (Raise e, w') ->
  Z.of_nat attempt <> max_retries h ->
  wait_error h attempt = Some e' ->
  retry_loop h func (S todo) attempt w = (Raise e', w').
Proof.
  intros Hf Hmore Hwait.
  cbn [retry_loop]. unfold try_except at 1, bind at 1.
  rewrite Hf. destruct (decide _); [contradiction|].
  unfold wait_error in Hwait. unfold bind at 1, of_res.
  destruct (backoff h attempt) as [wait|e0]; [|congruence].
  unfold bind at 1, time_sleep. rewrite Hwait. reflexivity.
Qed.

(** Three calls through a handler of three attempts: two failures, and
    whatever the third call does. *)
Lemma retry_handler_run func w0 w1 w2 w3 e1 e2 r :
  func w0 = (Raise e1, w1) ->
  func (slept 1 w1) = (Raise e2, w2) ->
  func (slept 2 w2) = (r, w3) ->
  retry_with_backoff retry_handler func w0 =
  (match r with Ok a => Ok (Some a) | Raise e => Raise e end, w3).
Proof.
  intros H1 H2 H3. unfold retry_with_backoff.
  change (Z.to_nat (max_retries retry_handler + 1)) with 3%nat.
  rewrite (retry_loop_retries _ _ _ _ _ _ _ H1) by (cbn; first [lia | reflexivity]).
  rewrite (retry_loop_retries _ _ _ _ _ _ _ H2) by (cbn; first [lia | reflexivity]).
  destruct r as [a|e].
  - now apply retry_loop_returns.
  - now apply retry_loop_gives_up.
Qed.

(** Four calls through the handler of the pipeline: three failures, and
    whatever the fourth call does. *)
Lemma production_handler_run func w0 w1 w2 w3 w4 e1 e2 e3 r :
  func w0 = (Raise e1, w1) ->
  func (slept 1 w1) = (Raise e2, w2) ->
  func (slept 2 w2) = (Raise e3, w3) ->
  func (slept 4 w3) = (r, w4) ->
  retry_with_backoff production_handler func w0 =
  (match r with Ok a => Ok (Some a) | Raise e => Raise e end, w4).
Proof.
  intros H1 H2 H3 H4. unfold retry_with_backoff.
  change (Z.to_nat (max_retries production_handler + 1)) with 4%nat.
  rewrite (retry_loop_retries _ _ _ _ _ _ _ H1) by (cbn; first [lia | reflexivity]).
  rewrite (retry_loop_retries _ _ _ _ _ _ _ H2) by (cbn; first [lia | reflexivity]).
  rewrite (retry_loop_retries _ _ _ _ _ _ _ H3) by (cbn; first [lia | reflexivity]).
  destruct r as [a|e].
  - now apply retry_loop_returns.
  - now apply retry_loop_gives_up.
Qed.
End WithWorld.

End RetryFacts.

(** C3.  A retry policy of three attempts with a base delay of one second
    is [RetryHandler(max_retries=2, retry_delay=1.0)]: the handler counts
    the retries, not the attempts.  When the first call of the wrapped
    operation fails it sleeps 1 = 1 * 2^0 seconds and calls again; after
    the second failure it sleeps 2 = 1 * 2^1 seconds and calls a third
    time.  A call that returns ends the loop with its value; when the third
    call fails too, its error is raised unchanged, in the world that call
    left: nothing is slept and nothing is called after it.  The wait before
    retry [k] is [retry_delay * 2^(k-1)], for every handler. *)
Theorem retry_three_attempts
    {E A : Type} (func : M (world E) A)
    (w0 w1 w2 w3 : world E) (e1 e2 e3 : exn) :
  func w0 = (Raise e1, w1) ->
  func (slept 1 w1) = (Raise e2, w2) ->
  (forall r, func (slept 2 w2) = (r, w3) ->
     Retry.retry_with_backoff Retry.retry_handler func w0 =
     (match r with Ok a => Ok (Some a) | Raise e => Raise e end, w3))
  /\ (func (slept 2 w2) = (Raise e3, w3) ->
      Retry.retry_with_backoff Retry.retry_handler func w0 = (Raise e3, w3))
  /\ Retry.max_retries Retry.retry_handler + 1 = 3
  /\ Retry.wait_time Retry.retry_handler 0 = 1%Q
  /\ Retry.wait_time Retry.retry_handler 1 = 2%Q
  /\ (forall (h : Retry.RetryHandler) (k : nat),
        (1 <= k)%nat ->
        Retry.wait_time h (k - 1)
        = (Retry.retry_delay h * inject_Z (2 ^ (Z.of_nat k - 1)))%Q).
Proof.
  intros H1 H2.
  assert (Hrun : forall r, func (slept 2 w2) = (r, w3) ->
     Retry.retry_with_backoff Retry.retry_handler func w0 =
     (match r with Ok a => Ok (Some a) | Raise e => Raise e end, w3)).
  { intros r H3.
    exact (RetryFacts.retry_handler_run _ _ _ _ _ _ _ _ H1 H2 H3). }
  split; [exact Hrun|].
  split; [intros H3; exact (Hrun _ H3)|].
  split; [reflexivity|]. split; [reflexivity|]. split; [reflexivity|].
  intros h k Hk. unfold Retry.wait_time.
  replace (Z.of_nat (k - 1)) with (Z.of_nat k - 1) by lia. reflexivity.
Qed.

Lemma retry_three_attempts_witness :
  Retry.retry_with_backoff Retry.retry_handler Scenario.hopeless Scenario.idle
  = (Raise (Exn "IOError" "failure 3"),
     MkWorld 3%nat ∅ [] ∅ (Schema.default_registry "0") 0
       [Slept 1; Slept 2]).
Proof.
  refine (proj1 (proj2
    (retry_three_attempts Scenario.hopeless Scenario.idle
       _ _ _ _ _ (Exn "IOError" "failure 3") eq_refl eq_refl)) eq_refl).
Defined.

(** The handler of the pipeline is built with [max_retries=3] and
    [retry_delay=1.0]: it calls the operation up to four times.  After the
    third failure it sleeps 4 = 1 * 2^2 seconds and calls once more; when
    the fourth call fails too it raises the error of that fourth call,
    unchanged, in the world that call left. *)
Theorem retry_production_four_attempts
    {E A : Type} (func : M (world E) A)
    (w0 w1 w2 w3 w4 : world E) (e1 e2 e3 e4 : exn) :
  func w0 = (Raise e1, w1) ->
  func (slept 1 w1) = (Raise e2, w2) ->
  func (slept 2 w2) = (Raise e3, w3) ->
  (forall r, func (slept 4 w3) = (r, w4) ->
     Retry.retry_with_backoff Retry.production_handler func w0 =
     (match r with Ok a => Ok (Some a) | Raise e => Raise e end, w4))
  /\ (func (slept 4 w3) = (Raise e4, w4) ->
      Retry.retry_with_backoff Retry.production_handler func w0 = (Raise e4, w4))
  /\ Retry.wait_time Retry.production_handler 0 = 1%Q
  /\ Retry.wait_time Retry.production_handler 1 = 2%Q
  /\ Retry.wait_time Retry.production_handler 2 = 4%Q
  /\ (forall (h : Retry.RetryHandler) (k : nat),
        Retry.wait_time h k = (Retry.retry_delay h * inject_Z (2 ^ Z.of_nat k))%Q).
Proof.
  intros H1 H2 H3.
  assert (Hrun : forall r, func (slept 4 w3) = (r, w4) ->
     Retry.retry_with_backoff Retry.production_handler func w0 =
     (match r with Ok a => Ok (Some a) | Raise e => Raise e end, w4)).
  { intros r H4.
    exact (RetryFacts.production_handler_run _ _ _ _ _ _ _ _ _ _ H1 H2 H3 H4). }
  repeat split; try reflexivity.
  - exact Hrun.
  - intros H4. exact (Hrun _ H4).
Qed.

Lemma retry_production_four_attempts_witness :
  Retry.retry_with_backoff Retry.production_handler Scenario.hopeless Scenario.idle
  = (Raise (Exn "IOError" "failure 4"),
     MkWorld 4%nat ∅ [] ∅ (Schema.default_registry "0") 0
       [Slept 1; Slept 2; Slept 4]).
Proof.
  refine (proj1 (proj2
    (retry_production_four_attempts Scenario.hopeless Scenario.idle
       _ _ _ _ _ _ _ _ eq_refl eq_refl eq_refl)) eq_refl).
Defined.

(** With [max_retries=3] the third failure does not end the loop.  On an
    operation that fails three times and then returns 7, the handler of
    the pipeline sleeps 4 more seconds after the third failure, calls a
    fourth time and returns 7. *)
Lemma retry_third_failure_not_final :
  let '(r, w) :=
    Retry.retry_with_backoff Retry.production_handler Scenario.flaky Scenario.idle in
  r = Ok (Some 7)
  /\ r <> Raise (Exn "IOError" "failure 3")
  /\ ext w = 4%nat
  /\ trace w = [Slept 1; Slept 2; Slept 4].
Proof. vm_compute. repeat split; discriminate. Qed.

(** ** SchemaRegistry *)

Module RegistryFacts.
Import Schema.

Lemma default_dense created_at : versions_dense (default_registry created_at).
Proof.
  split; [cbn; lia|]. intros k. cbn [default_registry schemas current_version].
  rewrite lookup_singleton_is_Some. split.
  - intros <-. exists 1. split; [lia | reflexivity].
  - intros (v & Hv & ->). replace v with 1 by lia. reflexivity.
Qed.

Lemma add_dense created_at timestamp new_schema description reg :
  versions_dense reg ->
  versions_dense (add_schema_version created_at timestamp new_schema description reg).2.
Proof.
  intros [Hpos Hdense]. split; cbn; [lia|]. intros k.
  rewrite lookup_insert_is_Some, Hdense. split.
  - intros [<- | (_ & v & Hv & ->)].
    + exists (current_version reg + 1). split; [lia | reflexivity].
    + exists v. split; [lia | reflexivity].
  - intros (v & Hv & ->).
    destruct (decide (v = current_version reg + 1)) as [-> | Hne].
    + now left.
    + right. split.
      * intros Heq. apply (inj pretty) in Heq. congruence.
      * exists v. split; [lia | reflexivity].
Qed.

Lemma reachable_dense reg : reachable reg -> versions_dense reg.
Proof.
  induction 1 as [created_at | reg c t s d _ IH].
  - apply default_dense.
  - now apply add_dense.
Qed.

End RegistryFacts.

(** C7.  On a registry of the pipeline (the default one, changed only by
    [add_schema_version]), a call of [add_schema_version] returns the
    version [current_version + 1]: it is greater than every stored version,
    it was not stored before (no version is reused) and every version from
    1 up to it is stored afterwards (none is skipped).  Every entry stored
    before the call is stored unchanged after it, the new entry is stored
    under the new number, and the registry's current version is the new
    number. *)
Theorem add_schema_version_appends
    (created_at timestamp : string) (new_schema : Schema.schema)
    (description : string) (reg : Schema.registry) :
  Schema.reachable reg ->
  let '(v, reg') :=
    Schema.add_schema_version created_at timestamp new_schema description reg in
  v = Schema.current_version reg + 1
  /\ Schema.current_version reg' = v
  /\ (forall k e, Schema.schemas reg !! k = Some e ->
        (exists u, k = pretty u /\ 1 <= u < v)
        /\ Schema.schemas reg' !! k = Some e)
  /\ Schema.schemas reg !! pretty v = None
  /\ Schema.schemas reg' !! pretty v =
       Some (Schema.Entry v created_at description new_schema)
  /\ (forall k, is_Some (Schema.schemas reg' !! k) <->
                is_Some (Schema.schemas reg !! k) \/ k = pretty v)
  /\ (forall u, 1 <= u <= v -> is_Some (Schema.schemas reg' !! pretty u))
  /\ Schema.reachable reg'.
Proof.
  intros Hreach.
  pose proof (RegistryFacts.reachable_dense _ Hreach) as [Hpos Hdense].
  pose proof (RegistryFacts.add_dense created_at timestamp new_schema description
                _ (RegistryFacts.reachable_dense _ Hreach)) as [_ Hdense'].
  cbn in Hdense'. cbn.
  assert (Hfresh : Schema.schemas reg !! pretty (Schema.current_version reg + 1) = None).
  { apply eq_None_not_Some. rewrite Hdense. intros (v & Hv & Heq).
    apply (inj pretty) in Heq. lia. }
  repeat split.
  - destruct (proj1 (Hdense k) (mk_is_Some _ _ H)) as (u & Hu & ->).
    exists u. split; [reflexivity | lia].
  - rewrite lookup_insert_ne; [assumption|]. intros <-. congruence.
  - exact Hfresh.
  - apply lookup_insert_eq.
  - rewrite lookup_insert_is_Some. intros [<- | [_ ?]]; [now right | now left].
  - rewrite lookup_insert_is_Some. intros [Hold | ->]; [|now left].
    destruct (decide (pretty (Schema.current_version reg + 1) = k)); [now left | now right].
  - intros u Hu. apply Hdense'. exists u. split; [lia | reflexivity].
  - exact (Schema.reach_add reg created_at timestamp new_schema description Hreach).
Qed.

Lemma add_schema_version_appends_witness :
  let '(v, reg') :=
    Schema.add_schema_version "t1" "t2"
      (Schema.MkSchema (Some Schema.default_columns) (Some "users") None (Some 2)
         (Some "t0"))
      "Auto-evolution: 1 changes" (Schema.default_registry "t0") in
  v = 2 /\ Schema.current_version reg' = 2
  /\ is_Some (Schema.schemas reg' !! "1") /\ is_Some (Schema.schemas reg' !! "2").
Proof.
  pose proof (add_schema_version_appends "t1" "t2"
      (Schema.MkSchema (Some Schema.default_columns) (Some "users") None (Some 2)
         (Some "t0"))
      "Auto-evolution: 1 changes" (Schema.default_registry "t0")
      (Schema.reach_default "t0")) as H.
  cbv beta iota zeta delta [Schema.add_schema_version] in H |- *.
  destruct H as (Hv & Hcur & _ & _ & _ & _ & Hall & _).
  split; [exact Hv|]. split; [exact Hcur|].
  split; [exact (Hall 1 ltac:(cbn; lia)) | exact (Hall 2 ltac:(cbn; lia))].
Defined.

(** ** SchemaDetector.compare_with_current_schema *)

Module CompareFacts.
Import Schema.

Section Membership.
Context (current detected : gmap string col_info).

Lemma elem_of_map {A B} (f : A -> B) (l : list A) (y : B) :
  y ∈ map f l <-> exists x, y = f x /\ x ∈ l.
Proof.
  rewrite list_elem_of_In, in_map_iff. setoid_rewrite list_elem_of_In.
  split; intros (x & H1 & H2); exists x; split; auto.
Qed.

Lemma added_spec ch :
  ch ∈ added_changes current detected <->
  exists col, ch = Change "column_added" col (detected !! col)
              /\ is_Some (detected !! col) /\ current !! col = None.
Proof.
  unfold added_changes. rewrite elem_of_map.
  setoid_rewrite elem_of_elements. setoid_rewrite elem_of_difference.
  setoid_rewrite elem_of_dom. setoid_rewrite eq_None_not_Some. tauto.
Qed.

Lemma removed_spec ch :
  ch ∈ removed_changes current detected <->
  exists col, ch = Change "column_removed" col None
              /\ is_required current col = false
              /\ is_Some (current !! col) /\ detected !! col = None.
Proof.
  unfold removed_changes. rewrite elem_of_map.
  setoid_rewrite list_elem_of_filter. setoid_rewrite elem_of_elements.
  setoid_rewrite elem_of_difference. setoid_rewrite elem_of_dom.
  setoid_rewrite eq_None_not_Some.
  split; intros (col & -> & H); exists col; (split; [reflexivity|]);
    destruct (is_required current col); cbn in *; intuition congruence.
Qed.

Lemma missing_spec i :
  i ∈ missing_issues current detected <->
  exists col, i = Issue "required_column_missing" col "high" None
              /\ is_required current col = true
              /\ is_Some (current !! col) /\ detected !! col = None.
Proof.
  unfold missing_issues. rewrite elem_of_map.
  setoid_rewrite list_elem_of_filter. setoid_rewrite elem_of_elements.
  setoid_rewrite elem_of_difference. setoid_rewrite elem_of_dom.
  setoid_rewrite eq_None_not_Some.
  split; intros (col & -> & H); exists col; (split; [reflexivity|]);
    destruct (is_required current col); cbn in *; intuition congruence.
Qed.

Lemma mismatch_spec i :
  i ∈ mismatch_issues current detected <->
  exists col, i = Issue "type_mismatch" col "medium"
                    (Some (col_type current col, col_type detected col))
              /\ col_type current col <> col_type detected col
              /\ is_Some (current !! col) /\ is_Some (detected !! col).
Proof.
  unfold mismatch_issues. rewrite elem_of_map.
  setoid_rewrite list_elem_of_filter. setoid_rewrite elem_of_elements.
  setoid_rewrite elem_of_intersection. setoid_rewrite elem_of_dom. tauto.
Qed.

End Membership.

Lemma is_required_true current col info :
  current !! col = Some info -> ci_required info = Some true ->
  is_required current col = true.
Proof. intros H1 H2. unfold is_required. rewrite H1. cbn. now rewrite H2. Qed.

Lemma positive_length_false {A} (l : list A) :
  bool_decide (0 < length l)%nat = false <-> l = [].
Proof.
  rewrite bool_decide_eq_false. destruct l; cbn; split; intros; try easy; lia.
Qed.

End CompareFacts.

(** C6 (as amended).  In the comparison of a detected schema with the
    current schema of the registry: a column of the data that the registry
    does not have is a [column_added] change and raises no compatibility
    issue; a column the registry marks required and the data lacks is an
    issue of severity high; a column of both whose types differ is an issue
    of severity medium; every issue is of one of these two kinds.  No
    migration is required exactly when there is no schema change at all
    (neither an added column nor a removed optional one) and no
    compatibility issue. *)
Theorem compare_classifies (detected_schema : Schema.schema) (reg : Schema.registry) :
  let current := Schema.current_columns reg in
  let detected := default ∅ (Schema.s_columns detected_schema) in
  let c := Schema.compare_with_current_schema detected_schema reg in
  (forall col, is_Some (detected !! col) -> current !! col = None ->
     Schema.Change "column_added" col (detected !! col) ∈ Schema.schema_changes c
     /\ forall i, i ∈ Schema.compatibility_issues c -> Schema.i_column i <> col)
  /\ (forall col info,
        current !! col = Some info -> Schema.ci_required info = Some true ->
        detected !! col = None ->
        Schema.Issue "required_column_missing" col "high" None
          ∈ Schema.compatibility_issues c)
  /\ (forall col,
        is_Some (current !! col) -> is_Some (detected !! col) ->
        Schema.col_type current col <> Schema.col_type detected col ->
        Schema.Issue "type_mismatch" col "medium"
          (Some (Schema.col_type current col, Schema.col_type detected col))
          ∈ Schema.compatibility_issues c)
  /\ (forall i, i ∈ Schema.compatibility_issues c ->
        (Schema.i_type i = "required_column_missing" /\ Schema.i_severity i = "high")
        \/ (Schema.i_type i = "type_mismatch" /\ Schema.i_severity i = "medium"))
  /\ (Schema.requires_migration c = false <->
      Schema.schema_changes c = [] /\ Schema.compatibility_issues c = [])
  /\ (Schema.is_compatible c = true <-> Schema.compatibility_issues c = []).
Proof.
  intros current detected c. subst c. unfold Schema.compare_with_current_schema.
  fold current. fold detected. cbn [Schema.schema_changes Schema.compatibility_issues
    Schema.requires_migration Schema.is_compatible].
  split; [|split; [|split; [|split; [|split]]]].
  - intros col Hdet Hcur. split.
    + apply elem_of_app. left. apply CompareFacts.added_spec. now exists col.
    + intros i Hi <-. apply elem_of_app in Hi as [Hi | Hi].
      * apply CompareFacts.missing_spec in Hi as (col & -> & _ & [x Hx] & _).
        cbn in Hcur. congruence.
      * apply CompareFacts.mismatch_spec in Hi as (col & -> & _ & [x Hx] & _).
        cbn in Hcur. congruence.
  - intros col info Hcur Hreq Hdet.
    apply elem_of_app. left. apply CompareFacts.missing_spec. exists col.
    split; [reflexivity|]. split; [|split; [now exists info | assumption]].
    eapply CompareFacts.is_required_true; eassumption.
  - intros col Hcur Hdet Hty.
    apply elem_of_app. right. apply CompareFacts.mismatch_spec. now exists col.
  - intros i Hi. apply elem_of_app in Hi as [Hi | Hi].
    + apply CompareFacts.missing_spec in Hi as (col & -> & _). now left.
    + apply CompareFacts.mismatch_spec in Hi as (col & -> & _). now right.
  - rewrite orb_false_iff, !CompareFacts.positive_length_false. reflexivity.
  - rewrite bool_decide_eq_true. split; [apply nil_length_inv | now intros ->].
Qed.

(** C6, as stated, fails in its last part.  After a run stored a schema
    with the optional column [nickname], data without that column gives no
    added column and no compatibility issue, and yet the comparison
    requires a migration: the removed optional column is a schema change of
    its own. *)
Lemma removed_optional_column_requires_migration :
  let c := Schema.compare_with_current_schema (Scenario.detected Scenario.users)
             (Scenario.evolved_registry Scenario.users_with_nickname) in
  filter (fun ch => Schema.c_type ch = "column_added") (Schema.schema_changes c) = []
  /\ Schema.compatibility_issues c = []
  /\ Schema.schema_changes c = [Schema.Change "column_removed" "nickname" None]
  /\ Schema.requires_migration c = true.
Proof. vm_compute. repeat split. Qed.

(** ** Reasoning about computations *)

Module MonadFacts.
Import Spec.

Section Generic.
Context {W : Type}.

Lemma bind_Ok_inv {A B} (m : M W A) (f : A -> M W B) w b w2 :
  bind m f w = (Ok b, w2) ->
  exists a w1, m w = (Ok a, w1) /\ f a w1 = (Ok b, w2).
Proof.
  unfold bind. destruct (m w) as [[a|e] w1]; intros H; [|discriminate].
  now exists a, w1.
Qed.

Lemma bind_Raise_inv {A B} (m : M W A) (f : A -> M W B) w e w2 :
  bind m f w = (Raise e, w2) ->
  m w = (Raise e, w2) \/ exists a w1, m w = (Ok a, w1) /\ f a w1 = (Raise e, w2).
Proof.
  unfold bind. destruct (m w) as [[a|e'] w1]; intros H.
  - right. now exists a, w1.
  - left. now inversion H.
Qed.

Lemma bind_Ok {A B} (m : M W A) (f : A -> M W B) w a w1 :
  m w = (Ok a, w1) -> bind m f w = f a w1.
Proof. unfold bind. now intros ->. Qed.

Lemma bind_Raise {A B} (m : M W A) (f : A -> M W B) w e w1 :
  m w = (Raise e, w1) -> bind m f w = (Raise e, w1).
Proof. unfold bind. now intros ->. Qed.

Section Keeps.
Context (R : W -> W -> Prop) `{!Reflexive R} `{!Transitive R}.

Lemma keeps_ret {A} (a : A) : keeps R (ret a).
Proof. intros w. cbn. reflexivity. Qed.

Lemma keeps_raise {A} e : keeps R (@raise W A e).
Proof. intros w. cbn. reflexivity. Qed.

Lemma keeps_of_res {A} (r : res A) : keeps R (of_res r).
Proof. intros w. cbn. reflexivity. Qed.

Lemma keeps_gets {A} (f : W -> A) : keeps R (gets f).
Proof. intros w. cbn. reflexivity. Qed.

Lemma keeps_modify (f : W -> W) : (forall w, R w (f w)) -> keeps R (modify f).
Proof. intros H w. cbn. apply H. Qed.

Lemma keeps_bind {A B} (m : M W A) (f : A -> M W B) :
  keeps R m -> (forall a, keeps R (f a)) -> keeps R (bind m f).
Proof.
  intros Hm Hf w. unfold bind. specialize (Hm w).
  destruct (m w) as [[a|e] w1]; cbn in *; [|assumption].
  etransitivity; [exact Hm | apply Hf].
Qed.

Lemma keeps_try_except {A} (m : M W A) (h : exn -> M W A) :
  keeps R m -> (forall e, keeps R (h e)) -> keeps R (try_except m h).
Proof.
  intros Hm Hh w. unfold try_except. specialize (Hm w).
  destruct (m w) as [[a|e] w1]; cbn in *; [assumption|].
  etransitivity; [exact Hm | apply Hh].
Qed.

Lemma keeps_if {A} (b : bool) (m1 m2 : M W A) :
  keeps R m1 -> keeps R m2 -> keeps R (if b then m1 else m2).
Proof. intros; destruct b; assumption. Qed.

Lemma keeps_decide {A} (P : Prop) `{!Decision P} (m1 m2 : M W A) :
  keeps R m1 -> keeps R m2 -> keeps R (if decide P then m1 else m2).
Proof. intros; destruct (decide P); assumption. Qed.
End Keeps.
End Generic.

(** A computation on a component relates the worlds when every change of
    that component does. *)
Lemma keeps_zoom {W S A} (R : W -> W -> Prop) (rd : W -> S) (wr : S -> W -> W)
    (m : M S A) :
  (forall w s, R w (wr s w)) -> keeps R (zoom rd wr m).
Proof. intros H w. unfold zoom. destruct (m (rd w)) as [r s]. apply H. Qed.

End MonadFacts.

(** ** transform *)

Module TransformFacts.
Import Transform Spec MonadFacts.

Lemma labels_assign_col cs name c :
  (assign_col cs name c).*1 =
  if bool_decide (name ∈ cs.*1) then cs.*1 else cs.*1 ++ [name].
Proof.
  induction cs as [|[n c0] cs IH]; cbn.
  - reflexivity.
  - destruct (decide (n = name)) as [->|Hne]; cbn.
    + rewrite bool_decide_eq_true_2; [reflexivity | left].
    + rewrite IH. destruct (bool_decide (name ∈ cs.*1)) eqn:Hin.
      * apply bool_decide_eq_true in Hin.
        rewrite bool_decide_eq_true_2; [reflexivity | now right].
      * apply bool_decide_eq_false in Hin.
        rewrite bool_decide_eq_false_2; [reflexivity|].
        intros Hin'. apply elem_of_cons in Hin' as [?|?]; congruence.
Qed.

Lemma has_column_setitem df name c col :
  has_column df col -> has_column (setitem df name c) col.
Proof.
  unfold has_column, labels, setitem. cbn. rewrite labels_assign_col.
  intros H. apply bool_decide_unpack in H. apply bool_decide_pack.
  destruct (bool_decide (name ∈ (columns df).*1)); [assumption|].
  apply elem_of_app. now left.
Qed.

Lemma getitem_is_Some df name : has_column df name -> is_Some (getitem df name).
Proof.
  unfold has_column, labels, getitem. intros H. apply bool_decide_unpack in H.
  induction (columns df) as [|[n c] cs IH]; cbn in *.
  - now apply elem_of_nil in H.
  - destruct (decide (n = name)); [now eexists|].
    apply IH. apply elem_of_cons in H as [?|?]; congruence.
Qed.

Lemma select_cols_labels df names cs :
  select_cols df names = Ok cs -> cs.*1 = names.
Proof.
  revert cs. induction names as [|n ns IH]; cbn; intros cs H.
  - now inversion H.
  - destruct (getitem df n); [|discriminate].
    destruct (select_cols df ns) as [cs'|]; [|discriminate].
    inversion H; subst. cbn. f_equal. now apply IH.
Qed.

Section Working.
Context (lib : Lib) (n df : loc) (old : heap) (rows : nat) (Hn : (n <= df)%nat).

#[local] Abbreviation R := (stays_working n df old rows).

#[local] Instance stays_working_refl : Reflexive R.
Proof. intros h. unfold stays_working. auto. Qed.

#[local] Instance stays_working_trans : Transitive R.
Proof. intros h1 h2 h3. unfold stays_working. auto. Qed.

Lemma update_working name f :
  keeps R (update df (fun fr => setitem fr name (f fr))).
Proof.
  intros h (Hlen & Hold & Hcols & Hrows). cbn.
  unfold working.
  assert (Hread : read (<[df := setitem (read h df) name (f (read h df))]> h) df
                  = setitem (read h df) name (f (read h df))).
  { unfold read at 1. rewrite list_lookup_insert_eq; [reflexivity | lia]. }
  split; [now rewrite length_insert|]. split; [|split].
  - intros r0 Hr0. rewrite list_lookup_insert_ne; [now apply Hold | lia].
  - intros col Hcol. rewrite Hread. apply has_column_setitem. now apply Hcols.
  - rewrite Hread. exact Hrows.
Qed.

Lemma assign_with_working name f : keeps R (assign_with df name f).
Proof.
  unfold assign_with. apply keeps_bind; try apply _.
  - apply keeps_gets; apply _.
  - intros fr. destruct (getitem fr name) as [c|]; [|apply keeps_raise; apply _].
    destruct (f c) as [c'|e]; [|apply keeps_raise; apply _].
    apply (update_working name (fun _ => c')).
Qed.

Lemma when_working b m : keeps R m -> keeps R (when b m).
Proof. intros H. destruct b; [exact H | apply keeps_ret; apply _]. Qed.
End Working.

Lemma keeps_step {A B} (R : heap -> heap -> Prop) (I : heap -> Prop)
    (m : M heap A) (f : A -> M heap B) h b h2 :
  (forall h h', R h h' -> I h -> I h') ->
  keeps R m -> I h -> bind m f h = (Ok b, h2) ->
  exists a h1, I h1 /\ f a h1 = (Ok b, h2).
Proof.
  intros HR Hm HI Hrun. apply bind_Ok_inv in Hrun as (a & h1 & Hm1 & Hf).
  exists a, h1. split; [|exact Hf].
  specialize (Hm h). rewrite Hm1 in Hm. eapply HR; eassumption.
Qed.

Lemma read_snoc (h : heap) df : read (h ++ [df]) (length h) = df.
Proof. unfold read. now rewrite list_lookup_middle. Qed.

Lemma missing_none df :
  filter (fun col => ¬ has_column df col) required_columns = [] ->
  forall col, col ∈ required_columns -> has_column df col.
Proof.
  intros Hnil col Hcol.
  destruct (has_column df col) eqn:Hhas; [exact I|].
  exfalso. eapply (filter_nil_not_elem_of _ _ col Hnil); [|exact Hcol].
  rewrite Hhas. auto.
Qed.

Lemma convert_columns_working lib n df old rows cur :
  (n <= df)%nat ->
  keeps (stays_working n df old rows) (convert_columns lib df cur).
Proof.
  intros Hn. unfold convert_columns.
  pose proof (stays_working_trans n df old rows) as Htrans.
  repeat first
    [ apply (assign_with_working n df old rows Hn)
    | apply when_working
    | apply keeps_bind; [exact _ | | intros ?] ].
Qed.


End TransformFacts.

(** C10.  When [transform] returns, the DataFrame it returns has exactly
    the columns user_id, age, sign_up_date, is_active, in this order, and
    as many rows as its input; every other column is gone.  It is a new
    object, and no object that existed before the call was changed, the
    caller's input among them: [transform] worked on a copy.  (Frames with
    a repeated column label are outside the model: the readers of the
    extractor give unique labels.) *)
Theorem transform_keeps_required_columns
    (lib : Lib) (h : list frame) (dataFrame : nat) (h' : list frame) (ready_df : nat) :
  NoDup (labels (read h dataFrame)) ->
  Transform.transform lib dataFrame h = (Ok ready_df, h') ->
  labels (read h' ready_df) = ["user_id"; "age"; "sign_up_date"; "is_active"]
  /\ nrows (read h' ready_df) = nrows (read h dataFrame)
  /\ (length h <= ready_df)%nat
  /\ (forall r0, (r0 < length h)%nat -> h' !! r0 = h !! r0)
  /\ ((dataFrame < length h)%nat -> read h' dataFrame = read h dataFrame).
Proof.
  intros _ Hrun.
  set (src := read h dataFrame) in *.
  assert (Hwork : exists df h2 cur,
    (length h <= df)%nat
    /\ Spec.working (length h) df h (nrows src) h2
    /\ bind (Transform.convert_columns lib df cur)
         (fun _ => Transform.select_required df) h2 = (Ok ready_df, h')).
  { unfold Transform.transform in Hrun.
    unfold bind at 1, deref at 1, gets at 1 in Hrun. fold src in Hrun.
    unfold bind at 1, alloc at 1 in Hrun.
    unfold bind at 1, deref at 1, gets at 1 in Hrun.
    rewrite TransformFacts.read_snoc in Hrun.
    assert (Hgo : forall df h2 cur,
      (length h <= df)%nat -> length h2 = S df ->
      (forall r0, (r0 < length h)%nat -> h2 !! r0 = h !! r0) ->
      read h2 df = cur -> nrows cur = nrows src ->
      bind (deref df) (fun cur =>
        if negb (bool_decide
                   (filter (fun col => ¬ has_column cur col)
                      Transform.required_columns = []))
        then raise (Exn "ValueError"
               ("Missing required columns: " +:+
                repr_list lib (filter (fun col => ¬ has_column cur col)
                                 Transform.required_columns)))
        else bind (Transform.convert_columns lib df cur)
               (fun _ => Transform.select_required df)) h2 = (Ok ready_df, h') ->
      exists df h2 cur,
        (length h <= df)%nat
        /\ Spec.working (length h) df h (nrows src) h2
        /\ bind (Transform.convert_columns lib df cur)
             (fun _ => Transform.select_required df) h2 = (Ok ready_df, h')).
    { intros df h2 cur Hdf Hlen Hold Hcur Hrows Hrest.
      unfold bind at 1, deref at 1, gets at 1 in Hrest. rewrite Hcur in Hrest.
      destruct (bool_decide (filter _ _ = [])) eqn:Hmissing; cbn in Hrest;
        [|discriminate].
      apply bool_decide_eq_true in Hmissing.
      exists df, h2, cur. split; [exact Hdf|]. split; [|exact Hrest].
      split; [exact Hlen|]. split; [exact Hold|]. rewrite Hcur.
      split; [now apply TransformFacts.missing_none | exact Hrows]. }
    destruct (has_column src "signup_date" && negb (has_column src "sign_up_date")).
    - unfold bind at 1, alloc at 1 in Hrun.
      refine (Hgo _ _ _ _ _ _ _ _ Hrun).
      + rewrite length_app. cbn. lia.
      + rewrite !length_app. cbn. lia.
      + intros r0 Hr0. rewrite !lookup_app_l; [reflexivity | lia |].
        rewrite length_app. cbn. lia.
      + apply TransformFacts.read_snoc.
      + reflexivity.
    - unfold bind at 1, ret at 1 in Hrun.
      refine (Hgo _ _ _ _ _ _ _ _ Hrun).
      + lia.
      + rewrite length_app. cbn. lia.
      + intros r0 Hr0. now apply lookup_app_l.
      + apply TransformFacts.read_snoc.
      + reflexivity. }
  destruct Hwork as (df & h2 & cur & Hdf & Hworking & Hrest).
  eapply (TransformFacts.keeps_step (Spec.stays_working (length h) df h (nrows src))
            (Spec.working (length h) df h (nrows src))) in Hrest;
    [ | intros a b Hab; exact Hab | now apply TransformFacts.convert_columns_working | exact Hworking ].
  destruct Hrest as (_ & h3 & (Hlen & Hold & Hcols & Hrows) & Hsel).
  unfold Transform.select_required in Hsel.
  unfold bind at 1, deref at 1, gets at 1 in Hsel.
  destruct (Transform.select_cols (read h3 df) Transform.required_columns)
    as [cs|e] eqn:Hcs; [|discriminate].
  unfold alloc in Hsel. inversion Hsel; subst ready_df h'. clear Hsel.
  rewrite TransformFacts.read_snoc. cbn [labels columns nrows].
  split; [exact (TransformFacts.select_cols_labels _ _ _ Hcs)|].
  split; [exact Hrows|]. split; [lia|].
  assert (Hkept : forall r0, (r0 < length h)%nat ->
            (h3 ++ [MkFrame (nrows (read h3 df)) cs]) !! r0 = h !! r0).
  { intros r0 Hr0. rewrite lookup_app_l by lia. now apply Hold. }
  split; [exact Hkept|].
  intros Hvalid. unfold read. now rewrite Hkept.
Qed.

Lemma transform_keeps_required_columns_witness :
  let h' := (Transform.transform Scenario.plain_lib 0%nat [Scenario.users]).2 in
  labels (read h' 2) = ["user_id"; "age"; "sign_up_date"; "is_active"]
  /\ nrows (read h' 2) = 2%nat
  /\ h' !! 0%nat = Some Scenario.users.
Proof.
  pose proof (transform_keeps_required_columns Scenario.plain_lib
                [Scenario.users] 0%nat _ 2%nat
                ltac:(apply (bool_decide_unpack _); vm_compute; exact I) eq_refl)
    as (Hlabels & Hrows & _ & Hkept & _).
  split; [exact Hlabels|]. split; [exact Hrows|].
  exact (Hkept 0%nat ltac:(cbn; lia)).
Defined.

(** ** Relations that every step of a run keeps *)

Module WorldFacts.
Import Spec MonadFacts Retry ErrorHandler Monitoring Store Evolution Pipeline.

Create HintDb keeps discriminated.

Section Stable.
Context {E : Type} (lib : Lib) (env : Env E).
Context (allowed : event -> Prop) (R : world E -> world E -> Prop).
Context (HR : stable allowed R) (HF : frames_free R).

#[local] Instance stable_reflexive : Reflexive R := stable_refl _ _ HR.
#[local] Instance stable_transitive : Transitive R := stable_trans _ _ HR.

Lemma keeps_emit ev : allowed ev -> keeps R (emit ev).
Proof. intros Hev w. cbn. now apply (stable_emit _ _ HR). Qed.

Lemma keeps_slept q : allowed (Slept q) -> keeps R (modify (slept q)).
Proof. intros Hev w. cbn. now apply (stable_emit _ _ HR). Qed.

Lemma keeps_time_sleep q : allowed (Slept q) -> keeps R (time_sleep q).
Proof.
  intros Hev. unfold time_sleep. destruct (sleep_error q).
  - apply keeps_raise. apply _.
  - now apply keeps_slept.
Qed.

Lemma keeps_ask {A} (f : E -> A * E) : keeps R (ask f).
Proof. intros w. unfold ask. destruct (f (ext w)). apply (stable_ext _ _ HR). Qed.

Lemma keeps_call {A} (f : E -> res A * E) : keeps R (call f).
Proof. intros w. unfold call. destruct (f (ext w)). apply (stable_ext _ _ HR). Qed.

Lemma keeps_perform (f : E -> option exn * E) : keeps R (perform f).
Proof. intros w. unfold perform. destruct (f (ext w)). apply (stable_ext _ _ HR). Qed.

Lemma keeps_on_frames {A} (m : M (list frame) A) : keeps R (on_frames m).
Proof. apply keeps_zoom. apply HF. Qed.

Lemma keeps_exists_path p : keeps R (exists_path env p).
Proof.
  intros w. unfold exists_path. destruct (stat_error env p (ext w)); reflexivity.
Qed.

Lemma keeps_create_path p : keeps R (create_path p).
Proof. intros w. cbn. apply (stable_fs _ _ HR). Qed.

Lemma keeps_remove_path p : keeps R (remove_path p).
Proof. intros w. cbn. apply (stable_fs _ _ HR). Qed.

End Stable.

#[export] Hint Resolve keeps_ret keeps_raise keeps_gets keeps_of_res
  keeps_ask keeps_call keeps_perform keeps_on_frames
  keeps_exists_path keeps_create_path keeps_remove_path : keeps.

(** An event is allowed: it is an effect, or the entry into a function
    other than the archive and the quarantine. *)
Ltac allowed_event :=
  match goal with
  | H : forall ev, effect ev -> ?a ev |- ?a _ => apply H; exact I
  | H : forall f, f <> _ -> f <> _ -> ?a (Called f) |- ?a (Called _) =>
      apply H; discriminate
  end.

Ltac keeps_go :=
  repeat first
    [ progress intros
    | solve [eauto 3 with keeps typeclass_instances]
    | eapply keeps_emit; [eassumption | allowed_event]
    | eapply keeps_slept; [eassumption | allowed_event]
    | eapply keeps_time_sleep; [eassumption | allowed_event]
    | apply keeps_bind; [typeclasses eauto | | ]
    | apply keeps_try_except; [typeclasses eauto | | ]
    | match goal with
      | |- keeps _ (if ?b then _ else _) => destruct b
      | |- keeps _ (match ?x with _ => _ end) => destruct x
      end ].

Section Components.
Context {E : Type} (lib : Lib) (env : Env E).
Context (allowed : event -> Prop) (R : world E -> world E -> Prop).
Context (HR : stable allowed R).
Context (Heffects : forall ev, effect ev -> allowed ev).
Context (Hcalled : forall f, f <> "archive_successful_file" -> f <> "quarantine_file" ->
                             allowed (Called f)).
Context (HF : frames_free R).

#[local] Instance stable_reflexive' : Reflexive R := stable_refl _ _ HR.
#[local] Instance stable_transitive' : Transitive R := stable_trans _ _ HR.

Lemma keeps_extract_data path : keeps R (extract_data lib env path).
Proof. unfold extract_data. keeps_go. Qed.
#[local] Hint Resolve keeps_extract_data : keeps.

Lemma keeps_validate_file path : keeps R (validate_file env path).
Proof. unfold validate_file. keeps_go. Qed.
#[local] Hint Resolve keeps_validate_file : keeps.

Lemma keeps_save_metrics m : keeps R (save_metrics lib env m).
Proof. unfold save_metrics. keeps_go. Qed.
#[local] Hint Resolve keeps_save_metrics : keeps.

Lemma keeps_write_alert_file : keeps R (write_alert_file lib env).
Proof. unfold write_alert_file. keeps_go. Qed.
#[local] Hint Resolve keeps_write_alert_file : keeps.

Lemma keeps_send_alert ty msg m : keeps R (send_alert lib env ty msg m).
Proof. unfold send_alert. keeps_go. Qed.
#[local] Hint Resolve keeps_send_alert : keeps.

Lemma keeps_send_alerts alerts m : keeps R (send_alerts lib env alerts m).
Proof. induction alerts; cbn [send_alerts]; keeps_go. Qed.
#[local] Hint Resolve keeps_send_alerts : keeps.

Lemma keeps_get_db_config : keeps R (get_db_config lib env).
Proof. unfold get_db_config. keeps_go. Qed.
#[local] Hint Resolve keeps_get_db_config : keeps.

Lemma keeps_connect_to_postgres : keeps R (connect_to_postgres lib env).
Proof. unfold connect_to_postgres. keeps_go. Qed.
#[local] Hint Resolve keeps_connect_to_postgres : keeps.

Lemma keeps_execute stmt : keeps R (execute env stmt).
Proof. unfold execute. keeps_go. Qed.
#[local] Hint Resolve keeps_execute : keeps.

Lemma keeps_ensure_users_table_exists : keeps R (ensure_users_table_exists env).
Proof. unfold ensure_users_table_exists. keeps_go. Qed.
#[local] Hint Resolve keeps_ensure_users_table_exists : keeps.

Lemma keeps_load_data df : keeps R (load_data lib env df).
Proof. unfold load_data. keeps_go. Qed.
#[local] Hint Resolve keeps_load_data : keeps.

Lemma keeps_ensure_migration_table : keeps R (ensure_migration_table env).
Proof. unfold ensure_migration_table. keeps_go. Qed.
#[local] Hint Resolve keeps_ensure_migration_table : keeps.

Lemma keeps_apply_changes table changes rollback :
  keeps R (apply_changes env table changes rollback).
Proof.
  revert rollback. induction changes as [|change rest IH]; intros rollback;
    cbn [apply_changes]; keeps_go.
Qed.
#[local] Hint Resolve keeps_apply_changes : keeps.

Lemma keeps_apply_schema_changes changes table :
  keeps R (apply_schema_changes lib env changes table).
Proof. unfold apply_schema_changes. keeps_go. Qed.
#[local] Hint Resolve keeps_apply_schema_changes : keeps.

Lemma keeps_handle_issue df issue : keeps R (handle_issue lib env df issue).
Proof. unfold handle_issue, assign. keeps_go. Qed.
#[local] Hint Resolve keeps_handle_issue : keeps.

Lemma keeps_handle_compatibility_issues df issues :
  keeps R (handle_compatibility_issues lib env df issues).
Proof. induction issues; cbn [handle_compatibility_issues]; keeps_go. Qed.
#[local] Hint Resolve keeps_handle_compatibility_issues : keeps.

Lemma keeps_fix_compatibility df c rep : keeps R (fix_compatibility lib env df c rep).
Proof. unfold fix_compatibility. keeps_go. Qed.
#[local] Hint Resolve keeps_fix_compatibility : keeps.

Lemma keeps_migrate engine c rep : keeps R (migrate lib env engine c rep).
Proof. unfold migrate. keeps_go. Qed.
#[local] Hint Resolve keeps_migrate : keeps.

Lemma keeps_save_registry : keeps R (save_registry env).
Proof. unfold save_registry. keeps_go. Qed.
#[local] Hint Resolve keeps_save_registry : keeps.

Lemma keeps_run_preflight_checks path : keeps R (run_preflight_checks env path).
Proof. unfold run_preflight_checks. keeps_go. Qed.
#[local] Hint Resolve keeps_run_preflight_checks : keeps.

Lemma keeps_stage_preflight path : keeps R (stage_preflight lib env path).
Proof. unfold stage_preflight. keeps_go. Qed.
#[local] Hint Resolve keeps_stage_preflight : keeps.

Lemma keeps_extract_with_validation path :
  keeps R (extract_with_validation lib env path).
Proof. unfold extract_with_validation. keeps_go. Qed.
#[local] Hint Resolve keeps_extract_with_validation : keeps.

Lemma keeps_len r : keeps R (len r).
Proof. unfold len. keeps_go. Qed.
#[local] Hint Resolve keeps_len : keeps.

Lemma keeps_not_none {A} what (x : option A) : keeps R (not_none what x).
Proof. unfold not_none. keeps_go. Qed.
#[local] Hint Resolve keeps_not_none : keeps.

Lemma keeps_retry_loop {A} h (func : M (world E) A) todo attempt :
  keeps R func -> keeps R (retry_loop h func todo attempt).
Proof.
  intros Hfunc. revert attempt. induction todo as [|todo IH]; intros attempt;
    cbn [retry_loop]; keeps_go.
Qed.

Lemma keeps_retry_with_backoff {A} h (func : M (world E) A) :
  keeps R func -> keeps R (retry_with_backoff h func).
Proof. intros. unfold retry_with_backoff. now apply keeps_retry_loop. Qed.
#[local] Hint Resolve keeps_retry_with_backoff : keeps.

Section Registry.
Context (Hreg : forall w x, R w (set_reg x w)).

Lemma keeps_registry_add_version ns d : keeps R (registry_add_version lib env ns d).
Proof.
  unfold registry_add_version. keeps_go.
  apply keeps_modify. intros w. apply Hreg.
Qed.
#[local] Hint Resolve keeps_registry_add_version : keeps.

Lemma keeps_update_registry ds c rep : keeps R (update_registry lib env ds c rep).
Proof. unfold update_registry. keeps_go. Qed.
#[local] Hint Resolve keeps_update_registry : keeps.

Lemma keeps_reconcile df engine ds c : keeps R (reconcile lib env df engine ds c).
Proof. unfold reconcile. keeps_go. Qed.
#[local] Hint Resolve keeps_reconcile : keeps.

Lemma keeps_process_data df engine :
  keeps R (process_data_with_schema_evolution lib env df engine).
Proof. unfold process_data_with_schema_evolution. keeps_go. Qed.
#[local] Hint Resolve keeps_process_data : keeps.

Section Stages.
Context (pid : string).
Context (Hstage : forall stage rows,
           stage ∈ ["extract"; "transform"; "load"] ->
           keeps R (update_stage pid stage rows)).
#[local] Hint Extern 1 (keeps _ (update_stage _ _ _)) =>
  apply Hstage; repeat constructor : keeps.

Lemma keeps_stage_extract path : keeps R (stage_extract lib env pid path).
Proof. unfold stage_extract. keeps_go. Qed.

Lemma keeps_stage_transform skip raw :
  keeps R (stage_transform lib env pid skip raw).
Proof. unfold stage_transform. keeps_go. Qed.

Lemma keeps_stage_load clean : keeps R (stage_load lib env pid clean).
Proof. unfold stage_load. keeps_go. Qed.
End Stages.
End Registry.
End Components.
End WorldFacts.

(** ** Computations that never raise, and the schema evolution *)

Module TotalFacts.
Import Schema Spec MonadFacts WorldFacts Retry ErrorHandler Monitoring Store Evolution
  Pipeline.

Create HintDb returns discriminated.

Section Generic.
Context {W : Type}.

Lemma returns_ret {A} (a : A) : returns (@ret W A a).
Proof. intros w. now exists a, w. Qed.

Lemma returns_gets {A} (f : W -> A) : returns (gets f).
Proof. intros w. now exists (f w), w. Qed.

Lemma returns_modify (f : W -> W) : returns (modify f).
Proof. intros w. now exists tt, (f w). Qed.

Lemma returns_bind {A B} (m : M W A) (f : A -> M W B) :
  returns m -> (forall a, returns (f a)) -> returns (bind m f).
Proof.
  intros Hm Hf w. destruct (Hm w) as (a & w1 & Hm1).
  destruct (Hf a w1) as (b & w2 & Hf1). exists b, w2.
  now rewrite (bind_Ok _ _ _ _ _ Hm1).
Qed.

Lemma returns_try_except {A} (m : M W A) (h : exn -> M W A) :
  (forall e, returns (h e)) -> returns (try_except m h).
Proof.
  intros Hh w. unfold try_except. destruct (m w) as [[a|e] w1].
  - now exists a, w1.
  - apply Hh.
Qed.
End Generic.

Section World.
Context {E : Type}.

Lemma returns_emit ev : returns (@emit E ev).
Proof. apply returns_modify. Qed.

Lemma returns_ask {A} (f : E -> A * E) : returns (ask f).
Proof. intros w. unfold ask. destruct (f (ext w)) as [a x]. now eexists _, _. Qed.

Lemma returns_deref r : returns (@on_frames E _ (deref r)).
Proof. intros w. unfold on_frames, zoom. cbn. now eexists _, _. Qed.

Lemma returns_create_path p : returns (@create_path E p).
Proof. apply returns_modify. Qed.
End World.

#[export] Hint Resolve returns_ret returns_gets returns_modify returns_emit
  returns_ask returns_deref returns_create_path : returns.

Ltac returns_go :=
  repeat first
    [ progress intros
    | solve [eauto 3 with returns]
    | apply returns_try_except
    | apply returns_bind
    | match goal with
      | |- returns (if ?b then _ else _) => destruct b
      | |- returns (match ?x with _ => _ end) => destruct x
      end ].

Section Components.
Context {E : Type} (lib : Lib) (env : Env E).

Lemma returns_save_registry : returns (save_registry env).
Proof. unfold save_registry. returns_go. Qed.
#[local] Hint Resolve returns_save_registry : returns.

Lemma returns_save_metrics m : returns (save_metrics lib env m).
Proof. unfold save_metrics. returns_go. Qed.
#[local] Hint Resolve returns_save_metrics : returns.

Lemma returns_write_alert_file : returns (write_alert_file lib env).
Proof. unfold write_alert_file. returns_go. Qed.
#[local] Hint Resolve returns_write_alert_file : returns.

Lemma returns_send_alert ty msg m : returns (send_alert lib env ty msg m).
Proof. unfold send_alert. returns_go. Qed.
#[local] Hint Resolve returns_send_alert : returns.

Lemma returns_send_alerts alerts m : returns (send_alerts lib env alerts m).
Proof. induction alerts; cbn [send_alerts]; returns_go. Qed.
#[local] Hint Resolve returns_send_alerts : returns.

Lemma returns_post_processing path info : returns (post_processing lib env path info).
Proof. unfold post_processing. returns_go. Qed.

Lemma returns_check_pipeline_health m : returns (@check_pipeline_health E lib m).
Proof. unfold check_pipeline_health. returns_go. Qed.

Lemma returns_len r : returns (@len E r).
Proof. unfold len. returns_go. Qed.

Lemma returns_registry_add_version ns d : returns (registry_add_version lib env ns d).
Proof. unfold registry_add_version. returns_go. Qed.
#[local] Hint Resolve returns_registry_add_version : returns.

Lemma returns_update_registry ds c rep : returns (update_registry lib env ds c rep).
Proof. unfold update_registry. returns_go. Qed.

Lemma returns_process_data df engine :
  returns (process_data_with_schema_evolution lib env df engine).
Proof. unfold process_data_with_schema_evolution. returns_go. Qed.

Lemma same_reg_stable : stable (fun _ => True) (@same_reg E).
Proof.
  split; unfold same_reg.
  - intros w. reflexivity.
  - intros w1 w2 w3 H1 H2. congruence.
  - reflexivity.
  - reflexivity.
  - reflexivity.
Qed.

Lemma same_reg_frames : frames_free (@same_reg E).
Proof. intros w x. reflexivity. Qed.

Lemma same_frames_stable : stable (fun _ => True) (@same_frames E).
Proof.
  split; unfold same_frames.
  - intros w. reflexivity.
  - intros w1 w2 w3 H1 H2. congruence.
  - reflexivity.
  - reflexivity.
  - reflexivity.
Qed.

(** A computation that never raises, run: its value and the world it leaves. *)
Lemma run_total {A} (R : world E -> world E -> Prop) (m : M (world E) A) w :
  returns m -> keeps R m -> exists a w', m w = (Ok a, w') /\ R w w'.
Proof.
  intros Hret Hkeeps. destruct (Hret w) as (a & w' & Hm). exists a, w'.
  split; [exact Hm|]. specialize (Hkeeps w). now rewrite Hm in Hkeeps.
Qed.

Lemma run_any {A} (R : world E -> world E -> Prop) (m : M (world E) A) w :
  keeps R m -> exists r w', m w = (r, w') /\ R w w'.
Proof.
  intros Hkeeps. specialize (Hkeeps w). destruct (m w) as [r w']. now exists r, w'.
Qed.

Lemma registry_add_version_spec ns d w :
  exists t1 t2 w',
    registry_add_version lib env ns d w = (Ok (current_version (reg w) + 1), w')
    /\ reg w' = (add_schema_version t1 t2 ns d (reg w)).2.
Proof.
  unfold registry_add_version.
  unfold bind at 1, ask at 1. destruct (clock env (ext w)) as [c x1].
  unfold bind at 1, ask at 1. cbn [ext set_ext]. destruct (clock env x1) as [t x2].
  unfold bind at 1, gets at 1. cbn [reg set_ext].
  cbn [add_schema_version]. unfold bind at 1, modify at 1.
  match goal with |- context [bind (save_registry env) _ ?w0] => set (w1 := w0) end.
  destruct (run_total same_reg (save_registry env) w1) as ([] & w2 & Hsave & Hreg).
  { apply returns_save_registry. }
  { apply (keeps_save_registry env _ _ same_reg_stable). auto. }
  exists (isoformat lib c), (isoformat lib t), w2.
  unfold bind. fold w1. rewrite Hsave. split; [reflexivity|].
  rewrite Hreg. reflexivity.
Qed.

Lemma update_registry_spec ds c rep w :
  exists rep' w',
    update_registry lib env ds c rep w = (Ok rep', w')
    /\ r_error rep' = r_error rep
    /\ migration_applied rep' = migration_applied rep
    /\ (schema_changes c = [] -> reg w' = reg w)
    /\ (schema_changes c <> [] ->
        exists t1 t2 d, reg w' = (add_schema_version t1 t2 ds d (reg w)).2).
Proof.
  unfold update_registry. destruct (bool_decide (schema_changes c = [])) eqn:Hc; cbn [negb].
  - apply bool_decide_eq_true in Hc. exists rep, w. repeat split; auto. contradiction.
  - apply bool_decide_eq_false in Hc.
    match goal with |- context [registry_add_version lib env ds ?d0] => set (d := d0) end.
    destruct (registry_add_version_spec ds d w) as (t1 & t2 & w' & Hadd & Hreg).
    eexists _, w'. rewrite (bind_Ok _ _ _ _ _ Hadd). split; [reflexivity|].
    repeat split; try reflexivity; [contradiction|]. intros _. now exists t1, t2, d.
Qed.

Lemma migrate_spec engine c rep w :
  exists r w', migrate lib env engine c rep w = (r, w')
    /\ reg w' = reg w
    /\ match r with
       | Ok rep' => r_error rep' = r_error rep
                    /\ (migration_applied rep' = true ->
                        migration_applied rep = true \/ is_Some engine)
       | Raise _ => True
       end.
Proof.
  unfold migrate.
  destruct (bool_decide (is_Some engine)) eqn:Hengine; cbn [andb];
    [destruct (negb (bool_decide (schema_changes c = [])))|]; cbn [andb];
    try (exists (Ok rep), w; repeat split; auto; fail).
  apply bool_decide_eq_true in Hengine.
  destruct (run_any same_reg (apply_schema_changes lib env (schema_changes c) "users") w)
    as (r & w' & Happly & Hreg).
  { apply (keeps_apply_schema_changes lib env _ _ same_reg_stable); auto. }
  destruct r as [[|]|e].
  - eexists _, w'. rewrite (bind_Ok _ _ _ _ _ Happly). cbn. repeat split; auto.
  - eexists _, w'. rewrite (bind_Ok _ _ _ _ _ Happly). cbn. repeat split; auto.
  - eexists _, w'. rewrite (bind_Raise _ _ _ _ _ Happly). repeat split; auto.
Qed.

Lemma handle_compatibility_issues_returns_df df issues w a w' :
  handle_compatibility_issues lib env df issues w = (Ok a, w') -> a = df.
Proof.
  revert w. induction issues as [|i rest IH]; intros w; cbn [handle_compatibility_issues].
  - intros H. now inversion H.
  - intros H. apply bind_Ok_inv in H as (_ & w1 & _ & H). eapply IH, H.
Qed.

Lemma fix_compatibility_spec df c rep w :
  exists r w', fix_compatibility lib env df c rep w = (r, w')
    /\ reg w' = reg w
    /\ match r with
       | Ok (df', rep') => df' = df /\ r_error rep' = r_error rep
                           /\ migration_applied rep' = migration_applied rep
       | Raise _ => True
       end.
Proof.
  unfold fix_compatibility. destruct (negb (is_compatible c)).
  - destruct (run_any same_reg
                (handle_compatibility_issues lib env df (compatibility_issues c)) w)
      as (r & w' & Hh & Hreg).
    { apply (keeps_handle_compatibility_issues lib env _ _ same_reg_stable).
      apply same_reg_frames. }
    destruct r as [a|e].
    + eexists _, w'. rewrite (bind_Ok _ _ _ _ _ Hh). cbn. repeat split; auto.
      eapply handle_compatibility_issues_returns_df, Hh.
    + eexists _, w'. rewrite (bind_Raise _ _ _ _ _ Hh). repeat split; auto.
  - exists (Ok (df, rep)), w. repeat split; auto.
Qed.

Lemma emit_run ev (w : world E) :
  emit ev w = (Ok tt, set_trace (trace w ++ [ev]) w).
Proof. reflexivity. Qed.

Lemma deref_run r (w : world E) :
  on_frames (deref r) w = (Ok (read (frames w) r), w).
Proof. destruct w. reflexivity. Qed.

Lemma ask_run {A} (f : E -> A * E) (w : world E) :
  ask f w = (Ok (f (ext w)).1, set_ext (f (ext w)).2 w).
Proof. unfold ask. now destruct (f (ext w)). Qed.

Lemma gets_run {A} (f : world E -> A) (w : world E) : gets f w = (Ok (f w), w).
Proof. reflexivity. Qed.

Lemma of_res_run {A} (r : res A) (w : world E) : of_res r w = (r, w).
Proof. reflexivity. Qed.

Lemma reconcile_spec df engine detected c w :
  exists rep w',
    reconcile lib env df engine detected c w = (Ok (df, rep), w')
    /\ (is_Some (r_error rep) -> reg w' = reg w)
    /\ (migration_applied rep = true -> is_Some engine)
    /\ (r_error rep = None ->
        (schema_changes c = [] -> reg w' = reg w)
        /\ (schema_changes c <> [] ->
            exists t1 t2 d, reg w' = (add_schema_version t1 t2 detected d (reg w)).2)).
Proof.
  unfold reconcile. unfold try_except at 1.
  match goal with |- context [fix_compatibility lib env df c ?r0] => set (report1 := r0) end.
  destruct (fix_compatibility_spec df c report1 w) as (r & w1 & Hfix & Hreg1 & Hr).
  destruct r as [[df' report2]|e].
  2:{ rewrite (bind_Raise _ _ _ _ _ Hfix). eexists _, w1. split; [reflexivity|].
      cbn. repeat split; auto; discriminate. }
  destruct Hr as (-> & Herr2 & Hmig2).
  rewrite (bind_Ok _ _ _ _ _ Hfix). unfold try_except.
  destruct (migrate_spec engine c report2 w1) as (r & w2 & Hmigrate & Hreg2 & Hr).
  destruct r as [report3|e].
  2:{ rewrite (bind_Raise _ _ _ _ _ Hmigrate). eexists _, w2. split; [reflexivity|].
      cbn. rewrite Hmig2. cbn.
      repeat split; try discriminate; intros; congruence. }
  destruct Hr as (Herr3 & Hmig3).
  rewrite (bind_Ok _ _ _ _ _ Hmigrate).
  destruct (update_registry_spec detected c report3 w2)
    as (report4 & w3 & Hupd & Herr4 & Hmig4 & Hsame & Hadd).
  rewrite (bind_Ok _ _ _ _ _ Hupd). eexists _, w3. split; [reflexivity|].
  assert (Herr : r_error report4 = None).
  { rewrite Herr4, Herr3, Herr2. reflexivity. }
  split; [|split].
  - rewrite Herr. intros [? ?]. discriminate.
  - rewrite Hmig4. intros Hm. destruct (Hmig3 Hm) as [Hm2 | ?]; [|assumption].
    rewrite Hmig2 in Hm2. discriminate.
  - intros _. split.
    + intros Hnil. rewrite (Hsame Hnil). congruence.
    + intros Hne. destruct (Hadd Hne) as (t1 & t2 & d & Hw3).
      exists t1, t2, d. rewrite Hw3. congruence.
Qed.

End Components.
End TotalFacts.

(** ** The runs of the pipeline *)

Module PipelineFacts.
Import Schema Spec MonadFacts WorldFacts TotalFacts Retry ErrorHandler Monitoring Store
  Evolution Pipeline.

Section Relations.
Context {E : Type}.

Lemma extends_trace_refl P (w : world E) : extends_trace P w w.
Proof. exists []. split; [now rewrite app_nil_r | constructor]. Qed.

Lemma extends_trace_trans P (w1 w2 w3 : world E) :
  extends_trace P w1 w2 -> extends_trace P w2 w3 -> extends_trace P w1 w3.
Proof.
  intros (t1 & H1 & F1) (t2 & H2 & F2). exists (t1 ++ t2). split.
  - now rewrite H2, H1, app_assoc.
  - now apply Forall_app.
Qed.

Lemma extends_trace_weaken (P Q : event -> Prop) (w w' : world E) :
  (forall ev, P ev -> Q ev) -> extends_trace P w w' -> extends_trace Q w w'.
Proof.
  intros HPQ (tr & Htr & Hall). exists tr. split; [exact Htr|].
  eapply Forall_impl; eauto.
Qed.

Lemma extends_trace_same P (w w' : world E) :
  trace w' = trace w -> extends_trace P w w'.
Proof. intros H. exists []. split; [now rewrite app_nil_r | constructor]. Qed.

Lemma extends_trace_stable P : stable P (@extends_trace E P).
Proof.
  split.
  - intros w. apply extends_trace_refl.
  - intros w1 w2 w3. apply extends_trace_trans.
  - intros w x. now apply extends_trace_same.
  - intros w x. now apply extends_trace_same.
  - intros w ev Hev. exists [ev]. split; [reflexivity | now constructor].
Qed.

Lemma extends_trace_frames P : frames_free (@extends_trace E P).
Proof. intros w x. now apply extends_trace_same. Qed.

Lemma progress_stable pid P : stable P (@progress E pid P).
Proof.
  split.
  - intros w. split; [auto | apply extends_trace_refl].
  - intros w1 w2 w3 [T1 X1] [T2 X2]. split; [auto|].
    eapply extends_trace_trans; eassumption.
  - intros w x. split; [auto | now apply extends_trace_same].
  - intros w x. split; [auto | now apply extends_trace_same].
  - intros w ev Hev. split; [auto|]. now apply (stable_emit _ _ (extends_trace_stable P)).
Qed.

Lemma progress_frames pid P : frames_free (@progress E pid P).
Proof. intros w x. split; [auto | now apply extends_trace_same]. Qed.

Lemma progress_set_reg pid P (w : world E) x : progress pid P w (set_reg x w).
Proof. split; [auto | now apply extends_trace_same]. Qed.

Lemma progress_update_stage pid P stage rows :
  stage ∈ ["extract"; "transform"; "load"] ->
  keeps (@progress E pid P) (update_stage pid stage rows).
Proof.
  intros Hstage w. unfold update_stage, modify. cbn [snd].
  destruct (current_metrics w !! pid) as [m|] eqn:Hm.
  - split; [|now apply extends_trace_same].
    intros _. eexists. cbn. rewrite lookup_insert_eq. split; [reflexivity | exact Hstage].
  - split; [auto | apply extends_trace_refl].
Qed.

Lemma effect_benign ev : effect ev -> benign ev.
Proof. destruct ev; cbn; try contradiction; intros _; split; cbn; tauto. Qed.

Lemma called_benign f :
  f <> "archive_successful_file" -> f <> "quarantine_file" -> benign (Called f).
Proof. intros H1 H2. split; cbn; assumption. Qed.

Lemma benign_not_archives ev : benign ev -> ~ archives ev.
Proof. now intros [? ?]. Qed.

Lemma benign_not_quarantines ev : benign ev -> ~ quarantines ev.
Proof. now intros [? ?]. Qed.
End Relations.


Section Counting.

Lemma calls_app f t1 t2 : calls f (t1 ++ t2) = (calls f t1 + calls f t2)%nat.
Proof. unfold calls. now rewrite filter_app, length_app. Qed.

Lemma calls_none f tr : Forall (fun ev => ~ is_call ev) tr -> calls f tr = 0%nat.
Proof.
  unfold calls. induction 1 as [|ev tr Hev _ IH]; [reflexivity|].
  rewrite filter_cons_False; [exact IH|]. intros ->. now apply Hev.
Qed.

Lemma effect_not_call ev : effect ev -> ~ is_call ev.
Proof. now destruct ev. Qed.

Lemma effect_not_archives ev : effect ev -> ~ archives ev.
Proof. now destruct ev. Qed.

Lemma effect_not_quarantines ev : effect ev -> ~ quarantines ev.
Proof. now destruct ev. Qed.
End Counting.

Section Run.
Context {E : Type} (lib : Lib) (env : Env E).

Lemma stat_answers_raises path e (w : world E) :
  stat_answers env path -> ~ stat_raises env path e w.
Proof. unfold stat_raises. intros Ha Hx. rewrite Ha in Hx. discriminate. Qed.

(** The quarantine: entered once.  When [exists()] raises, its exception
    leaves the quarantine before anything is copied; otherwise the
    quarantine returns: either it gives up with the empty path, or the
    file was copied and the note written beside the copy. *)
Lemma quarantine_file_spec path info (w : world E) :
  exists r w' tr,
    quarantine_file lib env path info w = (r, w')
    /\ trace w' = trace w ++ Called "quarantine_file" :: tr
    /\ Forall (fun ev => ~ is_call ev /\ ~ archives ev) tr
    /\ match r with
       | Ok q =>
           stat_error env path (ext w) = None
           /\ (q = "" \/ (Copied path q ∈ tr /\ Wrote (q +:+ ".error") ∈ tr))
       | Raise e => stat_error env path (ext w) = Some e /\ tr = [] /\ ext w' = ext w
       end.
Proof.
  unfold quarantine_file, bind, try_except, exists_path, gets, emit, modify.
  cbn [fst snd fs set_trace trace ext].
  destruct (stat_error env path (ext w)) as [e0|] eqn:Hstat.
  { exists (Raise e0), (set_trace (trace w ++ [Called "quarantine_file"]) w), [].
    repeat split; auto. }
  destruct (bool_decide _); cbn [negb].
  2:{ exists (Ok ""), (set_trace (trace w ++ [Called "quarantine_file"]) w), [].
      repeat split; auto. }
  unfold ask. cbn [ext set_trace].
  destruct (clock env (ext w)) as [now x0]. unfold perform. cbn [ext set_ext].
  match goal with |- context [os_copy env path ?p] => set (qp := p) end.
  destruct (os_copy env path qp x0) as [[e|] x1].
  { eexists (Ok ""), _, []. cbn. repeat split; auto. }
  unfold create_path, modify. cbn [ext set_ext set_fs set_trace trace fs].
  destruct (clock env x1) as [now' x2]. unfold call. cbn [ext set_ext].
  destruct (os_stat_size env path x2) as [[sz|e] x3].
  2:{ eexists (Ok ""), _, [_]. cbn. rewrite <- app_assoc. repeat split; auto. }
  cbn [ext set_ext]. destruct (os_write env (qp +:+ ".error") x3) as [[e|] x4].
  { eexists (Ok ""), _, [_]. cbn. rewrite <- app_assoc. repeat split; auto. }
  eexists (Ok qp), _, [_; _]. cbn. rewrite <- !app_assoc. split; [reflexivity|].
  split; [reflexivity|]. split.
  - repeat constructor; cbn; auto.
  - split; [reflexivity|]. right. split; [left | right; left].
Qed.

Section Archive.
Context (allowed : event -> Prop) (R : world E -> world E -> Prop).
Context (HR : stable allowed R).
Context (Heffects : forall ev, effect ev -> allowed ev).
Context (Harchives : forall ev, archives ev -> allowed ev).

(** The archive: its events are its own and effects. *)
Lemma keeps_archive path info : keeps R (archive_successful_file lib env path info).
Proof.
  assert (Reflexive R) by apply (stable_refl _ _ HR).
  assert (Transitive R) by apply (stable_trans _ _ HR).
  unfold archive_successful_file. keeps_go.
  all: apply (keeps_emit _ _ HR); apply Harchives; cbn; auto.
Qed.

Lemma keeps_post_processing path info : keeps R (post_processing lib env path info).
Proof.
  unfold post_processing. apply keeps_try_except.
  - apply (stable_trans _ _ HR).
  - apply keeps_bind; [apply (stable_trans _ _ HR) | apply keeps_archive |].
    intros a. apply keeps_ret, (stable_refl _ _ HR).
  - intros e. apply keeps_ret, (stable_refl _ _ HR).
Qed.
End Archive.

Lemma len_run r (w : world E) :
  len r w = (Ok (Z.of_nat (nrows (read (frames w) r))), w).
Proof. unfold len. now rewrite (bind_Ok _ _ _ _ _ (deref_run _ _)). Qed.

Lemma keeps_check_pipeline_health P m :
  keeps (@extends_trace E P) (check_pipeline_health lib m).
Proof.
  intros w. apply extends_trace_same. unfold check_pipeline_health.
  destruct (decide (status m = "failed")); reflexivity.
Qed.

(** A blocking issue of the quality gate is an exception of
    [_extract_with_validation]. *)
Lemma extract_with_validation_blocked path (w : world E) raw w1 :
  extract_data lib env path w = (Ok raw, w1) ->
  q_issues (validate_data_quality lib (read (frames w1) raw)) <> [] ->
  extract_with_validation lib env path w =
  (Raise (Exn "Exception"
            ("Data quality issues: "
               +:+ repr_list lib
                     (q_issues (validate_data_quality lib (read (frames w1) raw))))),
   set_trace (trace w1 ++ [Called "validate_data_quality"]) w1).
Proof.
  intros Hextract Hissues. unfold extract_with_validation.
  rewrite (bind_Ok _ _ _ _ _ Hextract).
  rewrite (bind_Ok _ _ _ _ _ (emit_run _ _)).
  rewrite (bind_Ok _ _ _ _ _ (deref_run _ _)).
  cbn [frames set_trace].
  rewrite bool_decide_eq_false_2 by exact Hissues. reflexivity.
Qed.

Lemma stage_preflight_fails path (w : world E) pre w1 :
  run_preflight_checks env path w = (Ok pre, w1) ->
  passed pre = false ->
  stage_preflight lib env path w =
  (Raise (Exn "Exception"
            ("Pre-flight checks failed: " +:+ repr_list lib (p_issues pre))), w1).
Proof.
  intros Hpre Hfail. unfold stage_preflight.
  rewrite (bind_Ok _ _ _ _ _ Hpre). now rewrite Hfail.
Qed.

Section Tracked.
Context (pid : string).

(** The end of the tracking of a tracked run. *)
Lemma finish_tracked status msg (w : world E) :
  tracked pid w ->
  exists final w',
    finish_pipeline_tracking lib env pid status msg w = (Ok (Some final), w')
    /\ stage final ∈ ["extract"; "transform"; "load"]
    /\ extends_trace effect w w'
    /\ (forall m, current_metrics w !! pid = Some m -> stage final = stage m).
Proof.
  intros (m & Hm & Hstage). unfold finish_pipeline_tracking.
  rewrite (bind_Ok _ _ _ _ _ (gets_run _ _)). rewrite Hm.
  rewrite (bind_Ok _ _ _ _ _ (ask_run _ _)).
  match goal with |- context [save_metrics lib env ?m0] => set (m' := m0) end.
  match goal with |- context [bind (save_metrics lib env m') _ ?w0] => set (w1 := w0) end.
  destruct (run_total (extends_trace effect) (save_metrics lib env m') w1)
    as ([] & w2 & Hsave & Hext).
  { apply returns_save_metrics. }
  { apply (keeps_save_metrics lib env _ _ (extends_trace_stable effect)); auto. }
  rewrite (bind_Ok _ _ _ _ _ Hsave). cbn.
  eexists _, _. split; [reflexivity|]. split; [exact Hstage|].
  split.
  - destruct Hext as (tr & Htr & Hall). exists tr. split; [exact Htr | exact Hall].
  - intros m0 Hm0. assert (m0 = m) as -> by congruence. reflexivity.
Qed.

Lemma archives_not_quarantines ev : archives ev -> ~ quarantines ev.
Proof. destruct ev; cbn; try tauto. intros ->. discriminate. Qed.

(** The last stage of a tracked run returns the result of a success. *)
Lemma stage_post_processing_spec path metrics pre raw clean rep lr (w : world E) :
  tracked pid w ->
  exists s w',
    stage_post_processing lib env pid path metrics pre raw clean rep lr w
      = (Ok (Succeeded s), w')
    /\ extends_trace (fun ev => ~ quarantines ev) w w'.
Proof.
  intros Htracked. unfold stage_post_processing.
  pose proof (progress_stable (E:=E) pid (fun ev => ~ quarantines ev)) as HP.
  pose proof (extends_trace_stable (E:=E) (fun ev => ~ quarantines ev)) as HX.
  pose proof (progress_frames (E:=E) pid (fun ev => ~ quarantines ev)) as HPF.
  pose proof (extends_trace_frames (E:=E) (fun ev => ~ quarantines ev)) as HXF.
  pose proof effect_not_quarantines as Heff.
  rewrite (bind_Ok _ _ _ _ _ (len_run _ _)).
  rewrite (bind_Ok _ _ _ _ _ (ask_run _ _)).
  match goal with |- context [bind (post_processing lib env path ?i) _ ?w0] =>
    set (info := i); set (w1 := w0) end.
  destruct (run_total (progress pid (fun ev => ~ quarantines ev))
              (post_processing lib env path info) w1)
    as (post & w2 & Hpost & [T2 X2]).
  { apply returns_post_processing. }
  { apply (keeps_post_processing _ _ HP); auto using archives_not_quarantines. }
  rewrite (bind_Ok _ _ _ _ _ Hpost).
  destruct (finish_tracked "success" "" w2 (T2 Htracked))
    as (final & w3 & Hfin & _ & X3 & _).
  rewrite (bind_Ok _ _ _ _ _ Hfin).
  destruct (run_total (extends_trace (fun ev => ~ quarantines ev))
              (check_pipeline_health lib final) w3)
    as (alerts & w4 & Hcheck & X4).
  { apply returns_check_pipeline_health. }
  { apply keeps_check_pipeline_health. }
  rewrite (bind_Ok _ _ _ _ _ Hcheck).
  destruct (run_total (extends_trace (fun ev => ~ quarantines ev))
              (send_alerts lib env alerts final) w4)
    as ([] & w5 & Hsend & X5).
  { apply returns_send_alerts. }
  { apply (keeps_send_alerts lib env _ _ HX); auto. }
  rewrite (bind_Ok _ _ _ _ _ Hsend).
  rewrite (bind_Ok _ _ _ _ _ (len_run _ _)).
  eexists _, w5. split; [reflexivity|].
  eapply extends_trace_trans; [exact X2|].
  eapply extends_trace_trans; [|exact X5].
  eapply extends_trace_trans; [|exact X4].
  eapply extends_trace_weaken; [exact Heff | exact X3].
Qed.

(** The stages of a tracked run: a result is the result of a success, and
    no quarantine was entered; an exception leaves the run tracked, and
    neither the archive nor the quarantine was entered. *)
Lemma run_stages_spec path skip metrics (w : world E) :
  tracked pid w ->
  exists r w',
    run_stages lib env pid path skip metrics w = (r, w')
    /\ match r with
       | Ok res => success res = true
                   /\ extends_trace (fun ev => ~ quarantines ev) w w'
       | Raise _ => tracked pid w' /\ extends_trace benign w w'
       end.
Proof.
  intros T0. unfold run_stages.
  pose proof (progress_stable (E:=E) pid benign) as HP.
  pose proof (progress_frames (E:=E) pid benign) as HPF.
  pose proof (@effect_benign) as Heff. pose proof called_benign as Hcall.
  assert (Hstage : forall stage rows, stage ∈ ["extract"; "transform"; "load"] ->
                     keeps (@progress E pid benign) (update_stage pid stage rows)).
  { intros. now apply progress_update_stage. }
  destruct (run_any (progress pid benign) (stage_preflight lib env path) w)
    as (r1 & w1 & H1 & [T1 X1]).
  { apply (keeps_stage_preflight lib env _ _ HP); auto. }
  destruct r1 as [pre|e]; [rewrite (bind_Ok _ _ _ _ _ H1) | rewrite (bind_Raise _ _ _ _ _ H1)].
  2:{ eexists _, _. split; [reflexivity|]. split; auto. }
  destruct (run_any (progress pid benign) (stage_extract lib env pid path) w1)
    as (r2 & w2 & H2 & [T2 X2]).
  { apply (keeps_stage_extract lib env _ _ HP); auto. }
  pose proof (extends_trace_trans _ _ _ _ X1 X2) as X12.
  destruct r2 as [raw|e]; [rewrite (bind_Ok _ _ _ _ _ H2) | rewrite (bind_Raise _ _ _ _ _ H2)].
  2:{ eexists _, _. split; [reflexivity|]. split; auto. }
  destruct (run_any (progress pid benign) (stage_transform lib env pid skip raw) w2)
    as (r3 & w3 & H3 & [T3 X3]).
  { apply (keeps_stage_transform lib env _ _ HP); auto. apply progress_set_reg. }
  pose proof (extends_trace_trans _ _ _ _ X12 X3) as X13.
  destruct r3 as [[clean rep]|e];
    [rewrite (bind_Ok _ _ _ _ _ H3) | rewrite (bind_Raise _ _ _ _ _ H3)].
  2:{ eexists _, _. split; [reflexivity|]. split; auto. }
  destruct (run_any (progress pid benign) (stage_load lib env pid clean) w3)
    as (r4 & w4 & H4 & [T4 X4]).
  { apply (keeps_stage_load lib env _ _ HP); auto. }
  pose proof (extends_trace_trans _ _ _ _ X13 X4) as X14.
  destruct r4 as [lr|e]; [rewrite (bind_Ok _ _ _ _ _ H4) | rewrite (bind_Raise _ _ _ _ _ H4)].
  2:{ eexists _, _. split; [reflexivity|]. split; auto. }
  destruct (stage_post_processing_spec path metrics pre raw clean rep lr w4)
    as (s & w5 & H5 & X5); [auto|].
  eexists _, _. split; [exact H5|]. split; [reflexivity|].
  eapply extends_trace_trans; [|exact X5].
  eapply extends_trace_weaken; [|exact X14]. apply benign_not_quarantines.
Qed.

(** The [except] block of a tracked run: the quarantine is entered once
    and the archive never.  It returns the result of a failure, which
    carries the stage the metrics collector holds and the exception that
    left the stages; unless [exists()] raises in the quarantine: then that
    exception leaves the block, and nothing was copied. *)
Lemma handle_failure_spec path e (w : world E) :
  tracked pid w ->
  exists r w' tr,
    handle_failure lib env pid path e w = (r, w')
    /\ trace w' = trace w ++ tr
    /\ calls "quarantine_file" tr = 1%nat
    /\ Forall (fun ev => ~ archives ev) tr
    /\ match r with
       | Ok res =>
           exists f,
             res = Failed f
             /\ f_pipeline_id f = pid
             /\ failed_stage f ∈ ["extract"; "transform"; "load"]
             /\ error f = exn_msg e
             /\ error_type f = exn_type e
             /\ f_message f
                = "Production pipeline failed: " +:+ pid +:+ " - " +:+ exn_msg e
             /\ (quarantine_path f = ""
                 \/ (Copied path (quarantine_path f) ∈ tr
                     /\ Wrote (quarantine_path f +:+ ".error") ∈ tr))
             /\ (forall m, current_metrics w !! pid = Some m ->
                           failed_stage f = stage m)
       | Raise e' =>
           stat_raises env path e' w'
           /\ Forall (fun ev => ev = Called "quarantine_file" \/ effect ev) tr
       end.
Proof.
  intros T0. unfold handle_failure.
  destruct (finish_tracked "failed" (exn_msg e) w T0)
    as (final & w1 & Hfin & Hstage & (t1 & Ht1 & F1) & Hlast).
  rewrite (bind_Ok _ _ _ _ _ Hfin).
  destruct (run_total (extends_trace effect)
              (send_alert lib env "PIPELINE_FAILURE" (exn_msg e) (Some final)) w1)
    as ([] & w2 & Hsend & (t2 & Ht2 & F2)).
  { apply returns_send_alert. }
  { apply (keeps_send_alert lib env _ _ (extends_trace_stable effect)); auto. }
  rewrite (bind_Ok _ _ _ _ _ Hsend).
  match goal with |- context [quarantine_file lib env path ?i] => set (info := i) end.
  destruct (quarantine_file_spec path info w2) as (r & w3 & t3 & Hq & Ht3 & F3 & Hr).
  assert (Htrace : trace w3 = trace w ++ t1 ++ t2 ++ Called "quarantine_file" :: t3).
  { rewrite Ht3, Ht2, Ht1. now rewrite <- !app_assoc. }
  assert (Hcalls : calls "quarantine_file" (t1 ++ t2 ++ Called "quarantine_file" :: t3)
                   = 1%nat).
  { rewrite !calls_app.
    rewrite (calls_none _ t1), (calls_none _ t2).
    2,3: eapply Forall_impl; eauto using effect_not_call.
    change (Called "quarantine_file" :: t3) with ([Called "quarantine_file"] ++ t3).
    rewrite calls_app, (calls_none _ t3); [reflexivity|].
    eapply Forall_impl; [exact F3|]. now intros ev [? ?]. }
  assert (Harch : Forall (fun ev => ~ archives ev)
                    (t1 ++ t2 ++ Called "quarantine_file" :: t3)).
  { rewrite !Forall_app. split; [|split].
    + eapply Forall_impl; eauto using effect_not_archives.
    + eapply Forall_impl; eauto using effect_not_archives.
    + constructor; [cbn; discriminate|].
      eapply Forall_impl; [exact F3|]. now intros ev [? ?]. }
  destruct r as [q|e'].
  - rewrite (bind_Ok _ _ _ _ _ Hq). destruct Hr as [_ Hcopy].
    eexists _, w3, (t1 ++ t2 ++ Called "quarantine_file" :: t3).
    split; [reflexivity|]. split; [exact Htrace|]. split; [exact Hcalls|].
    split; [exact Harch|].
    eexists. split; [reflexivity|].
    cbn [f_pipeline_id failed_stage error error_type f_message quarantine_path].
    split; [reflexivity|]. split; [exact Hstage|]. split; [reflexivity|].
    split; [reflexivity|]. split; [reflexivity|]. split; [|exact Hlast].
    destruct Hcopy as [->|[Hc Hw]]; [now left | right].
    split; rewrite !elem_of_app; right; right; now right.
  - rewrite (bind_Raise _ _ _ _ _ Hq). destruct Hr as (Hstat & -> & Hext).
    exists (Raise e'), w3, (t1 ++ t2 ++ [Called "quarantine_file"]).
    split; [reflexivity|]. split; [exact Htrace|]. split; [exact Hcalls|].
    split; [exact Harch|]. split; [unfold stat_raises; now rewrite Hext|].
    rewrite !Forall_app. split; [|split].
    + eapply Forall_impl; [exact F1|]. now right.
    + eapply Forall_impl; [exact F2|]. now right.
    + repeat constructor.
Qed.
End Tracked.

Lemma no_quarantine_calls tr :
  Forall (fun ev => ~ quarantines ev) tr -> calls "quarantine_file" tr = 0%nat.
Proof.
  unfold calls. induction 1 as [|ev tr Hev _ IH]; [reflexivity|].
  rewrite filter_cons_False; [exact IH|]. intros ->. now apply Hev.
Qed.

Lemma start_pipeline_tracking_spec pid path (w : world E) :
  exists m w',
    start_pipeline_tracking env pid path w = (Ok m, w')
    /\ tracked pid w' /\ trace w' = trace w.
Proof.
  unfold start_pipeline_tracking. rewrite (bind_Ok _ _ _ _ _ (ask_run _ _)).
  unfold bind, modify, ret. eexists _, _. split; [reflexivity|]. split; [|reflexivity].
  eexists. cbn. rewrite lookup_insert_eq. split; [reflexivity|].
  cbn. repeat constructor.
Qed.

(** Every run of [run_pipeline].  The world [w0] is the one the start of
    the tracking leaves, under the fresh id [pid].  When the stages return,
    their result is the result of the run, a success that never entered
    the quarantine.  When they raise, the run never entered the archive and
    entered the quarantine once; it returns the result of a failure, with
    the stage the metrics collector recorded last and the exception that
    left the stages, unless [exists()] raises in the quarantine: that
    exception leaves [run_pipeline]. *)
Lemma run_pipeline_spec path skip (w : world E) :
  exists pid metrics w0 r w' tr,
    pid = "pipeline_" +:+ (uuid_hex8 env (ext w)).1 +:+ "_"
            +:+ pretty ((clock env (uuid_hex8 env (ext w)).2).1 / 1000000)
    /\ start_pipeline_tracking env pid path
         (set_ext (clock env (uuid_hex8 env (ext w)).2).2 w) = (Ok metrics, w0)
    /\ run_pipeline lib env path skip w = (r, w')
    /\ trace w' = trace w ++ tr
    /\ match run_stages lib env pid path skip metrics w0 with
       | (Ok res, w1) =>
           r = Ok res /\ w' = w1 /\ success res = true
           /\ Forall (fun ev => ~ quarantines ev) tr
       | (Raise e, w1) =>
           Forall (fun ev => ~ archives ev) tr
           /\ calls "quarantine_file" tr = 1%nat
           /\ exists m,
                current_metrics w1 !! pid = Some m
                /\ stage m ∈ ["extract"; "transform"; "load"]
                /\ match r with
                   | Ok res =>
                       exists f,
                         res = Failed f
                         /\ f_pipeline_id f = pid
                         /\ failed_stage f = stage m
                         /\ error f = exn_msg e
                         /\ error_type f = exn_type e
                         /\ f_message f
                            = "Production pipeline failed: " +:+ pid +:+ " - "
                                +:+ exn_msg e
                         /\ (quarantine_path f = ""
                             \/ (Copied path (quarantine_path f) ∈ tr
                                 /\ Wrote (quarantine_path f +:+ ".error") ∈ tr))
                   | Raise e' =>
                       stat_raises env path e' w'
                       /\ forall src dst, Copied src dst ∉ tr
                   end
       end.
Proof.
  unfold run_pipeline.
  rewrite (bind_Ok _ _ _ _ _ (ask_run _ _)). rewrite (bind_Ok _ _ _ _ _ (ask_run _ _)).
  cbn [ext set_ext].
  match goal with |- context [bind (start_pipeline_tracking env ?p path) _ ?w0] =>
    set (pid := p);
    destruct (start_pipeline_tracking_spec pid path w0) as (metrics & w1 & Hs & T1 & Htr1)
  end.
  exists pid, metrics, w1. rewrite (bind_Ok _ _ _ _ _ Hs). cbn [trace set_ext] in Htr1.
  destruct (run_stages_spec pid path skip metrics w1 T1) as (r & w2 & Hrun & Hr).
  unfold try_except. rewrite Hrun. destruct r as [res|e].
  - destruct Hr as (Hsucc & (tr & Htr & Hall)). exists (Ok res), w2, tr.
    split; [reflexivity|]. split; [rewrite <- Hs; f_equal|].
    split; [reflexivity|]. split; [now rewrite Htr, Htr1|]. auto.
  - destruct Hr as (T2 & (t2 & Ht2 & F2)).
    destruct (handle_failure_spec pid path e w2 T2)
      as (r & w3 & t3 & Hh & Ht3 & Hcalls & F3 & Hr).
    exists r, w3, (t2 ++ t3). split; [reflexivity|].
    split; [rewrite <- Hs; f_equal|]. split; [exact Hh|].
    split; [now rewrite Ht3, Ht2, Htr1, app_assoc|].
    split; [|split].
    + apply Forall_app. split; [|exact F3].
      eapply Forall_impl; [exact F2|]. apply benign_not_archives.
    + rewrite calls_app, Hcalls, no_quarantine_calls; [reflexivity|].
      eapply Forall_impl; [exact F2|]. apply benign_not_quarantines.
    + destruct T2 as (m & Hm & Hstage). exists m. split; [exact Hm|].
      split; [exact Hstage|]. destruct r as [res|e'].
      * destruct Hr as (f & -> & Hpid & _ & Herr & Hty & Hmsg & Hq & Hlast).
        exists f. split; [reflexivity|]. split; [exact Hpid|].
        split; [exact (Hlast _ Hm)|]. split; [exact Herr|]. split; [exact Hty|].
        split; [exact Hmsg|].
        destruct Hq as [Hq|[Hc Hw]]; [now left | right].
        split; apply elem_of_app; now right.
      * destruct Hr as [Hstat Hev]. split; [exact Hstat|].
        intros src dst Hin. apply elem_of_app in Hin as [Hin|Hin].
        -- rewrite Forall_forall in F2. destruct (F2 _ Hin) as [_ Hnq].
           apply Hnq. exact I.
        -- rewrite Forall_forall in Hev. destruct (Hev _ Hin) as [Heq|Heff];
             [discriminate | exact Heff].
Qed.
End Run.
End PipelineFacts.

(** C4 (as amended).  A failure to apply the DDL changes is not fatal:
    [process_data_with_schema_evolution] never raises, so the run goes on.
    The registry is left as it was when an exception was caught on the way
    (the report then carries its message), or when the comparison found no
    schema change.  Otherwise the registry is advanced by one version, with
    the detected schema, whether the migration was applied or not
    ([apply_schema_changes] returning [False] changes nothing to that); a
    migration is reported as applied only when there was an engine. *)
Theorem failed_migration_is_not_fatal {E : Type}
    (lib : Lib) (env : Env E) (df : nat) (engine : option unit) (w : world E) :
  let '(r, w') := Evolution.process_data_with_schema_evolution lib env df engine w in
  exists rep,
    r = Ok (df, rep)
    /\ (is_Some (Evolution.r_error rep) -> reg w' = reg w)
    /\ (Evolution.migration_applied rep = true -> is_Some engine)
    /\ (forall detected,
          Schema.detect_schema_from_dataframe lib (isoformat lib (clock env (ext w)).1)
            (read (frames w) df) = Ok detected ->
          Evolution.r_error rep = None ->
          let c := Schema.compare_with_current_schema detected (reg w) in
          (Schema.schema_changes c = [] -> reg w' = reg w)
          /\ (Schema.schema_changes c <> [] ->
              Schema.current_version (reg w') = Schema.current_version (reg w) + 1
              /\ exists t1 t2 d,
                   reg w' = (Schema.add_schema_version t1 t2 detected d (reg w)).2)).
Proof.
  unfold Evolution.process_data_with_schema_evolution.
  rewrite (MonadFacts.bind_Ok _ _ _ _ _ (TotalFacts.emit_run _ _)).
  set (w1 := set_trace _ w). unfold try_except.
  rewrite (MonadFacts.bind_Ok _ _ _ _ _ (TotalFacts.deref_run _ _)).
  rewrite (MonadFacts.bind_Ok _ _ _ _ _ (TotalFacts.ask_run _ _)).
  change (ext w1) with (ext w). change (frames w1) with (frames w).
  set (now := (clock env (ext w)).1).
  set (w2 := set_ext _ w1).
  assert (Hreg2 : reg w2 = reg w) by reflexivity.
  destruct (Schema.detect_schema_from_dataframe lib (isoformat lib now) (read (frames w) df))
    as [detected|e] eqn:Hdetect.
  2:{ rewrite (MonadFacts.bind_Raise _ _ _ _ _ (TotalFacts.of_res_run _ _)). cbn [ret].
      eexists. split; [reflexivity|]. cbn.
      repeat split; auto; try discriminate. }
  rewrite (MonadFacts.bind_Ok _ _ _ _ _ (TotalFacts.of_res_run _ _)).
  rewrite (MonadFacts.bind_Ok _ _ _ _ _ (TotalFacts.gets_run _ _)). rewrite Hreg2.
  destruct (Schema.requires_migration (Schema.compare_with_current_schema detected (reg w))) eqn:Hreq.
  - destruct (TotalFacts.reconcile_spec lib env df engine detected
                (Schema.compare_with_current_schema detected (reg w)) w2)
      as (rep & w' & Hrec & Herr & Hmig & Hok).
    rewrite Hrec. exists rep. split; [reflexivity|]. rewrite Hreg2 in *.
    split; [exact Herr|]. split; [exact Hmig|].
    intros detected' Heq Hnone. inversion Heq; subst detected'.
    destruct (Hok Hnone) as [Hsame Hadd]. split; [exact Hsame|].
    intros Hne. destruct (Hadd Hne) as (t1 & t2 & d & Hw'). split.
    + rewrite Hw'. reflexivity.
    + now exists t1, t2, d.
  - cbn [ret]. eexists. split; [reflexivity|]. cbn [Evolution.r_error
      Evolution.migration_applied Evolution.initial_report].
    split; [intros [? ?]; discriminate|]. split; [discriminate|].
    intros detected' Heq _. inversion Heq; subst detected'.
    split; [reflexivity|]. intros Hne. exfalso. apply Hne.
    unfold Schema.compare_with_current_schema in Hreq |- *. cbn in Hreq |- *.
    apply orb_false_iff in Hreq as [Hreq _].
    now apply CompareFacts.positive_length_false in Hreq.
Qed.

(** ** The compatibility fixes of the schema evolution *)

Module CompatFacts.
Import Schema Spec MonadFacts WorldFacts TotalFacts Transform Evolution.

Lemma lookup_col_assign_eq cs name c : lookup_col (assign_col cs name c) name = Some c.
Proof.
  induction cs as [|[n c0] cs IH]; cbn.
  - now rewrite decide_True.
  - destruct (decide (n = name)) as [->|Hne]; cbn.
    + now rewrite decide_True.
    + now rewrite decide_False.
Qed.

Lemma lookup_col_assign_ne cs name c col :
  name <> col -> lookup_col (assign_col cs name c) col = lookup_col cs col.
Proof.
  intros Hne. induction cs as [|[n c0] cs IH]; cbn.
  - now rewrite decide_False.
  - destruct (decide (n = name)) as [->|Hn]; cbn.
    + now rewrite !decide_False.
    + destruct (decide (n = col)); [reflexivity | exact IH].
Qed.

Lemma getitem_None df name : has_column df name = false <-> getitem df name = None.
Proof.
  unfold has_column, labels, getitem. rewrite bool_decide_eq_false.
  induction (columns df) as [|[n c] cs IH]; cbn.
  - split; [reflexivity | intros _; apply not_elem_of_nil].
  - rewrite not_elem_of_cons. destruct (decide (n = name)) as [->|Hne].
    + split; [intros [? _]; congruence | discriminate].
    + rewrite <- IH. split; [now intros [_ ?] | intros ?; split; congruence].
Qed.

Lemma read_insert (h : list frame) df fr :
  (df < length h)%nat -> read (<[df := fr]> h) df = fr.
Proof. intros Hlt. unfold read. now rewrite list_lookup_insert_eq. Qed.

Lemma read_insert_ge (h : list frame) df fr :
  (length h <= df)%nat -> <[df := fr]> h = h.
Proof. intros Hge. now apply list_insert_ge. Qed.

Section Kept.
Context (df : nat) (col : string).

#[local] Instance column_kept_refl : Reflexive (column_kept df col).
Proof. intros h. now repeat split. Qed.

#[local] Instance column_kept_trans : Transitive (column_kept df col).
Proof.
  intros h1 h2 h3 (L1 & N1 & G1) (L2 & N2 & G2). repeat split; congruence.
Qed.

Lemma update_kept name (f : frame -> column) :
  name <> col ->
  keeps (column_kept df col) (update df (fun fr => setitem fr name (f fr))).
Proof.
  intros Hne h. cbn. destruct (decide (df < length h)%nat) as [Hlt|Hge].
  - split; [now rewrite length_insert|]. rewrite read_insert by exact Hlt.
    split; [reflexivity|]. now apply lookup_col_assign_ne.
  - rewrite read_insert_ge by lia. reflexivity.
Qed.

Lemma assign_with_kept name f :
  name <> col -> keeps (column_kept df col) (assign_with df name f).
Proof.
  intros Hne. unfold assign_with. apply keeps_bind; [exact _ | apply keeps_gets; exact _ |].
  intros fr. destruct (getitem fr name) as [c|]; [|apply keeps_raise; exact _].
  destruct (f c) as [c'|e]; [|apply keeps_raise; exact _].
  now apply (update_kept name (fun _ => c')).
Qed.

Section InWorld.
Context {E : Type} (lib : Lib) (env : Env E).

#[local] Instance column_kept_in_refl : Reflexive (@column_kept_in E df col).
Proof. intros w. apply column_kept_refl. Qed.

#[local] Instance column_kept_in_trans : Transitive (@column_kept_in E df col).
Proof. intros w1 w2 w3. apply column_kept_trans. Qed.

Lemma on_frames_kept {A} (m : M (list frame) A) :
  keeps (column_kept df col) m -> keeps (@column_kept_in E df col) (on_frames m).
Proof.
  intros Hm w. unfold on_frames, zoom, column_kept_in. specialize (Hm (frames w)).
  destruct (m (frames w)) as [r h']. exact Hm.
Qed.

Lemma ask_kept {A} (f : E -> A * E) : keeps (@column_kept_in E df col) (ask f).
Proof. intros w. unfold ask. destruct (f (ext w)). apply column_kept_refl. Qed.

(** An issue about another column, or about a missing column that has no
    default, leaves the column as it is. *)
Lemma handle_issue_kept issue :
  i_column issue <> col
  \/ (i_type issue = "required_column_missing" /\ col ∉ defaulted_columns) ->
  keeps (column_kept_in df col) (handle_issue lib env df issue).
Proof.
  intros Hcase. unfold handle_issue, assign.
  destruct (decide (i_type issue = "required_column_missing")) as [Hty|Hty].
  - assert (Hne : i_column issue ∈ defaulted_columns -> i_column issue <> col).
    { intros Hin. destruct Hcase as [?|[_ Hout]]; [assumption | congruence]. }
    unfold defaulted_columns in Hne. rewrite !elem_of_cons in Hne.
    repeat (destruct (decide _) as [Heq|?];
            [ first [ apply on_frames_kept, update_kept; apply Hne; tauto
                    | apply keeps_bind;
                      [exact _ | apply ask_kept
                       | intros ?; apply on_frames_kept, update_kept; apply Hne; tauto] ]
            | ]).
    apply keeps_ret. exact _.
  - destruct Hcase as [Hne|[? _]]; [|contradiction].
    destruct (decide _); [|apply keeps_ret; exact _].
    destruct (i_types issue) as [[cur det]|]; [|apply keeps_raise; exact _].
    apply keeps_try_except; [exact _ | | intros ?; apply keeps_ret; exact _].
    repeat (destruct (decide _); [apply on_frames_kept, assign_with_kept; exact Hne|]).
    apply keeps_ret. exact _.
Qed.

Lemma returns_assign name f : returns (@assign E df name f).
Proof. intros w. unfold assign, on_frames, zoom. cbn. now eexists _, _. Qed.

Lemma handle_issue_returns issue :
  well_formed issue -> returns (handle_issue lib env df issue).
Proof.
  intros Hwf. unfold handle_issue.
  destruct (decide (i_type issue = "required_column_missing")).
  - repeat (destruct (decide _);
            [first [apply returns_assign
                   | apply returns_bind; [apply returns_ask | intros ?; apply returns_assign]]|]).
    apply returns_ret.
  - destruct (decide _) as [Hty|]; [|apply returns_ret].
    destruct (Hwf Hty) as [[cur det] ->].
    apply returns_try_except. intros ?. apply returns_ret.
Qed.

Lemma handle_issues_kept issues (w : world E) :
  Forall (fun issue =>
            well_formed issue
            /\ (i_column issue <> col
                \/ (i_type issue = "required_column_missing"
                    /\ col ∉ defaulted_columns))) issues ->
  exists w',
    handle_compatibility_issues lib env df issues w = (Ok df, w')
    /\ column_kept_in df col w w'.
Proof.
  intros Hall. revert w. induction Hall as [|issue rest [Hwf Hcase] _ IH]; intros w;
    cbn [handle_compatibility_issues].
  - exists w. split; [reflexivity | apply column_kept_in_refl].
  - destruct (run_total (column_kept_in df col) (handle_issue lib env df issue) w)
      as ([] & w1 & H1 & R1).
    { now apply handle_issue_returns. }
    { now apply handle_issue_kept. }
    destruct (IH w1) as (w2 & H2 & R2). exists w2.
    rewrite (bind_Ok _ _ _ _ _ H1). split; [exact H2|].
    eapply column_kept_in_trans; eassumption.
Qed.

Lemma assign_run name f (w : world E) :
  (df < length (frames w))%nat ->
  exists w', assign df name f w = (Ok tt, w')
    /\ length (frames w') = length (frames w)
    /\ read (frames w') df = setitem (read (frames w) df) name (f (read (frames w) df)).
Proof.
  intros Hlt. unfold assign, on_frames, zoom, update, modify. cbn.
  eexists. split; [reflexivity|]. cbn. split; [now rewrite length_insert|].
  now apply read_insert.
Qed.

(** The issue of a missing column that has a default: the column is added,
    with that default. *)
Lemma handle_issue_default severity types (w : world E) :
  (df < length (frames w))%nat ->
  col ∈ defaulted_columns ->
  exists w' c,
    handle_issue lib env df (Issue "required_column_missing" col severity types) w
      = (Ok tt, w')
    /\ length (frames w') = length (frames w)
    /\ nrows (read (frames w') df) = nrows (read (frames w) df)
    /\ getitem (read (frames w') df) col = Some c
    /\ documented_default lib env col (nrows (read (frames w) df)) c.
Proof.
  intros Hlt Hcol. unfold handle_issue. cbn [i_type i_column].
  rewrite decide_True by reflexivity.
  unfold defaulted_columns in Hcol. rewrite !elem_of_cons in Hcol.
  destruct Hcol as [->|[->|[->|[->|Hnil]]]]; [| | | |now apply elem_of_nil in Hnil].
  - rewrite decide_True by reflexivity.
    destruct (assign_run "user_id" surrogate_keys w Hlt) as (w' & Hrun & Hlen & Hread).
    exists w', (surrogate_keys (read (frames w) df)). split; [exact Hrun|].
    split; [exact Hlen|]. rewrite Hread. split; [reflexivity|].
    split; [apply lookup_col_assign_eq|]. left. now split.
  - rewrite decide_False by discriminate. rewrite decide_True by reflexivity.
    destruct (assign_run "age" (fun fr => broadcast "int64" fr (CInt 0)) w Hlt)
      as (w' & Hrun & Hlen & Hread).
    exists w', (broadcast "int64" (read (frames w) df) (CInt 0)). split; [exact Hrun|].
    split; [exact Hlen|]. rewrite Hread. split; [reflexivity|].
    split; [apply lookup_col_assign_eq|]. right; left. now split.
  - rewrite !decide_False by discriminate. rewrite decide_True by reflexivity.
    destruct (assign_run "is_active" (fun fr => broadcast "bool" fr (CBool true)) w Hlt)
      as (w' & Hrun & Hlen & Hread).
    exists w', (broadcast "bool" (read (frames w) df) (CBool true)). split; [exact Hrun|].
    split; [exact Hlen|]. rewrite Hread. split; [reflexivity|].
    split; [apply lookup_col_assign_eq|]. right; right; left. now split.
  - rewrite !decide_False by discriminate. rewrite decide_True by reflexivity.
    rewrite (bind_Ok _ _ _ _ _ (ask_run _ _)).
    match goal with |- context [assign df _ ?f ?w0] =>
      destruct (assign_run "sign_up_date" f w0 Hlt) as (w' & Hrun & Hlen & Hread)
    end.
    eexists w', _. split; [exact Hrun|].
    split; [exact Hlen|]. rewrite Hread. split; [reflexivity|].
    split; [apply lookup_col_assign_eq|]. right; right; right. split; [reflexivity|].
    now exists (ext w).
Qed.
End InWorld.
End Kept.

Lemma detect_columns_dom lib cs m :
  detect_columns lib cs = Ok m -> dom m = list_to_set cs.*1.
Proof.
  revert m. induction cs as [|[name c] cs IH]; intros m; cbn.
  - intros H. inversion H. now rewrite dom_empty_L.
  - destruct (detect_column lib c); [|discriminate].
    destruct (detect_columns lib cs) as [m'|]; [|discriminate].
    intros H. inversion H. rewrite dom_insert_L. now rewrite (IH m' eq_refl).
Qed.

Lemma detect_schema_dom lib t fr detected :
  detect_schema_from_dataframe lib t fr = Ok detected ->
  dom (default ∅ (s_columns detected)) = list_to_set (labels fr).
Proof.
  unfold detect_schema_from_dataframe.
  destruct (detect_columns lib (columns fr)) as [m|] eqn:Hm; [|discriminate].
  intros H. inversion H. cbn. now apply detect_columns_dom in Hm.
Qed.

Lemma handle_issues_app {E} lib (env : Env E) df l1 l2 w w1 :
  handle_compatibility_issues lib env df l1 w = (Ok df, w1) ->
  handle_compatibility_issues lib env df (l1 ++ l2) w =
  handle_compatibility_issues lib env df l2 w1.
Proof.
  revert w. induction l1 as [|issue l1 IH]; intros w; cbn [handle_compatibility_issues app].
  - intros H. now inversion H.
  - intros H. apply bind_Ok_inv in H as ([] & w0 & H0 & H).
    rewrite (bind_Ok _ _ _ _ _ H0). now apply IH.
Qed.

(** The compatibility fixes, when the data lacks a column the registry
    marks required. *)
Lemma fix_compatibility_default {E : Type}
    (lib : Lib) (env : Env E) (df : nat) (w : world E) (t : string)
    (detected : Schema.schema) (col : string) (report : Evolution.evolution_report) :
  (df < length (frames w))%nat ->
  Schema.detect_schema_from_dataframe lib t (read (frames w) df) = Ok detected ->
  Schema.is_required (Schema.current_columns (reg w)) col = true ->
  has_column (read (frames w) df) col = false ->
  let comparison := Schema.compare_with_current_schema detected (reg w) in
  Schema.Issue "required_column_missing" col "high" None ∈ Schema.compatibility_issues comparison
  /\ exists w',
       Evolution.fix_compatibility lib env df comparison report w
         = (Ok (df, Evolution.add_action "Applied compatibility fixes" report), w')
       /\ nrows (read (frames w') df) = nrows (read (frames w) df)
       /\ (col ∈ Spec.defaulted_columns ->
           exists c, getitem (read (frames w') df) col = Some c
                     /\ Spec.documented_default lib env col (nrows (read (frames w) df)) c)
       /\ (col ∉ Spec.defaulted_columns -> has_column (read (frames w') df) col = false).
Proof.
  intros Hlt Hdetect Hreq Hmissing comparison.
  set (cur := Schema.current_columns (reg w)) in *.
  set (det := default ∅ (Schema.s_columns detected)).
  set (mk := fun c : string => Schema.Issue "required_column_missing" c "high" None).
  set (L := filter (fun c => Schema.is_required cur c) (elements (dom cur ∖ dom det))).
  assert (Hissues : Schema.compatibility_issues comparison
                    = map mk L ++ Schema.mismatch_issues cur det) by reflexivity.
  assert (Hdom : dom det = list_to_set (labels (read (frames w) df))).
  { eapply detect_schema_dom, Hdetect. }
  assert (Hnotin : col ∉ dom det).
  { rewrite Hdom, elem_of_list_to_set. unfold has_column in Hmissing.
    now apply bool_decide_eq_false in Hmissing. }
  assert (HinL : col ∈ L).
  { apply list_elem_of_filter. split; [now rewrite Hreq|].
    apply elem_of_elements, elem_of_difference. split; [|exact Hnotin].
    apply elem_of_dom. unfold Schema.is_required in Hreq.
    destruct (cur !! col); [now eexists | discriminate]. }
  assert (Hnodup : NoDup L) by apply NoDup_filter, NoDup_elements.
  destruct (list_elem_of_split _ _ HinL) as (l1 & l2 & HL).
  rewrite HL in Hnodup. apply NoDup_app in Hnodup as (_ & Hdisjoint & Hnd2).
  apply NoDup_cons in Hnd2 as (Hl2 & _).
  assert (Hl1 : col ∉ l1).
  { intros Hin. apply (Hdisjoint col Hin). left. }
  assert (Hothers : forall l, col ∉ l ->
            Forall (fun issue => Spec.well_formed issue
                      /\ (Schema.i_column issue <> col
                          \/ (Schema.i_type issue = "required_column_missing"
                              /\ col ∉ Spec.defaulted_columns))) (map mk l)).
  { intros l Hl. apply Forall_map, Forall_forall. intros c Hc. split.
    - intros Hty. discriminate.
    - left. cbn. intros ->. contradiction. }
  assert (Hmismatch :
            Forall (fun issue => Spec.well_formed issue
                      /\ (Schema.i_column issue <> col
                          \/ (Schema.i_type issue = "required_column_missing"
                              /\ col ∉ Spec.defaulted_columns)))
              (Schema.mismatch_issues cur det)).
  { unfold Schema.mismatch_issues. apply Forall_map, Forall_forall. intros c Hc. split.
    - intros _. now eexists.
    - left. cbn. intros ->. apply list_elem_of_filter in Hc as [_ Hc].
      apply elem_of_elements, elem_of_intersection in Hc as [_ Hc]. contradiction. }
  split.
  { rewrite Hissues, HL. apply elem_of_app. left. apply list_elem_of_fmap.
    exists col. split; [reflexivity|]. apply elem_of_app. right. left. }
  unfold Evolution.fix_compatibility.
  assert (Hincompatible : Schema.is_compatible comparison = false).
  { change (Schema.is_compatible comparison)
      with (bool_decide (length (map mk L ++ Schema.mismatch_issues cur det) = 0%nat)).
    apply bool_decide_eq_false. rewrite HL, map_app. cbn [map].
    rewrite !length_app. cbn [length]. lia. }
  rewrite Hincompatible. cbn [negb]. rewrite Hissues, HL, map_app, <- app_assoc.
  destruct (handle_issues_kept df col lib env (map mk l1) w (Hothers l1 Hl1))
    as (w1 & H1 & (Len1 & Rows1 & Get1)).
  cbn [map app].
  assert (Hlt1 : (df < length (frames w1))%nat) by (rewrite Len1; exact Hlt).
  assert (Hrest : Forall (fun issue => Spec.well_formed issue
                      /\ (Schema.i_column issue <> col
                          \/ (Schema.i_type issue = "required_column_missing"
                              /\ col ∉ Spec.defaulted_columns)))
                    (map mk l2 ++ Schema.mismatch_issues cur det)).
  { apply Forall_app. split; [now apply Hothers | exact Hmismatch]. }
  destruct (decide (col ∈ Spec.defaulted_columns)) as [Hdef|Hnodef].
  - destruct (handle_issue_default df col lib env "high" None w1 Hlt1 Hdef)
      as (w2 & c & H2 & Len2 & Rows2 & Get2 & Hdefault).
    destruct (handle_issues_kept df col lib env _ w2 Hrest)
      as (w3 & H3 & (Len3 & Rows3 & Get3)).
    exists w3. split.
    { erewrite MonadFacts.bind_Ok; [reflexivity|].
      rewrite (handle_issues_app lib env df _ _ _ _ H1).
      cbn [Evolution.handle_compatibility_issues].
      rewrite (MonadFacts.bind_Ok _ _ _ _ _ H2). exact H3. }
    split; [congruence|]. split; [|contradiction].
    intros _. exists c. split; [congruence|]. now rewrite <- Rows1.
  - assert (Hall : Forall (fun issue => Spec.well_formed issue
                      /\ (Schema.i_column issue <> col
                          \/ (Schema.i_type issue = "required_column_missing"
                              /\ col ∉ Spec.defaulted_columns)))
                    (mk col :: map mk l2 ++ Schema.mismatch_issues cur det)).
    { constructor; [|exact Hrest]. split; [discriminate | right; now split]. }
    destruct (handle_issues_kept df col lib env _ w1 Hall)
      as (w3 & H3 & (Len3 & Rows3 & Get3)).
    exists w3. split.
    { erewrite MonadFacts.bind_Ok; [reflexivity|].
      rewrite (handle_issues_app lib env df _ _ _ _ H1). exact H3. }
    split; [congruence|]. split; [contradiction|].
    intros _. apply getitem_None. rewrite Get3, Get1.
    now apply getitem_None.
Qed.

Section AfterFixes.
Context {E : Type} (lib : Lib) (env : Env E).

Lemma migrate_frames engine c rep (w : world E) :
  exists r w', migrate lib env engine c rep w = (r, w')
    /\ frames w' = frames w
    /\ match r with
       | Ok rep' => exists l, actions_taken rep' = actions_taken rep ++ l
       | Raise _ => True
       end.
Proof.
  unfold migrate. destruct (_ && _).
  - destruct (run_any same_frames
                (apply_schema_changes lib env (schema_changes c) "users") w)
      as (r & w' & Happly & Hframes).
    { apply (keeps_apply_schema_changes lib env _ _ same_frames_stable); auto. }
    destruct r as [[|]|e].
    + eexists _, w'. rewrite (bind_Ok _ _ _ _ _ Happly). cbn.
      split; [reflexivity|]. split; [exact Hframes|]. now eexists.
    + eexists _, w'. rewrite (bind_Ok _ _ _ _ _ Happly). cbn.
      split; [reflexivity|]. split; [exact Hframes|]. exists []. now rewrite app_nil_r.
    + eexists _, w'. rewrite (bind_Raise _ _ _ _ _ Happly). now repeat split.
  - exists (Ok rep), w. repeat split. exists []. now rewrite app_nil_r.
Qed.

Lemma update_registry_frames ds c rep (w : world E) :
  exists rep' w' l,
    update_registry lib env ds c rep w = (Ok rep', w')
    /\ frames w' = frames w
    /\ actions_taken rep' = actions_taken rep ++ l.
Proof.
  unfold update_registry. destruct (negb _).
  - match goal with |- context [registry_add_version lib env ds ?d0] => set (d := d0) end.
    destruct (run_total same_frames (registry_add_version lib env ds d) w)
      as (v & w' & Hadd & Hframes).
    { apply returns_registry_add_version. }
    { apply (keeps_registry_add_version lib env _ _ same_frames_stable); auto.
      intros w0 x. reflexivity. }
    eexists _, w', [_]. rewrite (bind_Ok _ _ _ _ _ Hadd).
    split; [reflexivity|]. split; [exact Hframes | reflexivity].
  - exists rep, w, []. repeat split. now rewrite app_nil_r.
Qed.

(** What follows the compatibility fixes in the branch of a required
    migration leaves the frames as the fixes left them, and the actions of
    the report too. *)
Lemma reconcile_after_fix df engine detected c (w w1 : world E) rep2 :
  fix_compatibility lib env df c (Report true false (compatibility_issues c) [] None) w
    = (Ok (df, rep2), w1) ->
  exists rep w',
    reconcile lib env df engine detected c w = (Ok (df, rep), w')
    /\ frames w' = frames w1
    /\ exists l, actions_taken rep = actions_taken rep2 ++ l.
Proof.
  intros Hfix. unfold reconcile. unfold try_except at 1.
  rewrite (bind_Ok _ _ _ _ _ Hfix). unfold try_except.
  destruct (migrate_frames engine c rep2 w1) as (r & w2 & Hmigrate & F2 & Hr).
  destruct r as [rep3|e].
  2:{ rewrite (bind_Raise _ _ _ _ _ Hmigrate). eexists _, w2. split; [reflexivity|].
      split; [exact F2|]. exists []. cbn. now rewrite app_nil_r. }
  rewrite (bind_Ok _ _ _ _ _ Hmigrate).
  destruct (update_registry_frames detected c rep3 w2) as (rep4 & w3 & l4 & Hupd & F3 & A4).
  rewrite (bind_Ok _ _ _ _ _ Hupd). eexists _, w3. split; [reflexivity|].
  split; [congruence|]. destruct Hr as (l3 & A3). exists (l3 ++ l4).
  now rewrite A4, A3, app_assoc.
Qed.
End AfterFixes.
End CompatFacts.

(** What the code does with a missing required column, for every input.
    When the data lacks a column the registry marks
    required, the comparison reports it as a compatibility issue and the
    schema evolution does not fail: it returns the same DataFrame object,
    with the same rows, and its report has the action
    "Applied compatibility fixes".  If the column is user_id, age, is_active
    or sign_up_date, the object now has it, filled with its default: the
    keys 1 to n, zero, true, or the date of the clock.  For any other column
    there is no default and no error: the column is still absent. *)
Theorem missing_required_column_default_or_absent {E : Type}
    (lib : Lib) (env : Env E) (df : nat) (engine : option unit) (w : world E)
    (detected : Schema.schema) (col : string) :
  (df < length (frames w))%nat ->
  Schema.detect_schema_from_dataframe lib (isoformat lib (clock env (ext w)).1)
    (read (frames w) df) = Ok detected ->
  Schema.is_required (Schema.current_columns (reg w)) col = true ->
  has_column (read (frames w) df) col = false ->
  Schema.Issue "required_column_missing" col "high" None
    ∈ Schema.compatibility_issues (Schema.compare_with_current_schema detected (reg w))
  /\ exists rep w',
       Evolution.process_data_with_schema_evolution lib env df engine w
         = (Ok (df, rep), w')
       /\ "Applied compatibility fixes" ∈ Evolution.actions_taken rep
       /\ nrows (read (frames w') df) = nrows (read (frames w) df)
       /\ (col ∈ Spec.defaulted_columns ->
           exists c, getitem (read (frames w') df) col = Some c
                     /\ Spec.documented_default lib env col (nrows (read (frames w) df)) c)
       /\ (col ∉ Spec.defaulted_columns -> has_column (read (frames w') df) col = false).
Proof.
  intros Hlt Hdetect Hreq Hmissing.
  set (c := Schema.compare_with_current_schema detected (reg w)).
  set (w1 := set_trace (trace w ++ [Called "process_data_with_schema_evolution"]) w).
  set (w2 := set_ext (clock env (ext w)).2 w1).
  destruct (CompatFacts.fix_compatibility_default lib env df w2 _ detected col
              (Evolution.Report true false (Schema.compatibility_issues c) [] None)
              Hlt Hdetect Hreq Hmissing)
    as (Hissue & w3 & Hfix & Hrows & Hdefault & Habsent).
  change (reg w2) with (reg w) in Hissue, Hfix. fold c in Hissue, Hfix.
  change (frames w2) with (frames w) in Hrows, Hdefault.
  split; [exact Hissue|].
  destruct (CompatFacts.reconcile_after_fix lib env df engine detected c w2 w3 _ Hfix)
    as (rep & w' & Hrec & Hframes & l & Hactions).
  exists rep, w'. split.
  { unfold Evolution.process_data_with_schema_evolution.
    rewrite (MonadFacts.bind_Ok _ _ _ _ _ (TotalFacts.emit_run _ _)). fold w1.
    unfold try_except.
    rewrite (MonadFacts.bind_Ok _ _ _ _ _ (TotalFacts.deref_run _ _)).
    rewrite (MonadFacts.bind_Ok _ _ _ _ _ (TotalFacts.ask_run _ _)).
    change (ext w1) with (ext w). change (frames w1) with (frames w). fold w2.
    rewrite Hdetect.
    rewrite (MonadFacts.bind_Ok _ _ _ _ _ (TotalFacts.of_res_run _ _)).
    rewrite (MonadFacts.bind_Ok _ _ _ _ _ (TotalFacts.gets_run _ _)).
    change (reg w2) with (reg w). fold c.
    assert (Hreq_mig : Schema.requires_migration c = true).
    { change (Schema.requires_migration c)
        with (bool_decide (0 < length (Schema.schema_changes c))%nat
              || bool_decide (0 < length (Schema.compatibility_issues c))%nat).
      apply orb_true_iff. right. apply bool_decide_eq_true.
      clear Hfix. destruct (Schema.compatibility_issues c);
        [now apply elem_of_nil in Hissue|].
      cbn. lia. }
    rewrite Hreq_mig, Hrec. reflexivity. }
  split.
  { rewrite Hactions. apply elem_of_app. left. cbn. left. }
  rewrite Hframes. auto.
Qed.

Lemma missing_required_column_default_or_absent_witness :
  exists rep w',
    Evolution.process_data_with_schema_evolution Scenario.plain_lib
      (Scenario.scripted Scenario.all_well) 0%nat None
      (Scenario.holding Scenario.users_without_age)
    = (Ok (0%nat, rep), w')
    /\ Evolution.actions_taken rep = ["Applied compatibility fixes"]
    /\ getitem (read (frames w') 0%nat) "age" = Some (Column "int64" [CInt 0; CInt 0]).
Proof.
  edestruct (missing_required_column_default_or_absent Scenario.plain_lib
               (Scenario.scripted Scenario.all_well) 0%nat None
               (Scenario.holding Scenario.users_without_age)
               (Scenario.detected Scenario.users_without_age) "age")
    as [_ (rep & w' & Hrun & _ & _ & Hdefault & _)].
  1: vm_compute; lia.
  1-3: vm_compute; reflexivity.
  exists rep, w'. split; [exact Hrun|].
  split.
  { vm_compute in Hrun. now inversion Hrun. }
  clear Hrun. destruct Hdefault as (c & Hget & Hc).
  { unfold Spec.defaulted_columns. rewrite !elem_of_cons. tauto. }
  rewrite Hget. f_equal.
  destruct Hc as [[? _]|[[_ ->]|[[? _]|[? _]]]]; try discriminate. reflexivity.
Defined.

(** C2 (as amended).  The quality gate runs inside the operation that the
    extract stage retries: when the extraction returns a dataset and the
    gate reports a blocking issue, that is an exception of the retried
    operation.  So a run whose gate blocks at every attempt extracts and
    checks four times, sleeping 1, 2 and 4 seconds in between, and only
    then does the stage fail, with the issues of the fourth check.  A
    failing pre-flight check fails the stages at once, in the world the
    check left: nothing is extracted and nothing is retried.  So does a
    failure to connect to the store in the transform stage.  The load
    stage retries [load_data] the same way as the extract stage retries
    its operation. *)
Theorem quality_gate_failure_is_retried_with_extract {E : Type}
    (lib : Lib) (env : Env E) (pid path : string)
    (w0 w1 w2 w3 w4 : world E) (raw1 raw2 raw3 raw4 : nat) :
  let issues w raw :=
    ErrorHandler.q_issues (ErrorHandler.validate_data_quality lib (read (frames w) raw)) in
  let checked w := set_trace (trace w ++ [Called "validate_data_quality"]) w in
  Store.extract_data lib env path (Monitoring.update_stage pid "extract" 0 w0).2
    = (Ok raw1, w1) ->
  Store.extract_data lib env path (slept 1 (checked w1)) = (Ok raw2, w2) ->
  Store.extract_data lib env path (slept 2 (checked w2)) = (Ok raw3, w3) ->
  Store.extract_data lib env path (slept 4 (checked w3)) = (Ok raw4, w4) ->
  issues w1 raw1 <> [] -> issues w2 raw2 <> [] ->
  issues w3 raw3 <> [] -> issues w4 raw4 <> [] ->
  Pipeline.stage_extract lib env pid path w0 =
    (Raise (Exn "Exception"
              ("Data quality issues: " +:+ repr_list lib (issues w4 raw4))),
     checked w4)
  /\ (forall skip metrics w pre w',
        Pipeline.run_preflight_checks env path w = (Ok pre, w') ->
        Pipeline.passed pre = false ->
        Pipeline.run_stages lib env pid path skip metrics w =
          (Raise (Exn "Exception"
                    ("Pre-flight checks failed: "
                       +:+ repr_list lib (Pipeline.p_issues pre))), w'))
  /\ (forall raw w e w',
        Store.connect_to_postgres lib env
          (Monitoring.update_stage pid "transform"
             (Z.of_nat (nrows (read (frames w) raw))) w).2 = (Raise e, w') ->
        Pipeline.stage_transform lib env pid false raw w = (Raise e, w'))
  /\ (forall clean v0 v1 v2 v3 v4 e1 e2 e3 e4,
        let load := Store.load_data lib env clean in
        load (Monitoring.update_stage pid "load"
                (Z.of_nat (nrows (read (frames v0) clean))) v0).2 = (Raise e1, v1) ->
        load (slept 1 v1) = (Raise e2, v2) ->
        load (slept 2 v2) = (Raise e3, v3) ->
        load (slept 4 v3) = (Raise e4, v4) ->
        Pipeline.stage_load lib env pid clean v0 = (Raise e4, v4)).
Proof.
  intros issues checked H1 H2 H3 H4 B1 B2 B3 B4.
  split; [|split; [|split]].
  - unfold Pipeline.stage_extract.
    unfold bind at 1. cbn [fst snd Monitoring.update_stage modify] in *.
    pose proof (PipelineFacts.extract_with_validation_blocked lib env path _ _ _ H1 B1) as A1.
    pose proof (PipelineFacts.extract_with_validation_blocked lib env path _ _ _ H2 B2) as A2.
    pose proof (PipelineFacts.extract_with_validation_blocked lib env path _ _ _ H3 B3) as A3.
    pose proof (PipelineFacts.extract_with_validation_blocked lib env path _ _ _ H4 B4) as A4.
    rewrite (MonadFacts.bind_Raise _ _ _ _ _
               (RetryFacts.production_handler_run _ _ _ _ _ _ _ _ _ _ A1 A2 A3 A4)).
    reflexivity.
  - intros skip metrics w pre w' Hpre Hfail. unfold Pipeline.run_stages.
    now rewrite (MonadFacts.bind_Raise _ _ _ _ _
                   (PipelineFacts.stage_preflight_fails lib env path _ _ _ Hpre Hfail)).
  - intros raw w e w' Hconnect. unfold Pipeline.stage_transform.
    rewrite (MonadFacts.bind_Ok _ _ _ _ _ (PipelineFacts.len_run _ _)).
    unfold bind at 1. cbn [fst snd modify Monitoring.update_stage negb] in *.
    unfold bind at 1, bind at 1. rewrite Hconnect. reflexivity.
  - intros clean v0 v1 v2 v3 v4 e1 e2 e3 e4 load L1 L2 L3 L4.
    unfold Pipeline.stage_load.
    rewrite (MonadFacts.bind_Ok _ _ _ _ _ (PipelineFacts.len_run _ _)).
    unfold bind at 1. cbn [fst snd modify Monitoring.update_stage] in *.
    rewrite (MonadFacts.bind_Raise _ _ _ _ _
               (RetryFacts.production_handler_run _ _ _ _ _ _ _ _ _ _ L1 L2 L3 L4)).
    reflexivity.
Qed.

Lemma quality_gate_failure_is_retried_with_extract_witness :
  let '(r, w) :=
    Pipeline.stage_extract Scenario.plain_lib (Scenario.scripted Scenario.empty_dataset)
      "pipeline_1" Scenario.input (Scenario.fresh [Scenario.input]) in
  r = Raise (Exn "Exception" "Data quality issues: ['Empty dataset']")
  /\ Spec.sleeps (trace w) = [1%Q; 2%Q; 4%Q]
  /\ Spec.calls "extract_data" (trace w) = 4%nat.
Proof.
  edestruct (quality_gate_failure_is_retried_with_extract Scenario.plain_lib
               (Scenario.scripted Scenario.empty_dataset) "pipeline_1" Scenario.input
               (Scenario.fresh [Scenario.input])) as [H _].
  1-4: vm_compute; reflexivity.
  1-4: vm_compute; discriminate.
  rewrite H. vm_compute. repeat split.
Defined.

(** C8 (as amended).  A run of [run_pipeline] starts the tracking under
    a fresh id and runs the stages.  When the stages raise an exception,
    the quarantine is entered exactly once, and the run returns the result
    of a failure: it carries the stage the metrics collector recorded last
    (extract, transform or load), the text and the type of the exception
    that left the stages, and the message made of the pipeline id and that
    text; its [quarantine_path] is empty, or the input was copied to it
    and the error note written beside the copy, and nothing else in the
    result tells that the quarantine failed.  The one exception:
    [exists()] on the input path, which the quarantine calls outside its
    [try], raises an [OSError]; then that error leaves [run_pipeline] and
    nothing was copied.  So every run returns a result when [exists()]
    answers on the input path. *)
Theorem failing_run_returns_result {E : Type}
    (lib : Lib) (env : Env E) (path : string) (skip : bool) (w : world E) :
  exists pid metrics w0 r w' tr,
    pid = "pipeline_" +:+ (uuid_hex8 env (ext w)).1 +:+ "_"
            +:+ pretty ((clock env (uuid_hex8 env (ext w)).2).1 / 1000000)
    /\ Monitoring.start_pipeline_tracking env pid path
         (set_ext (clock env (uuid_hex8 env (ext w)).2).2 w) = (Ok metrics, w0)
    /\ Pipeline.run_pipeline lib env path skip w = (r, w')
    /\ trace w' = trace w ++ tr
    /\ (Spec.stat_answers env path -> exists res, r = Ok res)
    /\ match Pipeline.run_stages lib env pid path skip metrics w0 with
       | (Ok res, w1) => r = Ok res /\ w' = w1 /\ Pipeline.success res = true
       | (Raise e, w1) =>
           Spec.calls "quarantine_file" tr = 1%nat
           /\ exists m,
                current_metrics w1 !! pid = Some m
                /\ stage m ∈ ["extract"; "transform"; "load"]
                /\ match r with
                   | Ok res =>
                       exists f,
                         res = Pipeline.Failed f
                         /\ Pipeline.f_pipeline_id f = pid
                         /\ Pipeline.failed_stage f = stage m
                         /\ Pipeline.error f = exn_msg e
                         /\ Pipeline.error_type f = exn_type e
                         /\ Pipeline.f_message f
                            = "Production pipeline failed: " +:+ pid +:+ " - "
                                +:+ exn_msg e
                         /\ (Pipeline.quarantine_path f = ""
                             \/ (Copied path (Pipeline.quarantine_path f) ∈ tr
                                 /\ Wrote (Pipeline.quarantine_path f +:+ ".error")
                                      ∈ tr))
                   | Raise e' =>
                       Spec.stat_raises env path e' w'
                       /\ forall src dst, Copied src dst ∉ tr
                   end
       end.
Proof.
  destruct (PipelineFacts.run_pipeline_spec lib env path skip w)
    as (pid & metrics & w0 & r & w' & tr & Hpid & Hstart & Hrun & Htr & Hres).
  exists pid, metrics, w0, r, w', tr. split; [exact Hpid|].
  split; [exact Hstart|]. split; [exact Hrun|]. split; [exact Htr|].
  destruct (Pipeline.run_stages lib env pid path skip metrics w0) as [[res|e] w1].
  - destruct Hres as (-> & -> & Hsucc & _). split; [intros _; now exists res|]. auto.
  - destruct Hres as (_ & Hcalls & m & Hm & Hstage & Hr). split.
    + intros Hstat. destruct r as [res|e']; [now exists res|].
      destruct Hr as [Hraises _].
      destruct (PipelineFacts.stat_answers_raises env path e' _ Hstat Hraises).
    + split; [exact Hcalls|]. exists m. auto.
Qed.

(** C9.  In every run of [run_pipeline] the archive and the quarantine
    exclude each other.  A run that reports a success never entered the
    quarantine and copied nothing there; a run that reports a failure never
    entered the archive and moved nothing there; and a run that an
    exception leaves (the [OSError] of [exists()] in the quarantine, the
    only one) never entered the archive either.  So no run has both an
    event of the archive and an event of the quarantine, for whatever
    file.  A run returns whenever [exists()] answers on the input path. *)
Theorem archive_and_quarantine_exclusive {E : Type}
    (lib : Lib) (env : Env E) (path : string) (skip : bool) (w : world E) :
  exists r w' tr,
    Pipeline.run_pipeline lib env path skip w = (r, w')
    /\ trace w' = trace w ++ tr
    /\ match r with
       | Ok res =>
           if Pipeline.success res
           then Forall (fun ev => ~ Spec.quarantines ev) tr
           else Forall (fun ev => ~ Spec.archives ev) tr
       | Raise e =>
           Spec.stat_raises env path e w'
           /\ Forall (fun ev => ~ Spec.archives ev) tr
       end
    /\ (Spec.stat_answers env path -> exists res, r = Ok res)
    /\ ~ (Exists Spec.archives tr /\ Exists Spec.quarantines tr).
Proof.
  destruct (PipelineFacts.run_pipeline_spec lib env path skip w)
    as (pid & metrics & w0 & r & w' & tr & _ & _ & Hrun & Htr & Hres).
  exists r, w', tr. split; [exact Hrun|]. split; [exact Htr|].
  destruct (Pipeline.run_stages lib env pid path skip metrics w0) as [[res|e] w1].
  - destruct Hres as (-> & _ & Hsucc & Hall). rewrite Hsucc.
    split; [exact Hall|]. split; [intros _; now exists res|]. intros [_ Hq].
    apply Exists_exists in Hq as (ev & Hin & Hq).
    rewrite Forall_forall in Hall. exact (Hall ev Hin Hq).
  - destruct Hres as (Hall & _ & m & _ & _ & Hr).
    assert (Hno : ~ (Exists Spec.archives tr /\ Exists Spec.quarantines tr)).
    { intros [Ha _]. apply Exists_exists in Ha as (ev & Hin & Ha).
      rewrite Forall_forall in Hall. exact (Hall ev Hin Ha). }
    destruct r as [res|e'].
    + destruct Hr as (f & -> & _). cbn [Pipeline.success].
      split; [exact Hall|]. split; [intros _; now eexists | exact Hno].
    + destruct Hr as [Hraises _]. split; [now split|]. split; [|exact Hno].
      intros Hstat.
      destruct (PipelineFacts.stat_answers_raises env path e' _ Hstat Hraises).
Qed.

(** ** Runs of the pipeline on scripted environments *)

(** C1: the code at a failing input.  The input file is well formed and
    the store refuses the rows ([to_sql] raises an integrity error).
    [load_data] catches the error and returns a result whose [success] is
    false; [retry_with_backoff] sees a call that returned, so the load is
    called once and never retried; [run_pipeline] does not look at the
    load's [success]: the run is reported as a success with 0 rows loaded,
    the input is archived as processed and nothing is quarantined. *)
Theorem failed_load_reported_as_success :
  let '(r, w) := Scenario.run Scenario.constraint_violation false
                   (Scenario.fresh [Scenario.input]) in
  (exists s, r = Ok (Pipeline.Succeeded s)
             /\ Pipeline.success (Pipeline.Succeeded s) = true
             /\ Pipeline.s_rows_loaded s = 0
             /\ Pipeline.rows_transformed s = 2)
  /\ Spec.calls "load_data" (trace w) = 1%nat
  /\ Spec.sleeps (trace w) = []
  /\ Spec.calls "quarantine_file" (trace w) = 0%nat
  /\ Moved Scenario.input "data/processed/4000000_users.csv" ∈ trace w.
Proof.
  vm_compute. split; [eexists; repeat split|]. repeat split.
  apply list_elem_of_In. vm_compute. tauto.
Qed.

(** C2, as stated, fails: a blocking issue of the dataset-level quality
    gate does not end the run at once.  The gate runs inside the retried
    extract operation: on a dataset with no row the extraction and the gate
    run four times, with sleeps of 1, 2 and 4 seconds between them, before
    the run fails. *)
Lemma quality_gate_failure_is_retried :
  let '(r, w) := Scenario.run Scenario.empty_dataset false
                   (Scenario.fresh [Scenario.input]) in
  (exists f, r = Ok (Pipeline.Failed f)
             /\ Pipeline.error f = "Data quality issues: ['Empty dataset']")
  /\ Spec.calls "extract_data" (trace w) = 4%nat
  /\ Spec.calls "validate_data_quality" (trace w) = 4%nat
  /\ Spec.sleeps (trace w) = [1%Q; 2%Q; 4%Q].
Proof. vm_compute. split; [eexists; repeat split|]. repeat split. Qed.

(** C4, as stated, fails.  The data has the new column [email] and the
    store refuses the ALTER TABLE statement: [apply_schema_changes] returns
    [False], the evolution report has [migration_applied] false and no
    error, the run goes on and succeeds, and the registry has moved from
    version 1 to version 2. *)
Lemma failed_migration_advances_registry :
  let w0 := Scenario.fresh [Scenario.input] in
  let '(r, w) := Scenario.run Scenario.ddl_fails false w0 in
  (exists s, r = Ok (Pipeline.Succeeded s)
             /\ Evolution.migration_applied (Pipeline.schema_evolution s) = false
             /\ Evolution.r_error (Pipeline.schema_evolution s) = None)
  /\ Sql "ALTER TABLE users ADD COLUMN email VARCHAR(0) NOT NULL;" ∈ trace w
  /\ Schema.current_version (reg w0) = 1
  /\ Schema.current_version (reg w) = 2
  /\ is_Some (Schema.schemas (reg w) !! "2").
Proof.
  vm_compute. split; [eexists; repeat split|].
  split; [apply list_elem_of_In; vm_compute; tauto|]. repeat split. eexists. reflexivity.
Qed.

(** C5: the code at a failing input.  The registry marks [email] required
    (an earlier run stored the schema of data that had it) and the data has
    no [email] column.  [_handle_compatibility_issues] is commented
    "Add missing required column with default values" and logs that it
    added the column, but its chain of cases has the four columns of the
    users table and no last case: for [email] it adds nothing and raises
    nothing.  The run succeeds, with no error in the evolution report,
    which lists the action "Applied compatibility fixes", and no frame of
    the run has an [email] column. *)
Theorem required_column_without_default_is_dropped :
  let w0 := Scenario.evolved Scenario.users_with_email [Scenario.input] in
  let '(r, w) := Scenario.run Scenario.all_well false w0 in
  Schema.is_required (Schema.current_columns (reg w0)) "email" = true
  /\ (exists s, r = Ok (Pipeline.Succeeded s)
                /\ Evolution.r_error (Pipeline.schema_evolution s) = None
                /\ Evolution.actions_taken (Pipeline.schema_evolution s)
                   = ["Applied compatibility fixes"])
  /\ forallb (fun df => negb (has_column df "email")) (frames w) = true.
Proof. vm_compute. split; [reflexivity|]. split; [eexists; repeat split | reflexivity]. Qed.

(** C8, as stated, fails in three places.  The result of a failing run
    whose quarantine failed carries no note of that second failure: it is
    the same whatever the quarantine error was, and it differs from the
    result of the same run with a quarantine that worked by its empty
    [quarantine_path] alone.  The stage it carries is the one the metrics
    collector last recorded: a run that failed its pre-flight checks is
    reported as failed in [extract].  And a run can throw: on a file name
    of 304 characters the pre-flight checks fail, and the [OSError] of
    [exists()] in the quarantine leaves [run_pipeline]. *)
Lemma quarantine_failure_leaves_no_note :
  let w0 := Scenario.fresh [Scenario.input] in
  let r1 := (Scenario.run (Scenario.quarantine_fails "disk full") false w0).1 in
  let r2 := (Scenario.run (Scenario.quarantine_fails "permission denied") false w0).1 in
  let r3 := (Scenario.run Scenario.empty_dataset false w0).1 in
  let r4 := (Scenario.run Scenario.empty_dataset false (Scenario.fresh [])).1 in
  let r5 :=
    (Pipeline.run_pipeline Scenario.plain_lib (Scenario.scripted Scenario.all_well)
       Scenario.long_name false (Scenario.fresh [])).1 in
  r5 = Raise (Exn "OSError"
                ("[Errno 36] File name too long: '" +:+ Scenario.long_name +:+ "'"))
  /\ r1 = r2
  /\ (exists f1 f3,
        r1 = Ok (Pipeline.Failed f1) /\ r3 = Ok (Pipeline.Failed f3)
        /\ Pipeline.quarantine_path f1 = ""
        /\ Pipeline.quarantine_path f3 = "data/deadletter/5000000_users.csv"
        /\ Pipeline.error f1 = "Data quality issues: ['Empty dataset']"
        /\ Pipeline.f_message f1 =
           "Production pipeline failed: pipeline_0a1b2c3d_0 - Data quality issues: ['Empty dataset']"
        /\ Pipeline.Failure (Pipeline.f_pipeline_id f3) (Pipeline.f_file_processed f3)
             (Pipeline.failed_stage f3) (Pipeline.error f3) (Pipeline.error_type f3)
             (Pipeline.f_execution_time f3) "" (Pipeline.f_message f3) = f1)
  /\ (exists f4,
        r4 = Ok (Pipeline.Failed f4)
        /\ Pipeline.error f4 = "Pre-flight checks failed: ['File does not exist']"
        /\ Pipeline.failed_stage f4 = "extract").
Proof.
  vm_compute. split; [reflexivity|]. split; [reflexivity|].
  split; [do 2 eexists; repeat split | eexists; repeat split].
Qed.

(* ================================================================== *)
(** * Part III: further properties of the code                          *)
(* ================================================================== *)

Import Schema.

Module RetryLoopFacts.
Import Retry Terms RetryFacts.

Section WithWorld.
Context {E A : Type}.
Implicit Types (h : RetryHandler) (func : M (world E) A) (w : world E).

(** The loop passes over failed calls that are not the last attempt. *)
Lemma retry_loop_failures h func errs : forall todo attempt w w1,
  failures h func errs attempt w w1 ->
  Z.of_nat attempt + Z.of_nat (length errs) <= max_retries h ->
  retry_loop h func (length errs + todo) attempt w =
  retry_loop h func todo (attempt + length errs) w1.
Proof.
  induction errs as [|e errs IH]; intros todo attempt w w1 Hfail Hle;
    cbn [failures length] in *.
  - subst. now rewrite Nat.add_0_r.
  - destruct Hfail as (w0 & Hcall & Hwait & Hrest).
    change (S (length errs) + todo)%nat with (S (length errs + todo)).
    rewrite (retry_loop_retries _ _ _ _ _ _ _ Hcall) by (lia || exact Hwait).
    rewrite (IH todo (S attempt) _ w1 Hrest) by lia.
    f_equal. lia.
Qed.
End WithWorld.
End RetryLoopFacts.

(** X1.  [retry_with_backoff], for every handler with [max_retries >= 0]
    and every operation.  After calls that failed, each followed by a sleep
    of [retry_delay * 2^attempt] seconds that [time.sleep] accepted: a call
    that returns ends the loop with its value, provided no more than
    [max_retries] calls failed before it; when [max_retries] calls failed
    before it, a call that fails ends the loop with its own exception; and
    when fewer failed before it and [time.sleep] refuses the next wait (a
    negative delay, a wait too long), a call that fails ends the loop with
    the exception of [time.sleep], not its own.  Nothing runs after the
    last call. *)
Theorem retry_with_backoff_after_failures {E A : Type}
    (h : Retry.RetryHandler) (func : M (world E) A) (errs : list exn)
    (w w1 : world E) :
  0 <= Retry.max_retries h ->
  Terms.failures h func errs 0 w w1 ->
  (forall a w2,
     Z.of_nat (length errs) <= Retry.max_retries h ->
     func w1 = (Ok a, w2) ->
     Retry.retry_with_backoff h func w = (Ok (Some a), w2))
  /\ (forall e w2,
        Z.of_nat (length errs) = Retry.max_retries h ->
        func w1 = (Raise e, w2) ->
        Retry.retry_with_backoff h func w = (Raise e, w2))
  /\ (forall e w2 e',
        Z.of_nat (length errs) < Retry.max_retries h ->
        func w1 = (Raise e, w2) ->
        Retry.wait_error h (length errs) = Some e' ->
        Retry.retry_with_backoff h func w = (Raise e', w2)).
Proof.
  intros Hpos Hfail. unfold Retry.retry_with_backoff.
  assert (Hsplit : forall todo,
            Z.to_nat (Retry.max_retries h + 1) = (length errs + S todo)%nat ->
            Retry.retry_loop h func (Z.to_nat (Retry.max_retries h + 1)) 0 w =
            Retry.retry_loop h func (S todo) (length errs) w1).
  { intros todo Htodo. rewrite Htodo.
    rewrite (RetryLoopFacts.retry_loop_failures h func errs (S todo) 0%nat w w1 Hfail)
      by lia.
    reflexivity. }
  split; [|split].
  - intros a w2 Hle Hcall.
    rewrite (Hsplit (Z.to_nat (Retry.max_retries h) - length errs)%nat) by lia.
    now apply RetryFacts.retry_loop_returns.
  - intros e w2 Heq Hcall.
    rewrite (Hsplit 0%nat) by lia.
    apply RetryFacts.retry_loop_gives_up; [exact Hcall | lia].
  - intros e w2 e' Hlt Hcall Hwait.
    rewrite (Hsplit (Z.to_nat (Retry.max_retries h) - length errs)%nat) by lia.
    apply (RetryFacts.retry_loop_wait_fails _ _ _ _ _ e); [exact Hcall | lia | exact Hwait].
Qed.

Lemma retry_with_backoff_after_failures_witness :
  Retry.retry_with_backoff (Retry.Handler 5 1) Scenario.flaky Scenario.idle
  = (Ok (Some 7),
     MkWorld 4%nat ∅ [] ∅ (Schema.default_registry "0") 0
       [Slept 1; Slept 2; Slept 4])
  /\ Retry.retry_with_backoff (Retry.Handler 3 (-1)) Scenario.hopeless Scenario.idle
     = (Raise (Exn "ValueError" "sleep length must be non-negative"),
        MkWorld 1%nat ∅ [] ∅ (Schema.default_registry "0") 0 []).
Proof.
  split.
  - edestruct (retry_with_backoff_after_failures (Retry.Handler 5 1)
                 Scenario.flaky
                 [Exn "IOError" "failure 1"; Exn "IOError" "failure 2";
                  Exn "IOError" "failure 3"]
                 Scenario.idle) as [H _].
    + cbn. lia.
    + cbn. eexists. split; [reflexivity|]. split; [reflexivity|].
      eexists. split; [reflexivity|]. split; [reflexivity|].
      eexists. split; [reflexivity|]. split; [reflexivity|]. reflexivity.
    + apply H; [cbn; lia | vm_compute; reflexivity].
  - edestruct (retry_with_backoff_after_failures (Retry.Handler 3 (-1))
                 Scenario.hopeless [] Scenario.idle) as (_ & _ & H).
    + cbn. lia.
    + reflexivity.
    + apply (H (Exn "IOError" "failure 1")); [cbn; lia | reflexivity | reflexivity].
Defined.

(** X2.  A handler built with a negative [max_retries] never calls the
    operation: [range(max_retries + 1)] is empty, the loop body does not
    run, and [retry_with_backoff] returns [None] without an exception and
    without a sleep, leaving everything as it was. *)
Theorem retry_with_backoff_negative_retries {E A : Type}
    (h : Retry.RetryHandler) (func : M (world E) A) (w : world E) :
  Retry.max_retries h < 0 ->
  Retry.retry_with_backoff h func w = (Ok None, w).
Proof.
  intros Hneg. unfold Retry.retry_with_backoff.
  replace (Z.to_nat (Retry.max_retries h + 1)) with 0%nat by lia. reflexivity.
Qed.

Lemma retry_with_backoff_negative_retries_witness :
  Retry.retry_with_backoff (Retry.Handler (-1) 1) Scenario.hopeless Scenario.idle
  = (Ok None, Scenario.idle).
Proof.
  apply (retry_with_backoff_negative_retries (Retry.Handler (-1) 1)). cbn. lia.
Defined.

Module MetricsFacts.
Import Spec Terms2 MonadFacts WorldFacts TotalFacts Monitoring.

Section WithEnv.
Context {E : Type} (lib : Lib) (env : Env E).

Lemma same_metrics_stable : stable (fun _ => True) (@same_metrics E).
Proof.
  split; unfold same_metrics.
  - intros w. reflexivity.
  - intros w1 w2 w3 H1 H2. congruence.
  - reflexivity.
  - reflexivity.
  - reflexivity.
Qed.

(** [finish_pipeline_tracking] on a tracked run. *)
Lemma finish_run pid status msg m (w : world E) :
  current_metrics w !! pid = Some m ->
  exists now w',
    finish_pipeline_tracking lib env pid status msg w
      = (Ok (Some (Metrics (pipeline_id m) (start_time m) (Some now) status (stage m)
                     (m_file_path m) (rows_processed m) msg
                     ((now - start_time m) # 1000000) (data_quality_score m)
                     (memory_usage_mb m))), w')
    /\ now = (clock env (ext w)).1
    /\ current_metrics w' = delete pid (current_metrics w).
Proof.
  intros Hm. unfold finish_pipeline_tracking.
  rewrite (bind_Ok _ _ _ _ _ (gets_run _ _)). rewrite Hm.
  rewrite (bind_Ok _ _ _ _ _ (ask_run _ _)).
  match goal with |- context [save_metrics lib env ?m0] => set (m' := m0) end.
  match goal with |- context [bind (save_metrics lib env m') _ ?w0] => set (w1 := w0) end.
  destruct (run_total same_metrics (save_metrics lib env m') w1)
    as ([] & w2 & Hsave & Hsame).
  { apply returns_save_metrics. }
  { apply (keeps_save_metrics lib env _ _ same_metrics_stable); auto. }
  rewrite (bind_Ok _ _ _ _ _ Hsave). cbn.
  eexists _, _. split; [reflexivity|]. split; [reflexivity|].
  cbn. now rewrite Hsame.
Qed.

Lemma finish_untracked pid status msg (w : world E) :
  current_metrics w !! pid = None ->
  finish_pipeline_tracking lib env pid status msg w = (Ok None, w).
Proof.
  intros Hm. unfold finish_pipeline_tracking.
  rewrite (bind_Ok _ _ _ _ _ (gets_run _ _)). now rewrite Hm.
Qed.
End WithEnv.
End MetricsFacts.

(** X3.  The metrics collector, start to finish.  After
    [start_pipeline_tracking], [update_stage] and
    [finish_pipeline_tracking] for one id, the metrics returned carry the
    id and the file of the start, the stage and the rows of the update, the
    status and the error message of the finish, and the time between the
    two readings of the clock; the id is no longer tracked and the other
    tracked runs are as they were.  This holds whether the metrics file
    could be written or not. *)
Theorem tracking_round_trip {E : Type} (lib : Lib) (env : Env E)
    (pid path stage : string) (rows : Z) (status msg : string) (w : world E) :
  exists m t1 w',
    (let* started := Monitoring.start_pipeline_tracking env pid path in
     do* Monitoring.update_stage pid stage rows in
     Monitoring.finish_pipeline_tracking lib env pid status msg) w
    = (Ok (Some m), w')
    /\ World.pipeline_id m = pid /\ World.m_file_path m = path
    /\ World.stage m = stage /\ World.rows_processed m = rows
    /\ World.status m = status /\ World.error_message m = msg
    /\ World.start_time m = (clock env (ext w)).1
    /\ World.end_time m = Some t1
    /\ World.execution_time_seconds m = (t1 - World.start_time m) # 1000000
    /\ current_metrics w' !! pid = None
    /\ (forall p, p <> pid -> current_metrics w' !! p = current_metrics w !! p).
Proof.
  set (t0 := (clock env (ext w)).1).
  set (m0 := Metrics pid t0 None "running" "extract" path 0 "" 0%Q 100%Q 0%Q).
  set (w1 := set_current_metrics (<[pid := m0]> (current_metrics w))
               (set_ext (clock env (ext w)).2 w)).
  assert (Hstart : Monitoring.start_pipeline_tracking env pid path w = (Ok m0, w1)).
  { unfold Monitoring.start_pipeline_tracking.
    rewrite (MonadFacts.bind_Ok _ _ _ _ _ (TotalFacts.ask_run _ _)). reflexivity. }
  rewrite (MonadFacts.bind_Ok _ _ _ _ _ Hstart).
  set (m1 := Metrics pid t0 None "running" stage path rows "" 0%Q 100%Q 0%Q).
  set (w2 := set_current_metrics (<[pid := m1]> (current_metrics w1)) w1).
  assert (Hupdate : Monitoring.update_stage pid stage rows w1 = (Ok tt, w2)).
  { unfold Monitoring.update_stage, modify. subst w2.
    replace (current_metrics w1 !! pid) with (Some m0); [reflexivity|].
    subst w1. cbn. now rewrite lookup_insert_eq. }
  rewrite (MonadFacts.bind_Ok _ _ _ _ _ Hupdate).
  destruct (MetricsFacts.finish_run lib env pid status msg m1 w2)
    as (t1 & w' & Hfinish & Ht1 & Hmetrics).
  { subst w2. cbn. now rewrite lookup_insert_eq. }
  eexists _, t1, w'. split; [exact Hfinish|]. cbn.
  repeat (split; [reflexivity|]).
  rewrite Hmetrics. subst w2 w1. cbn. split.
  - apply lookup_delete_eq.
  - intros p Hp. rewrite lookup_delete_ne by congruence.
    now rewrite !lookup_insert_ne by congruence.
Qed.

(** X4.  [finish_pipeline_tracking] ends a run once.  Whatever the first
    call did, a second call for the same id returns [None] and changes
    nothing: no metrics are written a second time; and an [update_stage] for
    that id is then ignored. *)
Theorem finish_tracking_once {E : Type} (lib : Lib) (env : Env E)
    (pid status msg status' msg' stage : string) (rows : Z) (w : world E) :
  let w1 := (Monitoring.finish_pipeline_tracking lib env pid status msg w).2 in
  Monitoring.finish_pipeline_tracking lib env pid status' msg' w1 = (Ok None, w1)
  /\ Monitoring.update_stage pid stage rows w1 = (Ok tt, w1).
Proof.
  intros w1.
  assert (Hgone : current_metrics w1 !! pid = None).
  { subst w1. destruct (current_metrics w !! pid) as [m|] eqn:Hm.
    - destruct (MetricsFacts.finish_run lib env pid status msg m w Hm)
        as (t1 & w' & Hfinish & _ & Hmetrics).
      rewrite Hfinish. cbn. rewrite Hmetrics. apply lookup_delete_eq.
    - now rewrite (MetricsFacts.finish_untracked lib env pid status msg w Hm). }
  split.
  - now apply MetricsFacts.finish_untracked.
  - unfold Monitoring.update_stage, modify. now rewrite Hgone.
Qed.

(** ** The parts of a run *)

Module RunFacts.
Import Spec Terms2 Stages MonadFacts WorldFacts TotalFacts PipelineFacts
  Retry ErrorHandler Monitoring Store Evolution Pipeline.

Section WithEnv.
Context {E : Type} (lib : Lib) (env : Env E).

(** [run_stages] is the first stages followed by the post-processing. *)
Lemma run_stages_split pid path skip metrics (w : world E) :
  run_stages lib env pid path skip metrics w =
  (let* h := first_stages lib env pid path skip in
   stage_post_processing lib env pid path metrics (h_preflight h) (h_raw_data h)
     (h_clean_data h) (h_evolution_report h) (h_load_result h)) w.
Proof.
  unfold run_stages, first_stages, bind.
  destruct (stage_preflight lib env path w) as [[pre|e] w1]; [|reflexivity].
  destruct (stage_extract lib env pid path w1) as [[raw|e] w2]; [|reflexivity].
  destruct (stage_transform lib env pid skip raw w2) as [[[clean rep]|e] w3];
    [|reflexivity].
  destruct (stage_load lib env pid clean w3) as [[lr|e] w4]; reflexivity.
Qed.

Section Keeps.
Context (allowed : event -> Prop) (R : world E -> world E -> Prop).
Context (HR : stable allowed R).
Context (Heffects : forall ev, effect ev -> allowed ev).
Context (Hcalled : forall f, f <> "archive_successful_file" -> f <> "quarantine_file" ->
                             allowed (Called f)).
Context (HF : frames_free R).
Context (Hreg : forall w x, R w (set_reg x w)).

#[local] Instance keeps_reflexive : Reflexive R := stable_refl _ _ HR.
#[local] Instance keeps_transitive : Transitive R := stable_trans _ _ HR.

Lemma keeps_first_stages pid path skip :
  (forall stage rows, stage ∈ ["extract"; "transform"; "load"] ->
                      keeps R (update_stage pid stage rows)) ->
  keeps R (first_stages lib env pid path skip).
Proof.
  intros Hstage. unfold first_stages.
  apply keeps_bind; [exact _ | | intros pre].
  { apply (keeps_stage_preflight lib env _ _ HR); auto. }
  apply keeps_bind; [exact _ | | intros raw].
  { apply (keeps_stage_extract lib env _ _ HR); auto. }
  apply keeps_bind; [exact _ | | intros [clean rep]].
  { apply (keeps_stage_transform lib env _ _ HR); auto. }
  apply keeps_bind; [exact _ | | intros lr].
  { apply (keeps_stage_load lib env _ _ HR); auto. }
  apply keeps_ret. exact _.
Qed.

Section Metrics.
Context (Hmetrics : forall w x, R w (set_current_metrics x w)).

Lemma keeps_update_stage pid stage rows : keeps R (update_stage pid stage rows).
Proof.
  intros w. unfold update_stage, modify. cbn [snd].
  destruct (current_metrics w !! pid); [apply Hmetrics | reflexivity].
Qed.

Lemma keeps_start_pipeline_tracking pid path :
  keeps R (start_pipeline_tracking env pid path).
Proof.
  unfold start_pipeline_tracking. keeps_go.
  apply keeps_modify. intros w. apply Hmetrics.
Qed.

Lemma keeps_finish_pipeline_tracking pid status msg :
  keeps R (finish_pipeline_tracking lib env pid status msg).
Proof.
  unfold finish_pipeline_tracking.
  apply keeps_bind; [exact _ | apply keeps_gets; exact _ | intros [m|]].
  2:{ apply keeps_ret. exact _. }
  apply keeps_bind; [exact _ | apply (keeps_ask _ _ HR) | intros now].
  apply keeps_bind; [exact _ | | intros ?].
  { apply (keeps_save_metrics lib env _ _ HR); auto. }
  apply keeps_bind; [exact _ | | intros ?; apply keeps_ret; exact _].
  apply keeps_modify. intros w. apply Hmetrics.
Qed.

Section Quarantine.
Context (Hquarantines : forall ev, quarantines ev -> allowed ev).

Lemma keeps_quarantine_file path info : keeps R (quarantine_file lib env path info).
Proof.
  unfold quarantine_file. keeps_go.
  all: apply (keeps_emit _ _ HR); apply Hquarantines; cbn; auto.
Qed.

Lemma keeps_handle_failure pid path e : keeps R (handle_failure lib env pid path e).
Proof.
  unfold handle_failure.
  apply keeps_bind; [exact _ | apply keeps_finish_pipeline_tracking | intros final].
  apply keeps_bind; [exact _ | | intros ?].
  { apply (keeps_send_alert lib env _ _ HR); auto. }
  destruct final as [final|]; [|apply keeps_raise; exact _].
  apply keeps_bind; [exact _ | apply keeps_quarantine_file | intros q].
  apply keeps_ret. exact _.
Qed.
End Quarantine.
End Metrics.
End Keeps.

(** Every run of [run_pipeline]: the tracking starts, the first stages run,
    and then either they raised and the [except] block runs, which returns
    the result of a failure unless [exists()] raises in the quarantine, or
    they returned and the post-processing returns the result of a
    success. *)
Lemma run_pipeline_cases path skip (w : world E) :
  exists pid metrics w0,
    start_pipeline_tracking env pid path
      (set_ext (clock env (uuid_hex8 env (ext w)).2).2 w) = (Ok metrics, w0)
    /\ tracked pid w0
    /\ ((exists e w1 r w2,
           first_stages lib env pid path skip w0 = (Raise e, w1)
           /\ tracked pid w1
           /\ handle_failure lib env pid path e w1 = (r, w2)
           /\ run_pipeline lib env path skip w = (r, w2)
           /\ match r with
              | Ok res => exists f, res = Failed f
              | Raise e' => stat_raises env path e' w2
              end)
        \/ (exists h w1 s w2,
              first_stages lib env pid path skip w0 = (Ok h, w1)
              /\ tracked pid w1
              /\ stage_post_processing lib env pid path metrics (h_preflight h)
                   (h_raw_data h) (h_clean_data h) (h_evolution_report h)
                   (h_load_result h) w1 = (Ok (Succeeded s), w2)
              /\ run_pipeline lib env path skip w = (Ok (Succeeded s), w2))).
Proof.
  unfold run_pipeline.
  rewrite (bind_Ok _ _ _ _ _ (ask_run _ _)). rewrite (bind_Ok _ _ _ _ _ (ask_run _ _)).
  cbn [ext set_ext].
  match goal with |- context [bind (start_pipeline_tracking env ?p path) _ ?w0] =>
    set (pid := p);
    destruct (start_pipeline_tracking_spec env pid path w0)
      as (metrics & w1 & Hs & T1 & Htr1)
  end.
  exists pid, metrics, w1. split.
  { rewrite <- Hs. f_equal. }
  split; [exact T1|].
  rewrite (bind_Ok _ _ _ _ _ Hs). unfold try_except.
  rewrite run_stages_split.
  destruct (run_any (progress pid benign) (first_stages lib env pid path skip) w1)
    as (r & w2 & Hfirst & [T2 _]).
  { apply (keeps_first_stages _ _ (progress_stable pid benign));
      auto using effect_benign, called_benign, progress_frames, progress_set_reg,
        progress_update_stage. }
  destruct r as [h|e].
  - right. rewrite (bind_Ok _ _ _ _ _ Hfirst).
    destruct (stage_post_processing_spec lib env pid path metrics (h_preflight h)
                (h_raw_data h) (h_clean_data h) (h_evolution_report h)
                (h_load_result h) w2 (T2 T1)) as (s & w3 & Hpost & _).
    exists h, w2, s, w3. rewrite Hpost. auto.
  - left. rewrite (bind_Raise _ _ _ _ _ Hfirst).
    destruct (handle_failure_spec lib env pid path e w2 (T2 T1))
      as (r & w3 & tr & Hh & _ & _ & _ & Hr).
    exists e, w2, r, w3. rewrite Hh.
    split; [exact Hfirst|]. split; [auto|]. split; [reflexivity|].
    split; [reflexivity|]. destruct r as [res|e'].
    + destruct Hr as (f & -> & _). now exists f.
    + apply Hr.
Qed.
End WithEnv.
End RunFacts.

Module CounterFacts.
Import Spec Terms2 Stages MonadFacts WorldFacts TotalFacts PipelineFacts RunFacts
  Retry ErrorHandler Monitoring Store Evolution Pipeline.

Section WithEnv.
Context {E : Type} (lib : Lib) (env : Env E).

Lemma same_failures_stable : stable (fun _ => True) (@same_failures E).
Proof.
  split; unfold same_failures.
  - intros w. reflexivity.
  - intros w1 w2 w3 H1 H2. congruence.
  - reflexivity.
  - reflexivity.
  - reflexivity.
Qed.

Lemma same_failures_frames : frames_free (@same_failures E).
Proof. intros w x. reflexivity. Qed.

(** The health check of a run that did not fail resets the counter. *)
Lemma check_pipeline_health_resets m (w : world E) :
  status m <> "failed" ->
  exists alerts,
    check_pipeline_health lib m w = (Ok alerts, set_consecutive_failures 0 w).
Proof.
  intros Hok. unfold check_pipeline_health.
  destruct (decide (status m = "failed")); [contradiction|].
  eexists. reflexivity.
Qed.

Lemma post_processing_resets pid path metrics pre raw clean rep lr (w : world E) :
  tracked pid w ->
  consecutive_failures
    (stage_post_processing lib env pid path metrics pre raw clean rep lr w).2 = 0.
Proof.
  intros Htracked. unfold stage_post_processing.
  pose proof (progress_stable (E:=E) pid (fun ev => ~ quarantines ev)) as HP.
  rewrite (bind_Ok _ _ _ _ _ (len_run _ _)).
  rewrite (bind_Ok _ _ _ _ _ (ask_run _ _)).
  match goal with |- context [bind (post_processing lib env path ?i) _ ?w0] =>
    set (info := i); set (w1 := w0) end.
  destruct (run_total (progress pid (fun ev => ~ quarantines ev))
              (post_processing lib env path info) w1)
    as (post & w2 & Hpost & [T2 _]).
  { apply returns_post_processing. }
  { apply (keeps_post_processing _ _ _ _ HP);
      auto using archives_not_quarantines, effect_not_quarantines. }
  rewrite (bind_Ok _ _ _ _ _ Hpost).
  destruct (T2 Htracked) as (m & Hm & _).
  destruct (MetricsFacts.finish_run lib env pid "success" "" m w2 Hm)
    as (t1 & w3 & Hfin & _ & _).
  rewrite (bind_Ok _ _ _ _ _ Hfin).
  match goal with |- context [check_pipeline_health lib ?f] => set (final := f) end.
  destruct (check_pipeline_health_resets final w3) as (alerts & Hcheck);
    [discriminate|].
  rewrite (bind_Ok _ _ _ _ _ Hcheck).
  destruct (run_total same_failures (send_alerts lib env alerts final)
              (set_consecutive_failures 0 w3))
    as ([] & w5 & Hsend & Hsame).
  { apply returns_send_alerts. }
  { apply (keeps_send_alerts lib env _ _ same_failures_stable); auto. }
  rewrite (bind_Ok _ _ _ _ _ Hsend).
  rewrite (bind_Ok _ _ _ _ _ (len_run _ _)). cbn. exact Hsame.
Qed.
End WithEnv.
End CounterFacts.

(** X5.  [run_pipeline] never counts a failure.  The [except] block does
    not call [check_pipeline_health], so a failed run leaves the counter of
    consecutive failures of the alerting system as it was, whether it
    returns the result of a failure or the [OSError] of [exists()] leaves
    it from the quarantine (the only exception that leaves a run); a
    successful run resets the counter to 0.  No sequence of runs raises
    the counter, and so the alert "CRITICAL: n consecutive failures" cannot
    come from [run_pipeline]. *)
Theorem run_pipeline_never_counts_failures {E : Type}
    (lib : Lib) (env : Env E) (path : string) (skip : bool) (w : world E) :
  exists r w',
    Pipeline.run_pipeline lib env path skip w = (r, w')
    /\ match r with
       | Ok res =>
           consecutive_failures w' =
           (if Pipeline.success res then 0 else consecutive_failures w)
       | Raise e =>
           Spec.stat_raises env path e w'
           /\ consecutive_failures w' = consecutive_failures w
       end.
Proof.
  destruct (RunFacts.run_pipeline_cases lib env path skip w)
    as (pid & metrics & w0 & Hstart & T0 & Hcases).
  pose proof (CounterFacts.same_failures_stable (E:=E)) as HR.
  pose proof (CounterFacts.same_failures_frames (E:=E)) as HF.
  assert (Hmetrics : forall (w : world E) x,
            Terms2.same_failures w (set_current_metrics x w)) by reflexivity.
  assert (Hreg : forall (w : world E) x, Terms2.same_failures w (set_reg x w))
    by reflexivity.
  assert (H0 : consecutive_failures w0 = consecutive_failures w).
  { assert (H : Spec.keeps Terms2.same_failures
                  (Monitoring.start_pipeline_tracking env pid path)).
    { apply (RunFacts.keeps_start_pipeline_tracking env _ _ HR); auto. }
    specialize (H (set_ext (clock env (uuid_hex8 env (ext w)).2).2 w)).
    rewrite Hstart in H. exact H. }
  assert (Hfirst : forall r w1,
            Stages.first_stages lib env pid path skip w0 = (r, w1) ->
            consecutive_failures w1 = consecutive_failures w).
  { intros r w1 Hrun.
    assert (H : Spec.keeps Terms2.same_failures
                  (Stages.first_stages lib env pid path skip)).
    { apply (RunFacts.keeps_first_stages lib env _ _ HR); auto.
      intros. apply (RunFacts.keeps_update_stage _ _ HR Hmetrics). }
    specialize (H w0). rewrite Hrun in H. cbn in H.
    unfold Terms2.same_failures in H. congruence. }
  destruct Hcases as [(e & w1 & r & w2 & Hrun & T1 & Hhandle & Hres & Hr)
                     |(h & w1 & s & w2 & Hrun & T1 & Hpost & Hres)].
  - exists r, w2. split; [exact Hres|].
    assert (H : Spec.keeps Terms2.same_failures
                  (Pipeline.handle_failure lib env pid path e)).
    { apply (RunFacts.keeps_handle_failure lib env _ _ HR); auto. }
    specialize (H w1). rewrite Hhandle in H. cbn in H.
    unfold Terms2.same_failures in H. rewrite (Hfirst _ _ Hrun) in H.
    destruct r as [res|e'].
    + destruct Hr as (f & ->). exact H.
    + split; [exact Hr | exact H].
  - exists (Ok (Pipeline.Succeeded s)), w2. split; [exact Hres|]. cbn.
    pose proof (CounterFacts.post_processing_resets lib env pid path metrics
                  (Stages.h_preflight h) (Stages.h_raw_data h) (Stages.h_clean_data h)
                  (Stages.h_evolution_report h) (Stages.h_load_result h) w1 T1) as H.
    now rewrite Hpost in H.
Qed.

Module PreflightFacts.
Import Spec Terms2 Stages MonadFacts WorldFacts TotalFacts PipelineFacts RunFacts
  Retry ErrorHandler Monitoring Store Evolution Pipeline.

Section WithEnv.
Context {E : Type} (lib : Lib) (env : Env E).

(** [validate_file] never raises: an exception of [exists()] or of the
    checks that read the file becomes the one issue of the result. *)
Lemma validate_file_run path (w : world E) :
  exists v x,
    validate_file env path w = (Ok v, set_ext x w)
    /\ match stat_error env path (ext w) with
       | Some e =>
           v = Validation false ["Validation error: " +:+ exn_msg e] [] []
           /\ x = ext w
       | None =>
           (path ∉ fs w ->
            v = Validation false ["File does not exist"] [] [] /\ x = ext w)
           /\ (path ∈ fs w ->
               match inspect_file env path (ext w) with
               | (Ok v', x') => v = v' /\ x = x'
               | (Raise e, x') =>
                   v = Validation false ["Validation error: " +:+ exn_msg e] [] []
                   /\ x = x'
               end)
       end.
Proof.
  unfold validate_file, try_except, exists_path. unfold bind at 1.
  destruct (stat_error env path (ext w)) as [e0|].
  { eexists _, (ext w). split; [destruct w; reflexivity|]. auto. }
  destruct (decide (path ∈ fs w)) as [Hin|Hout].
  - rewrite bool_decide_eq_true_2 by exact Hin. cbn [negb].
    unfold call. destruct (inspect_file env path (ext w)) as [[v|e] x].
    + exists v, x. split; [reflexivity|]. split; [contradiction | auto].
    + eexists _, x. split; [reflexivity|]. split; [contradiction | auto].
  - rewrite bool_decide_eq_false_2 by exact Hout. cbn [negb].
    eexists _, (ext w). split; [destruct w; reflexivity|].
    split; [auto | contradiction].
Qed.

(** [_run_preflight_checks], run: it never raises. *)
Lemma run_preflight_checks_run path (w : world E) :
  let w1 := set_ext (healthy env (ext w)).2
              (set_trace (trace w ++ [Called "_run_preflight_checks"]) w) in
  let ok := (healthy env (ext w)).1 in
  let warnings1 := if ok then [] else ["System health issues detected"] in
  exists v x,
    validate_file env path w1 = (Ok v, set_ext x w1)
    /\ run_preflight_checks env path w =
       (Ok (Preflight (is_valid v) (if is_valid v then [] else v_issues v)
              (warnings1 ++ v_warnings v) (Some ok) (Some v)), set_ext x w1).
Proof.
  intros w1 ok warnings1. unfold run_preflight_checks.
  rewrite (bind_Ok _ _ _ _ _ (emit_run _ _)). unfold try_except at 1.
  rewrite (bind_Ok _ _ _ _ _ (ask_run _ _)). cbn [ext set_trace]. fold w1 ok warnings1.
  destruct (validate_file_run path w1) as (v & x & Hv & _).
  exists v, x. split; [exact Hv|]. now rewrite (bind_Ok _ _ _ _ _ Hv).
Qed.
End WithEnv.
End PreflightFacts.

(** X6.  [_run_preflight_checks] never raises, and the health of the
    system never decides its outcome: [passed] is the verdict of
    [validate_file] on the input, the issues are those of [validate_file]
    when it rejects the file, and an unhealthy system only adds the warning
    "System health issues detected".  A path that does not exist is
    rejected with the one issue "File does not exist"; and when [exists()]
    raises, the path is rejected with the one issue "Validation error: "
    followed by the text of that exception. *)
Theorem preflight_outcome_is_file_validation {E : Type} (env : Env E)
    (path : string) (w : world E) :
  let checked := set_ext (healthy env (ext w)).2
                   (set_trace (trace w ++ [Called "_run_preflight_checks"]) w) in
  exists pre w' v,
    Pipeline.run_preflight_checks env path w = (Ok pre, w')
    /\ ErrorHandler.validate_file env path checked = (Ok v, w')
    /\ Pipeline.passed pre = is_valid v
    /\ Pipeline.p_issues pre = (if is_valid v then [] else v_issues v)
    /\ Pipeline.p_warnings pre =
       (if (healthy env (ext w)).1 then [] else ["System health issues detected"])
         ++ v_warnings v
    /\ (path ∉ fs w ->
        Pipeline.passed pre = false
        /\ Pipeline.p_issues pre =
           match stat_error env path (ext checked) with
           | None => ["File does not exist"]
           | Some e => ["Validation error: " +:+ exn_msg e]
           end)
    /\ (forall e, stat_error env path (ext checked) = Some e ->
        Pipeline.passed pre = false
        /\ Pipeline.p_issues pre = ["Validation error: " +:+ exn_msg e]).
Proof.
  intros checked.
  destruct (PreflightFacts.run_preflight_checks_run env path w) as (v & x & Hv & Hrun).
  eexists _, _, v. split; [exact Hrun|]. split; [exact Hv|].
  cbn [Pipeline.passed Pipeline.p_issues Pipeline.p_warnings].
  repeat (split; [reflexivity|]).
  destruct (PreflightFacts.validate_file_run env path checked) as (v' & x' & Hv' & Hcases).
  fold checked in Hv. rewrite Hv in Hv'. inversion Hv'; subst v'.
  destruct (stat_error env path (ext checked)) as [e0|].
  - destruct Hcases as [-> _]. split; [now split|].
    intros e He. inversion He; subst. now split.
  - destruct Hcases as [Hmiss _]. split; [|discriminate].
    intros Hout. destruct (Hmiss Hout) as [-> _]. now split.
Qed.

(** X7.  A run on a path that does not exist ([exists()] answers, and
    answers no) fails in the pre-flight checks.  [run_pipeline] returns the
    result of a failure whose error is "Pre-flight checks failed: "
    followed by the list with "File does not exist", reported in the stage
    [extract]; [extract_data] and [load_data] were never called, no
    DataFrame object was created and the schema registry is as it was. *)
Theorem run_on_missing_file_fails_in_preflight {E : Type}
    (lib : Lib) (env : Env E) (path : string) (skip : bool) (w : world E) :
  Spec.stat_answers env path ->
  path ∉ fs w ->
  exists f w' tr,
    Pipeline.run_pipeline lib env path skip w = (Ok (Pipeline.Failed f), w')
    /\ Pipeline.error f =
       "Pre-flight checks failed: " +:+ repr_list lib ["File does not exist"]
    /\ Pipeline.error_type f = "Exception"
    /\ Pipeline.failed_stage f = "extract"
    /\ trace w' = trace w ++ tr
    /\ Spec.calls "extract_data" tr = 0%nat
    /\ Spec.calls "load_data" tr = 0%nat
    /\ frames w' = frames w
    /\ reg w' = reg w.
Proof.
  intros Hstat Hout.
  destruct (RunFacts.run_pipeline_cases lib env path skip w)
    as (pid & metrics & w0 & Hstart & T0 & Hcases).
  (* the start of the tracking *)
  unfold Monitoring.start_pipeline_tracking in Hstart.
  rewrite (MonadFacts.bind_Ok _ _ _ _ _ (TotalFacts.ask_run _ _)) in Hstart.
  unfold bind, modify, ret in Hstart. cbn [fst snd] in Hstart.
  inversion Hstart as [[Hmetrics Hw0]]. clear Hstart.
  assert (Hfs0 : fs w0 = fs w) by (now subst w0).
  assert (Hframes0 : frames w0 = frames w) by (now subst w0).
  assert (Hreg0 : reg w0 = reg w) by (now subst w0).
  assert (Htrace0 : trace w0 = trace w) by (now subst w0).
  assert (Hm0 : current_metrics w0 !! pid = Some metrics).
  { subst w0. cbn. rewrite lookup_insert_eq. now rewrite Hmetrics. }
  assert (Hstage0 : stage metrics = "extract") by (now subst metrics).
  clear Hw0 Hmetrics.
  (* the pre-flight checks *)
  destruct (PreflightFacts.run_preflight_checks_run env path w0) as (v & x & Hv & Hpre).
  destruct (PreflightFacts.validate_file_run env path
              (set_ext (healthy env (ext w0)).2
                 (set_trace (trace w0 ++ [Called "_run_preflight_checks"]) w0)))
    as (v' & x' & Hv' & Hcases').
  rewrite Hstat in Hcases'. destruct Hcases' as [Hmiss _].
  rewrite Hv in Hv'. inversion Hv' as [[Hvv Hxx]]. subst v'. clear Hv' Hxx.
  destruct Hmiss as [-> _]; [cbn; now rewrite Hfs0|].
  cbn [is_valid v_issues v_warnings] in Hpre.
  pose proof (PipelineFacts.stage_preflight_fails lib env path _ _ _ Hpre eq_refl)
    as Hfail.
  cbn [Pipeline.p_issues] in Hfail.
  set (e := Exn "Exception"
              ("Pre-flight checks failed: " +:+ repr_list lib ["File does not exist"]))
    in *.
  set (w1 := set_ext x _) in *.
  assert (Hfirst : Stages.first_stages lib env pid path skip w0 = (Raise e, w1)).
  { unfold Stages.first_stages. now rewrite (MonadFacts.bind_Raise _ _ _ _ _ Hfail). }
  destruct Hcases as [(e' & w1' & r & w2 & Hrun & T1 & Hhandle & Hres & Hr)
                     |(h & w1' & s & w2 & Hrun & _)];
    [|rewrite Hfirst in Hrun; discriminate].
  rewrite Hfirst in Hrun. inversion Hrun; subst e' w1'. clear Hrun.
  destruct r as [res|e'];
    [|destruct (PipelineFacts.stat_answers_raises env path e' _ Hstat Hr)].
  destruct Hr as (f & ->).
  exists f, w2.
  (* the except block *)
  assert (Hm1 : current_metrics w1 !! pid = Some metrics) by exact Hm0.
  assert (Hfields : Pipeline.error f = exn_msg e /\ Pipeline.error_type f = exn_type e
                    /\ Pipeline.failed_stage f = stage metrics).
  { unfold Pipeline.handle_failure in Hhandle.
    destruct (MetricsFacts.finish_run lib env pid "failed" (exn_msg e) metrics w1 Hm1)
      as (t1 & w1a & Hfin & _ & _).
    rewrite (MonadFacts.bind_Ok _ _ _ _ _ Hfin) in Hhandle.
    apply MonadFacts.bind_Ok_inv in Hhandle as ([] & w1b & _ & Hhandle).
    apply MonadFacts.bind_Ok_inv in Hhandle as (q & w1c & _ & Hhandle).
    inversion Hhandle. now repeat split. }
  destruct Hfields as (Herr & Hty & Hst).
  set (P := fun ev => ev <> Called "extract_data" /\ ev <> Called "load_data").
  assert (Htr : Spec.extends_trace P w1 w2).
  { assert (H : Spec.keeps (Spec.extends_trace P)
                  (Pipeline.handle_failure lib env pid path e)).
    { apply (RunFacts.keeps_handle_failure lib env _ _
               (PipelineFacts.extends_trace_stable P)).
      - intros ev Hev. destruct ev; cbn in Hev; try contradiction; split; discriminate.
      - intros w3 x3. now apply PipelineFacts.extends_trace_same.
      - intros ev Hev. destruct ev; cbn in Hev; try contradiction;
          split; try discriminate; subst; discriminate. }
    specialize (H w1). now rewrite Hhandle in H. }
  assert (Hfr : frames w2 = frames w1).
  { assert (H : Spec.keeps Spec.same_frames
                  (Pipeline.handle_failure lib env pid path e)).
    { apply (RunFacts.keeps_handle_failure lib env _ _ TotalFacts.same_frames_stable);
        auto. reflexivity. }
    specialize (H w1). now rewrite Hhandle in H. }
  assert (Hrg : reg w2 = reg w1).
  { assert (H : Spec.keeps Spec.same_reg
                  (Pipeline.handle_failure lib env pid path e)).
    { apply (RunFacts.keeps_handle_failure lib env _ _ TotalFacts.same_reg_stable);
        auto. reflexivity. }
    specialize (H w1). now rewrite Hhandle in H. }
  destruct Htr as (tr & Htr & Hall).
  exists ([Called "_run_preflight_checks"] ++ tr).
  split; [exact Hres|]. split; [exact Herr|]. split; [exact Hty|].
  split; [now rewrite Hst|].
  split.
  { rewrite Htr. subst w1. cbn. rewrite Htrace0. now rewrite <- app_assoc. }
  assert (Hnone : forall g, (forall ev, P ev -> ev <> Called g) ->
                            Spec.calls g ([Called "_run_preflight_checks"] ++ tr) = 0%nat
                            \/ g = "_run_preflight_checks").
  { intros g Hg. destruct (decide (g = "_run_preflight_checks")) as [|Hne];
      [now right | left].
    unfold Spec.calls. rewrite filter_app, length_app.
    rewrite filter_cons_False by congruence. cbn.
    clear Htr.
    induction Hall as [|ev tr' Hev _ IH]; [reflexivity|].
    rewrite filter_cons_False; [exact IH|]. now apply Hg. }
  split; [|split].
  - destruct (Hnone "extract_data") as [H|H]; [intros ev [? ?]; assumption | exact H |
                                                 discriminate].
  - destruct (Hnone "load_data") as [H|H]; [intros ev [? ?]; assumption | exact H |
                                              discriminate].
  - split.
    + rewrite Hfr. subst w1. cbn. exact Hframes0.
    + rewrite Hrg. subst w1. cbn. exact Hreg0.
Qed.

Lemma run_on_missing_file_fails_in_preflight_witness :
  exists f w',
    Pipeline.run_pipeline Scenario.plain_lib (Scenario.scripted Scenario.all_well)
      Scenario.input false (Scenario.fresh []) = (Ok (Pipeline.Failed f), w')
    /\ Pipeline.error f = "Pre-flight checks failed: ['File does not exist']".
Proof.
  destruct (run_on_missing_file_fails_in_preflight Scenario.plain_lib
              (Scenario.scripted Scenario.all_well) Scenario.input false
              (Scenario.fresh []))
    as (f & w' & tr & Hrun & Herr & _).
  - intros x. reflexivity.
  - cbn. apply not_elem_of_empty.
  - exists f, w'. split; [exact Hrun | exact Herr].
Defined.

Module DetectFacts.
Import Schema.

Lemma type_mapping_cases dt :
  type_mapping dt ∈ ["integer"; "float"; "string"; "boolean"; "datetime"].
Proof.
  unfold type_mapping. repeat case_decide; set_solver.
Qed.

Lemma existsb_filter_length {A} (p : A -> bool) (l : list A) :
  negb (existsb p l) = true <-> length (filter (fun v => p v) l) = 0%nat.
Proof.
  induction l as [|a l IH]; [easy|]. cbn [existsb].
  destruct (p a) eqn:Hp.
  - rewrite filter_cons_True by now rewrite Hp. cbn. split; [discriminate | lia].
  - rewrite filter_cons_False by now rewrite Hp. exact IH.
Qed.

Section WithLib.
Context (lib : Lib).

Lemma detect_column_spec c info :
  detect_column lib c = Ok info ->
  ci_type info = Some (type_mapping (dtype c))
  /\ ci_required info = Some (negb (existsb is_null (cells c)))
  /\ ci_null_count info
     = Some (Z.of_nat (length (filter (fun v => is_null v) (cells c)))).
Proof.
  unfold detect_column, lift2. intros H.
  destruct (nunique lib c); [|discriminate].
  repeat case_decide;
    repeat match type of H with
      | context [match ?x with _ => _ end] => destruct x; try discriminate
      end;
    inversion H; now cbn.
Qed.

Lemma detect_columns_spec cs m :
  detect_columns lib cs = Ok m ->
  dom m = list_to_set cs.*1
  /\ forall col info, m !! col = Some info ->
       exists c, (col, c) ∈ cs /\ detect_column lib c = Ok info.
Proof.
  revert m. induction cs as [|[name c] cs IH]; intros m; cbn.
  - intros [= <-]. split; [now rewrite dom_empty_L|]. intros col info.
    now rewrite lookup_empty.
  - destruct (detect_column lib c) as [info|] eqn:Hc; [|discriminate].
    destruct (detect_columns lib cs) as [m'|]; [|discriminate].
    intros [= <-]. destruct (IH m' eq_refl) as [Hdom Hall]. split.
    + now rewrite dom_insert_L, Hdom.
    + intros col info'. destruct (decide (name = col)) as [->|Hne].
      * rewrite lookup_insert_eq. intros [= <-]. exists c. split; [left | exact Hc].
      * rewrite lookup_insert_ne by exact Hne. intros H.
        destruct (Hall _ _ H) as (c' & Hin & Hd). exists c'. split; [now right | exact Hd].
Qed.

End WithLib.
End DetectFacts.

(** X8.  The schema the detector reads off a DataFrame describes exactly
    the columns of the frame; it records the length of the frame and the
    table name [users]; every column has one of the five types of the
    type mapping, and it is marked required exactly when its null count
    is zero. *)
Theorem detected_schema_describes_frame (lib : Lib) (detected_at : string)
    (df : frame) (s : Schema.schema) :
  Schema.detect_schema_from_dataframe lib detected_at df = Ok s ->
  exists cols,
    s_columns s = Some cols
    /\ s_row_count s = Some (Z.of_nat (nrows df))
    /\ s_table_name s = Some "users"
    /\ (forall col, is_Some (cols !! col) <-> col ∈ labels df)
    /\ forall col info, cols !! col = Some info ->
         exists ty required null_count,
           ci_type info = Some ty /\ ci_required info = Some required
           /\ ci_null_count info = Some null_count
           /\ ty ∈ ["integer"; "float"; "string"; "boolean"; "datetime"]
           /\ 0 <= null_count
           /\ (required = true <-> null_count = 0).
Proof.
  unfold detect_schema_from_dataframe. intros H.
  destruct (detect_columns lib (columns df)) as [cols|] eqn:Hcols; [|discriminate].
  inversion H. subst s. clear H. exists cols. cbn.
  destruct (DetectFacts.detect_columns_spec lib _ _ Hcols) as [Hdom Hall].
  repeat split; try reflexivity.
  - intros Hsome. apply elem_of_dom in Hsome. rewrite Hdom in Hsome.
    now apply elem_of_list_to_set in Hsome.
  - intros Hin. apply elem_of_dom. rewrite Hdom. now apply elem_of_list_to_set.
  - intros col info Hinfo. destruct (Hall _ _ Hinfo) as (c & _ & Hc).
    destruct (DetectFacts.detect_column_spec lib _ _ Hc) as (Hty & Hreq & Hnull).
    exists (type_mapping (dtype c)), (negb (existsb is_null (cells c))),
      (Z.of_nat (length (filter (fun v => is_null v) (cells c)))).
    split; [exact Hty|]. split; [exact Hreq|]. split; [exact Hnull|].
    split; [apply DetectFacts.type_mapping_cases|]. split; [lia|]. split.
    + intros Hr. apply DetectFacts.existsb_filter_length in Hr. now rewrite Hr.
    + intros Hz. apply DetectFacts.existsb_filter_length. lia.
Qed.

Lemma detected_schema_describes_frame_witness :
  exists cols,
    s_columns (Scenario.detected Scenario.users) = Some cols
    /\ forall col, is_Some (cols !! col) <-> col ∈ labels Scenario.users.
Proof.
  destruct (detected_schema_describes_frame Scenario.plain_lib "0" Scenario.users
              (Scenario.detected Scenario.users))
    as (cols & Hcols & _ & _ & Hdom & _).
  - vm_compute. reflexivity.
  - exists cols. split; [exact Hcols | exact Hdom].
Defined.

Module DefaultFacts.
Import Schema.

Lemma current_columns_default created_at :
  current_columns (default_registry created_at) = default_columns.
Proof. reflexivity. Qed.

Lemma current_columns_added created_at timestamp new_schema description reg :
  current_columns (add_schema_version created_at timestamp new_schema description reg).2
  = default ∅ (s_columns new_schema).
Proof.
  unfold current_columns, get_current_schema, add_schema_version.
  cbn [snd current_version schemas]. now rewrite lookup_insert_eq.
Qed.

Lemma filter_none {A} (P : A -> Prop) `{forall x, Decision (P x)} (l : list A) :
  (forall x, x ∈ l -> ~ P x) -> filter P l = [].
Proof.
  induction l as [|a l IH]; intros Hall; [reflexivity|].
  rewrite filter_cons_False by (apply Hall; left).
  apply IH. intros x Hx. apply Hall. now right.
Qed.

Lemma issue_is_incompatible detected reg i :
  i ∈ compatibility_issues (compare_with_current_schema detected reg) ->
  is_compatible (compare_with_current_schema detected reg) = false
  /\ requires_migration (compare_with_current_schema detected reg) = true.
Proof.
  unfold compare_with_current_schema.
  cbn [compatibility_issues is_compatible requires_migration].
  set (issues := missing_issues _ _ ++ mismatch_issues _ _). clearbody issues.
  intros Hin.
  assert (Hlen : (0 < length issues)%nat).
  { destruct issues; [now apply elem_of_nil in Hin | cbn; lia]. }
  split.
  - apply bool_decide_eq_false. lia.
  - apply orb_true_iff. right. now apply bool_decide_eq_true.
Qed.

End DefaultFacts.

Module MismatchFacts.
Import Schema.

(** The detector never reports the type [date]. *)
Lemma sign_up_date_mismatch (lib : Lib) (detected_at created_at : string)
    (df : frame) (s : schema) :
  "sign_up_date" ∈ labels df ->
  detect_schema_from_dataframe lib detected_at df = Ok s ->
  exists ty,
    ty <> "date"
    /\ Issue "type_mismatch" "sign_up_date" "medium" (Some (Some "date", Some ty))
       ∈ compatibility_issues (compare_with_current_schema s (default_registry created_at)).
Proof.
  intros Hin Hs. unfold detect_schema_from_dataframe in Hs.
  destruct (detect_columns lib (columns df)) as [cols|] eqn:Hcols; [|discriminate].
  inversion Hs. subst s. clear Hs.
  destruct (DetectFacts.detect_columns_spec lib _ _ Hcols) as [Hdom Hall].
  assert (Hsome : is_Some (cols !! "sign_up_date")).
  { apply elem_of_dom. rewrite Hdom. now apply elem_of_list_to_set. }
  destruct Hsome as [info Hinfo].
  destruct (Hall _ _ Hinfo) as (c & _ & Hc).
  destruct (DetectFacts.detect_column_spec lib _ _ Hc) as (Hty & _).
  exists (type_mapping (dtype c)).
  assert (Hne : type_mapping (dtype c) <> "date").
  { pose proof (DetectFacts.type_mapping_cases (dtype c)) as H.
    intros Heq. rewrite Heq in H. apply list_elem_of_In in H. cbn in H.
    intuition discriminate. }
  split; [exact Hne|].
  assert (Hissue :
            Issue "type_mismatch" "sign_up_date" "medium"
              (Some (Some "date", Some (type_mapping (dtype c))))
            ∈ mismatch_issues default_columns cols).
  { apply CompareFacts.mismatch_spec. exists "sign_up_date".
    assert (Hd : col_type cols "sign_up_date" = Some (type_mapping (dtype c))).
    { unfold col_type. rewrite Hinfo. exact Hty. }
    rewrite Hd. split; [reflexivity|]. split; [|split].
    - intros Heq.
      change (col_type default_columns "sign_up_date") with (Some "date") in Heq.
      congruence.
    - eexists. vm_compute. reflexivity.
    - exists info. exact Hinfo. }
  assert (Hin' :
            Issue "type_mismatch" "sign_up_date" "medium"
              (Some (Some "date", Some (type_mapping (dtype c))))
            ∈ compatibility_issues
                (compare_with_current_schema
                   (MkSchema (Some cols) (Some "users") None
                      (Some (Z.of_nat (nrows df))) (Some detected_at))
                   (default_registry created_at))).
  { unfold compare_with_current_schema. cbn [compatibility_issues].
    rewrite DefaultFacts.current_columns_default. apply elem_of_app. now right. }
  exact Hin'.
Qed.

End MismatchFacts.

(** X9.  The detector never reports the type [date], and the default
    registry registers [sign_up_date] with it: whenever a schema is
    detected from a frame that has a [sign_up_date] column, its comparison
    with the default registry carries a [type_mismatch] issue of severity
    medium for that column, so the data is reported incompatible and a
    migration is required. *)
Theorem detected_sign_up_date_mismatches_default (lib : Lib)
    (detected_at created_at : string) (df : frame) (s : Schema.schema) :
  "sign_up_date" ∈ labels df ->
  Schema.detect_schema_from_dataframe lib detected_at df = Ok s ->
  exists ty,
    ty <> "date"
    /\ Schema.Issue "type_mismatch" "sign_up_date" "medium"
         (Some (Some "date", Some ty))
       ∈ compatibility_issues
           (Schema.compare_with_current_schema s (Schema.default_registry created_at))
    /\ is_compatible
         (Schema.compare_with_current_schema s (Schema.default_registry created_at))
       = false
    /\ requires_migration
         (Schema.compare_with_current_schema s (Schema.default_registry created_at))
       = true.
Proof.
  intros Hin Hs.
  destruct (MismatchFacts.sign_up_date_mismatch lib detected_at created_at df s Hin Hs)
    as (ty & Hne & Hissue).
  exists ty. split; [exact Hne|]. split; [exact Hissue|].
  exact (DefaultFacts.issue_is_incompatible _ _ _ Hissue).
Qed.

Lemma detected_sign_up_date_mismatches_default_witness :
  exists ty,
    ty <> "date"
    /\ Schema.Issue "type_mismatch" "sign_up_date" "medium"
         (Some (Some "date", Some ty))
       ∈ compatibility_issues
           (Schema.compare_with_current_schema (Scenario.detected Scenario.users)
              (Schema.default_registry "0")).
Proof.
  destruct (detected_sign_up_date_mismatches_default Scenario.plain_lib "0" "0"
              Scenario.users (Scenario.detected Scenario.users))
    as (ty & Hne & Hin & _).
  - apply list_elem_of_In. cbn. tauto.
  - vm_compute. reflexivity.
  - exists ty. split; [exact Hne | exact Hin].
Defined.

(** X10.  Registering a schema and comparing the same schema with the
    registry again finds nothing: no schema change, no compatibility
    issue, compatible, no migration required. *)
Theorem registered_schema_compares_clean (created_at timestamp : string)
    (detected : Schema.schema) (description : string) (reg : Schema.registry) :
  Schema.compare_with_current_schema detected
    (Schema.add_schema_version created_at timestamp detected description reg).2
  = Schema.Comparison [] [] true false.
Proof.
  unfold compare_with_current_schema.
  rewrite DefaultFacts.current_columns_added.
  set (m := default ∅ (s_columns detected)).
  assert (Hadd : added_changes m m = []).
  { unfold added_changes. now rewrite difference_diag_L, elements_empty. }
  assert (Hrem : removed_changes m m = []).
  { unfold removed_changes. now rewrite difference_diag_L, elements_empty. }
  assert (Hmiss : missing_issues m m = []).
  { unfold missing_issues. now rewrite difference_diag_L, elements_empty. }
  assert (Hmis : mismatch_issues m m = []).
  { unfold mismatch_issues. rewrite DefaultFacts.filter_none; [reflexivity|].
    intros col _ Hne. now apply Hne. }
  rewrite Hadd, Hrem, Hmiss, Hmis. reflexivity.
Qed.

(** X11.  [extract_data] leaves the files, the registry and the metrics
    alone.  When it returns, the file exists and has the suffix [.csv] or
    [.json], and the result is a new DataFrame object, the one pandas read;
    no object that existed before is changed.  When it raises, no object
    was created: the [OSError] of [exists()] is raised as it is; a file
    that does not exist is reported as [FileNotFoundError] with the path
    as [Path] prints it, whatever its suffix; an existing file with
    another suffix as [ValueError]; all three without reading anything. *)
Theorem extract_data_result {E : Type} (lib : Lib) (env : Env E) (path : string)
    (w w' : world E) (r : res nat) :
  Store.extract_data lib env path w = (r, w') ->
  fs w' = fs w /\ reg w' = reg w /\ current_metrics w' = current_metrics w
  /\ trace w' = trace w ++ [Called "extract_data"]
  /\ match r with
     | Ok l =>
         stat_error env path (ext w) = None
         /\ path ∈ fs w
         /\ path_suffix lib path ∈ [".csv"; ".json"]
         /\ l = length (frames w)
         /\ exists df, pd_read env path (ext w) = (Ok df, ext w')
                       /\ frames w' = frames w ++ [df]
     | Raise e =>
         frames w' = frames w
         /\ match stat_error env path (ext w) with
            | Some e0 => e = e0 /\ ext w' = ext w
            | None =>
                (path ∉ fs w ->
                 e = Exn "FileNotFoundError"
                       ("File not found: " +:+ path_str lib path)
                 /\ ext w' = ext w)
                /\ (path ∈ fs w -> path_suffix lib path ∉ [".csv"; ".json"] ->
                    e = Exn "ValueError"
                          ("Unsupported file type: " +:+ path_suffix lib path)
                    /\ ext w' = ext w)
                /\ (path ∈ fs w -> path_suffix lib path ∈ [".csv"; ".json"] ->
                    pd_read env path (ext w) = (Raise e, ext w'))
            end
     end.
Proof.
  unfold Store.extract_data, bind, emit, modify, exists_path, gets, raise, call,
    on_frames, zoom, alloc.
  cbn [fst snd fs set_trace trace ext].
  intros Hrun.
  destruct (stat_error env path (ext w)) as [e0|] eqn:Hstat.
  { inversion Hrun; subst; cbn. repeat split; auto. }
  destruct (bool_decide (path ∈ fs w)) eqn:Hin; cbn [negb] in Hrun.
  - apply bool_decide_eq_true in Hin.
    assert (Hsuffix : forall s, s ∈ [".csv"; ".json"] <-> s = ".csv" \/ s = ".json").
    { intros s. rewrite !elem_of_cons, elem_of_nil. tauto. }
    destruct (decide (path_suffix lib path = ".csv")) as [Hcsv|Hcsv];
      [|destruct (decide (path_suffix lib path = ".json")) as [Hjson|Hjson]].
    1,2: destruct (pd_read env path (ext w)) as [[df|e] x] eqn:Hread;
      cbn in Hrun; rewrite Hread in Hrun; inversion Hrun; subst; cbn;
      (split; [reflexivity|]); (split; [reflexivity|]); (split; [reflexivity|]);
      (split; [reflexivity|]).
    1,3: split; [reflexivity|]; split; [exact Hin|]; split; [apply Hsuffix; auto|];
      split; [reflexivity|]; exists df; split; reflexivity.
    1,2: split; [reflexivity|]; split; [tauto|]; split; [|reflexivity];
      intros _ Hn; exfalso; apply Hn, Hsuffix; auto.
    inversion Hrun; subst; cbn. repeat split; auto; try tauto.
    intros _ Hs. apply Hsuffix in Hs. tauto.
  - apply bool_decide_eq_false in Hin.
    inversion Hrun; subst; cbn. repeat split; auto; tauto.
Qed.

Lemma extract_data_result_witness :
  exists w',
    Store.extract_data Scenario.plain_lib (Scenario.scripted Scenario.all_well)
      "./data/input/users.xml" (Scenario.fresh [])
    = (Raise (Exn "FileNotFoundError" "File not found: data/input/users.xml"), w')
    /\ frames w' = [].
Proof.
  destruct (Store.extract_data Scenario.plain_lib (Scenario.scripted Scenario.all_well)
              "./data/input/users.xml" (Scenario.fresh [])) as [r w'] eqn:Hrun.
  destruct (extract_data_result _ _ _ _ _ _ Hrun) as (_ & _ & _ & _ & Hr).
  destruct r as [l|e].
  - destruct Hr as (_ & Hin & _). exfalso. revert Hin. apply not_elem_of_empty.
  - destruct Hr as (Hframes & Hcases). cbn in Hcases.
    destruct Hcases as (Hmissing & _).
    destruct Hmissing as [-> _]; [apply not_elem_of_empty|].
    exists w'. split; [reflexivity | exact Hframes].
Defined.

(** X12.  [connect_to_postgres] raises three kinds of exception and no
    other: a [ValueError] that lists the missing environment variables; the
    [ValueError] of [int()] when DB_PORT is not a number; both before the
    database is contacted; and a [ConnectionError] whose message is that
    of the failed connection after the prefix
    "Database connection failed: ", the type of the original exception
    being lost. *)
Theorem connect_to_postgres_errors {E : Type} (lib : Lib) (env : Env E)
    (w w' : world E) (e : exn) :
  Store.connect_to_postgres lib env w = (Raise e, w') ->
  let '(missing_vars, x) := missing_env_vars env (ext w) in
  let '(port, x1) := db_port env x in
  (missing_vars <> []
   /\ e = Exn "ValueError"
            ("Missing required environment variables: " +:+ repr_list lib missing_vars)
   /\ ext w' = x)
  \/ (missing_vars = [] /\ py_int lib port = None
      /\ e = Exn "ValueError"
               ("invalid literal for int() with base 10: " +:+ repr_str lib port)
      /\ ext w' = x1)
  \/ (missing_vars = [] /\ is_Some (py_int lib port)
      /\ exists e0, pg_probe env x1 = (Some e0, ext w')
                    /\ e = Exn "ConnectionError"
                             ("Database connection failed: " +:+ exn_msg e0)).
Proof.
  unfold Store.connect_to_postgres, Store.get_db_config, bind, emit, modify, ask,
    try_except, perform, raise, ret.
  cbn [fst snd set_trace ext].
  destruct (missing_env_vars env (ext w)) as [vars x] eqn:Hvars.
  destruct (db_port env x) as [port x1] eqn:Hport.
  destruct (bool_decide (vars = [])) eqn:Hempty; cbn [negb].
  - apply bool_decide_eq_true in Hempty. cbn [ext set_ext]. rewrite Hport.
    destruct (py_int lib port) as [n|] eqn:Hint.
    + cbn [ext set_ext].
      destruct (pg_probe env x1) as [[e0|] x2] eqn:Hprobe; [|discriminate].
      intros [= <- <-]. right. right. split; [exact Hempty|].
      split; [now eexists|]. now exists e0.
    + intros [= <- <-]. right. left. now repeat split.
  - apply bool_decide_eq_false in Hempty.
    intros [= <- <-]. left. now repeat split.
Qed.

Lemma connect_to_postgres_errors_witness :
  (exists w',
     Store.connect_to_postgres Scenario.plain_lib (Scenario.scripted Cases.database_down)
       (Scenario.fresh [])
     = (Raise (Exn "ConnectionError" "Database connection failed: connection refused"),
        w'))
  /\ (exists w',
        Store.connect_to_postgres Scenario.plain_lib
          (Cases.with_port "abc" (Scenario.scripted Scenario.all_well))
          (Scenario.fresh [])
        = (Raise (Exn "ValueError" "invalid literal for int() with base 10: 'abc'"),
           w')).
Proof.
  split.
  - destruct (Store.connect_to_postgres Scenario.plain_lib
                (Scenario.scripted Cases.database_down) (Scenario.fresh []))
      as [[[]|e] w'] eqn:Hrun; [discriminate Hrun|].
    pose proof (connect_to_postgres_errors _ _ _ _ _ Hrun) as H.
    cbn in H.
    destruct H as [(Hne & _)|[(_ & Hint & _)|(_ & _ & e0 & Hprobe & ->)]];
      [now exfalso | discriminate Hint |].
    inversion Hprobe. exists w'. reflexivity.
  - destruct (Store.connect_to_postgres Scenario.plain_lib
                (Cases.with_port "abc" (Scenario.scripted Scenario.all_well))
                (Scenario.fresh []))
      as [[[]|e] w'] eqn:Hrun; [discriminate Hrun|].
    pose proof (connect_to_postgres_errors _ _ _ _ _ Hrun) as H.
    cbn in H.
    destruct H as [(Hne & _)|[(_ & _ & -> & _)|(_ & [n Hint] & _)]];
      [now exfalso | | discriminate Hint].
    exists w'. reflexivity.
Defined.

Module StoreFacts.
Section WithEnv.
Context {E : Type} (lib : Lib) (env : Env E).

Lemma load_data_run (df : nat) (w : world E) :
  let cur := read (frames w) df in
  let missing_cols :=
    filter (fun col => ¬ has_column cur col) Transform.required_columns in
  (missing_cols <> [] ->
   Store.load_data lib env df w
   = (Raise (Exn "ValueError"
               ("DataFrame missing required columns: " +:+ repr_list lib missing_cols)),
      set_trace (trace w ++ [Called "load_data"]) w))
  /\ (missing_cols = [] ->
      exists r w',
        Store.load_data lib env df w = (Ok r, w')
        /\ frames w' = frames w /\ fs w' = fs w
        /\ (Store.l_success r = true ->
            Store.rows_loaded r = Z.of_nat (nrows cur)
            /\ Store.l_message r
               = "Successfully loaded " +:+ pretty (Z.of_nat (nrows cur)) +:+ " rows")
        /\ (Store.l_success r = false ->
            Store.rows_loaded r = 0
            /\ exists e, Store.l_message r = "Load failed: " +:+ exn_msg e)).
Proof.
  intros cur missing_cols. split; intros Hmissing.
  - unfold Store.load_data, bind, emit, modify, on_frames, zoom, deref, gets, raise.
    cbn [fst snd set_trace frames]. fold cur. fold missing_cols.
    rewrite bool_decide_eq_false_2 by exact Hmissing. reflexivity.
  - unfold Store.load_data, Store.connect_to_postgres, Store.get_db_config,
      Store.ensure_users_table_exists, Store.execute.
    unfold bind, emit, modify, on_frames, zoom, deref, gets, raise, try_except,
      ask, perform, ret.
    cbn [fst snd set_trace set_frames frames ext set_ext trace].
    fold cur. fold missing_cols.
    rewrite bool_decide_eq_true_2 by exact Hmissing.
    cbn [negb fst snd set_trace set_frames frames ext set_ext trace].
    destruct (missing_env_vars env (ext w)) as [vars x0].
    destruct (bool_decide (vars = []));
      cbn [negb fst snd set_trace set_frames frames ext set_ext trace].
    2: { eexists _, _. split; [reflexivity|]. cbn [Store.l_success frames fs].
         split; [reflexivity|]. split; [reflexivity|].
         split; intros Hs; [discriminate Hs|]. split; [reflexivity|].
         eexists. reflexivity. }
    repeat match goal with
           | |- context [db_port env ?x] => destruct (db_port env x) as [? ?]
           | |- context [py_int lib ?p] => destruct (py_int lib p)
           | |- context [pg_probe env ?x] => destruct (pg_probe env x) as [[?|] ?]
           | |- context [db_open env ?x] => destruct (db_open env x) as [[?|] ?]
           | |- context [db_execute env ?q ?x] =>
               destruct (db_execute env q x) as [[?|] ?]
           | |- context [db_commit env ?x] => destruct (db_commit env x) as [[?|] ?]
           | |- context [to_sql env ?d ?x] => destruct (to_sql env d x) as [[?|] ?]
           | _ => progress cbn [fst snd set_trace set_frames frames ext set_ext trace]
           end.
    all: eexists _, _; (split; [reflexivity|]); cbn [Store.l_success frames fs];
      (split; [reflexivity|]); (split; [reflexivity|]);
      split; intros Hs; try discriminate Hs; split; try reflexivity;
      eexists; reflexivity.
Qed.
End WithEnv.
End StoreFacts.

(** X13.  [load_data] raises exactly when the DataFrame lacks one of the
    four columns: a [ValueError] that names the missing ones, before the
    database is contacted.  Otherwise it returns, whatever the database
    does, and leaves the DataFrame objects and the files alone: either
    [success] with the number of rows of the frame, or a failure with
    zero rows and the message of the exception after "Load failed: ". *)
Theorem load_data_outcomes {E : Type} (lib : Lib) (env : Env E) (df : nat)
    (w : world E) :
  let cur := read (frames w) df in
  let missing_cols :=
    filter (fun col => ¬ has_column cur col) Transform.required_columns in
  (missing_cols <> [] ->
   Store.load_data lib env df w
   = (Raise (Exn "ValueError"
               ("DataFrame missing required columns: " +:+ repr_list lib missing_cols)),
      set_trace (trace w ++ [Called "load_data"]) w))
  /\ (missing_cols = [] ->
      exists r w',
        Store.load_data lib env df w = (Ok r, w')
        /\ frames w' = frames w /\ fs w' = fs w
        /\ (Store.l_success r = true ->
            Store.rows_loaded r = Z.of_nat (nrows cur)
            /\ Store.l_message r
               = "Successfully loaded " +:+ pretty (Z.of_nat (nrows cur)) +:+ " rows")
        /\ (Store.l_success r = false ->
            Store.rows_loaded r = 0
            /\ exists e, Store.l_message r = "Load failed: " +:+ exn_msg e)).
Proof. exact (StoreFacts.load_data_run lib env df w). Qed.


Module RenameFacts.

Lemma labels_rename df old new :
  labels (rename df old new)
  = map (fun n => if decide (n = old) then new else n) (labels df).
Proof.
  unfold labels, rename. cbn. induction (columns df) as [|[n c] cs IH]; [reflexivity|].
  cbn. now rewrite IH.
Qed.

Lemma has_column_rename df old new col :
  col <> old ->
  (has_column (rename df old new) col
   <-> has_column df col \/ (col = new /\ has_column df old)).
Proof.
  intros Hne. unfold has_column. rewrite !bool_decide_spec, labels_rename.
  rewrite list_elem_of_fmap. split.
  - intros (n & Heq & Hin). destruct (decide (n = old)) as [->|_].
    + right. split; [now subst | exact Hin].
    + left. now subst.
  - intros [Hin | (-> & Hin)].
    + exists col. split; [|exact Hin]. now rewrite decide_False.
    + exists old. split; [|exact Hin]. now rewrite decide_True.
Qed.

Lemma filter_ext_in {A} (P1 P2 : A -> Prop) `{forall x, Decision (P1 x)}
    `{forall x, Decision (P2 x)} (l : list A) :
  (forall x, x ∈ l -> P1 x <-> P2 x) -> filter P1 l = filter P2 l.
Proof.
  induction l as [|a l IH]; intros Hall; [reflexivity|].
  assert (Ha : P1 a <-> P2 a) by (apply Hall; left).
  assert (Hl : filter P1 l = filter P2 l) by (apply IH; intros x Hx; apply Hall; now right).
  destruct (decide (P1 a)) as [H1|H1].
  - rewrite !filter_cons_True by tauto. now rewrite Hl.
  - rewrite !filter_cons_False by tauto. exact Hl.
Qed.

End RenameFacts.

(** X14.  [transform] accepts [signup_date] for [sign_up_date].  If, with
    that, one of the four columns is missing from its input, it raises a
    [ValueError] that lists the missing ones in the order user_id, age,
    sign_up_date, is_active; the DataFrame objects that existed before the
    call are left as they were (it worked on copies). *)
Theorem transform_missing_columns (lib : Lib) (h : list frame) (dataFrame : nat) :
  let src := read h dataFrame in
  let missing_cols :=
    filter (fun col => ~ (col ∈ labels src
                          \/ (col = "sign_up_date" /\ "signup_date" ∈ labels src)))
      Transform.required_columns in
  missing_cols <> [] ->
  exists copies,
    Transform.transform lib dataFrame h
    = (Raise (Exn "ValueError"
                ("Missing required columns: " +:+ repr_list lib missing_cols)),
       h ++ copies).
Proof.
  intros src missing_cols Hmissing.
  unfold Transform.transform.
  unfold bind at 1, deref at 1, gets at 1. fold src.
  unfold bind at 1, alloc at 1.
  unfold bind at 1, deref at 1, gets at 1.
  rewrite TransformFacts.read_snoc.
  assert (Hgo : forall df h2 cur,
    read h2 df = cur ->
    (forall col, col ∈ Transform.required_columns ->
       has_column cur col
       <-> col ∈ labels src \/ (col = "sign_up_date" /\ "signup_date" ∈ labels src)) ->
    bind (deref df) (fun cur =>
      if negb (bool_decide
                 (filter (fun col => ¬ has_column cur col) Transform.required_columns = []))
      then raise (Exn "ValueError"
                    ("Missing required columns: "
                       +:+ repr_list lib
                             (filter (fun col => ¬ has_column cur col)
                                Transform.required_columns)))
      else bind (Transform.convert_columns lib df cur)
             (fun _ => Transform.select_required df)) h2
    = (Raise (Exn "ValueError"
                ("Missing required columns: " +:+ repr_list lib missing_cols)), h2)).
  { intros df h2 cur Hread Hcols.
    unfold bind at 1, deref at 1, gets at 1. rewrite Hread.
    assert (Heq : filter (fun col => ¬ has_column cur col) Transform.required_columns
                  = missing_cols).
    { unfold missing_cols. apply RenameFacts.filter_ext_in. intros col Hcol.
      now rewrite (Hcols col Hcol). }
    rewrite Heq. rewrite bool_decide_eq_false_2 by exact Hmissing. reflexivity. }
  destruct (has_column src "signup_date" && negb (has_column src "sign_up_date"))
    eqn:Hcond.
  - unfold bind at 1, alloc at 1.
    exists [src; rename src "signup_date" "sign_up_date"].
    rewrite (Hgo (length (h ++ [src])) _ (rename src "signup_date" "sign_up_date")).
    + now rewrite <- app_assoc.
    + apply TransformFacts.read_snoc.
    + apply andb_true_iff in Hcond as [Hold Hnew].
      apply negb_true_iff in Hnew.
      intros col Hcol. rewrite RenameFacts.has_column_rename.
      * unfold has_column. rewrite !bool_decide_spec. unfold has_column in Hold.
        apply bool_decide_eq_true in Hold. tauto.
      * intros ->. apply list_elem_of_In in Hcol. cbn in Hcol.
        intuition discriminate.
  - unfold bind at 1, ret at 1. exists [src].
    rewrite (Hgo (length h) _ src); [reflexivity | apply TransformFacts.read_snoc |].
    intros col Hcol. unfold has_column. rewrite bool_decide_spec.
    split; [tauto|]. intros [Hin | (-> & Hin)]; [exact Hin|].
    apply andb_false_iff in Hcond as [Hold | Hnew].
    + unfold has_column in Hold. apply bool_decide_eq_false in Hold. contradiction.
    + apply negb_false_iff in Hnew. unfold has_column in Hnew.
      now apply bool_decide_eq_true in Hnew.
Qed.

Lemma transform_missing_columns_witness :
  exists copies,
    Transform.transform Scenario.plain_lib 0%nat [Scenario.users_without_age]
    = (Raise (Exn "ValueError" "Missing required columns: ['age']"),
       [Scenario.users_without_age] ++ copies).
Proof.
  destruct (transform_missing_columns Scenario.plain_lib
              [Scenario.users_without_age] 0%nat) as [copies Hrun].
  - vm_compute. discriminate.
  - exists copies. exact Hrun.
Defined.

Module MigratorFacts.
Import Store Evolution Statements.

Section WithEnv.
Context {E : Type} (lib : Lib) (env : Env E).

Lemma database_only_refl (w : world E) : database_only [] w w.
Proof. unfold database_only. cbn. now rewrite app_nil_r. Qed.

Lemma database_only_trans s1 s2 (w1 w2 w3 : world E) :
  database_only s1 w1 w2 -> database_only s2 w2 w3 -> database_only (s1 ++ s2) w1 w3.
Proof.
  unfold database_only. intros (-> & -> & -> & -> & -> & ->) (-> & -> & -> & -> & -> & ->).
  now rewrite map_app, app_assoc.
Qed.

Lemma perform_run (f : E -> option exn * E) (w : world E) :
  exists r x, perform f w = (r, set_ext x w) /\ f (ext w) = ((match r with Ok _ => None | Raise e => Some e end), x).
Proof.
  unfold perform. destruct (f (ext w)) as [[e|] x]; eexists _, _; split; reflexivity.
Qed.

Lemma perform_database_only f (w : world E) : database_only [] w (perform f w).2.
Proof.
  unfold perform. destruct (f (ext w)) as [o x]. cbn. unfold database_only. cbn.
  now rewrite app_nil_r.
Qed.

Lemma execute_database_only stmt (w : world E) : database_only [stmt] w (execute env stmt w).2.
Proof.
  unfold execute, bind, emit, modify, perform. cbn.
  destruct (db_execute env stmt (ext w)) as [o x]. cbn. unfold database_only. now cbn.
Qed.

Lemma apply_changes_adds table changes rollback (w : world E) :
  exists stmts,
    database_only stmts w (apply_changes env table changes rollback w).2
    /\ Forall (fun s => exists c rest,
                 c ∈ changes /\ c_type c = "column_added"
                 /\ s = "ALTER TABLE " +:+ table +:+ " ADD COLUMN " +:+ c_column c
                          +:+ " " +:+ rest) stmts
    /\ (forall rollback_sql,
          (apply_changes env table changes rollback w).1 = Ok rollback_sql ->
          length stmts
          = length (filter (fun c => c_type c = "column_added") changes)).
Proof.
  revert rollback w. induction changes as [|change rest IH]; intros rollback w.
  - exists []. split; [apply database_only_refl|]. split; [constructor | reflexivity].
  - cbn [apply_changes].
    assert (Hweak : forall stmts,
      Forall (fun s => exists c r,
                c ∈ rest /\ c_type c = "column_added"
                /\ s = "ALTER TABLE " +:+ table +:+ " ADD COLUMN " +:+ c_column c
                         +:+ " " +:+ r) stmts ->
      Forall (fun s => exists c r,
                c ∈ change :: rest /\ c_type c = "column_added"
                /\ s = "ALTER TABLE " +:+ table +:+ " ADD COLUMN " +:+ c_column c
                         +:+ " " +:+ r) stmts).
    { intros stmts H. eapply Forall_impl; [exact H|].
      intros s (c & r & Hc & Hty & ->).
      exists c, r. split; [now right | now split]. }
    destruct (decide (c_type change = "column_added")) as [Hadd|Hother].
    + rewrite filter_cons_True by exact Hadd.
      destruct (c_details change) as [details|];
        [|exists []; split; [apply database_only_refl|];
          split; [constructor | discriminate]].
      destruct (ci_type details) as [ty|];
        [|exists []; split; [apply database_only_refl|];
          split; [constructor | discriminate]].
      set (add_sql := "ALTER TABLE " +:+ table +:+ " ADD COLUMN " +:+ _).
      pose proof (execute_database_only add_sql w) as Hexec.
      unfold bind.
      destruct (execute env add_sql w) as [[[]|e] w1]; cbn [snd] in *.
      * destruct (IH (("ALTER TABLE " +:+ table +:+ " DROP COLUMN "
                         +:+ c_column change +:+ ";") :: rollback) w1)
          as (stmts & Hrest & Hall & Hlen).
        exists ([add_sql] ++ stmts). split; [|split].
        -- eapply database_only_trans; eassumption.
        -- apply Forall_app. split; [|now apply Hweak].
           constructor; [|constructor]. eexists change, _.
           split; [left|]. split; [exact Hadd|]. subst add_sql. reflexivity.
        -- intros rb Hrb. cbn [length app]. f_equal. now apply (Hlen rb).
      * exists [add_sql]. split; [exact Hexec|]. split; [|discriminate].
        constructor; [|constructor]. eexists change, _.
        split; [left|]. split; [exact Hadd|]. subst add_sql. reflexivity.
    + rewrite filter_cons_False by exact Hother.
      destruct (IH rollback w) as (stmts & Hrest & Hall & Hlen).
      exists stmts. split; [exact Hrest|]. split; [now apply Hweak | exact Hlen].
Qed.

Lemma ensure_migration_table_run (w : world E) :
  exists stmts,
    database_only stmts w (ensure_migration_table env w).2
    /\ match (ensure_migration_table env w).1 with
       | Ok _ => stmts = [create_migration_table_sql]
       | Raise _ => stmts `prefix_of` [create_migration_table_sql]
       end.
Proof.
  unfold ensure_migration_table, bind.
  pose proof (perform_database_only (db_open env) w) as H1.
  destruct (perform (db_open env) w) as [[[]|e] w1]; cbn [snd fst] in *.
  2: { exists []. split; [exact H1 | apply prefix_nil]. }
  pose proof (execute_database_only create_migration_table_sql w1) as H2.
  destruct (execute env create_migration_table_sql w1) as [[[]|e] w2];
    cbn [snd fst] in *.
  2: { exists [create_migration_table_sql]. split; [|exists []; reflexivity].
       apply (database_only_trans [] _ _ _ _ H1 H2). }
  pose proof (perform_database_only (db_commit env) w2) as H3.
  exists [create_migration_table_sql]. split.
  - apply (database_only_trans [] _ _ _ _ H1).
    rewrite <- (app_nil_r [_]). exact (database_only_trans _ _ _ _ _ H2 H3).
  - destruct (perform (db_commit env) w2) as [[[]|e] w3]; cbn [fst];
      [reflexivity | exists []; reflexivity].
Qed.

Lemma ask_database_only {A} (f : E -> A * E) (w : world E) : database_only [] w (ask f w).2.
Proof.
  unfold ask. destruct (f (ext w)) as [a x]. unfold database_only. cbn.
  now rewrite app_nil_r.
Qed.

Lemma migration_block_run table changes (w : world E) :
  let block :=
    try_except
      (do* perform (db_open env) in
       let* rollback_sql := apply_changes env table changes [] in
       let* now := ask (clock env) in
       let migration_record :=
         "INSERT INTO " +:+ migration_history_table
           +:+ " (version, description, rollback_sql) VALUES ("
           +:+ strftime lib "%Y%m%d%H%M%S" now
           +:+ ", 'Auto-migration: " +:+ pretty (length changes)
           +:+ " changes', '" +:+ join_with "; " rollback_sql +:+ "');" in
       do* Store.execute env migration_record in
       do* perform (db_commit env) in
       ret true)
      (fun _ => ret false) in
  exists ok stmts,
    (block w).1 = Ok ok
    /\ database_only stmts w (block w).2
    /\ Forall (migration_statement table changes) stmts
    /\ (ok = true ->
        length stmts
        = S (length (filter (fun c => c_type c = "column_added") changes))).
Proof.
  intros block. subst block. unfold try_except, bind.
  pose proof (perform_database_only (db_open env) w) as D1.
  destruct (perform (db_open env) w) as [[[]|e] w1]; cbn [fst snd] in *.
  2: { exists false, []. split; [reflexivity|]. split; [exact D1|].
       split; [constructor | discriminate]. }
  destruct (apply_changes_adds table changes [] w1) as (s2 & D2 & Hadds & Hlen).
  assert (Hs2 : Forall (migration_statement table changes) s2).
  { eapply Forall_impl; [exact Hadds|]. intros s Hs. now left. }
  pose proof (database_only_trans _ _ _ _ _ D1 D2) as D12. cbn [app] in D12.
  destruct (apply_changes env table changes [] w1) as [[rollback_sql|e] w2];
    cbn [fst snd] in *.
  2: { exists false, s2. split; [reflexivity|]. split; [exact D12|].
       split; [exact Hs2 | discriminate]. }
  specialize (Hlen _ eq_refl).
  pose proof (ask_database_only (clock env) w2) as D3.
  unfold ask in D3 |- *.
  destruct (clock env (ext w2)) as [now x3]. cbn [fst snd] in *.
  set (w3 := set_ext x3 w2) in *.
  set (record := "INSERT INTO " +:+ _).
  pose proof (execute_database_only record w3) as D4.
  pose proof (database_only_trans _ _ _ _ _ D12
                (database_only_trans _ _ _ _ _ D3 D4)) as D124.
  cbn [app] in D124.
  assert (Hs4 : Forall (migration_statement table changes) (s2 ++ [record])).
  { apply Forall_app. split; [exact Hs2|]. constructor; [|constructor].
    right. eexists. subst record. reflexivity. }
  destruct (execute env record w3) as [[[]|e] w4]; cbn [fst snd] in *.
  2: { exists false, (s2 ++ [record]). split; [reflexivity|]. split; [exact D124|].
       split; [exact Hs4 | discriminate]. }
  pose proof (perform_database_only (db_commit env) w4) as D5.
  pose proof (database_only_trans _ _ _ _ _ D124 D5) as D1245.
  rewrite app_nil_r in D1245.
  destruct (perform (db_commit env) w4) as [[[]|e] w5]; cbn [fst snd] in *.
  - exists true, (s2 ++ [record]). split; [reflexivity|]. split; [exact D1245|].
    split; [exact Hs4|]. intros _. rewrite length_app. cbn. lia.
  - exists false, (s2 ++ [record]). split; [reflexivity|]. split; [exact D1245|].
    split; [exact Hs4 | discriminate].
Qed.

End WithEnv.
End MigratorFacts.

(** X15.  [apply_schema_changes] never drops or changes a column.  The
    statements it sends are the creation of the migration table, an
    [ALTER TABLE ... ADD COLUMN] for a change of type [column_added] of
    its list, and the record of the migration; a [column_removed] change
    sends nothing.  With an empty list it returns [True] without touching
    the database.  It raises only when the migration table cannot be
    ensured, before any [ALTER TABLE]; and when it returns [True] on a
    list that is not empty, it has sent one [ADD COLUMN] per added column.
    It leaves the files, the DataFrame objects and the registry alone. *)
Theorem apply_schema_changes_only_adds {E : Type} (lib : Lib) (env : Env E)
    (changes : list Schema.schema_change) (table : string) (w : world E) :
  exists r w' stmts,
    Evolution.apply_schema_changes lib env changes table w = (r, w')
    /\ trace w' = trace w ++ Called "apply_schema_changes" :: map Sql stmts
    /\ fs w' = fs w /\ frames w' = frames w /\ reg w' = reg w
    /\ Forall (fun s =>
         s = Evolution.create_migration_table_sql
         \/ (exists c rest,
               c ∈ changes /\ c_type c = "column_added"
               /\ s = "ALTER TABLE " +:+ table +:+ " ADD COLUMN " +:+ c_column c
                        +:+ " " +:+ rest)
         \/ (exists rest,
               s = "INSERT INTO schema_migrations (version, description, rollback_sql) VALUES ("
                     +:+ rest)) stmts
    /\ (changes = [] -> r = Ok true /\ stmts = [] /\ ext w' = ext w)
    /\ (forall e, r = Raise e -> stmts `prefix_of` [Evolution.create_migration_table_sql])
    /\ (changes <> [] -> r = Ok true ->
        length stmts
        = S (S (length (filter (fun c => c_type c = "column_added") changes)))).
Proof.
  unfold Evolution.apply_schema_changes.
  unfold bind at 1, emit at 1, modify at 1.
  set (w0 := set_trace (trace w ++ [Called "apply_schema_changes"]) w).
  destruct (bool_decide (changes = [])) eqn:Hempty.
  { apply bool_decide_eq_true in Hempty.
    exists (Ok true), w0, []. split; [reflexivity|]. cbn.
    split; [reflexivity|]. split; [reflexivity|]. split; [reflexivity|].
    split; [reflexivity|]. split; [constructor|]. split; [now intros _|].
    split; [discriminate | congruence]. }
  apply bool_decide_eq_false in Hempty.
  destruct (MigratorFacts.ensure_migration_table_run env w0) as (s1 & D1 & Hs1).
  unfold bind at 1.
  destruct (Evolution.ensure_migration_table env w0) as [[[]|e] w1];
    cbn [fst snd] in *.
  2: { exists (Raise e), w1, s1. split; [reflexivity|].
       destruct D1 as (Ht & Hfs & Hfr & Hreg & _). rewrite Ht, Hfs, Hfr, Hreg. cbn.
       rewrite <- app_assoc.
       split; [reflexivity|]. split; [reflexivity|]. split; [reflexivity|].
       split; [reflexivity|]. split; [|split; [contradiction|]; split].
       - destruct Hs1 as [k Hk]. destruct s1 as [|a s1]; [constructor|].
         inversion Hk. destruct s1; [|discriminate]. constructor; [now left | constructor].
       - intros _ _. exact Hs1.
       - intros _ [=]. }
  subst s1.
  destruct (MigratorFacts.migration_block_run lib env table changes w1)
    as (ok & s2 & Hok & D2 & Hs2 & Hlen).
  cbv zeta in Hok, D2.
  match type of Hok with (?b w1).1 = _ =>
    destruct (b w1) as [r w2] eqn:Hblock end.
  cbn [fst snd] in *. subst r.
  exists (Ok ok), w2, ([Evolution.create_migration_table_sql] ++ s2).
  split; [reflexivity|].
  destruct (MigratorFacts.database_only_trans _ _ _ _ _ D1 D2)
    as (Ht & Hfs & Hfr & Hreg & _).
  rewrite Ht, Hfs, Hfr, Hreg. cbn [w0 trace fs frames reg set_trace].
  rewrite <- app_assoc.
  split; [reflexivity|]. split; [reflexivity|]. split; [reflexivity|].
  split; [reflexivity|]. split; [|split; [contradiction|]; split].
  - constructor; [now left|]. eapply Forall_impl; [exact Hs2|].
    intros s [Hs|Hs]; right; [now left | now right].
  - discriminate.
  - intros _ [= ->]. cbn [length app]. f_equal. now apply Hlen.
Qed.

Module AlertFacts.
Import Counting.

(** Alerts of other kinds, told by their first letter, do not matter to
    the membership of an alert. *)
Lemma elem_of_between (t : string) (before middle after : list string) :
  Forall (fun s => first_char s <> first_char t) before ->
  Forall (fun s => first_char s <> first_char t) after ->
  t ∈ before ++ middle ++ after <-> t ∈ middle.
Proof.
  intros Hb Ha. rewrite !elem_of_app. split; [|tauto].
  intros [H | [H | H]]; [|exact H|].
  - rewrite Forall_forall in Hb. now apply Hb in H.
  - rewrite Forall_forall in Ha. now apply Ha in H.
Qed.

End AlertFacts.

(** X16.  [check_pipeline_health] counts consecutive failures: a check of
    metrics whose status is [failed] adds one to the counter, any other
    check resets it to zero.  The alerts carry the [PIPELINE_FAILURE]
    note exactly for a failed status, and the [CRITICAL] note exactly
    when this failure brings the counter to three or more. *)
Theorem check_pipeline_health_counts {E : Type} (lib : Lib) (m : PipelineMetrics)
    (w : world E) :
  let n := if decide (status m = "failed") then consecutive_failures w + 1 else 0 in
  exists alerts,
    Monitoring.check_pipeline_health lib m w = (Ok alerts, set_consecutive_failures n w)
    /\ (("PIPELINE_FAILURE: " +:+ error_message m) ∈ alerts <-> status m = "failed")
    /\ (("CRITICAL: " +:+ pretty n +:+ " consecutive failures") ∈ alerts
        <-> status m = "failed" /\ 3 <= consecutive_failures w + 1).
Proof.
  intros n. subst n.
  unfold Monitoring.check_pipeline_health, Monitoring.max_failed_runs.
  unfold bind, gets, modify, ret.
  set (slow := if Qlt_le_dec _ _ then [_] else []).
  set (quality := if Qlt_le_dec _ _ then [_] else []).
  assert (Hslow : forall t, Some "S"%char <> Counting.first_char t ->
            Forall (fun s => Counting.first_char s <> Counting.first_char t) slow).
  { intros t Ht. subst slow.
    destruct (Qlt_le_dec Monitoring.max_execution_time _); repeat constructor.
    cbn. exact Ht. }
  assert (Hquality : forall t, Some "D"%char <> Counting.first_char t ->
            Forall (fun s => Counting.first_char s <> Counting.first_char t) quality).
  { intros t Ht. subst quality.
    destruct (Qlt_le_dec _ Monitoring.data_quality_threshold); repeat constructor.
    cbn. exact Ht. }
  clearbody slow quality.
  destruct (decide (status m = "failed")) as [Hfailed|Hother]; cbn [fst snd].
  - eexists. split; [reflexivity|]. split.
    + rewrite AlertFacts.elem_of_between;
        [|apply Hslow; cbn; discriminate | apply Hquality; cbn; discriminate].
      split; [intros _; exact Hfailed | intros _; left].
    + rewrite AlertFacts.elem_of_between;
        [|apply Hslow; cbn; discriminate | apply Hquality; cbn; discriminate].
      cbn [app]. rewrite elem_of_cons.
      destruct (decide (3 <= consecutive_failures w + 1)) as [Hge|Hlt].
      * split; [intros _; now split | intros _; right; left].
      * rewrite elem_of_nil. split; [|intros [_ H]; contradiction].
        intros [H|[]]. cbn in H. discriminate H.
  - eexists. split; [reflexivity|]. split.
    + rewrite AlertFacts.elem_of_between;
        [|apply Hslow; cbn; discriminate | apply Hquality; cbn; discriminate].
      rewrite elem_of_nil. tauto.
    + rewrite AlertFacts.elem_of_between;
        [|apply Hslow; cbn; discriminate | apply Hquality; cbn; discriminate].
      rewrite elem_of_nil. tauto.
Qed.

(** X17.  [quarantine_file] never removes a file: it copies.  It raises
    exactly when [exists()] raises on the path (the call stands before the
    [try]): the [OSError] leaves the function and nothing else happened.
    Otherwise it returns.  For a path that does not exist it returns the
    empty path and changes nothing.  When it returns a path, that is
    [data/deadletter/<timestamp>_<name>]; the copy and its [.error] note
    exist and the original is still in place.  The empty path is also
    returned when the copy was made and the note could not be written. *)
Theorem quarantine_file_copies {E : Type} (lib : Lib) (env : Env E) (path : string)
    (info : ErrorHandler.error_info) (w : world E) :
  exists r w' tr,
    ErrorHandler.quarantine_file lib env path info w = (r, w')
    /\ trace w' = trace w ++ Called "quarantine_file" :: tr
    /\ fs w ⊆ fs w'
    /\ frames w' = frames w /\ reg w' = reg w
    /\ current_metrics w' = current_metrics w
    /\ match stat_error env path (ext w) with
       | Some e => r = Raise e /\ tr = [] /\ fs w' = fs w /\ ext w' = ext w
       | None =>
           exists q,
             r = Ok q
             /\ (path ∉ fs w -> q = "" /\ tr = [] /\ fs w' = fs w /\ ext w' = ext w)
             /\ (q <> "" ->
                 (exists timestamp,
                    q = "data/deadletter/" +:+ timestamp +:+ "_"
                          +:+ path_name lib path)
                 /\ tr = [Copied path q; Wrote (q +:+ ".error")]
                 /\ fs w' = {[q +:+ ".error"]} ∪ ({[q]} ∪ fs w)
                 /\ path ∈ fs w')
             /\ (q = "" ->
                 (tr = [] /\ fs w' = fs w)
                 \/ exists dst, tr = [Copied path dst] /\ fs w' = {[dst]} ∪ fs w)
       end.
Proof.
  unfold ErrorHandler.quarantine_file, bind, try_except, exists_path, gets, emit, modify.
  cbn [fst snd fs set_trace trace ext].
  destruct (stat_error env path (ext w)) as [e0|].
  { exists (Raise e0), (set_trace (trace w ++ [Called "quarantine_file"]) w), [].
    cbn. repeat (split; [reflexivity|]). reflexivity. }
  destruct (bool_decide (path ∈ fs w)) eqn:Hin; cbn [negb].
  2:{ exists (Ok ""), (set_trace (trace w ++ [Called "quarantine_file"]) w), [].
      cbn. split; [reflexivity|]. split; [reflexivity|]. split; [reflexivity|].
      split; [reflexivity|]. split; [reflexivity|]. split; [reflexivity|].
      exists "". split; [reflexivity|].
      split; [now intros _|]. split; [intros Hq; contradiction|].
      intros _. now left. }
  apply bool_decide_eq_true in Hin.
  unfold ask. cbn [ext set_trace].
  destruct (clock env (ext w)) as [now x0]. unfold perform. cbn [ext set_ext].
  match goal with |- context [os_copy env path ?p] => set (qp := p) end.
  assert (Hqp : qp <> "") by (subst qp; cbn; discriminate).
  destruct (os_copy env path qp x0) as [[e|] x1].
  { eexists (Ok ""), _, []. cbn.
    split; [reflexivity|]. split; [reflexivity|]. split; [reflexivity|].
    split; [reflexivity|]. split; [reflexivity|]. split; [reflexivity|].
    exists "". split; [reflexivity|].
    split; [intros Hn; contradiction|]. split; [intros Hq; contradiction|].
    intros _. now left. }
  unfold create_path, modify. cbn [ext set_ext set_fs set_trace trace fs].
  destruct (clock env x1) as [now' x2]. unfold call. cbn [ext set_ext].
  destruct (os_stat_size env path x2) as [[sz|e] x3].
  2:{ eexists (Ok ""), _, [_]. cbn. rewrite <- app_assoc.
      split; [reflexivity|]. split; [reflexivity|]. split; [set_solver|].
      split; [reflexivity|]. split; [reflexivity|]. split; [reflexivity|].
      exists "". split; [reflexivity|].
      split; [intros Hn; contradiction|]. split; [intros Hq; contradiction|].
      intros _. right. now eexists. }
  cbn [ext set_ext]. destruct (os_write env (qp +:+ ".error") x3) as [[e|] x4].
  { eexists (Ok ""), _, [_]. cbn. rewrite <- app_assoc.
    split; [reflexivity|]. split; [reflexivity|]. split; [set_solver|].
    split; [reflexivity|]. split; [reflexivity|]. split; [reflexivity|].
    exists "". split; [reflexivity|].
    split; [intros Hn; contradiction|]. split; [intros Hq; contradiction|].
    intros _. right. now eexists. }
  eexists (Ok qp), _, [_; _]. cbn. rewrite <- !app_assoc. split; [reflexivity|].
  split; [reflexivity|]. split; [set_solver|].
  split; [reflexivity|]. split; [reflexivity|]. split; [reflexivity|].
  exists qp. split; [reflexivity|].
  split; [intros Hn; contradiction|]. split; [|intros Hq; contradiction].
  intros _. split; [eexists; reflexivity|]. split; [reflexivity|].
  split; [reflexivity | set_solver].
Qed.

Module FilesetFacts.

Lemma difference_subseteq (X : gset string) (p : string) : X ∖ {[p]} ⊆ X.
Proof. intros x Hx. now apply elem_of_difference in Hx as [Hx _]. Qed.

Lemma subseteq_union_r (X Y : gset string) (q : string) : X ⊆ Y -> X ⊆ {[q]} ∪ Y.
Proof. intros H x Hx. apply elem_of_union. right. now apply H. Qed.

End FilesetFacts.

(** X18.  [archive_successful_file] removes no file but the one it is
    given.  It raises exactly when [exists()] raises on the path (the call
    stands before the [try]): the [OSError] leaves the function and nothing
    else happened.  Otherwise it returns.  For a path that does not exist
    it returns the empty path and changes nothing.  When it returns a
    path, that is [data/processed/<timestamp>_<name>]: the file was moved
    there and a [.processed] note written beside it.  The empty path is
    also returned when the file was moved and the note could not be
    written: the file is then gone from its place all the same. *)
Theorem archive_successful_file_moves {E : Type} (lib : Lib) (env : Env E)
    (path : string) (info : ErrorHandler.processing_info) (w : world E) :
  exists r w' tr,
    ErrorHandler.archive_successful_file lib env path info w = (r, w')
    /\ trace w' = trace w ++ Called "archive_successful_file" :: tr
    /\ fs w ∖ {[path]} ⊆ fs w'
    /\ frames w' = frames w /\ reg w' = reg w
    /\ current_metrics w' = current_metrics w
    /\ match stat_error env path (ext w) with
       | Some e => r = Raise e /\ tr = [] /\ fs w' = fs w /\ ext w' = ext w
       | None =>
           exists a,
             r = Ok a
             /\ (path ∉ fs w -> a = "" /\ tr = [] /\ fs w' = fs w /\ ext w' = ext w)
             /\ (a <> "" ->
                 (exists timestamp,
                    a = "data/processed/" +:+ timestamp +:+ "_"
                          +:+ path_name lib path)
                 /\ tr = [Moved path a; Wrote (a +:+ ".processed")]
                 /\ fs w' = {[a +:+ ".processed"]} ∪ ({[a]} ∪ fs w ∖ {[path]}))
             /\ (a = "" ->
                 (tr = [] /\ fs w' = fs w)
                 \/ exists dst,
                      tr = [Moved path dst] /\ fs w' = {[dst]} ∪ fs w ∖ {[path]})
       end.
Proof.
  unfold ErrorHandler.archive_successful_file, bind, try_except, exists_path, gets,
    emit, modify.
  cbn [fst snd fs set_trace trace ext].
  destruct (stat_error env path (ext w)) as [e0|].
  { exists (Raise e0), (set_trace (trace w ++ [Called "archive_successful_file"]) w), [].
    cbn [fs trace frames reg current_metrics ext set_fs set_trace set_ext].
    split; [reflexivity|]. split; [reflexivity|].
    split; [apply FilesetFacts.difference_subseteq|].
    repeat (split; [reflexivity|]). reflexivity. }
  destruct (bool_decide (path ∈ fs w)) eqn:Hin; cbn [negb].
  2:{ exists (Ok ""), (set_trace (trace w ++ [Called "archive_successful_file"]) w), [].
      cbn [fs trace frames reg current_metrics ext set_fs set_trace set_ext].
      split; [reflexivity|]. split; [reflexivity|].
      split; [apply FilesetFacts.difference_subseteq|].
      split; [reflexivity|]. split; [reflexivity|]. split; [reflexivity|].
      exists "". split; [reflexivity|].
      split; [now intros _|]. split; [intros Ha; contradiction|].
      intros _. now left. }
  apply bool_decide_eq_true in Hin.
  unfold ask. cbn [ext set_trace].
  destruct (clock env (ext w)) as [now x0]. unfold perform. cbn [ext set_ext].
  match goal with |- context [os_move env path ?p] => set (ap := p) end.
  assert (Hap : ap <> "") by (subst ap; cbn; discriminate).
  destruct (os_move env path ap x0) as [[e|] x1].
  { eexists (Ok ""), _, [].
    cbn [fs trace frames reg current_metrics ext set_fs set_trace set_ext].
    split; [reflexivity|]. split; [reflexivity|].
    split; [apply FilesetFacts.difference_subseteq|].
    split; [reflexivity|]. split; [reflexivity|]. split; [reflexivity|].
    exists "". split; [reflexivity|].
    split; [intros Hn; contradiction|]. split; [intros Ha; contradiction|].
    intros _. now left. }
  unfold create_path, remove_path, modify.
  cbn [ext set_ext set_fs set_trace trace fs].
  destruct (clock env x1) as [now' x2]. cbn [ext set_ext].
  destruct (os_write env (ap +:+ ".processed") x2) as [[e|] x3].
  { eexists (Ok ""), _, [_].
    cbn [fs trace frames reg current_metrics ext set_fs set_trace set_ext].
    rewrite <- app_assoc.
    split; [reflexivity|]. split; [reflexivity|].
    split; [apply FilesetFacts.subseteq_union_r; reflexivity|].
    split; [reflexivity|]. split; [reflexivity|]. split; [reflexivity|].
    exists "". split; [reflexivity|].
    split; [intros Hn; contradiction|]. split; [intros Ha; contradiction|].
    intros _. right. now eexists. }
  eexists (Ok ap), _, [_; _].
  cbn [fs trace frames reg current_metrics ext set_fs set_trace set_ext].
  rewrite <- !app_assoc. split; [reflexivity|].
  split; [reflexivity|].
  split; [do 2 apply FilesetFacts.subseteq_union_r; reflexivity|].
  split; [reflexivity|]. split; [reflexivity|]. split; [reflexivity|].
  exists ap. split; [reflexivity|].
  split; [intros Hn; contradiction|]. split; [|intros Ha; contradiction].
  intros _. split; [eexists; reflexivity|]. split; reflexivity.
Qed.

Module ConductorFacts.
Import Local Store Pipeline Conductor MonadFacts TransformFacts.

(** The frame [transform] returns has the four columns. *)
Lemma transform_result_labels lib df h ready h' :
  Transform.transform lib df h = (Ok ready, h') ->
  labels (read h' ready) = Transform.required_columns.
Proof.
  unfold Transform.transform. intros H.
  apply bind_Ok_inv in H as (src & h1 & _ & H).
  apply bind_Ok_inv in H as (df0 & h2 & _ & H).
  apply bind_Ok_inv in H as (copy & h3 & _ & H).
  apply bind_Ok_inv in H as (df1 & h4 & _ & H).
  apply bind_Ok_inv in H as (cur & h5 & _ & H).
  destruct (negb _); [discriminate|].
  apply bind_Ok_inv in H as ([] & h6 & _ & H).
  unfold Transform.select_required in H.
  apply bind_Ok_inv in H as (final & h7 & Hfinal & H).
  destruct (Transform.select_cols final Transform.required_columns) as [cs|] eqn:Hcs;
    [|discriminate].
  unfold alloc in H. inversion H; subst. rewrite read_snoc.
  unfold labels. cbn. now apply select_cols_labels in Hcs.
Qed.

Section WithEnv.
Context {E : Type} (lib : Lib) (env : Env E).

Lemma transform_then_load_returns raw (w : world E) clean h :
  Transform.transform lib raw (frames w) = (Ok clean, h) ->
  exists r w',
    load_data lib env clean (set_frames h w) = (Ok r, w')
    /\ frames w' = h /\ fs w' = fs w
    /\ (Store.rows_loaded r = Z.of_nat (nrows (read h clean)) \/ Store.rows_loaded r = 0).
Proof.
  intros Htr. apply transform_result_labels in Htr.
  destruct (StoreFacts.load_data_run lib env clean (set_frames h w)) as [_ Hrun].
  cbn [frames set_frames] in Hrun.
  destruct Hrun as (r & w' & Hrun & Hfr & Hfs & Hok & Hko).
  { unfold has_column. rewrite Htr. reflexivity. }
  exists r, w'. split; [exact Hrun|]. split; [exact Hfr|]. split; [exact Hfs|].
  destruct (Store.l_success r); [left; now apply Hok | right; now apply Hko].
Qed.

(** The runs of [run_etl_pipeline], by the stage that raised: the
    extraction runs in the world [w0] the first reading of the clock
    leaves, the transformation on the DataFrame objects the extraction
    leaves, and the load after it. *)
Lemma run_etl_pipeline_run path (w : world E) :
  let w0 := set_ext (clock env (ext w)).2 w in
  exists res w',
    run_etl_pipeline lib env path w = (Ok res, w')
    /\ match extract_data lib env path w0 with
       | (Raise e, _) =>
           exists f,
             res = EtlFailed f
             /\ ef_failed_stage f = "extract" /\ ef_stages_completed f = []
             /\ ef_error f = exn_msg e
       | (Ok raw, w1) =>
           match Transform.transform lib raw (frames w1) with
           | (Raise e, _) =>
               exists f,
                 res = EtlFailed f
                 /\ ef_failed_stage f = "transform"
                 /\ ef_stages_completed f = ["extract"]
                 /\ ef_error f = exn_msg e
           | (Ok clean, h) =>
               exists s r w3,
                 res = EtlSucceeded s
                 /\ e_stages_completed s = ["extract"; "transform"; "load"]
                 /\ load_data lib env clean
                      (set_frames h (set_trace (trace w1 ++ [Called "transform"]) w1))
                    = (Ok r, w3)
                 /\ e_rows_loaded s = Store.rows_loaded r
                 /\ e_rows_transformed s = Z.of_nat (nrows (read h clean))
                 /\ (e_rows_loaded s = e_rows_transformed s \/ e_rows_loaded s = 0)
           end
       end.
Proof.
  intros w0. unfold run_etl_pipeline, bind at 1, ask at 1.
  subst w0. destruct (clock env (ext w)) as [pipeline_start x0]. cbn [snd].
  set (w0 := set_ext x0 w).
  unfold with_local, try_except.
  unfold bind at 1, lift at 1. cbn [fst snd].
  destruct (extract_data lib env path w0) as [[raw|e] w1] eqn:Hextract.
  2: { unfold bind, lift, ask, get_local, gets, ret. cbn [fst snd].
       destruct (clock env (ext w1)) as [now x1]. cbn [fst snd].
       eexists _, _. split; [reflexivity|]. eexists. split; [reflexivity|].
       cbn. auto. }
  unfold bind at 1, completed at 1, set_local at 1, modify at 1. cbn [fst snd].
  unfold bind at 1, lift at 1, emit at 1, modify at 1. cbn [fst snd].
  set (w1' := set_trace (trace w1 ++ [Called "transform"]) w1).
  unfold bind at 1, lift at 1, on_frames at 1, zoom at 1. cbn [fst snd].
  change (frames w1) with (frames w1').
  destruct (Transform.transform lib raw (frames w1')) as [[clean|e] h] eqn:Htransform.
  2: { unfold bind, lift, ask, get_local, gets, ret. cbn [fst snd].
       match goal with |- context [clock env ?x] =>
         destruct (clock env x) as [now x1] end.
       cbn [fst snd].
       eexists _, _. split; [reflexivity|]. eexists. split; [reflexivity|].
       cbn. auto. }
  destruct (transform_then_load_returns raw w1' clean h Htransform)
    as (r & w3 & Hload & Hframes & _ & Hrows).
  unfold bind at 1, completed at 1, set_local at 1, modify at 1. cbn [fst snd].
  unfold bind at 1, lift at 1. cbn [fst snd]. rewrite Hload.
  unfold bind, completed, set_local, modify, lift, ask, get_local, gets, ret, len,
    on_frames, zoom, deref.
  cbn [fst snd].
  destruct (clock env (ext w3)) as [now x3]. cbn [fst snd frames set_ext].
  eexists _, _. split; [reflexivity|].
  eexists _, r, w3. split; [reflexivity|].
  cbn [e_file_processed e_stages_completed e_rows_loaded e_rows_transformed app].
  split; [reflexivity|]. split; [reflexivity|].
  split; [reflexivity|]. cbn [fst snd frames set_frames set_ext].
  rewrite Hframes. split; [reflexivity|]. exact Hrows.
Qed.
End WithEnv.
End ConductorFacts.

Module DownFacts.
Import Store.
Section WithEnv.
Context {E : Type} (lib : Lib) (env : Env E).

(** A load that reports success reached the database. *)
Lemma load_data_success df (w w' : world E) r :
  load_data lib env df w = (Ok r, w') -> l_success r = true ->
  exists x x', pg_probe env x = (None, x').
Proof.
  unfold load_data, connect_to_postgres, get_db_config.
  unfold bind, emit, modify, on_frames, zoom, deref, gets, raise, try_except,
    ask, perform, ret.
  cbn [fst snd set_trace set_frames frames ext set_ext trace].
  destruct (negb _); [discriminate|].
  cbn [fst snd set_trace set_frames frames ext set_ext trace].
  destruct (missing_env_vars env (ext w)) as [vars x0].
  destruct (negb (bool_decide (vars = [])));
    cbn [fst snd set_trace set_frames frames ext set_ext trace].
  { intros [= <- <-]. discriminate. }
  destruct (db_port env x0) as [port x0'].
  cbn [fst snd set_trace set_frames frames ext set_ext trace].
  destruct (py_int lib port);
    cbn [fst snd set_trace set_frames frames ext set_ext trace].
  2: { intros [= <- <-]. discriminate. }
  destruct (pg_probe env x0') as [[e|] x1] eqn:Hprobe;
    cbn [fst snd set_trace set_frames frames ext set_ext trace].
  { intros [= <- <-]. discriminate. }
  intros _ _. now exists x0', x1.
Qed.

End WithEnv.
End DownFacts.

(** X19.  [run_etl_pipeline] never raises.  A failure it reports is a
    failure of the extraction or of the transformation, with the stages
    completed before it; the load stage is never reported as failed (and
    the stage is never [unknown]), because [load_data] returns its own
    failures.  A success has completed the three stages, and its
    [rows_loaded] is the number of transformed rows, or zero when the load
    failed. *)
Theorem run_etl_pipeline_outcomes {E : Type} (lib : Lib) (env : Env E)
    (path : string) (w : world E) :
  exists res w',
    Conductor.run_etl_pipeline lib env path w = (Ok res, w')
    /\ match res with
       | Conductor.EtlFailed f =>
           (Conductor.ef_failed_stage f = "extract"
            /\ Conductor.ef_stages_completed f = [])
           \/ (Conductor.ef_failed_stage f = "transform"
               /\ Conductor.ef_stages_completed f = ["extract"])
       | Conductor.EtlSucceeded s =>
           Conductor.e_stages_completed s = ["extract"; "transform"; "load"]
           /\ (Conductor.e_rows_loaded s = Conductor.e_rows_transformed s
               \/ Conductor.e_rows_loaded s = 0)
       end.
Proof.
  destruct (ConductorFacts.run_etl_pipeline_run lib env path w)
    as (res & w' & Hrun & Hres).
  exists res, w'. split; [exact Hrun|].
  destruct (Store.extract_data lib env path _) as [[raw|e] w1].
  - destruct (Transform.transform lib raw (frames w1)) as [[clean|e] h].
    + destruct Hres as (s & r & w3 & -> & Hstages & _ & _ & _ & Hrows). now split.
    + destruct Hres as (f & -> & Hs & Hc & _). right. now split.
  - destruct Hres as (f & -> & Hs & Hc & _). left. now split.
Qed.

(** X20.  With a database that cannot be reached, the outcome of
    [run_etl_pipeline] is decided by the extraction and the
    transformation of this run.  When [extract_data] raises, the run
    reports a failure of the stage extract with the text of that
    exception; when [transform] raises on what was extracted, a failure of
    the stage transform with the text of that one; and when both went
    through it reports a success, with [rows_loaded] zero. *)
Theorem run_etl_pipeline_database_down {E : Type} (lib : Lib) (env : Env E)
    (path : string) (w : world E) :
  (forall x, (pg_probe env x).1 <> None) ->
  exists res w',
    Conductor.run_etl_pipeline lib env path w = (Ok res, w')
    /\ match Store.extract_data lib env path (set_ext (clock env (ext w)).2 w) with
       | (Raise e, _) =>
           exists f,
             res = Conductor.EtlFailed f
             /\ Conductor.ef_failed_stage f = "extract"
             /\ Conductor.ef_error f = exn_msg e
       | (Ok raw, w1) =>
           match Transform.transform lib raw (frames w1) with
           | (Raise e, _) =>
               exists f,
                 res = Conductor.EtlFailed f
                 /\ Conductor.ef_failed_stage f = "transform"
                 /\ Conductor.ef_error f = exn_msg e
           | (Ok clean, _) =>
               exists s,
                 res = Conductor.EtlSucceeded s
                 /\ Conductor.e_rows_loaded s = 0
                 /\ Conductor.e_stages_completed s = ["extract"; "transform"; "load"]
           end
       end.
Proof.
  intros Hdown.
  destruct (ConductorFacts.run_etl_pipeline_run lib env path w)
    as (res & w' & Hrun & Hres).
  exists res, w'. split; [exact Hrun|].
  destruct (Store.extract_data lib env path _) as [[raw|e] w1].
  2: { destruct Hres as (f & -> & Hs & _ & Herr). now exists f. }
  destruct (Transform.transform lib raw (frames w1)) as [[clean|e] h].
  2: { destruct Hres as (f & -> & Hs & _ & Herr). now exists f. }
  destruct Hres as (s & r & w3 & -> & Hstages & Hload & Hr & _ & _).
  exists s. split; [reflexivity|]. split; [|exact Hstages]. rewrite Hr.
  destruct (Store.l_success r) eqn:Hok.
  - destruct (DownFacts.load_data_success lib env _ _ _ _ Hload Hok)
      as (x & x' & Hprobe).
    exfalso. apply (Hdown x). now rewrite Hprobe.
  - match type of Hload with Store.load_data _ _ _ ?w2 = _ =>
      destruct (StoreFacts.load_data_run lib env clean w2) as [Hraise Hret];
      destruct (decide (filter (fun col => ¬ has_column (read (frames w2) clean) col)
                          Transform.required_columns = [])) as [Hnone|Hsome]
    end.
    + destruct (Hret Hnone) as (r' & w3' & Hload' & _ & _ & _ & Hko).
      rewrite Hload in Hload'. inversion Hload'; subst r' w3'.
      now apply Hko.
    + rewrite (Hraise Hsome) in Hload. discriminate.
Qed.

Lemma run_etl_pipeline_database_down_witness :
  exists s w',
    Conductor.run_etl_pipeline Scenario.plain_lib (Scenario.scripted Cases.database_down)
      Scenario.input (Scenario.fresh [Scenario.input])
    = (Ok (Conductor.EtlSucceeded s), w')
    /\ Conductor.e_rows_loaded s = 0.
Proof.
  destruct (run_etl_pipeline_database_down Scenario.plain_lib
              (Scenario.scripted Cases.database_down) Scenario.input
              (Scenario.fresh [Scenario.input]))
    as (res & w' & Hrun & Hres).
  - intros x. cbn. discriminate.
  - vm_compute in Hres. destruct Hres as (s & -> & Hrows & _).
    exists s, w'. split; [exact Hrun | exact Hrows].
Defined.

Module BatchFacts.
Import Counting BatchTerms.

Lemma count_app {A} (p : A -> bool) (l1 l2 : list A) :
  count p (l1 ++ l2) = count p l1 + count p l2.
Proof. unfold count. rewrite filter_app, length_app. lia. Qed.

Lemma count_one {A} (p : A -> bool) (a : A) :
  count p [a] = if p a then 1 else 0.
Proof.
  unfold count. destruct (p a) eqn:Hp.
  - now rewrite filter_cons_True.
  - rewrite filter_cons_False; [reflexivity|]. rewrite Hp. discriminate.
Qed.

Lemma count_negb {A} (p : A -> bool) (l : list A) :
  count p l + count (fun a => negb (p a)) l = Z.of_nat (length l).
Proof.
  induction l as [|a l IH]; [reflexivity|].
  change (a :: l) with ([a] ++ l). rewrite !count_app, !count_one, length_app.
  cbn [length]. destruct (p a); cbn [negb]; lia.
Qed.

Lemma count_none {A} (p : A -> bool) (l : list A) :
  count (fun a => negb (p a)) l = 0 <-> Forall (fun a => p a = true) l.
Proof.
  induction l as [|a l IH].
  - split; [constructor | reflexivity].
  - change (a :: l) with ([a] ++ l). rewrite count_app, count_one.
    assert (0 <= count (fun a => negb (p a)) l) by (unfold count; lia).
    rewrite Forall_app, Forall_singleton. destruct (p a); cbn [negb].
    + rewrite <- IH. split; [intros; split; [reflexivity | lia] | intros [_ ?]; lia].
    + split; [lia | intros [? _]; discriminate].
Qed.

Section Conductor.
Import Conductor.
Context {E : Type} (lib : Lib) (env : Env E).

Lemma conductor_loop files : forall results successful failed (w : world E),
  exists new w',
    etl_batch_loop lib env files results successful failed w
    = (Ok (results ++ new, successful + count succeeded new,
           failed + count (fun r => negb (succeeded r)) new), w')
    /\ length new = length files.
Proof.
  induction files as [|file rest IH]; intros results successful failed w.
  - exists [], w. cbn. rewrite app_nil_r, !Z.add_0_r. now split.
  - cbn [etl_batch_loop].
    destruct (ConductorFacts.run_etl_pipeline_run lib env file w)
      as (res & w1 & Hrun & _).
    rewrite (MonadFacts.bind_Ok _ _ _ _ _ Hrun).
    destruct (succeeded res) eqn:Hres.
    + destruct (IH (results ++ [res]) (successful + 1) failed w1)
        as (new & w' & Hloop & Hlen).
      exists (res :: new), w'. rewrite Hloop. split; [|cbn; now rewrite Hlen].
      change (res :: new) with ([res] ++ new).
      rewrite !count_app, !count_one, Hres, app_assoc. cbn [negb].
      now rewrite !Z.add_assoc, !Z.add_0_r.
    + destruct (IH (results ++ [res]) successful (failed + 1) w1)
        as (new & w' & Hloop & Hlen).
      exists (res :: new), w'. rewrite Hloop. split; [|cbn; now rewrite Hlen].
      change (res :: new) with ([res] ++ new).
      rewrite !count_app, !count_one, Hres, app_assoc. cbn [negb].
      now rewrite !Z.add_assoc, !Z.add_0_r.
Qed.
End Conductor.

Section Production.
Import Pipeline ProductionBatch.
Context {E : Type} (lib : Lib) (env : Env E).

Lemma rows_of_app l1 l2 : rows_of (l1 ++ l2) = rows_of l1 + rows_of l2.
Proof.
  unfold rows_of. rewrite filter_app, map_app, foldr_app.
  induction (map rows_loaded_of (filter _ l1)) as [|a l IH]; cbn; lia.
Qed.

(** The loop over the files: it returns the results of the runs, one per
    file, unless a run raises, which ends the loop. *)
Lemma production_loop files : forall results successful failed rows (w : world E),
  exists r w',
    batch_loop lib env files results successful failed rows w = (r, w')
    /\ match r with
       | Ok out =>
           exists new,
             out = (results ++ new, successful + count success new,
                    failed + count (fun r => negb (success r)) new,
                    rows + rows_of new)
             /\ length new = length files
       | Raise e => exists file, file ∈ files /\ Spec.stat_raises env file e w'
       end.
Proof.
  induction files as [|file rest IH]; intros results successful failed rows w.
  - exists (Ok (results, successful, failed, rows)), w. split; [reflexivity|].
    exists []. cbn. rewrite app_nil_r, !Z.add_0_r. now split.
  - cbn [batch_loop].
    destruct (RunFacts.run_pipeline_cases lib env file false w)
      as (pid & metrics & w0 & _ & _ & Hcases).
    assert (Hrun : exists r w1,
              run_pipeline lib env file false w = (r, w1)
              /\ match r with
                 | Ok _ => True
                 | Raise e => Spec.stat_raises env file e w1
                 end).
    { destruct Hcases as [(e & w1 & r & w2 & _ & _ & _ & Hrun & Hr)
                         |(h & w1 & s0 & w2 & _ & _ & _ & Hrun)].
      - exists r, w2. split; [exact Hrun|]. destruct r; [exact I | exact Hr].
      - eexists _, w2. split; [exact Hrun | exact I]. }
    destruct Hrun as ([res|e] & w1 & Hrun & Hr).
    2: { rewrite (MonadFacts.bind_Raise _ _ _ _ _ Hrun). exists (Raise e), w1.
         split; [reflexivity|]. exists file. split; [left | exact Hr]. }
    rewrite (MonadFacts.bind_Ok _ _ _ _ _ Hrun).
    destruct (success res) eqn:Hres.
    + destruct (IH (results ++ [res]) (successful + 1) failed
                  (rows + rows_loaded_of res) w1)
        as (r & w' & Hloop & Hr').
      exists r, w'. split; [exact Hloop|]. destruct r as [out|e].
      2: { destruct Hr' as (f & Hin & Hstat). exists f. split; [now right | exact Hstat]. }
      destruct Hr' as (new & -> & Hlen).
      exists (res :: new). split; [|cbn; now rewrite Hlen].
      change (res :: new) with ([res] ++ new).
      rewrite !count_app, !count_one, rows_of_app, Hres, app_assoc. cbn [negb].
      replace (rows_of [res]) with (rows_loaded_of res).
      * now rewrite !Z.add_assoc, !Z.add_0_r.
      * unfold rows_of. rewrite filter_cons_True by exact Hres. cbn. lia.
    + destruct (IH (results ++ [res]) successful (failed + 1) rows w1)
        as (r & w' & Hloop & Hr').
      exists r, w'. split; [exact Hloop|]. destruct r as [out|e].
      2: { destruct Hr' as (f & Hin & Hstat). exists f. split; [now right | exact Hstat]. }
      destruct Hr' as (new & -> & Hlen).
      exists (res :: new). split; [|cbn; now rewrite Hlen].
      change (res :: new) with ([res] ++ new).
      rewrite !count_app, !count_one, rows_of_app, Hres, app_assoc. cbn [negb].
      replace (rows_of [res]) with 0.
      * now rewrite !Z.add_assoc, !Z.add_0_r.
      * unfold rows_of. rewrite filter_cons_False; [reflexivity|].
        rewrite Hres. discriminate.
Qed.
End Production.

End BatchFacts.

(** X21.  [run_batch_pipeline] of pipeline.py raises exactly when [glob]
    does (an empty or an absolute pattern), before anything ran.  When no
    file matches it returns the short result and runs nothing.  Otherwise
    it runs the pipeline once per matching file and keeps every result:
    [total_files] is the number of files and of results,
    [successful_files] and [failed_files] count the successful and the
    failed results and add up to [total_files], and the batch is a success
    exactly when every run was one. *)
Theorem run_batch_pipeline_counts {E : Type} (lib : Lib) (env : Env E)
    (glob : string -> string -> gset string -> E -> res (list string))
    (input_directory file_pattern : string) (w : world E) :
  exists r w',
    Conductor.run_batch_pipeline lib env glob input_directory file_pattern w
    = (r, w')
    /\ match glob input_directory file_pattern (fs w) (ext w) with
       | Raise e => r = Raise e /\ w' = w
       | Ok files =>
           exists res,
             r = Ok res
             /\ match res with
                | Conductor.EtlNoFiles msg =>
                    files = [] /\ w' = w
                    /\ msg = "No files found matching " +:+ file_pattern +:+ " in "
                               +:+ input_directory
                | Conductor.EtlBatch b =>
                    files <> []
                    /\ Conductor.eb_total_files b = length files
                    /\ length (Conductor.eb_files_processed b)
                       = Conductor.eb_total_files b
                    /\ Conductor.eb_successful_files b
                       = Counting.count Conductor.succeeded
                           (Conductor.eb_files_processed b)
                    /\ Conductor.eb_failed_files b
                       = Counting.count (fun r => negb (Conductor.succeeded r))
                           (Conductor.eb_files_processed b)
                    /\ Conductor.eb_successful_files b + Conductor.eb_failed_files b
                       = Z.of_nat (Conductor.eb_total_files b)
                    /\ (Conductor.eb_success b = true
                        <-> Forall (fun r => Conductor.succeeded r = true)
                              (Conductor.eb_files_processed b))
                end
       end.
Proof.
  unfold Conductor.run_batch_pipeline.
  unfold bind at 1, gets at 1. unfold bind at 1, of_res at 1.
  destruct (glob input_directory file_pattern (fs w) (ext w)) as [files|e].
  2: { exists (Raise e), w. now split. }
  destruct (bool_decide (files = [])) eqn:Hfiles.
  - apply bool_decide_eq_true in Hfiles. eexists _, _. split; [reflexivity|].
    eexists. split; [reflexivity|]. now repeat split.
  - apply bool_decide_eq_false in Hfiles.
    destruct (BatchFacts.conductor_loop lib env files [] 0 0 w)
      as (new & w' & Hloop & Hlen).
    rewrite !Z.add_0_l in Hloop.
    rewrite (MonadFacts.bind_Ok _ _ _ _ _ Hloop). cbn [app].
    eexists _, _. split; [reflexivity|]. eexists. split; [reflexivity|].
    cbn [Conductor.eb_total_files Conductor.eb_files_processed Conductor.eb_successful_files
           Conductor.eb_failed_files Conductor.eb_success].
    split; [exact Hfiles|]. split; [reflexivity|]. split; [exact Hlen|].
    split; [reflexivity|]. split; [reflexivity|].
    split; [rewrite BatchFacts.count_negb; now rewrite Hlen|].
    rewrite bool_decide_eq_true. apply BatchFacts.count_none.
Qed.

(** X22.  [run_batch_pipeline] of the production pipeline raises when
    [glob] does (an empty or an absolute pattern), before anything ran, or
    when a run of [run_pipeline] on one of the files raises (the
    [OSError] of [exists()] in its quarantine), which ends the batch.
    When no file matches it returns the short result and runs nothing.
    Otherwise it runs the pipeline once per matching file and keeps every
    result: the counts of successful and failed files are those of the
    results and add up to [total_files], [total_rows_processed] is the sum
    of the rows loaded by the successful runs, and the batch is a success
    exactly when every run was one. *)
Theorem production_batch_counts {E : Type} (lib : Lib) (env : Env E)
    (glob : string -> string -> gset string -> E -> res (list string))
    (batch_alerts_enabled : bool) (input_directory file_pattern : string)
    (w : world E) :
  exists r w',
    ProductionBatch.run_batch_pipeline lib env glob batch_alerts_enabled
      input_directory file_pattern w = (r, w')
    /\ match glob input_directory file_pattern (fs w) (ext w) with
       | Raise e => r = Raise e /\ w' = w
       | Ok files =>
           match r with
           | Raise e =>
               exists file, file ∈ files /\ Spec.stat_raises env file e w'
           | Ok (ProductionBatch.NoFiles msg) =>
               files = [] /\ w' = w
               /\ msg = "No files found matching " +:+ file_pattern +:+ " in "
                          +:+ input_directory
           | Ok (ProductionBatch.Batch b) =>
               files <> []
               /\ ProductionBatch.total_files b = length files
               /\ length (ProductionBatch.detailed_results b)
                  = ProductionBatch.total_files b
               /\ ProductionBatch.successful_files b
                  = Counting.count Pipeline.success (ProductionBatch.detailed_results b)
               /\ ProductionBatch.failed_files b
                  = Counting.count (fun r => negb (Pipeline.success r))
                      (ProductionBatch.detailed_results b)
               /\ ProductionBatch.successful_files b + ProductionBatch.failed_files b
                  = Z.of_nat (ProductionBatch.total_files b)
               /\ ProductionBatch.total_rows_processed b
                  = BatchTerms.rows_of (ProductionBatch.detailed_results b)
               /\ (ProductionBatch.b_success b = true
                   <-> Forall (fun r => Pipeline.success r = true)
                         (ProductionBatch.detailed_results b))
           end
       end.
Proof.
  unfold ProductionBatch.run_batch_pipeline.
  unfold bind at 1, gets at 1. unfold bind at 1, of_res at 1.
  destruct (glob input_directory file_pattern (fs w) (ext w)) as [files|e].
  2: { exists (Raise e), w. now split. }
  destruct (bool_decide (files = [])) eqn:Hfiles.
  - apply bool_decide_eq_true in Hfiles. eexists _, _. split; [reflexivity|].
    now repeat split.
  - apply bool_decide_eq_false in Hfiles.
    destruct (BatchFacts.production_loop lib env files [] 0 0 0 w)
      as (r & w1 & Hloop & Hr).
    destruct r as [out|e].
    2: { rewrite (MonadFacts.bind_Raise _ _ _ _ _ Hloop).
         exists (Raise e), w1. split; [reflexivity | exact Hr]. }
    destruct Hr as (new & -> & Hlen).
    rewrite !Z.add_0_l in Hloop.
    rewrite (MonadFacts.bind_Ok _ _ _ _ _ Hloop). cbn [app].
    match goal with |- context [bind ?m _ w1] =>
      assert (Halert : exists w', m w1 = (Ok tt, w')) end.
    { destruct (_ && _).
      - destruct (TotalFacts.returns_send_alert lib env "BATCH_COMPLETION"
                    ("Batch pipeline completed: "
                       +:+ pretty (Counting.count Pipeline.success new) +:+ "/"
                       +:+ pretty (length files) +:+ " successful") None w1)
          as ([] & w' & Hsend).
        now exists w'.
      - now exists w1. }
    destruct Halert as [w' Halert].
    rewrite (MonadFacts.bind_Ok _ _ _ _ _ Halert).
    eexists _, _. split; [reflexivity|].
    cbn [ProductionBatch.total_files ProductionBatch.detailed_results
           ProductionBatch.successful_files ProductionBatch.failed_files
           ProductionBatch.b_success ProductionBatch.total_rows_processed].
    split; [exact Hfiles|]. split; [reflexivity|]. split; [exact Hlen|].
    split; [reflexivity|]. split; [reflexivity|].
    split; [rewrite BatchFacts.count_negb; now rewrite Hlen|].
    split; [reflexivity|].
    rewrite bool_decide_eq_true. apply BatchFacts.count_none.
Qed.

(** ** What the parts of a run keep of a gentle relation *)

Module GentleFacts.
Import Spec Terms2 Stages MonadFacts Retry ErrorHandler Monitoring Store Evolution
  Pipeline.

Create HintDb gentle discriminated.

Section Leaves.
Context {E : Type} (allowed : event -> Prop) (R : world E -> world E -> Prop).
Context (HG : gentle allowed R).

#[local] Instance gentle_reflexive : Reflexive R := gentle_refl _ _ HG.
#[local] Instance gentle_transitive : Transitive R := gentle_trans _ _ HG.

Lemma kept_emit ev : allowed ev -> keeps R (emit ev).
Proof. intros Hev w. cbn. now apply (gentle_emit _ _ HG). Qed.

Lemma kept_slept q : allowed (Slept q) -> keeps R (modify (slept q)).
Proof. intros Hev w. cbn. now apply (gentle_emit _ _ HG). Qed.

Lemma kept_ask {A} (f : E -> A * E) : keeps R (ask f).
Proof. intros w. unfold ask. destruct (f (ext w)). apply (gentle_ext _ _ HG). Qed.

Lemma kept_call {A} (f : E -> res A * E) : keeps R (call f).
Proof. intros w. unfold call. destruct (f (ext w)). apply (gentle_ext _ _ HG). Qed.

Lemma kept_perform (f : E -> option exn * E) : keeps R (perform f).
Proof. intros w. unfold perform. destruct (f (ext w)). apply (gentle_ext _ _ HG). Qed.

Lemma kept_on_frames {A} (m : M (list frame) A) : keeps R (on_frames m).
Proof. apply keeps_zoom. apply (gentle_frames _ _ HG). Qed.

Lemma kept_time_sleep q : allowed (Slept q) -> keeps R (time_sleep q).
Proof.
  intros Hev. unfold time_sleep. destruct (sleep_error q).
  - apply keeps_raise. apply _.
  - now apply kept_slept.
Qed.

Lemma kept_exists_path (env : Env E) p : keeps R (exists_path env p).
Proof.
  intros w. unfold exists_path. destruct (stat_error env p (ext w)); reflexivity.
Qed.

Lemma kept_create_path p : keeps R (create_path p).
Proof. intros w. cbn. apply (gentle_create _ _ HG). Qed.

Lemma kept_set_reg x : keeps R (modify (set_reg x)).
Proof. intros w. cbn. apply (gentle_reg _ _ HG). Qed.

End Leaves.

#[export] Hint Resolve keeps_ret keeps_raise keeps_gets keeps_of_res
  kept_ask kept_call kept_perform kept_on_frames kept_exists_path kept_create_path
  kept_set_reg : gentle.

(** An event is allowed: it is an effect, or the entry into a function
    other than the load, the archive and the quarantine. *)
Ltac gentle_event :=
  match goal with
  | H : forall ev, effect ev -> ?a ev |- ?a _ => apply H; exact I
  | H : forall f, f <> _ -> f <> _ -> f <> _ -> ?a (Called f) |- ?a (Called _) =>
      apply H; discriminate
  end.

Ltac gentle_go :=
  repeat first
    [ progress intros
    | solve [eauto 3 with gentle typeclass_instances]
    | eapply kept_emit; [eassumption | gentle_event]
    | eapply kept_slept; [eassumption | gentle_event]
    | eapply kept_time_sleep; [eassumption | gentle_event]
    | apply keeps_bind; [typeclasses eauto | | ]
    | apply keeps_try_except; [typeclasses eauto | | ]
    | match goal with
      | |- keeps _ (if ?b then _ else _) => destruct b
      | |- keeps _ (match ?x with _ => _ end) => destruct x
      end ].

Section Components.
Context {E : Type} (lib : Lib) (env : Env E).
Context (allowed : event -> Prop) (R : world E -> world E -> Prop).
Context (HG : gentle allowed R).
Context (Heffects : forall ev, effect ev -> allowed ev).
Context (Hcalled : forall f, f <> "load_data" -> f <> "archive_successful_file" ->
                             f <> "quarantine_file" -> allowed (Called f)).

#[local] Instance gentle_reflexive' : Reflexive R := gentle_refl _ _ HG.
#[local] Instance gentle_transitive' : Transitive R := gentle_trans _ _ HG.

Lemma kept_extract_data path : keeps R (extract_data lib env path).
Proof. unfold extract_data. gentle_go. Qed.
#[local] Hint Resolve kept_extract_data : gentle.

Lemma kept_validate_file path : keeps R (validate_file env path).
Proof. unfold validate_file. gentle_go. Qed.
#[local] Hint Resolve kept_validate_file : gentle.

Lemma kept_save_metrics m : keeps R (save_metrics lib env m).
Proof. unfold save_metrics. gentle_go. Qed.
#[local] Hint Resolve kept_save_metrics : gentle.

Lemma kept_write_alert_file : keeps R (write_alert_file lib env).
Proof. unfold write_alert_file. gentle_go. Qed.
#[local] Hint Resolve kept_write_alert_file : gentle.

Lemma kept_send_alert ty msg m : keeps R (send_alert lib env ty msg m).
Proof. unfold send_alert. gentle_go. Qed.
#[local] Hint Resolve kept_send_alert : gentle.

Lemma kept_send_alerts alerts m : keeps R (send_alerts lib env alerts m).
Proof. induction alerts; cbn [send_alerts]; gentle_go. Qed.
#[local] Hint Resolve kept_send_alerts : gentle.

Lemma kept_connect_to_postgres : keeps R (connect_to_postgres lib env).
Proof. unfold connect_to_postgres. gentle_go. Qed.
#[local] Hint Resolve kept_connect_to_postgres : gentle.

Lemma kept_execute stmt : keeps R (execute env stmt).
Proof. unfold execute. gentle_go. Qed.
#[local] Hint Resolve kept_execute : gentle.

Lemma kept_ensure_users_table_exists : keeps R (ensure_users_table_exists env).
Proof. unfold ensure_users_table_exists. gentle_go. Qed.
#[local] Hint Resolve kept_ensure_users_table_exists : gentle.

Lemma kept_ensure_migration_table : keeps R (ensure_migration_table env).
Proof. unfold ensure_migration_table. gentle_go. Qed.
#[local] Hint Resolve kept_ensure_migration_table : gentle.

Lemma kept_apply_changes table changes rollback :
  keeps R (apply_changes env table changes rollback).
Proof.
  revert rollback. induction changes as [|change rest IH]; intros rollback;
    cbn [apply_changes]; gentle_go.
Qed.
#[local] Hint Resolve kept_apply_changes : gentle.

Lemma kept_apply_schema_changes changes table :
  keeps R (apply_schema_changes lib env changes table).
Proof. unfold apply_schema_changes. gentle_go. Qed.
#[local] Hint Resolve kept_apply_schema_changes : gentle.

Lemma kept_handle_issue df issue : keeps R (handle_issue lib env df issue).
Proof. unfold handle_issue, assign. gentle_go. Qed.
#[local] Hint Resolve kept_handle_issue : gentle.

Lemma kept_handle_compatibility_issues df issues :
  keeps R (handle_compatibility_issues lib env df issues).
Proof. induction issues; cbn [handle_compatibility_issues]; gentle_go. Qed.
#[local] Hint Resolve kept_handle_compatibility_issues : gentle.

Lemma kept_fix_compatibility df c rep : keeps R (fix_compatibility lib env df c rep).
Proof. unfold fix_compatibility. gentle_go. Qed.
#[local] Hint Resolve kept_fix_compatibility : gentle.

Lemma kept_migrate engine c rep : keeps R (migrate lib env engine c rep).
Proof. unfold migrate. gentle_go. Qed.
#[local] Hint Resolve kept_migrate : gentle.

Lemma kept_save_registry : keeps R (save_registry env).
Proof. unfold save_registry. gentle_go. Qed.
#[local] Hint Resolve kept_save_registry : gentle.

Lemma kept_registry_add_version ns d : keeps R (registry_add_version lib env ns d).
Proof. unfold registry_add_version. gentle_go. Qed.
#[local] Hint Resolve kept_registry_add_version : gentle.

Lemma kept_update_registry ds c rep : keeps R (update_registry lib env ds c rep).
Proof. unfold update_registry. gentle_go. Qed.
#[local] Hint Resolve kept_update_registry : gentle.

Lemma kept_reconcile df engine ds c : keeps R (reconcile lib env df engine ds c).
Proof. unfold reconcile. gentle_go. Qed.
#[local] Hint Resolve kept_reconcile : gentle.

Lemma kept_process_data df engine :
  keeps R (process_data_with_schema_evolution lib env df engine).
Proof. unfold process_data_with_schema_evolution. gentle_go. Qed.
#[local] Hint Resolve kept_process_data : gentle.

Lemma kept_run_preflight_checks path : keeps R (run_preflight_checks env path).
Proof. unfold run_preflight_checks. gentle_go. Qed.
#[local] Hint Resolve kept_run_preflight_checks : gentle.

Lemma kept_stage_preflight path : keeps R (stage_preflight lib env path).
Proof. unfold stage_preflight. gentle_go. Qed.

Lemma kept_extract_with_validation path :
  keeps R (extract_with_validation lib env path).
Proof. unfold extract_with_validation. gentle_go. Qed.
#[local] Hint Resolve kept_extract_with_validation : gentle.

Lemma kept_len r : keeps R (len r).
Proof. unfold len. gentle_go. Qed.
#[local] Hint Resolve kept_len : gentle.

Lemma kept_not_none {A} what (x : option A) : keeps R (not_none what x).
Proof. unfold not_none. gentle_go. Qed.
#[local] Hint Resolve kept_not_none : gentle.

Lemma kept_retry_loop {A} h (func : M (world E) A) todo attempt :
  keeps R func -> keeps R (retry_loop h func todo attempt).
Proof.
  intros Hfunc. revert attempt. induction todo as [|todo IH]; intros attempt;
    cbn [retry_loop]; gentle_go.
Qed.

Lemma kept_retry_with_backoff {A} h (func : M (world E) A) :
  keeps R func -> keeps R (retry_with_backoff h func).
Proof. intros. unfold retry_with_backoff. now apply kept_retry_loop. Qed.
#[local] Hint Resolve kept_retry_with_backoff : gentle.

Lemma kept_stage_extract pid path :
  keeps R (update_stage pid "extract" 0) ->
  keeps R (stage_extract lib env pid path).
Proof. intros Hstage. unfold stage_extract. gentle_go. Qed.

Lemma kept_stage_transform pid skip raw :
  (forall rows, keeps R (update_stage pid "transform" rows)) ->
  keeps R (stage_transform lib env pid skip raw).
Proof. intros Hstage. unfold stage_transform. gentle_go. Qed.

Section Load.
Context (Hload : allowed (Called "load_data")).

Lemma kept_load_data df : keeps R (load_data lib env df).
Proof.
  unfold load_data. gentle_go.
  all: apply (kept_emit _ _ HG); exact Hload.
Qed.

Lemma kept_stage_load pid clean :
  (forall rows, keeps R (update_stage pid "load" rows)) ->
  keeps R (stage_load lib env pid clean).
Proof.
  intros Hstage. unfold stage_load.
  apply keeps_bind; [exact _ | apply kept_len | intros n].
  apply keeps_bind; [exact _ | apply Hstage | intros ?].
  apply keeps_bind; [exact _ | apply kept_retry_with_backoff, kept_load_data |].
  intros loaded. apply kept_not_none.
Qed.
End Load.

(** The first stages, given what the updates of the stage keep. *)
Lemma kept_stages pid path skip :
  allowed (Called "load_data") ->
  (forall stage rows, keeps R (update_stage pid stage rows)) ->
  keeps R (first_stages lib env pid path skip).
Proof.
  intros Hload Hstage. unfold first_stages.
  apply keeps_bind; [exact _ | apply kept_stage_preflight | intros pre].
  apply keeps_bind; [exact _ | | intros raw].
  { apply kept_stage_extract, Hstage. }
  apply keeps_bind; [exact _ | | intros [clean rep]].
  { apply kept_stage_transform. intros rows. apply Hstage. }
  apply keeps_bind; [exact _ | | intros lr; apply keeps_ret; exact _].
  apply kept_stage_load; [exact Hload|]. intros rows. apply Hstage.
Qed.

Section Metrics.
Context (Hmetrics : forall w x, R w (set_current_metrics x w)).

Lemma kept_update_stage pid stage rows : keeps R (update_stage pid stage rows).
Proof.
  intros w. unfold update_stage, modify. cbn [snd].
  destruct (current_metrics w !! pid); [apply Hmetrics | reflexivity].
Qed.

Lemma kept_finish_pipeline_tracking pid status msg :
  keeps R (finish_pipeline_tracking lib env pid status msg).
Proof.
  unfold finish_pipeline_tracking. gentle_go.
  all: apply keeps_modify; intros w; apply Hmetrics.
Qed.

Lemma kept_quarantine_file path info :
  (forall ev, quarantines ev -> allowed ev) ->
  keeps R (quarantine_file lib env path info).
Proof.
  intros Hquarantines. unfold quarantine_file. gentle_go.
  all: apply (kept_emit _ _ HG); apply Hquarantines; cbn; auto.
Qed.

Lemma kept_handle_failure pid path e :
  (forall ev, quarantines ev -> allowed ev) ->
  keeps R (handle_failure lib env pid path e).
Proof.
  intros Hquarantines. unfold handle_failure.
  apply keeps_bind; [exact _ | apply kept_finish_pipeline_tracking | intros final].
  apply keeps_bind; [exact _ | apply kept_send_alert | intros ?].
  destruct final as [final|]; [|apply keeps_raise; exact _].
  apply keeps_bind; [exact _ | now apply kept_quarantine_file | intros q].
  apply keeps_ret. exact _.
Qed.

Lemma kept_start_pipeline_tracking pid path :
  keeps R (start_pipeline_tracking env pid path).
Proof.
  unfold start_pipeline_tracking. gentle_go.
  all: apply keeps_modify; intros w; apply Hmetrics.
Qed.

Lemma kept_first_stages pid path skip :
  allowed (Called "load_data") ->
  keeps R (first_stages lib env pid path skip).
Proof.
  intros Hload. apply kept_stages; [exact Hload|].
  intros stage rows. apply kept_update_stage.
Qed.

(** The post-processing, given what the archive keeps. *)
Lemma kept_stage_post_processing pid path metrics pre raw clean rep lr :
  (forall info, keeps R (archive_successful_file lib env path info)) ->
  (forall w x, R w (set_consecutive_failures x w)) ->
  keeps R (stage_post_processing lib env pid path metrics pre raw clean rep lr).
Proof.
  intros Harchive Hcounter. unfold stage_post_processing, post_processing.
  apply keeps_bind; [exact _ | apply kept_len | intros n].
  apply keeps_bind; [exact _ | apply (kept_ask _ _ HG) | intros now].
  apply keeps_bind; [exact _ | | intros post].
  { apply keeps_try_except; [exact _ | | intros e; apply keeps_ret; exact _].
    apply keeps_bind; [exact _ | apply Harchive | intros a; apply keeps_ret; exact _]. }
  apply keeps_bind; [exact _ | apply kept_finish_pipeline_tracking | intros final].
  destruct final as [final|]; [|apply keeps_raise; exact _].
  apply keeps_bind; [exact _ | | intros alerts].
  { unfold check_pipeline_health. gentle_go.
    all: apply keeps_modify; intros w; apply Hcounter. }
  apply keeps_bind; [exact _ | apply kept_send_alerts | intros ?].
  apply keeps_bind; [exact _ | apply kept_len | intros n'].
  apply keeps_ret. exact _.
Qed.
End Metrics.
End Components.

Section Files.
Context {E : Type} (lib : Lib) (env : Env E).

Lemma files_kept_gentle : gentle (fun _ => True) (@files_kept E).
Proof.
  split; unfold files_kept.
  - intros w. reflexivity.
  - intros w1 w2 w3 H1 H2. etransitivity; eassumption.
  - intros w x. reflexivity.
  - intros w p. cbn. apply union_subseteq_r.
  - intros w ev _. reflexivity.
  - intros w x. reflexivity.
  - intros w x. reflexivity.
Qed.

Lemma files_kept_but_gentle path : gentle (fun _ => True) (@files_kept_but E path).
Proof.
  split; unfold files_kept_but.
  - intros w x Hx. now apply elem_of_difference in Hx as [Hx _].
  - intros w1 w2 w3 H1 H2 x Hx. apply H2.
    apply elem_of_difference in Hx as Hx'. destruct Hx' as [_ Hne].
    apply elem_of_difference. split; [now apply H1 | exact Hne].
  - intros w x p Hp. now apply elem_of_difference in Hp as [Hp _].
  - intros w p x Hx. cbn. apply elem_of_union. right.
    now apply elem_of_difference in Hx as [Hx _].
  - intros w ev _ x Hx. now apply elem_of_difference in Hx as [Hx _].
  - intros w x p Hp. now apply elem_of_difference in Hp as [Hp _].
  - intros w x p Hp. now apply elem_of_difference in Hp as [Hp _].
Qed.

Lemma files_kept_weaken path (w w' : world E) :
  files_kept w w' -> files_kept_but path w w'.
Proof.
  intros H x Hx. apply H. now apply elem_of_difference in Hx as [Hx _].
Qed.

(** The archive removes the file it is given, and no other. *)
Lemma archive_files_kept_but path info :
  keeps (@files_kept_but E path) (archive_successful_file lib env path info).
Proof.
  pose proof (files_kept_but_gentle path) as HG.
  assert (Reflexive (@files_kept_but E path)) by apply (gentle_refl _ _ HG).
  assert (Transitive (@files_kept_but E path)) by apply (gentle_trans _ _ HG).
  unfold archive_successful_file.
  apply keeps_bind; [exact _ | now apply (kept_emit _ _ HG) | intros ?].
  apply keeps_bind; [exact _ | apply (kept_exists_path _ _ HG) | intros present].
  destruct (negb present); [apply keeps_ret; exact _|].
  apply keeps_bind; [exact _ | apply (kept_ask _ _ HG) | intros now].
  apply keeps_try_except; [exact _ | | intros e; apply keeps_ret; exact _].
  apply keeps_bind; [exact _ | apply (kept_perform _ _ HG) | intros ?].
  apply keeps_bind; [exact _ | | intros ?].
  { intros w x Hx. cbn. exact Hx. }
  apply keeps_bind; [exact _ | apply (kept_create_path _ _ HG) | intros ?].
  apply keeps_bind; [exact _ | now apply (kept_emit _ _ HG) | intros ?].
  apply keeps_bind; [exact _ | apply (kept_ask _ _ HG) | intros processed_at].
  apply keeps_bind; [exact _ | apply (kept_perform _ _ HG) | intros ?].
  apply keeps_bind; [exact _ | apply (kept_create_path _ _ HG) | intros ?].
  apply keeps_bind; [exact _ | now apply (kept_emit _ _ HG) | intros ?].
  apply keeps_ret. exact _.
Qed.

End Files.
End GentleFacts.

(** X23.  A run of [run_pipeline] removes no file but its input file, and
    a run that reports a failure removes none: every path that existed
    before the run exists after it, the input file among them (the
    quarantine is a copy).  The same holds of the run that ends in the
    [OSError] of [exists()] in the quarantine, the one way the run has of
    raising. *)
Theorem run_pipeline_keeps_files {E : Type} (lib : Lib) (env : Env E)
    (path : string) (skip : bool) (w : world E) :
  exists r w',
    Pipeline.run_pipeline lib env path skip w = (r, w')
    /\ fs w ∖ {[path]} ⊆ fs w'
    /\ match r with
       | Ok res => Pipeline.success res = false -> fs w ⊆ fs w'
       | Raise e => Spec.stat_raises env path e w' /\ fs w ⊆ fs w'
       end.
Proof.
  destruct (RunFacts.run_pipeline_cases lib env path skip w)
    as (pid & metrics & w0 & Hstart & _ & Hcases).
  pose proof (@GentleFacts.files_kept_gentle E) as HG.
  pose proof (@GentleFacts.files_kept_but_gentle E path) as HB.
  assert (Hany : forall ev : event, True) by (intros; exact I).
  assert (H0 : Terms2.files_kept w w0).
  { assert (H : Spec.keeps Terms2.files_kept
                  (Monitoring.start_pipeline_tracking env pid path)).
    { apply (GentleFacts.kept_start_pipeline_tracking env _ _ HG); auto.
      intros w1 x. unfold Terms2.files_kept. reflexivity. }
    match type of Hstart with _ ?w1 = _ => specialize (H w1) end.
    rewrite Hstart in H. exact H. }
  assert (Hfirst : Spec.keeps Terms2.files_kept
                     (Stages.first_stages lib env pid path skip)).
  { apply (GentleFacts.kept_first_stages lib env _ _ HG); auto.
    intros w1 x. unfold Terms2.files_kept. reflexivity. }
  destruct Hcases as [(e & w1 & f & w2 & Hrun & _ & Hhandle & Hres & Hf)
                     |(h & w1 & s & w2 & Hrun & _ & Hpost & Hres)].
  - specialize (Hfirst w0). rewrite Hrun in Hfirst. cbn [snd] in Hfirst.
    assert (H2 : Terms2.files_kept w1 w2).
    { assert (H : Spec.keeps Terms2.files_kept
                    (Pipeline.handle_failure lib env pid path e)).
      { apply (GentleFacts.kept_handle_failure lib env _ _ HG); auto.
        intros w3 x. unfold Terms2.files_kept. reflexivity. }
      specialize (H w1). rewrite Hhandle in H. exact H. }
    assert (Hall : Terms2.files_kept w w2).
    { unfold Terms2.files_kept in *. etransitivity; [exact H0|].
      etransitivity; eassumption. }
    exists f, w2. split; [exact Hres|]. split.
    + now apply GentleFacts.files_kept_weaken.
    + destruct f as [res|e']; [intros _; exact Hall | split; [exact Hf | exact Hall]].
  - specialize (Hfirst w0). rewrite Hrun in Hfirst. cbn [snd] in Hfirst.
    assert (H2 : Terms2.files_kept_but path w1 w2).
    { assert (H : Spec.keeps (Terms2.files_kept_but path)
                    (Pipeline.stage_post_processing lib env pid path metrics
                       (Stages.h_preflight h) (Stages.h_raw_data h)
                       (Stages.h_clean_data h) (Stages.h_evolution_report h)
                       (Stages.h_load_result h))).
      { apply (GentleFacts.kept_stage_post_processing lib env _ _ HB); auto.
        - intros w3 x p Hp. now apply elem_of_difference in Hp as [Hp _].
        - intros info. apply GentleFacts.archive_files_kept_but.
        - intros w3 x p Hp. now apply elem_of_difference in Hp as [Hp _]. }
      specialize (H w1). rewrite Hpost in H. exact H. }
    exists (Ok (Pipeline.Succeeded s)), w2. split; [exact Hres|].
    split; [|discriminate].
    apply (Terms2.gentle_trans _ _ HB w w1 w2); [|exact H2].
    apply GentleFacts.files_kept_weaken.
    unfold Terms2.files_kept in *. etransitivity; eassumption.
Qed.

Module ReportFacts.
Import Spec MonadFacts TotalFacts Evolution.

Section WithEnv.
Context {E : Type} (lib : Lib) (env : Env E).

Lemma fix_compatibility_head df c rep (w : world E) df' rep' w' :
  fix_compatibility lib env df c rep w = (Ok (df', rep'), w') ->
  schema_changed rep' = schema_changed rep
  /\ r_compatibility_issues rep' = r_compatibility_issues rep.
Proof.
  unfold fix_compatibility. destruct (negb (is_compatible c)); intros H.
  - apply bind_Ok_inv in H as (a & w1 & _ & H). inversion H. now split.
  - inversion H. now split.
Qed.

Lemma migrate_head engine c rep (w : world E) rep' w' :
  migrate lib env engine c rep w = (Ok rep', w') ->
  schema_changed rep' = schema_changed rep
  /\ r_compatibility_issues rep' = r_compatibility_issues rep.
Proof.
  unfold migrate. destruct (_ && _); intros H.
  - apply bind_Ok_inv in H as ([|] & w1 & _ & H); inversion H; now split.
  - inversion H. now split.
Qed.

Lemma update_registry_head ds c rep (w : world E) rep' w' :
  update_registry lib env ds c rep w = (Ok rep', w') ->
  schema_changed rep' = schema_changed rep
  /\ r_compatibility_issues rep' = r_compatibility_issues rep.
Proof.
  unfold update_registry. destruct (negb _); intros H.
  - apply bind_Ok_inv in H as (v & w1 & _ & H). inversion H. now split.
  - inversion H. now split.
Qed.

(** The report of [reconcile] says that the schema changed and carries
    the issues of the comparison, whatever happened on the way. *)
Lemma reconcile_head df engine detected c (w : world E) :
  exists rep w',
    reconcile lib env df engine detected c w = (Ok (df, rep), w')
    /\ schema_changed rep = true
    /\ r_compatibility_issues rep = compatibility_issues c.
Proof.
  destruct (reconcile_spec lib env df engine detected c w) as (rep & w' & Hrun & _).
  exists rep, w'. split; [exact Hrun|].
  unfold reconcile, try_except in Hrun.
  match type of Hrun with context [fix_compatibility lib env df c ?r0] =>
    set (report1 := r0) in * end.
  unfold bind at 1 in Hrun.
  destruct (fix_compatibility lib env df c report1 w) as [[[df' report2]|e] w1] eqn:Hfix.
  2: { inversion Hrun. now split. }
  destruct (fix_compatibility_head _ _ _ _ _ _ _ Hfix) as [Hs2 Hi2].
  cbn [schema_changed r_compatibility_issues] in Hs2, Hi2.
  unfold bind at 1 in Hrun.
  destruct (migrate lib env engine c report2 w1) as [[report3|e] w2] eqn:Hmig.
  2: { inversion Hrun. cbn. now split. }
  destruct (migrate_head _ _ _ _ _ _ Hmig) as [Hs3 Hi3].
  unfold bind at 1 in Hrun.
  destruct (update_registry lib env detected c report3 w2) as [[report4|e] w3] eqn:Hupd.
  2: { inversion Hrun. cbn. now split. }
  destruct (update_registry_head _ _ _ _ _ _ Hupd) as [Hs4 Hi4].
  subst report1.
  cbn [schema_changed r_compatibility_issues] in *.
  inversion Hrun; subst. split; congruence.
Qed.

End WithEnv.
End ReportFacts.

(** X24.  On the default registry every dataset with a [sign_up_date]
    column is reported as a schema change: the registry holds the type
    [date], which the detector never reports.  Whenever the schema of the
    frame can be detected, [process_data_with_schema_evolution] returns
    the same DataFrame with a report whose [schema_changed] is true and
    which carries the [type_mismatch] issue of [sign_up_date]. *)
Theorem default_registry_reports_schema_change {E : Type} (lib : Lib) (env : Env E)
    (df : nat) (engine : option unit) (w : world E) (created_at : string)
    (cols : gmap string Schema.col_info) :
  reg w = Schema.default_registry created_at ->
  "sign_up_date" ∈ labels (read (frames w) df) ->
  Schema.detect_columns lib (columns (read (frames w) df)) = Ok cols ->
  exists rep w',
    Evolution.process_data_with_schema_evolution lib env df engine w
    = (Ok (df, rep), w')
    /\ Evolution.schema_changed rep = true
    /\ exists ty,
         ty <> "date"
         /\ Schema.Issue "type_mismatch" "sign_up_date" "medium"
              (Some (Some "date", Some ty))
            ∈ Evolution.r_compatibility_issues rep.
Proof.
  intros Hreg Hin Hcols.
  unfold Evolution.process_data_with_schema_evolution.
  rewrite (MonadFacts.bind_Ok _ _ _ _ _ (TotalFacts.emit_run _ _)).
  unfold try_except.
  rewrite (MonadFacts.bind_Ok _ _ _ _ _ (TotalFacts.deref_run _ _)).
  rewrite (MonadFacts.bind_Ok _ _ _ _ _ (TotalFacts.ask_run _ _)).
  cbn [frames set_trace ext].
  set (fr := read (frames w) df) in *.
  match goal with |- context [detect_schema_from_dataframe lib ?t fr] =>
    set (detected_at := t) end.
  assert (Hs : detect_schema_from_dataframe lib detected_at fr
               = Ok (MkSchema (Some cols) (Some "users") None
                       (Some (Z.of_nat (nrows fr))) (Some detected_at))).
  { unfold detect_schema_from_dataframe. now rewrite Hcols. }
  rewrite Hs. rewrite (MonadFacts.bind_Ok _ _ _ _ _ (TotalFacts.of_res_run _ _)).
  rewrite (MonadFacts.bind_Ok _ _ _ _ _ (TotalFacts.gets_run _ _)).
  cbn [reg set_ext set_trace]. rewrite Hreg.
  destruct (MismatchFacts.sign_up_date_mismatch lib detected_at created_at fr _ Hin Hs)
    as (ty & Hne & Hissue).
  destruct (DefaultFacts.issue_is_incompatible _ _ _ Hissue) as [_ Hmig].
  rewrite Hmig.
  match goal with |- context [Evolution.reconcile lib env df engine ?s ?c ?w0] =>
    destruct (ReportFacts.reconcile_head lib env df engine s c w0)
      as (rep & w' & Hrun & Hchanged & Hissues)
  end.
  rewrite Hrun. exists rep, w'. split; [reflexivity|]. split; [exact Hchanged|].
  exists ty. split; [exact Hne|]. rewrite Hissues. exact Hissue.
Qed.

Lemma default_registry_reports_schema_change_witness :
  exists rep w',
    Evolution.process_data_with_schema_evolution Scenario.plain_lib
      (Scenario.scripted Scenario.all_well) 0%nat None (Scenario.holding Scenario.users)
    = (Ok (0%nat, rep), w')
    /\ Evolution.schema_changed rep = true.
Proof.
  destruct (default_registry_reports_schema_change Scenario.plain_lib
              (Scenario.scripted Scenario.all_well) 0%nat None
              (Scenario.holding Scenario.users) "0"
              (default ∅ (s_columns (Scenario.detected Scenario.users))))
    as (rep & w' & Hrun & Hchanged & _).
  - reflexivity.
  - apply list_elem_of_In. cbn. tauto.
  - vm_compute. reflexivity.
  - exists rep, w'. split; [exact Hrun | exact Hchanged].
Defined.

(** ** The load stage of a run *)

Module LoadFacts.
Import Spec Terms2 Stages MonadFacts TotalFacts PipelineFacts GentleFacts
  Retry ErrorHandler Monitoring Store Evolution Pipeline.

Section WithEnv.
Context {E : Type} (lib : Lib) (env : Env E).

Lemma extends_trace_gentle P : gentle P (@extends_trace E P).
Proof.
  split.
  - intros w. apply extends_trace_refl.
  - intros w1 w2 w3. apply extends_trace_trans.
  - intros w x. now apply extends_trace_same.
  - intros w p. now apply extends_trace_same.
  - intros w ev Hev. exists [ev]. split; [reflexivity | now constructor].
  - intros w x. now apply extends_trace_same.
  - intros w x. now apply extends_trace_same.
Qed.

Lemma before_load_gentle pid P : gentle P (@before_load E pid P).
Proof.
  pose proof (extends_trace_gentle P) as HX.
  split.
  - intros w. split; [auto | apply extends_trace_refl].
  - intros w1 w2 w3 [T1 X1] [T2 X2]. split; [auto|].
    eapply extends_trace_trans; eassumption.
  - intros w x. split; [auto | now apply extends_trace_same].
  - intros w p. split; [auto | now apply extends_trace_same].
  - intros w ev Hev. split; [auto|]. now apply (gentle_emit _ _ HX).
  - intros w x. split; [auto | now apply extends_trace_same].
  - intros w x. split; [auto | now apply extends_trace_same].
Qed.

Lemma before_load_update_stage pid P stage rows :
  stage ∈ ["extract"; "transform"] ->
  keeps (@before_load E pid P) (update_stage pid stage rows).
Proof.
  intros Hstage w. unfold update_stage, modify. cbn [snd].
  destruct (current_metrics w !! pid) as [m|] eqn:Hm.
  - split; [|now apply extends_trace_same].
    intros _. eexists. cbn. rewrite lookup_insert_eq. split; [reflexivity | exact Hstage].
  - split; [auto | apply extends_trace_refl].
Qed.

Lemma effect_not_load ev : effect ev -> not_load ev.
Proof. destruct ev; cbn; try contradiction; intros _; discriminate. Qed.

Lemma called_not_load f :
  f <> "load_data" -> f <> "archive_successful_file" -> f <> "quarantine_file" ->
  not_load (Called f).
Proof. intros H _ _ [= Heq]. now apply H. Qed.

Lemma calls_not_load tr : Forall not_load tr -> calls "load_data" tr = 0%nat.
Proof.
  unfold calls. induction 1 as [|ev tr Hev _ IH]; [reflexivity|].
  rewrite filter_cons_False; [exact IH | exact Hev].
Qed.

(** [load_data] is entered once per call. *)
Lemma load_data_trace df (w : world E) :
  exists tr,
    trace (load_data lib env df w).2 = trace w ++ Called "load_data" :: tr
    /\ Forall not_load tr.
Proof.
  pose proof (extends_trace_gentle not_load) as HX.
  assert (Reflexive (@extends_trace E not_load)) by apply (gentle_refl _ _ HX).
  assert (Transitive (@extends_trace E not_load)) by apply (gentle_trans _ _ HX).
  unfold load_data. unfold bind at 1, emit at 1, modify at 1.
  set (w0 := set_trace (trace w ++ [Called "load_data"]) w).
  match goal with |- context [(?m w0).2] =>
    assert (Hrest : keeps (@extends_trace E not_load) m) end.
  { apply keeps_bind; [exact _ | apply (kept_on_frames _ _ HX) | intros fr].
    destruct (negb _); [apply keeps_raise; exact _|].
    apply keeps_try_except; [exact _ | | intros e; apply keeps_ret; exact _].
    apply keeps_bind; [exact _ | | intros ?].
    { apply (kept_connect_to_postgres lib env _ _ HX);
        auto using effect_not_load, called_not_load. }
    apply keeps_bind; [exact _ | | intros ?].
    { apply (kept_ensure_users_table_exists env _ _ HX);
        auto using effect_not_load, called_not_load. }
    apply keeps_bind; [exact _ | apply (kept_perform _ _ HX) | intros ?].
    apply keeps_ret. exact _. }
  destruct (Hrest w0) as (tr & Htr & Hall).
  exists tr. split; [|exact Hall].
  rewrite Htr. cbn. now rewrite <- app_assoc.
Qed.

(** The load stage on a frame that has the four columns: it returns after
    one call of [load_data], without a retry. *)
Lemma stage_load_run pid clean (w : world E) :
  labels (read (frames w) clean) = Transform.required_columns ->
  exists lr w' tr,
    stage_load lib env pid clean w = (Ok lr, w')
    /\ trace w' = trace w ++ tr
    /\ calls "load_data" tr = 1%nat
    /\ frames w' = frames w
    /\ (rows_loaded lr = Z.of_nat (nrows (read (frames w) clean))
        \/ rows_loaded lr = 0)
    /\ (l_success lr = false -> rows_loaded lr = 0)
    /\ exists w0, load_data lib env clean w0 = (Ok lr, w').
Proof.
  intros Hlabels. unfold stage_load.
  rewrite (bind_Ok _ _ _ _ _ (len_run _ _)).
  unfold bind at 1, update_stage at 1, modify at 1.
  match goal with |- context [bind _ _ ?w1] => set (w0 := w1) end.
  assert (Hw0 : frames w0 = frames w /\ trace w0 = trace w).
  { subst w0. destruct (current_metrics w !! pid); now split. }
  destruct Hw0 as [Hfr0 Htr0].
  destruct (StoreFacts.load_data_run lib env clean w0) as [_ Hret].
  destruct Hret as (lr & w1 & Hload & Hfr1 & _ & Hok & Hko).
  { rewrite Hfr0. unfold has_column. rewrite Hlabels. reflexivity. }
  assert (Hretry : retry_with_backoff production_handler (load_data lib env clean) w0
                   = (Ok (Some lr), w1)).
  { unfold retry_with_backoff.
    change (Z.to_nat (max_retries production_handler + 1)) with 4%nat.
    cbn [retry_loop]. unfold try_except, bind. now rewrite Hload. }
  rewrite (bind_Ok _ _ _ _ _ Hretry). cbn [not_none].
  destruct (load_data_trace clean w0) as (tr & Htr & Hall).
  rewrite Hload in Htr. cbn [snd] in Htr.
  exists lr, w1, (Called "load_data" :: tr).
  split; [reflexivity|]. split; [now rewrite Htr, Htr0|].
  split; [|split].
  - unfold calls. rewrite filter_cons_True by reflexivity. cbn [length]. f_equal.
    now apply calls_not_load.
  - now rewrite Hfr1.
  - split; [|split].
    + rewrite <- Hfr0.
      destruct (l_success lr); [left; now apply Hok | right; now apply Hko].
    + intros Hfalse. now apply Hko.
    + now exists w0.
Qed.

(** The frame the transform stage hands on has the four columns. *)
Lemma stage_transform_labels pid skip raw (w : world E) clean rep w' :
  stage_transform lib env pid skip raw w = (Ok (clean, rep), w') ->
  labels (read (frames w') clean) = Transform.required_columns.
Proof.
  unfold stage_transform. intros H.
  apply bind_Ok_inv in H as (n & w1 & _ & H).
  apply bind_Ok_inv in H as ([] & w2 & _ & H).
  apply bind_Ok_inv in H as (engine & w3 & _ & H).
  apply bind_Ok_inv in H as ([td rep'] & w4 & _ & H).
  apply bind_Ok_inv in H as ([] & w5 & _ & H).
  apply bind_Ok_inv in H as (clean' & w6 & Htr & H).
  inversion H; subst. clear H.
  unfold on_frames, zoom in Htr.
  destruct (Transform.transform lib td (frames w5)) as [r h] eqn:Ht.
  inversion Htr; subst. cbn [frames set_frames].
  now apply (ConductorFacts.transform_result_labels lib td (frames w5)).
Qed.

Lemma start_tracking_early pid path (w : world E) metrics w0 :
  start_pipeline_tracking env pid path w = (Ok metrics, w0) ->
  early pid w0 /\ trace w0 = trace w.
Proof.
  unfold start_pipeline_tracking. intros H.
  rewrite (bind_Ok _ _ _ _ _ (ask_run _ _)) in H.
  unfold bind, modify, ret in H. cbn [fst snd] in H.
  inversion H as [[Hm Hw0]]. split; [|reflexivity].
  eexists. cbn. rewrite lookup_insert_eq. split; [reflexivity|].
  cbn. left.
Qed.

(** The stage a failure reports is the one the metrics hold. *)
Lemma handle_failure_stage pid path e (w : world E) m f w' :
  current_metrics w !! pid = Some m ->
  handle_failure lib env pid path e w = (Ok (Failed f), w') ->
  failed_stage f = stage m.
Proof.
  intros Hm Hhandle. unfold handle_failure in Hhandle.
  destruct (MetricsFacts.finish_run lib env pid "failed" (exn_msg e) m w Hm)
    as (t1 & w1 & Hfin & _ & _).
  rewrite (bind_Ok _ _ _ _ _ Hfin) in Hhandle.
  apply bind_Ok_inv in Hhandle as ([] & w2 & _ & Hhandle).
  apply bind_Ok_inv in Hhandle as (q & w3 & _ & Hhandle).
  now inversion Hhandle.
Qed.

(** The row counts of a successful result. *)
Lemma stage_post_processing_fields pid path metrics pre raw clean rep lr
    (w : world E) s w' :
  stage_post_processing lib env pid path metrics pre raw clean rep lr w
    = (Ok (Succeeded s), w') ->
  s_rows_loaded s = rows_loaded lr
  /\ rows_transformed s = Z.of_nat (nrows (read (frames w) clean)).
Proof.
  unfold stage_post_processing. intros H.
  rewrite (bind_Ok _ _ _ _ _ (len_run _ _)) in H.
  apply bind_Ok_inv in H as (now & w1 & _ & H).
  apply bind_Ok_inv in H as (post & w2 & _ & H).
  apply bind_Ok_inv in H as (final & w3 & _ & H).
  destruct final as [final|]; [|discriminate].
  apply bind_Ok_inv in H as (alerts & w4 & _ & H).
  apply bind_Ok_inv in H as ([] & w5 & _ & H).
  apply bind_Ok_inv in H as (n_raw & w6 & _ & H).
  inversion H. now split.
Qed.

End WithEnv.
End LoadFacts.

(** X25.  The load stage of [run_pipeline] never fails and is never
    retried: the frame [transform] returns has the four columns, and
    [load_data] returns every other failure as a result.  So a run that
    reports a failure failed before the load: its [failed_stage] is
    [extract] or [transform] and [load_data] was not called.  A run that
    reports a success called [load_data] exactly once, and its
    [rows_loaded] is the number of transformed rows, or zero when the load
    failed.  The run that ends in the [OSError] of [exists()] in the
    quarantine, the one way the run has of raising, did not call
    [load_data] either. *)
Theorem run_pipeline_load_stage {E : Type} (lib : Lib) (env : Env E)
    (path : string) (skip : bool) (w : world E) :
  exists r w' tr,
    Pipeline.run_pipeline lib env path skip w = (r, w')
    /\ trace w' = trace w ++ tr
    /\ match r with
       | Ok (Pipeline.Failed f) =>
           Pipeline.failed_stage f ∈ ["extract"; "transform"]
           /\ Spec.calls "load_data" tr = 0%nat
       | Ok (Pipeline.Succeeded s) =>
           Spec.calls "load_data" tr = 1%nat
           /\ (Pipeline.s_rows_loaded s = Pipeline.rows_transformed s
               \/ Pipeline.s_rows_loaded s = 0)
       | Raise e =>
           Spec.stat_raises env path e w' /\ Spec.calls "load_data" tr = 0%nat
       end.
Proof.
  destruct (RunFacts.run_pipeline_cases lib env path skip w)
    as (pid & metrics & w0 & Hstart & _ & Hcases).
  destruct (LoadFacts.start_tracking_early env _ _ _ _ _ Hstart) as [Hearly0 Htrace0].
  cbn [trace set_ext] in Htrace0.
  pose proof (LoadFacts.before_load_gentle (E:=E) pid Terms2.not_load) as HG.
  pose proof (LoadFacts.extends_trace_gentle (E:=E) Terms2.not_load) as HX.
  assert (Hpre : Spec.keeps (Terms2.before_load pid Terms2.not_load)
                   (Pipeline.stage_preflight lib env path)).
  { apply (GentleFacts.kept_stage_preflight lib env _ _ HG);
      auto using LoadFacts.effect_not_load, LoadFacts.called_not_load. }
  assert (Hext : Spec.keeps (Terms2.before_load pid Terms2.not_load)
                   (Pipeline.stage_extract lib env pid path)).
  { apply (GentleFacts.kept_stage_extract lib env _ _ HG);
      auto using LoadFacts.effect_not_load, LoadFacts.called_not_load.
    apply LoadFacts.before_load_update_stage. left. }
  assert (Htra : forall raw, Spec.keeps (Terms2.before_load pid Terms2.not_load)
                   (Pipeline.stage_transform lib env pid skip raw)).
  { intros raw. apply (GentleFacts.kept_stage_transform lib env _ _ HG);
      auto using LoadFacts.effect_not_load, LoadFacts.called_not_load.
    intros rows. apply LoadFacts.before_load_update_stage. right. left. }
  destruct Hcases as [(e & w1 & f & w2 & Hrun & _ & Hhandle & Hres & Hf)
                     |(h & w1 & s & w2 & Hrun & _ & Hpost & Hres)].
  - (* the stages raised: before the load *)
    assert (Hbefore : Terms2.before_load pid Terms2.not_load w0 w1).
    { unfold Stages.first_stages in Hrun.
      specialize (Hpre w0).
      apply MonadFacts.bind_Raise_inv in Hrun as [Hrun | (pre & wa & Ha & Hrun)];
        [now rewrite Hrun in Hpre|].
      rewrite Ha in Hpre. cbn [snd] in Hpre.
      specialize (Hext wa).
      apply MonadFacts.bind_Raise_inv in Hrun as [Hrun | (raw & wb & Hb & Hrun)];
        [rewrite Hrun in Hext;
         exact (Terms2.gentle_trans _ _ HG _ _ _ Hpre Hext)|].
      rewrite Hb in Hext. cbn [snd] in Hext.
      specialize (Htra raw wb).
      apply MonadFacts.bind_Raise_inv in Hrun as [Hrun | ([clean rep] & wc & Hc & Hrun)];
        [rewrite Hrun in Htra;
         exact (Terms2.gentle_trans _ _ HG _ _ _ Hpre
                  (Terms2.gentle_trans _ _ HG _ _ _ Hext Htra))|].
      exfalso.
      destruct (LoadFacts.stage_load_run lib env pid clean wc
                  (LoadFacts.stage_transform_labels lib env _ _ _ _ _ _ _ Hc))
        as (lr & wd & tr & Hload & _).
      apply MonadFacts.bind_Raise_inv in Hrun as [Hrun | (lr' & wd' & Hd & Hrun)].
      - rewrite Hload in Hrun. discriminate.
      - discriminate. }
    destruct Hbefore as [Hearly (tr1 & Htr1 & Hall1)].
    destruct (Hearly Hearly0) as (m & Hm & Hstage).
    assert (Hfail : Spec.keeps (Spec.extends_trace Terms2.not_load)
                      (Pipeline.handle_failure lib env pid path e)).
    { apply (GentleFacts.kept_handle_failure lib env _ _ HX);
        auto using LoadFacts.effect_not_load, LoadFacts.called_not_load.
      - intros w3 x. now apply PipelineFacts.extends_trace_same.
      - intros ev Hev. destruct ev; cbn in Hev; try contradiction;
          intros [= Heq]; subst; discriminate. }
    specialize (Hfail w1). rewrite Hhandle in Hfail.
    destruct Hfail as (tr2 & Htr2 & Hall2). cbn [snd] in Htr2.
    exists f, w2, (tr1 ++ tr2). split; [exact Hres|].
    split; [now rewrite Htr2, Htr1, Htrace0, app_assoc|].
    assert (Hcalls : Spec.calls "load_data" (tr1 ++ tr2) = 0%nat)
      by (apply LoadFacts.calls_not_load; now apply Forall_app).
    destruct f as [res|e']; [|split; [exact Hf | exact Hcalls]].
    destruct Hf as (f & ->). split; [|exact Hcalls].
    rewrite (LoadFacts.handle_failure_stage lib env _ _ _ _ _ _ _ Hm Hhandle).
    exact Hstage.
  - (* the stages returned *)
    unfold Stages.first_stages in Hrun.
    apply MonadFacts.bind_Ok_inv in Hrun as (pre & wa & Ha & Hrun).
    apply MonadFacts.bind_Ok_inv in Hrun as (raw & wb & Hb & Hrun).
    apply MonadFacts.bind_Ok_inv in Hrun as ([clean rep] & wc & Hc & Hrun).
    apply MonadFacts.bind_Ok_inv in Hrun as (lr & wd & Hd & Hrun).
    inversion Hrun; subst h wd. clear Hrun.
    cbn [Stages.h_preflight Stages.h_raw_data Stages.h_clean_data
           Stages.h_evolution_report Stages.h_load_result] in Hpost.
    specialize (Hpre w0). rewrite Ha in Hpre. cbn [snd] in Hpre.
    specialize (Hext wa). rewrite Hb in Hext. cbn [snd] in Hext.
    specialize (Htra raw wb). rewrite Hc in Htra. cbn [snd] in Htra.
    destruct (Terms2.gentle_trans _ _ HG _ _ _ Hpre (Terms2.gentle_trans _ _ HG _ _ _ Hext Htra))
      as [_ (tr1 & Htr1 & Hall1)].
    destruct (LoadFacts.stage_load_run lib env pid clean wc
                (LoadFacts.stage_transform_labels lib env _ _ _ _ _ _ _ Hc))
      as (lr' & wd & trl & Hload & Htrl & Hcalls & Hframes & Hrows & _).
    rewrite Hload in Hd. inversion Hd; subst lr' wd. clear Hd.
    assert (Hlast : Spec.keeps (Spec.extends_trace Terms2.not_load)
                      (Pipeline.stage_post_processing lib env pid path metrics
                         pre raw clean rep lr)).
    { apply (GentleFacts.kept_stage_post_processing lib env _ _ HX);
        auto using LoadFacts.effect_not_load, LoadFacts.called_not_load.
      - intros w3 x. now apply PipelineFacts.extends_trace_same.
      - intros info.
        apply (PipelineFacts.keeps_archive lib env _ _
                 (PipelineFacts.extends_trace_stable Terms2.not_load)).
        + apply LoadFacts.effect_not_load.
        + intros ev Hev. destruct ev; cbn in Hev; try contradiction;
            intros [= Heq]; subst; discriminate.
      - intros w3 x. now apply PipelineFacts.extends_trace_same. }
    specialize (Hlast w1). rewrite Hpost in Hlast.
    destruct Hlast as (tr2 & Htr2 & Hall2). cbn [snd] in Htr2.
    destruct (LoadFacts.stage_post_processing_fields lib env _ _ _ _ _ _ _ _ _ _ _ Hpost)
      as [Hloaded Htransformed].
    exists (Ok (Pipeline.Succeeded s)), w2, (tr1 ++ trl ++ tr2).
    split; [exact Hres|].
    split; [now rewrite Htr2, Htrl, Htr1, Htrace0, <- !app_assoc|]. split.
    + rewrite !PipelineFacts.calls_app, Hcalls.
      rewrite (LoadFacts.calls_not_load _ Hall1), (LoadFacts.calls_not_load _ Hall2).
      reflexivity.
    + rewrite Hloaded, Htransformed, Hframes. exact Hrows.
Qed.

Module DatabaseFacts.
Import Spec Terms2 Stages MonadFacts TotalFacts PipelineFacts
  Retry ErrorHandler Monitoring Store Evolution Pipeline.
Section WithEnv.
Context {E : Type} (lib : Lib) (env : Env E).

(** A connection that was made reached the database. *)
Lemma connect_reached (w w' : world E) u :
  connect_to_postgres lib env w = (Ok u, w') ->
  exists x x', pg_probe env x = (None, x').
Proof.
  unfold connect_to_postgres, get_db_config, bind, emit, modify, ask, try_except,
    perform, raise, ret.
  cbn [fst snd set_trace ext].
  destruct (missing_env_vars env (ext w)) as [vars x0].
  destruct (negb (bool_decide (vars = []))); [discriminate|].
  cbn [ext set_ext].
  destruct (db_port env x0) as [port x1].
  destruct (py_int lib port); [|discriminate].
  cbn [ext set_ext].
  destruct (pg_probe env x1) as [[e|] x2] eqn:Hprobe; [discriminate|].
  intros _. now exists x1, x2.
Qed.

(** The transform stage with schema evolution connects to the database. *)
Lemma stage_transform_connected pid raw (w : world E) r w' :
  stage_transform lib env pid false raw w = (Ok r, w') ->
  exists x x', pg_probe env x = (None, x').
Proof.
  unfold stage_transform. intros H.
  apply bind_Ok_inv in H as (n & w1 & _ & H).
  apply bind_Ok_inv in H as ([] & w2 & _ & H).
  apply bind_Ok_inv in H as (engine & w3 & Hengine & _).
  cbn [negb] in Hengine.
  apply bind_Ok_inv in Hengine as (u & w4 & Hconnect & _).
  now apply connect_reached in Hconnect.
Qed.

(** The stages of a run that returned: the transform stage and the load
    stage behind it. *)
Lemma first_stages_returned pid path skip (w0 : world E) h w1 :
  first_stages lib env pid path skip w0 = (Ok h, w1) ->
  exists wb wc,
    stage_transform lib env pid skip (h_raw_data h) wb
      = (Ok (h_clean_data h, h_evolution_report h), wc)
    /\ stage_load lib env pid (h_clean_data h) wc = (Ok (h_load_result h), w1).
Proof.
  unfold first_stages. intros Hrun.
  apply bind_Ok_inv in Hrun as (pre & wa & Ha & Hrun).
  apply bind_Ok_inv in Hrun as (raw & wb & Hb & Hrun).
  apply bind_Ok_inv in Hrun as ([clean rep] & wc & Hc & Hrun).
  apply bind_Ok_inv in Hrun as (lr & wd & Hd & Hrun).
  inversion Hrun; subst. now exists wb, wc.
Qed.

End WithEnv.
End DatabaseFacts.

(** X26.  With a database that cannot be reached, a run of [run_pipeline]
    with schema evolution always reports a failure: the connection for the
    schema evolution is made in the transform stage, outside any retry.  A
    run that skips the schema evolution can still report a success; its
    [rows_loaded] is then zero.  The run returns its result whenever
    [exists()] answers on the input path; otherwise it can end in the
    [OSError] of [exists()] in the quarantine, and in no success. *)
Theorem run_pipeline_database_down {E : Type} (lib : Lib) (env : Env E)
    (path : string) (skip : bool) (w : world E) :
  (forall x, (pg_probe env x).1 <> None) ->
  exists r w',
    Pipeline.run_pipeline lib env path skip w = (r, w')
    /\ match r with
       | Ok res =>
           (skip = false -> Pipeline.success res = false)
           /\ (forall s, res = Pipeline.Succeeded s -> Pipeline.s_rows_loaded s = 0)
       | Raise e => Spec.stat_raises env path e w'
       end
    /\ (Spec.stat_answers env path -> exists res, r = Ok res).
Proof.
  intros Hdown.
  destruct (RunFacts.run_pipeline_cases lib env path skip w)
    as (pid & metrics & w0 & _ & _ & Hcases).
  destruct Hcases as [(e & w1 & f & w2 & _ & _ & _ & Hres & Hf)
                     |(h & w1 & s & w2 & Hrun & _ & Hpost & Hres)].
  - exists f, w2. split; [exact Hres|]. destruct f as [res|e'].
    + destruct Hf as (f & ->). split; [|intros _; now eexists].
      split; [reflexivity | discriminate].
    + split; [exact Hf|]. intros Ha.
      now destruct (PipelineFacts.stat_answers_raises env path e' w2 Ha).
  - destruct (DatabaseFacts.first_stages_returned lib env _ _ _ _ _ _ Hrun)
      as (wb & wc & Htransform & Hload).
    exists (Ok (Pipeline.Succeeded s)), w2. split; [exact Hres|].
    split; [|intros _; now eexists]. split.
    + intros ->. exfalso.
      destruct (DatabaseFacts.stage_transform_connected lib env _ _ _ _ _ Htransform)
        as (x & x' & Hprobe).
      apply (Hdown x). now rewrite Hprobe.
    + intros s' [= <-].
      destruct (LoadFacts.stage_post_processing_fields lib env _ _ _ _ _ _ _ _ _ _ _ Hpost)
        as [-> _].
      destruct (LoadFacts.stage_load_run lib env pid (Stages.h_clean_data h) wc
                  (LoadFacts.stage_transform_labels lib env _ _ _ _ _ _ _ Htransform))
        as (lr & wd & trl & Hload' & _ & _ & _ & _ & Hzero & w3 & Hcall).
      rewrite Hload in Hload'. inversion Hload'; subst lr wd. clear Hload'.
      destruct (Store.l_success (Stages.h_load_result h)) eqn:Hok;
        [|now apply Hzero].
      destruct (DownFacts.load_data_success lib env _ _ _ _ Hcall Hok)
        as (x & x' & Hprobe).
      exfalso. apply (Hdown x). now rewrite Hprobe.
Qed.

Lemma run_pipeline_database_down_witness :
  exists f w',
    Pipeline.run_pipeline Scenario.plain_lib (Scenario.scripted Cases.database_down)
      Scenario.input false (Scenario.fresh [Scenario.input])
    = (Ok (Pipeline.Failed f), w').
Proof.
  destruct (run_pipeline_database_down Scenario.plain_lib
              (Scenario.scripted Cases.database_down) Scenario.input false
              (Scenario.fresh [Scenario.input]))
    as (r & w' & Hrun & Hr & Hreturns).
  - intros x. cbn. discriminate.
  - destruct Hreturns as [res ->]; [intros x; reflexivity|].
    destruct Hr as [Hfailed _]. destruct res as [s|f].
    + specialize (Hfailed eq_refl). cbn in Hfailed. clear Hrun. discriminate Hfailed.
    + exists f, w'. exact Hrun.
Defined.

Module TrackingFacts.
Import Spec Terms2 Stages MonadFacts WorldFacts TotalFacts PipelineFacts GentleFacts
  Retry ErrorHandler Monitoring Store Evolution Pipeline.

Section WithEnv.
Context {E : Type} (lib : Lib) (env : Env E).

Lemma same_metrics_but_gentle pid : gentle (fun _ => True) (@same_metrics_but E pid).
Proof.
  split; unfold same_metrics_but.
  - intros w. reflexivity.
  - intros w1 w2 w3 H1 H2. now rewrite H2.
  - intros w x. reflexivity.
  - intros w p. reflexivity.
  - intros w ev _. reflexivity.
  - intros w x. reflexivity.
  - intros w x. reflexivity.
Qed.

Lemma same_metrics_but_update_stage pid stage rows :
  keeps (@same_metrics_but E pid) (update_stage pid stage rows).
Proof.
  intros w. unfold update_stage, modify, same_metrics_but. cbn [snd].
  destruct (current_metrics w !! pid); [|reflexivity].
  cbn. now rewrite delete_insert_eq.
Qed.

(** What follows the end of the tracking leaves the collector alone. *)
Lemma same_metrics_keeps_send_alert ty msg m :
  keeps (@same_metrics E) (send_alert lib env ty msg m).
Proof.
  apply (keeps_send_alert lib env _ _ MetricsFacts.same_metrics_stable); auto.
Qed.

Lemma same_metrics_run {A} (m : M (world E) A) (w : world E) r w' :
  keeps (@same_metrics E) m -> m w = (r, w') ->
  current_metrics w' = current_metrics w.
Proof. intros Hm Hrun. specialize (Hm w). now rewrite Hrun in Hm. Qed.

Lemma same_metrics_keeps_check_pipeline_health m :
  keeps (@same_metrics E) (check_pipeline_health lib m).
Proof.
  intros w. unfold check_pipeline_health, same_metrics.
  destruct (decide (status m = "failed")); reflexivity.
Qed.

(** The [except] block ends the tracking of the run. *)
Lemma handle_failure_untracks pid path e (w : world E) r w' :
  tracked pid w ->
  handle_failure lib env pid path e w = (r, w') ->
  current_metrics w' = delete pid (current_metrics w)
  /\ forall f, r = Ok (Failed f) -> f_pipeline_id f = pid.
Proof.
  intros (m & Hm & _) Hhandle. unfold handle_failure in Hhandle.
  destruct (MetricsFacts.finish_run lib env pid "failed" (exn_msg e) m w Hm)
    as (t1 & w1 & Hfin & _ & Hcm).
  rewrite (bind_Ok _ _ _ _ _ Hfin) in Hhandle.
  match type of Hhandle with bind (send_alert _ _ ?ty ?msg ?fm) _ _ = _ =>
    destruct (returns_send_alert lib env ty msg fm w1) as ([] & w2 & Hsend) end.
  rewrite (bind_Ok _ _ _ _ _ Hsend) in Hhandle.
  apply (same_metrics_run _ _ _ _ (same_metrics_keeps_send_alert _ _ _)) in Hsend.
  match type of Hhandle with bind ?m _ _ = _ =>
    destruct (m w2) as [q w3] eqn:Hq end.
  unfold bind in Hhandle. rewrite Hq in Hhandle.
  apply same_metrics_run in Hq.
  2: { apply (RunFacts.keeps_quarantine_file lib env _ _ MetricsFacts.same_metrics_stable);
         auto. }
  destruct q as [q|e2]; inversion Hhandle; subst.
  - split; [congruence|]. now intros f [= <-].
  - split; [congruence | discriminate].
Qed.

(** The post-processing ends the tracking of the run. *)
Lemma stage_post_processing_untracks pid path metrics pre raw clean rep lr
    (w : world E) s w' :
  tracked pid w ->
  stage_post_processing lib env pid path metrics pre raw clean rep lr w
    = (Ok (Succeeded s), w') ->
  current_metrics w' = delete pid (current_metrics w) /\ s_pipeline_id s = pid.
Proof.
  intros (m & Hm & _) H. unfold stage_post_processing in H.
  rewrite (bind_Ok _ _ _ _ _ (len_run _ _)) in H.
  rewrite (bind_Ok _ _ _ _ _ (ask_run _ _)) in H.
  apply bind_Ok_inv in H as (post & w2 & Hpost & H).
  apply same_metrics_run in Hpost as H2.
  2: { apply (keeps_post_processing lib env _ _ MetricsFacts.same_metrics_stable); auto. }
  cbn [current_metrics set_ext] in H2.
  assert (Hm2 : current_metrics w2 !! pid = Some m) by now rewrite H2.
  destruct (MetricsFacts.finish_run lib env pid "success" "" m w2 Hm2)
    as (t1 & w3 & Hfin & _ & Hcm).
  rewrite (bind_Ok _ _ _ _ _ Hfin) in H.
  apply bind_Ok_inv in H as (alerts & w4 & Hcheck & H).
  apply bind_Ok_inv in H as ([] & w5 & Hsend & H).
  rewrite (bind_Ok _ _ _ _ _ (len_run _ _)) in H.
  inversion H; subst. split; [|reflexivity].
  apply (same_metrics_run _ _ _ _ (same_metrics_keeps_check_pipeline_health _)) in Hcheck.
  apply same_metrics_run in Hsend.
  2: { apply (keeps_send_alerts lib env _ _ MetricsFacts.same_metrics_stable); auto. }
  congruence.
Qed.

End WithEnv.
End TrackingFacts.

(** X27.  A run of [run_pipeline] leaves no entry in the metrics
    collector: when it returns, its own pipeline id is not tracked any
    more, and every other entry is as it was.  The same holds of the run
    that ends in the [OSError] of [exists()] in the quarantine, the one
    way the run has of raising: the tracking of the run was ended before
    the quarantine. *)
Theorem run_pipeline_untracks {E : Type} (lib : Lib) (env : Env E)
    (path : string) (skip : bool) (w : world E) :
  exists r w',
    Pipeline.run_pipeline lib env path skip w = (r, w')
    /\ match r with
       | Ok res =>
           current_metrics w'
           = delete (match res with
                     | Pipeline.Succeeded s => Pipeline.s_pipeline_id s
                     | Pipeline.Failed f => Pipeline.f_pipeline_id f
                     end) (current_metrics w)
       | Raise e =>
           Spec.stat_raises env path e w'
           /\ exists pid, current_metrics w' = delete pid (current_metrics w)
       end.
Proof.
  destruct (RunFacts.run_pipeline_cases lib env path skip w)
    as (pid & metrics & w0 & Hstart & _ & Hcases).
  pose proof (TrackingFacts.same_metrics_but_gentle (E:=E) pid) as HG.
  assert (H0 : delete pid (current_metrics w0) = delete pid (current_metrics w)).
  { unfold Monitoring.start_pipeline_tracking in Hstart.
    rewrite (MonadFacts.bind_Ok _ _ _ _ _ (TotalFacts.ask_run _ _)) in Hstart.
    unfold bind, modify, ret in Hstart. cbn [fst snd] in Hstart.
    inversion Hstart. cbn. now rewrite delete_insert_eq. }
  assert (Hfirst : Spec.keeps (Terms2.same_metrics_but pid)
                     (Stages.first_stages lib env pid path skip)).
  { apply (GentleFacts.kept_stages lib env _ _ HG); auto.
    intros stage rows. apply TrackingFacts.same_metrics_but_update_stage. }
  specialize (Hfirst w0). unfold Terms2.same_metrics_but in Hfirst.
  destruct Hcases as [(e & w1 & f & w2 & Hrun & T1 & Hhandle & Hres & Hf)
                     |(h & w1 & s & w2 & Hrun & T1 & Hpost & Hres)].
  - rewrite Hrun in Hfirst. cbn [snd] in Hfirst.
    destruct (TrackingFacts.handle_failure_untracks lib env _ _ _ _ _ _ T1 Hhandle)
      as [Hcm Hid].
    exists f, w2. split; [exact Hres|]. destruct f as [res|e'].
    + destruct Hf as (f & ->). rewrite (Hid f eq_refl), Hcm. congruence.
    + split; [exact Hf|]. exists pid. rewrite Hcm. congruence.
  - rewrite Hrun in Hfirst. cbn [snd] in Hfirst.
    destruct (TrackingFacts.stage_post_processing_untracks lib env _ _ _ _ _ _ _ _ _ _ _
                T1 Hpost) as [Hcm Hid].
    exists (Ok (Pipeline.Succeeded s)), w2. split; [exact Hres|].
    rewrite Hid, Hcm. congruence.
Qed.

